(* ===== verification/_CoqProject ===== *)
-Q . S2P
Prelude.v
GoStd.v
GoTime.v
Sha256.v
Kube.v
Api.v
Fixtures.v
Labels.v
Metrics.v
ConfigMap.v
Registry.v
Deployment.v
Service.v
Prog.v
Machinery.v
ApiServer.v
MonitorController.v
Protocol.v
MonitorSpec.v
LibraryController.v
Execution.v
Convergence.v
Heap.v
DeepCopy.v
Manager.v
System.v
Termination.v
