(* ===== verification/Prelude.v ===== *)
(** * Verification of pgpilot-operator

    pgpilot-operator is a Kubernetes operator: for every [PgpilotMonitor] it
    runs one pgwatch collector against a PostgreSQL database.  This development
    models its Go code, as it is written, and proves what it relies on.

    ** The program and its model

    - [api/v1] (types of the custom resources): [Api].  Records with all
      fields of spec and status; the validation markers become [admitted], the
      default markers [defaulted].
    - [internal/builder] (pure functions from a monitor to the objects it
      needs): [Labels] (labels.go), [Metrics] (metrics_merge.go), [ConfigMap]
      (configmap.go, pgwatch_builtin.go), [Registry] (the names and presets of
      pgwatchdata/metrics.yaml), [Deployment] (deployment.go),
      [Service] (service.go, servicemonitor.go, discovery.go).
    - [internal/controller] (the two reconcilers): [MonitorController]
      (pgpilotmonitor_controller.go), [LibraryController]
      (pgpilotmetriclibrary_controller.go).  A reconciler is a program over
      API calls ([Prog]); its functions are composed as in the source.
    - [cmd/main.go], the [SetupWithManager] functions and the registration of
      the types (groupversion_info.go, the [init] functions): [Manager].  The
      command line as package flag reads it, the options of the servers and of
      the manager, the calls of the start-up with their exit statuses, the
      objects each controller watches.
    - [api/v1/zz_generated.deepcopy.go]: [DeepCopy], over Go's memory as [Heap]
      models it: variables with pointers into their parts, backing arrays
      shared by slices, map objects.

    [Reconcile] fetches the monitor, settles its finalizer, validates the
    credentials, resolves the libraries, merges the metrics, builds and applies
    ConfigMap, Deployment, Service and ServiceMonitor in this order, observes
    the Deployment and writes the status.  [Reconcile], [reconcile_live],
    [apply_config], [apply_workload] and [observe_status] are the successive
    suffixes of that one Go function, so that each has lemmas of its own.

    ** Foundations

    - [Prelude]: errors, results, panics, strings and lists.
    - [GoStd], [GoTime], [Sha256]: what the source uses of Go's standard
      library, executable: strconv, sort, maps, [Duration.Seconds] through
      float64 (checked against the IEEE definitions), SHA-256 (checked against
      the FIPS vectors).  Go leaves the order of [range] over a map open: the
      functions that range take the order as an argument ([MapOrder]).
    - [Kube]: the Kubernetes objects, restricted to the fields used.
    - [Fixtures]: concrete objects for the witnesses.
    - [Prog]: calls, programs, traces; [runs] (all behaviours, for arbitrary
      answers of the world), [interp] (execution), weakest preconditions,
      invariants of calls ([always]) and trace automata ([follows]).

    ** Code outside the repository

    It enters as interfaces.  [Yaml] with [YamlLaws] (the two YAML libraries:
    the emitters write no NUL byte) and [Embedded] (the bytes of the metrics.yaml
    of pgwatch) in [ConfigMap], with [Shipped] (the parser finds the keys of that
    file) in [Registry]; [Machinery] with [MachineryLaws] (finalizers,
    owner references, conditions, retry on conflict, kinds of errors) in
    [Machinery]; [ApiServer] with [ApiServerLaws] (a write is carried out
    as documented or refused without effect, and nothing is said on when) in
    [ApiServer]; [Externals] with [ExternalLaws] (the deep copies of
    metav1 and corev1 types) in [DeepCopy]; [Schemes] with [SchemeLaws]
    (runtime.Scheme) and [OtherFlags] (the flags zap and client-go bind) in
    [Manager].  Each has an implementation in the development ([plain_yaml],
    [keys_yaml], [reference], [memory], [reference_externals], [list_scheme],
    [library_flags]), so the laws are satisfiable and the theorems are
    instantiated on real executions.

    ** What is shown

    - Builders: determinism under any map order ([MergeMetrics_deterministic],
      [BuildConfigMap_deterministic]), the merge order ([MergeMetrics_last_wins]),
      the branches of the source entry and of metrics.yaml, agreement between
      the files mounted and the arguments given, the scrape path, isolation of
      selectors, system labels, defaults against the CRDs, credentials kept
      out of the ConfigMap, the hash as an injective fingerprint up to SHA-256
      collisions of the payloads themselves, intervals, connection strings;
      which of the metrics collected are defined, with the one preset that lists
      a metric that is not ([collected_metrics_are_defined]).
    - [Protocol]: an abstract automaton of one reconciliation, and the
      refinement [reconcile_refines_protocol] for every run, whatever the API
      server answers; [reconcile_never_panics].
    - [MonitorSpec]: the branches of the reconciler for arbitrary answers:
      deletion, finalizer, ownership, failed prerequisites, status report,
      status writes with their retries, and the watch on libraries.
    - [Execution], [Convergence]: a program logic for [interp], with a
      postcondition for runs in which the server refused a write, and total
      correctness: from any state of the children, one reconciliation ends with
      the desired cluster, or returns the error of a refused write, having
      stored nothing but the finalizer and desired children
      ([reconcile_converges]); a second one
      changes nothing and says nothing ([second_reconcile_is_silent]).
    - [System]: both controllers, the API server and everybody else as one step
      relation at the grain of single calls, with failures before or after the
      effect, stale reads and crashes.  By rule induction: the operator never
      overwrites what users do ([operator_spares_users], from the versions that
      guard its updates), and every child that a monitor controls has its place
      and its owner ([children_belong]).  [undisturbed_reconcile] embeds the executions of
      [interp].
    - [Termination]: a bound on the calls of every run ([reconcile_bounded]).
    - [Heap], [DeepCopy]: an inductive correctness of copiers ([copies]), closed
      under the idioms of generated code, from which all generated functions
      follow: same value, new memory, old memory untouched, types preserved
      ([DeepCopy_correct], [monitor_copy_isolated], [DeepCopy_preserves_types]).
    - [Manager]: the start-up ([main_stops_at_first_failure]), what the servers
      offer ([servers_locked_down]), the flags ([flags_roundtrip]), the events
      ([children_events_requeue]) and the kinds the scheme knows
      ([scheme_complete]).

    ** Bounds and fuel

    Programs are finite trees, so every execution ends; [reconcile_bounded]
    counts 27 calls and one for each library at most.  The only loop with a
    bound is the retry on conflict: five attempts, as [retry.DefaultRetry]
    gives.  [Sha256.blocks] has the number of words as fuel, more than the
    number of blocks it cuts.  float64 durations are exact below 2^24 seconds;
    above, [metric_interval_rounds_up] shows the rounding.

    ** What is not modelled

    Logging, and the options of the logger; the inside of controller-runtime
    (work queues, rate limits, leader election), of which only the documented
    routing of events is used; end-to-end tests with their helpers, manifests
    and scripts.  The records of [Api] do not tell nil maps from empty ones,
    as the code that reads them does not; [Heap] keeps them apart.  The
    Kubernetes objects carry only the fields the source sets or reads.
    [Quote] copies bytes from 0x80 on, as [%q] does for printable text.

    In [System] others do not put what they create or change under the control
    of a monitor.  The reads of [Convergence] answer what is stored; stale and
    failing ones are the matter of [MonitorSpec], [Protocol] and [System].  Of
    the embedded metrics.yaml only names, presets and intervals are modelled;
    its statements are copied unread.  Slices carry no capacity in [Heap], which
    nothing in the code observes.

    Next in the plan: the abstract store of [Api] records as a view of [Heap],
    the string helpers of test/utils, fairness and eventual convergence of the
    interleaved system. *)
From stdpp Require Export gmap strings list pretty sorting.
From Stdlib Require Import Ascii.

(** ** Errors

    A Go [error] is either one returned by code outside the repository (the
    API server, the YAML libraries), identified by the status reason it
    carries, one created with a plain message, or one wrapped by
    [fmt.Errorf("prefix: %w", err)], which keeps the wrapped error reachable. *)
Inductive error :=
  | ErrExternal (reason : string) (message : string)
  | ErrNew (message : string)
  | ErrWrap (prefix : string) (inner : error).

#[export] Instance error_eq_dec : EqDecision error.
Proof. solve_decision. Defined.

(** [err.Error()]. *)
Fixpoint Error (e : error) : string :=
  match e with
  | ErrExternal _ m => m
  | ErrNew m => m
  | ErrWrap p e' => p +:+ ": " +:+ Error e'
  end.

(** A Go function returning [(T, error)], where the value is meaningful only
    when the error is nil. *)
Inductive result (A : Type) :=
  | Ok (a : A)
  | Err (e : error).
Arguments Ok {_} a.
Arguments Err {_} e.

Definition result_bind {A B} (r : result A) (f : A → result B) : result B :=
  match r with Ok a => f a | Err e => Err e end.

(** [if err != nil { return fmt.Errorf("prefix: %w", err) }]. *)
Definition wrap_err {A} (prefix : string) (r : result A) : result A :=
  match r with Ok a => Ok a | Err e => Err (ErrWrap prefix e) end.

(** The outcome of Go code: it returns, or it panics. *)
Inductive outcome (A : Type) :=
  | Done (a : A)
  | Panicked (message : string).
Arguments Done {_} a.
Arguments Panicked {_} message.

Declare Scope go_scope.
Delimit Scope go_scope with go.
Notation "'try' x := r 'in' k" := (result_bind r (λ x, k))
  (at level 10, x pattern, r at level 100, k at level 200) : go_scope.

(** [s != ""]. *)
Definition nonempty (s : string) : bool :=
  match s with EmptyString => false | _ => true end.

(** [if s == "" { s = dflt }]. *)
Definition or_default (s dflt : string) : string :=
  if nonempty s then s else dflt.

(** ** Automation *)
Create HintDb pgpilot.
Create Rewrite HintDb pgpilot_rw.

Ltac split_and_all := repeat match goal with |- _ ∧ _ => split end.

(** Case analysis on every [match] of the goal, closing absurd branches. *)
Ltac case_all := repeat (case_match; simplify_eq/=; try done).

(** ** Strings *)
Lemma nonempty_true s : nonempty s = true ↔ s ≠ "".
Proof. destruct s; naive_solver. Qed.

Lemma nonempty_false s : nonempty s = false ↔ s = "".
Proof. destruct s; naive_solver. Qed.

Lemma append_nil_r s : s +:+ "" = s.
Proof. induction s as [|c s IH]; [done|]. change ((String c s) +:+ "") with (String c (s +:+ "")). by rewrite IH. Qed.

Lemma append_assoc s1 s2 s3 : (s1 +:+ s2) +:+ s3 = s1 +:+ (s2 +:+ s3).
Proof.
  induction s1 as [|c s1 IH]; [done|].
  change (String c ((s1 +:+ s2) +:+ s3) = String c (s1 +:+ (s2 +:+ s3))). by rewrite IH.
Qed.

Lemma append_cons c s1 s2 : String c s1 +:+ s2 = String c (s1 +:+ s2).
Proof. done. Qed.

Lemma length_append s1 s2 : String.length (s1 +:+ s2) = String.length s1 + String.length s2.
Proof. induction s1 as [|c s1 IH]; [done|]. rewrite append_cons. simpl. by rewrite IH. Qed.

Lemma append_inj_l s s1 s2 : s +:+ s1 = s +:+ s2 → s1 = s2.
Proof. induction s as [|c s IH]; [done|]. rewrite !append_cons. intros [= H]. by apply IH. Qed.

Lemma append_inj_r s s1 s2 : s1 +:+ s = s2 +:+ s → s1 = s2.
Proof.
  revert s2. induction s1 as [|c s1 IH]; intros [|c' s2]; [done|..].
  - intros Hs%(f_equal String.length). rewrite !length_append in Hs. simpl in Hs. lia.
  - intros Hs%(f_equal String.length). rewrite !length_append in Hs. simpl in Hs. lia.
  - rewrite !append_cons. intros [= -> Hs]. by rewrite (IH s2).
Qed.

#[export] Hint Rewrite append_cons append_assoc append_nil_r : pgpilot_rw.

(** A byte occurs in a string. *)
Fixpoint has_byte (c : ascii) (s : string) : bool :=
  match s with
  | EmptyString => false
  | String c' s' => bool_decide (c' = c) || has_byte c s'
  end.

Lemma has_byte_append c s1 s2 : has_byte c (s1 +:+ s2) = has_byte c s1 || has_byte c s2.
Proof.
  induction s1 as [|c' s1 IH]; [done|]. rewrite append_cons. simpl. by rewrite IH, orb_assoc.
Qed.

(** Two strings cut at the same separator, absent from both heads, agree. *)
Lemma append_cut_inj c s1 s2 t1 t2 :
  has_byte c s1 = false → has_byte c s2 = false →
  s1 +:+ String c t1 = s2 +:+ String c t2 → s1 = s2 ∧ t1 = t2.
Proof.
  revert s2. induction s1 as [|c1 s1 IH]; intros [|c2 s2]; simpl.
  - intros _ _ [= ->]. done.
  - intros _ [H%bool_decide_eq_false _]%orb_false_iff [= -> _]. done.
  - intros [H%bool_decide_eq_false _]%orb_false_iff _ [= -> _]. done.
  - intros [_ H1]%orb_false_iff [_ H2]%orb_false_iff. rewrite !append_cons. intros [= -> Heq].
    destruct (IH s2 H1 H2 Heq) as [-> ->]. done.
Qed.

(** ** Lists *)

(** A key-value list folded into a map by insertion, last entry winning. *)
Definition insert_all {V} (m : gmap string V) (l : list (string * V)) : gmap string V :=
  foldl (λ m kv, <[kv.1 := kv.2]> m) m l.

Lemma insert_all_not_in {V} (m : gmap string V) l k :
  k ∉ l.*1 → insert_all m l !! k = m !! k.
Proof.
  revert m. induction l as [|[k' v] l IH]; intros m Hk; [done|]. simpl in *.
  apply not_elem_of_cons in Hk as [Hne Hk]. unfold insert_all in *. simpl. rewrite IH by done. by rewrite lookup_insert_ne.
Qed.

Lemma insert_all_in {V} (m : gmap string V) l k v :
  NoDup l.*1 → (k, v) ∈ l → insert_all m l !! k = Some v.
Proof.
  revert m. induction l as [|[k' v'] l IH]; intros m Hnd Hin; [by apply elem_of_nil in Hin|].
  simpl in Hnd. apply NoDup_cons in Hnd as [Hk Hnd].
  apply elem_of_cons in Hin as [[= -> ->]|Hin].
  - unfold insert_all. simpl. fold (insert_all (<[k':=v']> m) l).
    rewrite insert_all_not_in by done. apply lookup_insert_eq.
  - by apply (IH (<[k' := v']> m)).
Qed.
