(* ===== verification/GoStd.v ===== *)
(** Go's standard library, as far as the operator uses it: [strconv.Atoi] and
    [strconv.Itoa], [strconv.Quote] (the [%q] verb), the [%x] verb,
    [sort.Strings], [maps.Copy], and the iteration order of [range] over a
    map, which the language leaves unspecified.

    A Go [string] is a sequence of bytes: Rocq's [string], one [ascii] per
    byte.  A Go [map[K]V] is a [gmap K V]; a nil map and an empty one are not
    distinguished, since the code only ranges over, reads, copies or
    serialises with [omitempty] the maps it does not allocate itself. *)
From S2P Require Import Prelude.
From Stdlib Require Import Ascii ZArith.
Open Scope Z_scope.

(** ** Machine integers *)
Definition int64_min : Z := - 2 ^ 63.
Definition int64_max : Z := 2 ^ 63 - 1.
Definition in_int64 (z : Z) : bool := (int64_min <=? z) && (z <=? int64_max).
Definition in_int32 (z : Z) : bool := (- 2 ^ 31 <=? z) && (z <=? 2 ^ 31 - 1).

(** ** strconv *)
Definition byte_val (c : ascii) : Z := Z.of_N (N_of_ascii c).

(** The loop of [strconv.Atoi]: [n = n*10 + int(ch)], failing on a byte that
    is not a digit. *)
Fixpoint atoi_digits (n : Z) (s : string) : option Z :=
  match s with
  | EmptyString => Some n
  | String c s' =>
      let ch := byte_val c - 48 in
      if (ch <? 0) || (9 <? ch) then None else atoi_digits (n * 10 + ch) s'
  end.

Definition atoi_unsigned (s : string) : option Z :=
  if nonempty s then atoi_digits 0 s else None.

Definition atoi_check (z : Z) : option Z := if in_int64 z then Some z else None.

(** [strconv.Atoi]: an optional sign, at least one digit, nothing else, and a
    value that fits the 64-bit [int]; [None] for any error. *)
Definition Atoi (s : string) : option Z :=
  match s with
  | EmptyString => None
  | String c s' =>
      if bool_decide (c = "-"%char) then n ← atoi_unsigned s'; atoi_check (- n)
      else if bool_decide (c = "+"%char) then n ← atoi_unsigned s'; atoi_check n
      else n ← atoi_unsigned s; atoi_check n
  end.

(** [strconv.Itoa] and the [%d] verb. *)
Definition Itoa (z : Z) : string := pretty z.

Definition hex_digit (n : Z) : ascii :=
  ascii_of_N (Z.to_N (if n <? 10 then 48 + n else 87 + n)).

(** The [%x] verb on a byte slice. *)
Definition hex_byte (b : Z) : string :=
  String (hex_digit (b / 16)) (String (hex_digit (b mod 16)) EmptyString).
Definition hex (bs : list Z) : string := foldr (λ b s, hex_byte b +:+ s) "" bs.

(** One byte of [strconv.Quote]: quote and backslash are escaped, so are
    control bytes; bytes from 0x80 on are copied, as they are for printable
    UTF-8 text. *)
Definition quote_byte (c : ascii) : string :=
  let v := byte_val c in
  let esc (l : string) : string := String "\" l in
  if (v =? 34) || (v =? 92) then esc (String c EmptyString)
  else if v =? 7 then esc "a" else if v =? 8 then esc "b"
  else if v =? 12 then esc "f" else if v =? 10 then esc "n"
  else if v =? 13 then esc "r" else if v =? 9 then esc "t"
  else if v =? 11 then esc "v"
  else if (v <? 32) || (v =? 127) then esc ("x" +:+ hex_byte v)
  else String c EmptyString.

Fixpoint quote_body (s : string) : string :=
  match s with
  | EmptyString => EmptyString
  | String c s' => quote_byte c +:+ quote_body s'
  end.

(** The [%q] verb. *)
Definition Quote (s : string) : string :=
  String "034" (quote_body s) +:+ String "034" EmptyString.

(** ** sort and maps *)

(** [sort.Strings]: byte-wise lexicographic order. *)
Definition sort_Strings (l : list string) : list string := merge_sort String.le l.

(** [maps.Copy(dst, src)]: every entry of [src] is put into [dst]. *)
Definition maps_Copy {V} (dst src : gmap string V) : gmap string V := src ∪ dst.

(** [m[k]] on a [map[string]string]: the zero value when the key is absent. *)
Definition map_get (m : gmap string string) (k : string) : string := default "" (m !! k).

(** The order in which [range] visits a map: some enumeration of its entries,
    which the language does not specify and which may differ between two
    executions of the same loop. *)
Record MapOrder := mkMapOrder {
  range : ∀ V : Type, gmap string V → list (string * V);
  range_perm : ∀ (V : Type) (m : gmap string V), range V m ≡ₚ map_to_list m
}.
Arguments range _ {V} m.
Arguments range_perm _ {V} m.

(** Two concrete orders, one the reverse of the other. *)
Program Definition ascending : MapOrder :=
  {| range := λ V m, map_to_list m |}.
Next Obligation. done. Qed.
Program Definition descending : MapOrder :=
  {| range := λ V m, reverse (map_to_list m) |}.
Next Obligation. intros V m. apply reverse_Permutation. Qed.

(** ** Lemmas: strconv *)
Lemma atoi_digits_pretty_go x n s :
  atoi_digits 0 (pretty_N_go x s) = n ↔ atoi_digits (Z.of_N x) s = n.
Proof.
  revert s. induction (N.lt_wf_0 x) as [x _ IH]; intros s.
  destruct (decide (x = 0%N)) as [->|Hx0]; [done|]. assert (0 < x)%N as Hx by lia.
  rewrite pretty_N_go_step by done. rewrite IH by (by apply N.div_lt). simpl.
  assert (x `mod` 10 < 10)%N as Hm by (by apply N.mod_lt).
  assert (byte_val (pretty_N_char (x `mod` 10)) - 48 = Z.of_N (x `mod` 10)) as ->.
  { remember (x `mod` 10)%N as d. clear -Hm.
    destruct d as [|d]; [done|]. do 4 (destruct d as [d|d|]; try done; try lia). }
  replace (Z.of_N (x `div` 10) * 10 + Z.of_N (x `mod` 10)) with (Z.of_N x).
  - clear -Hm. generalize dependent (x `mod` 10)%N. intros d Hm.
    rewrite (proj2 (Z.ltb_ge (Z.of_N d) 0)), (proj2 (Z.ltb_ge 9 (Z.of_N d))) by lia. done.
  - rewrite N2Z.inj_div, N2Z.inj_mod. change (Z.of_N 10) with 10.
    pose proof (Z.div_mod (Z.of_N x) 10). lia.
Qed.

Lemma pretty_N_go_nonempty x s : nonempty s = true → nonempty (pretty_N_go x s) = true.
Proof.
  revert s. induction (N.lt_wf_0 x) as [x _ IH]; intros s Hs.
  assert (x = 0 ∨ 0 < x)%N as [->|Hx] by lia; [done|].
  rewrite pretty_N_go_step by done. apply IH; [by apply N.div_lt|done].
Qed.

Lemma atoi_unsigned_pretty x : atoi_unsigned (pretty x) = Some (Z.of_N x).
Proof.
  unfold pretty, pretty_N. case_decide as Hx; [by subst|]. unfold atoi_unsigned.
  assert (nonempty (pretty_N_go x "") = true) as ->.
  { rewrite pretty_N_go_step by lia. by apply pretty_N_go_nonempty. }
  by apply atoi_digits_pretty_go.
Qed.

(** Every character of an unsigned decimal is a digit. *)
Lemma pretty_N_go_head x s c r :
  (0 < x)%N → pretty_N_go x s = String c r → ∃ d, (d < 10)%N ∧ c = pretty_N_char d.
Proof.
  revert s. induction (N.lt_wf_0 x) as [x _ IH]; intros s Hx.
  rewrite pretty_N_go_step by done.
  destruct (N.eq_0_gt_0_cases (x `div` 10)) as [Hd|Hd].
  - rewrite Hd, pretty_N_go_0. intros [= <- <-]. eexists. split; [|done]. by apply N.mod_lt.
  - apply IH; [by apply N.div_lt|done].
Qed.

Lemma pretty_N_head (x : N) c r : pretty x = String c r → c ≠ "-"%char ∧ c ≠ "+"%char.
Proof.
  unfold pretty, pretty_N. case_decide as Hx; [by intros [= <- <-]|].
  intros (d & Hd & ->)%pretty_N_go_head; [|lia]. clear -Hd.
  destruct d as [|d]; [done|]. do 4 (destruct d as [d|d|]; try done; try lia).
Qed.

Lemma Atoi_unsigned_pretty (x : N) : Atoi (pretty x) = atoi_check (Z.of_N x).
Proof.
  pose proof (atoi_unsigned_pretty x) as Hu. destruct (pretty x) as [|c r] eqn:E; [done|].
  destruct (pretty_N_head x c r E). unfold Atoi.
  rewrite !bool_decide_false by done. by rewrite Hu.
Qed.

Lemma atoi_check_in z : in_int64 z = true → atoi_check z = Some z.
Proof. unfold atoi_check. by intros ->. Qed.

Lemma Atoi_Itoa_check z : Atoi (Itoa z) = atoi_check z.
Proof.
  destruct z as [|p|p]; [done|by apply (Atoi_unsigned_pretty (N.pos p))|].
  change (Itoa (Z.neg p)) with (String "-" (pretty (N.pos p))). unfold Atoi. simpl.
  by rewrite atoi_unsigned_pretty.
Qed.

(** ** Lemmas: sort and maps *)
#[export] Instance string_le_total : Total String.le.
Proof.
  intros s1 s2. unfold String.le. destruct (String.leb_total s1 s2) as [H|H]; rewrite H; auto.
Qed.

(** Sorting forgets the order it is given. *)
Lemma sort_Strings_perm l1 l2 : l1 ≡ₚ l2 → sort_Strings l1 = sort_Strings l2.
Proof.
  intros Hl. apply (Sorted_unique String.le); try apply Sorted_merge_sort; try apply _.
  unfold sort_Strings. by rewrite !merge_sort_Permutation.
Qed.

Lemma sort_Strings_elem l s : s ∈ sort_Strings l ↔ s ∈ l.
Proof. unfold sort_Strings. by rewrite merge_sort_Permutation. Qed.

Lemma maps_Copy_lookup {V} (dst src : gmap string V) k :
  maps_Copy dst src !! k = match src !! k with Some v => Some v | None => dst !! k end.
Proof. unfold maps_Copy. rewrite lookup_union. by destruct (src !! k), (dst !! k). Qed.

Lemma range_keys_NoDup {V} (o : MapOrder) (m : gmap string V) : NoDup (range o m).*1.
Proof. rewrite (range_perm o m). apply NoDup_fst_map_to_list. Qed.

Lemma range_elem {V} (o : MapOrder) (m : gmap string V) k v :
  (k, v) ∈ range o m ↔ m !! k = Some v.
Proof. rewrite (range_perm o m). apply elem_of_map_to_list. Qed.

(** Two orders enumerate the same keys. *)
Lemma range_perm_orders {V} (o1 o2 : MapOrder) (m : gmap string V) :
  range o1 m ≡ₚ range o2 m.
Proof. by rewrite !range_perm. Qed.

#[export] Hint Resolve range_keys_NoDup range_perm_orders : pgpilot.
