(* ===== verification/GoTime.v ===== *)
(** [time.Duration] and the conversion [int(d.Seconds())] of [addMetric].

    [Duration.Seconds] is [float64(d/Second) + float64(d%Second)/1e9]: one
    rounded float64 division and one rounded float64 addition.  Both are
    modelled on exact rationals rounded to a 53-bit significand, to nearest,
    ties to even; the exponents met here are far from the float64 limits.
    The sign is carried separately, since Go's [/] and [%] truncate towards
    zero and the rounding is symmetric. *)
From S2P Require Import Prelude GoStd.
From Stdlib Require Import ZArith Floats.SpecFloat.
Open Scope Z_scope.

Definition Second : Z := 1000000000.

(** ** float64 *)

(** The integer nearest to [num / den], ties to even. *)
Definition round_half_even (num den : Z) : Z :=
  let q := num / den in
  match 2 * (num mod den) ?= den with
  | Lt => q
  | Gt => q + 1
  | Eq => if Z.even q then q else q + 1
  end.

(** The float64 [f_mant * 2 ^ (- f_scale)].  Every value below 2^53 has a
    nonnegative scale, the only case met here. *)
Record f64 := mkF64 { f_mant : Z; f_scale : Z }.

(** The scale at which [num / den] has a 53-bit integer part; 0 at most for
    values from 2^52 on. *)
Definition f64_scale (num den : Z) : Z :=
  let k := 52 - (Z.log2 num - Z.log2 den) in
  let k := if num * 2 ^ Z.max 0 k <? den * 2 ^ 52 then k + 1 else k in
  Z.max 0 k.

(** The float64 nearest to the positive rational [num / den]. *)
Definition f64_round (num den : Z) : f64 :=
  if num =? 0 then mkF64 0 0
  else let k := f64_scale num den in mkF64 (round_half_even (num * 2 ^ k) den) k.

Definition f64_of_int (n : Z) : f64 := f64_round n 1.
Definition f64_div (a b : f64) : f64 :=
  f64_round (f_mant a * 2 ^ f_scale b) (f_mant b * 2 ^ f_scale a).
Definition f64_add (a b : f64) : f64 :=
  f64_round (f_mant a * 2 ^ f_scale b + f_mant b * 2 ^ f_scale a)
            (2 ^ (f_scale a + f_scale b)).

(** [int(f)]: truncation. *)
Definition f64_trunc (a : f64) : Z := f_mant a / 2 ^ f_scale a.

(** ** Duration *)

(** The absolute value of [d.Seconds()]. *)
Definition Seconds (d : Z) : f64 :=
  let d := Z.abs d in
  f64_add (f64_of_int (d / Second)) (f64_div (f64_of_int (d mod Second)) (f64_of_int Second)).

(** [int(d.Seconds())]. *)
Definition SecondsInt (d : Z) : Z := Z.sgn d * f64_trunc (Seconds d).

(** ** The model against the IEEE 754 definitions of the Standard Library *)
Definition spec_seconds (d : Z) : spec_float :=
  let of_int z := binary_normalize 53 1024 z 0 false in
  SFadd 53 1024 (of_int (d / Second))
    (SFdiv 53 1024 (of_int (d mod Second)) (of_int Second)).

Definition spec_trunc (f : spec_float) : Z :=
  match f with
  | S754_finite _ m e => if 0 <=? e then Zpos m * 2 ^ e else Zpos m / 2 ^ (- e)
  | _ => 0
  end.

Definition agrees_with_ieee (d : Z) : bool := SecondsInt d =? spec_trunc (spec_seconds d).

(** ** Lemmas *)
Lemma round_half_even_ge num den k : 0 < den → k * den ≤ num → k ≤ round_half_even num den.
Proof.
  intros Hd Hk. assert (k ≤ num / den) by (apply Z.div_le_lower_bound; lia).
  unfold round_half_even. repeat case_match; lia.
Qed.

Lemma round_half_even_lt num den k :
  0 < den → 2 * num < (2 * k - 1) * den → round_half_even num den < k.
Proof.
  intros Hd Hk. pose proof (Z.div_mod num den) as Hdm. pose proof (Z.mod_pos_bound num den Hd) as Hm.
  unfold round_half_even. destruct (Z.compare_spec (2 * (num mod den)) den); [|nia|nia].
  case_match; nia.
Qed.

Lemma round_half_even_near num den :
  0 < den → Z.abs (2 * (den * round_half_even num den - num)) ≤ den.
Proof.
  intros Hd. pose proof (Z.div_mod num den) as Hdm. pose proof (Z.mod_pos_bound num den Hd) as Hm.
  unfold round_half_even. destruct (Z.compare_spec (2 * (num mod den)) den); try case_match; nia.
Qed.

Lemma f64_scale_nonneg num den : 0 ≤ f64_scale num den.
Proof. unfold f64_scale. lia. Qed.

(** The scale gives the significand at least 53 bits. *)
Lemma f64_scale_lb num den :
  0 < num → 0 < den → den * 2 ^ 52 ≤ num * 2 ^ f64_scale num den.
Proof.
  intros Hn Hd. unfold f64_scale.
  destruct (Z.log2_spec num Hn) as [Hn1 _], (Z.log2_spec den Hd) as [_ Hd2].
  set (ln := Z.log2 num) in *. set (ld := Z.log2 den) in *.
  assert (0 ≤ ln) by apply Z.log2_nonneg. assert (0 ≤ ld) by apply Z.log2_nonneg.
  destruct (Z.ltb_spec (num * 2 ^ Z.max 0 (52 - (ln - ld))) (den * 2 ^ 52)) as [Hlt|Hge].
  - destruct (decide (52 - (ln - ld) < 0)) as [Hneg|Hpos].
    + rewrite Z.max_l, Z.mul_1_r in Hlt by lia. exfalso.
      assert (2 ^ (Z.succ ld + 52) ≤ 2 ^ ln) by (apply Z.pow_le_mono_r; lia).
      rewrite Z.pow_add_r in * by lia. nia.
    + rewrite Z.max_r by lia.
      assert (2 ^ Z.succ ld * 2 ^ 52 = 2 ^ ln * 2 ^ (52 - (ln - ld) + 1)) as Hp.
      { rewrite <-!Z.pow_add_r by lia. f_equal. lia. }
      assert (0 < 2 ^ (52 - (ln - ld) + 1)) by (apply Z.pow_pos_nonneg; lia). nia.
  - lia.
Qed.

(** Integers are converted exactly. *)
Lemma f64_of_int_exact n : 0 ≤ n → ∃ k, 0 ≤ k ∧ f64_of_int n = mkF64 (n * 2 ^ k) k.
Proof.
  intros Hn. unfold f64_of_int, f64_round. destruct (Z.eqb_spec n 0) as [->|Hne].
  - by exists 0.
  - exists (f64_scale n 1). split; [apply f64_scale_nonneg|]. f_equal.
    unfold round_half_even. by rewrite Z.div_1_r, Z.mod_1_r.
Qed.

(** The quotient of a proper fraction is below 1 up to half a unit of 2^-53. *)
Lemma f64_div_fraction f :
  0 ≤ f < Second →
  ∃ m k, f64_div (f64_of_int f) (f64_of_int Second) = mkF64 m k ∧
    0 ≤ m ∧ 0 ≤ k ∧ 2 * Second * m ≤ 2 * f * 2 ^ k + Second ∧ (m = 0 ∨ 2 ^ 53 ≤ 2 ^ k).
Proof.
  intros [Hf0 Hf1]. destruct (f64_of_int_exact f) as (ka & Hka & ->); [done|].
  destruct (f64_of_int_exact Second) as (kb & Hkb & ->); [done|].
  unfold f64_div, f64_round. simpl. assert (0 < 2 ^ ka) by lia. assert (0 < 2 ^ kb) by lia.
  destruct (Z.eqb_spec (f * 2 ^ ka * 2 ^ kb) 0) as [Hz|Hz].
  { exists 0, 0. split_and!; try done; [|by left]. unfold Second in *. lia. }
  set (num := f * 2 ^ ka * 2 ^ kb) in *. set (den := Second * 2 ^ kb * 2 ^ ka).
  assert (0 < num) by (unfold num in *; nia). assert (0 < den) by (unfold den, Second; nia).
  set (k := f64_scale num den). pose proof (f64_scale_nonneg num den) as Hk.
  pose proof (f64_scale_lb num den) as Hlb. fold k in Hk, Hlb. assert (0 < 2 ^ k) by lia.
  exists (round_half_even (num * 2 ^ k) den), k. split_and!; try done.
  - apply round_half_even_ge; nia.
  - pose proof (round_half_even_near (num * 2 ^ k) den) as Hnear.
    set (m := round_half_even _ _) in *. unfold num, den in *.
    apply (Zmult_le_reg_r _ _ (2 ^ ka * 2 ^ kb)); [nia|]. specialize (Hnear ltac:(done)). nia.
  - right. assert (num < den) by (unfold num, den; nia). assert (2 ^ 52 < 2 ^ k) as Hlt by nia.
    apply Z.pow_lt_mono_r_iff in Hlt; [|lia..]. apply Z.pow_le_mono_r; lia.
Qed.

(** Below 2^24 whole seconds the float64 detour is exact truncation. *)
Lemma f64_trunc_Seconds d : 0 ≤ d → d / Second < 2 ^ 24 → f64_trunc (Seconds d) = d / Second.
Proof.
  intros Hd Hn. unfold Seconds. rewrite Z.abs_eq by done.
  assert (0 ≤ d / Second) as Hn0 by (apply Z.div_pos; done).
  destruct (f64_div_fraction (d mod Second)) as (m & k & -> & Hm & Hk & Hub & Hp).
  { by apply Z.mod_pos_bound. }
  pose proof (Z.mod_pos_bound d Second eq_refl) as Hf.
  set (n := d / Second) in *. set (f := d mod Second) in *.
  destruct (f64_of_int_exact n) as (ka & Hka & ->); [done|].
  unfold f64_add, f64_round. simpl. rewrite Z.pow_add_r by done.
  assert (0 < 2 ^ ka) by lia. assert (0 < 2 ^ k) by lia.
  set (num := n * 2 ^ ka * 2 ^ k + m * 2 ^ ka). set (den := 2 ^ ka * 2 ^ k).
  destruct (Z.eqb_spec num 0) as [Hz|Hz]; [change (0 = n); unfold num in *; nia|].
  assert (0 < num) by (unfold num in *; nia). assert (0 < den) by (unfold den; nia).
  set (k3 := f64_scale num den). pose proof (f64_scale_nonneg num den) as Hk3.
  pose proof (f64_scale_lb num den) as Hlb. fold k3 in Hk3, Hlb. assert (0 < 2 ^ k3) by lia.
  unfold f64_trunc. simpl. symmetry. apply Z.div_unique_pos with (round_half_even (num * 2 ^ k3) den - n * 2 ^ k3).
  2: lia.
  assert (n * 2 ^ k3 ≤ round_half_even (num * 2 ^ k3) den) as Hlo.
  { apply round_half_even_ge; [done|]. unfold num, den. nia. }
  split; [lia|].
  assert (m < 2 ^ k) as Hmk by (destruct Hp; unfold Second in *; nia).
  assert (num < 2 ^ 24 * den) as Hnum by (unfold num, den; nia).
  assert (2 ^ 29 ≤ 2 ^ k3) as H29.
  { apply Z.pow_le_mono_r; [lia|]. assert (2 ^ 28 < 2 ^ k3) as Hlt by nia.
    apply Z.pow_lt_mono_r_iff in Hlt; lia. }
  cut (round_half_even (num * 2 ^ k3) den < (n + 1) * 2 ^ k3); [nia|].
  apply round_half_even_lt; [done|]. unfold num, den.
  assert (2 ^ k < 2 * 2 ^ k3 * (2 ^ k - m)) as Hgap by (unfold Second in *; destruct Hp; nia).
  nia.
Qed.

Lemma SecondsInt_trunc d : 0 ≤ d → d / Second < 2 ^ 24 → SecondsInt d = d / Second.
Proof.
  intros Hd Hn. unfold SecondsInt. rewrite f64_trunc_Seconds by done.
  destruct (decide (d = 0)) as [->|]; [done|]. rewrite Z.sgn_pos by lia. lia.
Qed.

Lemma f64_round_nonneg num den :
  0 ≤ num → 0 < den → 0 ≤ f_mant (f64_round num den) ∧ 0 ≤ f_scale (f64_round num den).
Proof.
  intros Hn Hd. unfold f64_round. case_match; simpl; [done|].
  pose proof (f64_scale_nonneg num den). split; [|done]. apply round_half_even_ge; nia.
Qed.

Lemma f64_trunc_nonneg d : 0 ≤ f64_trunc (Seconds d).
Proof.
  unfold Seconds. set (n := Z.abs d).
  destruct (f64_of_int_exact (n / Second)) as (ka & Hka & ->); [apply Z.div_pos; [lia|done]|].
  destruct (f64_div_fraction (n mod Second)) as (m & k & -> & Hm & Hk & _).
  { by apply Z.mod_pos_bound. }
  assert (0 ≤ n / Second) by (apply Z.div_pos; [lia|done]).
  assert (0 < 2 ^ ka) by lia. assert (0 < 2 ^ k) by lia.
  unfold f64_add, f64_trunc. simpl.
  destruct (f64_round_nonneg (n / Second * 2 ^ ka * 2 ^ k + m * 2 ^ ka) (2 ^ (ka + k))) as [Hmant Hscale].
  - nia.
  - rewrite Z.pow_add_r by done. nia.
  - apply Z.div_pos; lia.
Qed.

(** The two definitions of float64 arithmetic agree on durations of all
    magnitudes, those at which the sum rounds up included. *)
Example agrees_samples :
  forallb agrees_with_ieee
    [0; 1; 999999999; Second; 1500000000; 59 * Second + 999999999; 3600 * Second;
     2 ^ 24 * Second - 1; 2 ^ 24 * Second + 999999999; 2 ^ 30 * Second + 123456789; 2 ^ 63 - 1] = true.
Proof. vm_compute. reflexivity. Qed.
