(* ===== verification/Sha256.v ===== *)
(** [crypto/sha256] (FIPS 180-4), which [contentHash] feeds incrementally and
    finishes with [Sum(nil)].  Words are 32-bit integers in [Z]; a message is
    a Go string.  The definitions are executable; the standard test vectors
    are checked at the end. *)
From S2P Require Import Prelude GoStd.
From Stdlib Require Import Ascii ZArith.
Open Scope Z_scope.

Definition w32 (x : Z) : Z := Z.land x (Z.ones 32).
Definition add32 (x y : Z) : Z := w32 (x + y).
Definition shr (n x : Z) : Z := Z.shiftr x n.
Definition rotr (n x : Z) : Z := Z.lor (Z.shiftr x n) (w32 (Z.shiftl x (32 - n))).
Definition not32 (x : Z) : Z := Z.lxor x (Z.ones 32).

Definition Ch (x y z : Z) : Z := Z.lxor (Z.land x y) (Z.land (not32 x) z).
Definition Maj (x y z : Z) : Z := Z.lxor (Z.lxor (Z.land x y) (Z.land x z)) (Z.land y z).
Definition Sigma0 (x : Z) : Z := Z.lxor (Z.lxor (rotr 2 x) (rotr 13 x)) (rotr 22 x).
Definition Sigma1 (x : Z) : Z := Z.lxor (Z.lxor (rotr 6 x) (rotr 11 x)) (rotr 25 x).
Definition sigma0 (x : Z) : Z := Z.lxor (Z.lxor (rotr 7 x) (rotr 18 x)) (shr 3 x).
Definition sigma1 (x : Z) : Z := Z.lxor (Z.lxor (rotr 17 x) (rotr 19 x)) (shr 10 x).

(** The constants, by their definition: the first 32 bits of the fractional
    parts of the cube roots (round constants) and of the square roots (initial
    state) of the first primes. *)
Definition is_prime (n : nat) : bool := forallb (λ d, negb (n mod d =? 0)%nat) (seq 2 (n - 2)).
Definition primes (bound : nat) : list Z := map Z.of_nat (List.filter is_prime (seq 2 bound)).

(** The integer cube root, bit by bit from bit [b - 1] down. *)
Fixpoint cube_root (b : nat) (acc n : Z) : Z :=
  match b with
  | O => acc
  | S b' => let r := acc + 2 ^ Z.of_nat b' in cube_root b' (if r * r * r <=? n then r else acc) n
  end.

Definition K256 : list Z :=
  Eval vm_compute in map (λ p, w32 (cube_root 36 0 (p * 2 ^ 96))) (take 64 (primes 310)).
Definition H256 : list Z :=
  Eval vm_compute in map (λ p, w32 (Z.sqrt (p * 2 ^ 64))) (take 8 (primes 20)).

Record regs := mkRegs { ra : Z; rb : Z; rc : Z; rd : Z; re : Z; rf : Z; rg : Z; rh : Z }.

Definition init_regs : regs :=
  match H256 with
  | [a; b; c; d; e; f; g; h] => mkRegs a b c d e f g h
  | _ => mkRegs 0 0 0 0 0 0 0 0
  end.

Definition round (r : regs) (kw : Z * Z) : regs :=
  let t1 := add32 (add32 (add32 (rh r) (Sigma1 (re r))) (add32 (Ch (re r) (rf r) (rg r)) kw.1)) kw.2 in
  let t2 := add32 (Sigma0 (ra r)) (Maj (ra r) (rb r) (rc r)) in
  mkRegs (add32 t1 t2) (ra r) (rb r) (rc r) (add32 (rd r) t1) (re r) (rf r) (rg r).

(** Sixteen message words extended to sixty-four; the list is kept reversed. *)
Definition next_word (ws : list Z) : Z :=
  add32 (add32 (sigma1 (nth 1 ws 0)) (nth 6 ws 0)) (add32 (sigma0 (nth 14 ws 0)) (nth 15 ws 0)).
Definition schedule (block : list Z) : list Z :=
  reverse (Nat.iter 48 (λ ws, next_word ws :: ws) (reverse block)).

Definition add_regs (x y : regs) : regs :=
  mkRegs (add32 (ra x) (ra y)) (add32 (rb x) (rb y)) (add32 (rc x) (rc y)) (add32 (rd x) (rd y))
         (add32 (re x) (re y)) (add32 (rf x) (rf y)) (add32 (rg x) (rg y)) (add32 (rh x) (rh y)).

Definition compress (r : regs) (block : list Z) : regs :=
  add_regs r (foldl round r (zip K256 (schedule block))).

(** Big-endian packing. *)
Fixpoint be_words (bs : list Z) : list Z :=
  match bs with
  | b3 :: b2 :: b1 :: b0 :: bs' => (b3 * 2 ^ 24 + b2 * 2 ^ 16 + b1 * 2 ^ 8 + b0) :: be_words bs'
  | _ => []
  end.
Definition be_bytes (n : nat) (z : Z) : list Z :=
  reverse (map (λ i, (z / 2 ^ (8 * Z.of_nat i)) mod 256) (seq 0 n)).

Definition pad (bs : list Z) : list Z :=
  let n := Z.of_nat (length bs) in
  bs ++ [0x80] ++ replicate (Z.to_nat ((55 - n) mod 64)) 0 ++ be_bytes 8 (8 * n).

Fixpoint blocks (fuel : nat) (ws : list Z) : list (list Z) :=
  match fuel, ws with
  | S fuel', _ :: _ => take 16 ws :: blocks fuel' (drop 16 ws)
  | _, _ => []
  end.

Definition string_bytes (s : string) : list Z := map byte_val (String.list_ascii_of_string s).

Definition digest_words (r : regs) : list Z := [ra r; rb r; rc r; rd r; re r; rf r; rg r; rh r].

(** [h := sha256.New(); h.Write(s); h.Sum(nil)]: thirty-two bytes. *)
Definition sha256 (s : string) : list Z :=
  let ws := be_words (pad (string_bytes s)) in
  let r := foldl compress init_regs (blocks (length ws) ws) in
  concat (map (be_bytes 4) (digest_words r)).

(** ** Lemmas *)
Lemma length_be_bytes n z : length (be_bytes n z) = n.
Proof. unfold be_bytes. by rewrite length_reverse, length_map, length_seq. Qed.

#[global] Arguments be_bytes : simpl never.

(** The digest always has thirty-two bytes. *)
Lemma length_sha256 s : length (sha256 s) = 32%nat.
Proof.
  unfold sha256. generalize (foldl compress init_regs). intros f.
  unfold digest_words. cbn [map concat]. by rewrite !length_app, !length_be_bytes.
Qed.

Lemma length_hex bs : String.length (hex bs) = (2 * length bs)%nat.
Proof. induction bs as [|b bs IH]; [done|]. simpl. rewrite length_append, IH. simpl. lia. Qed.

(** FIPS 180-4 test vectors. *)
Example sha256_empty :
  hex (sha256 "") = "e3b0c44298fc1c149afbf4c8996fb92427ae41e4649b934ca495991b7852b855".
Proof. vm_compute. reflexivity. Qed.
Example sha256_abc :
  hex (sha256 "abc") = "ba7816bf8f01cfea414140de5dae2223b00361a396177a9cb410ff61f20015ad".
Proof. vm_compute. reflexivity. Qed.
Example sha256_two_blocks :
  hex (sha256 "abcdbcdecdefdefgefghfghighijhijkijkljklmklmnlmnomnopnopq")
  = "248d6a61d20638b8e5c026930c3e6039a33ce45964ff2167f6ecedd419db06c1".
Proof. vm_compute. reflexivity. Qed.
