(* ===== verification/Kube.v ===== *)
(** The Kubernetes object types the operator reads and builds, restricted to
    the fields the source sets or reads.  They are declared outside the
    repository ([k8s.io/api], [k8s.io/apimachinery], prometheus-operator);
    only their shape is used.  A pointer field is an [option]; a field the
    source leaves out of a composite literal has its zero value. *)
From S2P Require Import Prelude GoStd.
From Stdlib Require Import ZArith.
Open Scope Z_scope.

(** A [metav1.Time]: nanoseconds since Go's zero time. *)
Definition Time := Z.

(** ** Metadata *)
Record NamespacedName := mkNN { nn_Namespace : string; nn_Name : string }.

#[export] Instance nn_eq_dec : EqDecision NamespacedName.
Proof. solve_decision. Defined.
#[export] Instance nn_countable : Countable NamespacedName.
Proof.
  apply (inj_countable' (λ k, (nn_Namespace k, nn_Name k)) (λ p, mkNN p.1 p.2)).
  by intros [].
Defined.

Record TypeMeta := mkTypeMeta { tm_APIVersion : string; tm_Kind : string }.

Record OwnerReference := mkOwnerReference {
  or_Kind : string;
  or_Name : string;
  or_UID : string;
  or_Controller : bool
}.

Record ObjectMeta := mkObjectMeta {
  om_Name : string;
  om_Namespace : string;
  om_UID : string;
  om_Generation : Z;
  om_ResourceVersion : string;
  om_DeletionTimestamp : option Time;
  om_Finalizers : list string;
  om_Labels : gmap string string;
  om_Annotations : gmap string string;
  om_OwnerReferences : list OwnerReference;
  om_ManagedFields : list string
}.

(** A composite literal giving only name, namespace, labels and annotations. *)
Definition objectMeta (name ns : string) (labels annotations : gmap string string) : ObjectMeta :=
  mkObjectMeta name ns "" 0 "" None [] labels annotations [] [].

Definition meta_key (m : ObjectMeta) : NamespacedName := mkNN (om_Namespace m) (om_Name m).

Definition meta_set_finalizers (fs : list string) (m : ObjectMeta) : ObjectMeta :=
  mkObjectMeta (om_Name m) (om_Namespace m) (om_UID m) (om_Generation m) (om_ResourceVersion m)
    (om_DeletionTimestamp m) fs (om_Labels m) (om_Annotations m) (om_OwnerReferences m)
    (om_ManagedFields m).
Definition meta_set_owners (os : list OwnerReference) (m : ObjectMeta) : ObjectMeta :=
  mkObjectMeta (om_Name m) (om_Namespace m) (om_UID m) (om_Generation m) (om_ResourceVersion m)
    (om_DeletionTimestamp m) (om_Finalizers m) (om_Labels m) (om_Annotations m) os
    (om_ManagedFields m).

(** [obj.SetManagedFields(mf)] and [obj.SetResourceVersion(rv)]. *)
Definition SetManagedFields (mf : list string) (m : ObjectMeta) : ObjectMeta :=
  mkObjectMeta (om_Name m) (om_Namespace m) (om_UID m) (om_Generation m) (om_ResourceVersion m)
    (om_DeletionTimestamp m) (om_Finalizers m) (om_Labels m) (om_Annotations m)
    (om_OwnerReferences m) mf.
Definition SetResourceVersion (rv : string) (m : ObjectMeta) : ObjectMeta :=
  mkObjectMeta (om_Name m) (om_Namespace m) (om_UID m) (om_Generation m) rv
    (om_DeletionTimestamp m) (om_Finalizers m) (om_Labels m) (om_Annotations m)
    (om_OwnerReferences m) (om_ManagedFields m).

(** [metav1.Condition]. *)
Definition ConditionTrue : string := "True".
Definition ConditionFalse : string := "False".
Record Condition := mkCondition {
  c_Type : string;
  c_Status : string;
  c_ObservedGeneration : Z;
  c_LastTransitionTime : Time;
  c_Reason : string;
  c_Message : string
}.

(** ** corev1 *)
Record ResourceRequirements := mkResources {
  rr_Limits : gmap string string;
  rr_Requests : gmap string string;
  rr_Claims : list (string * string)
}.

Record Secret := mkSecret { sec_ObjectMeta : ObjectMeta; sec_Data : gmap string string }.
Record Pod := mkPod { pod_ObjectMeta : ObjectMeta }.

Record ConfigMap := mkConfigMap {
  cm_TypeMeta : TypeMeta;
  cm_ObjectMeta : ObjectMeta;
  cm_Data : gmap string string
}.

Record SecretKeySelector := mkSecretKeySelector { sks_Name : string; sks_Key : string }.
(** [ev_ValueFrom] is the [SecretKeyRef] of the [EnvVarSource]. *)
Record EnvVar := mkEnvVar {
  ev_Name : string;
  ev_Value : string;
  ev_ValueFrom : option SecretKeySelector
}.

Inductive IntOrString := FromInt32 (n : Z) | FromString (s : string).

Record ContainerPort := mkContainerPort {
  cp_Name : string;
  cp_ContainerPort : Z;
  cp_Protocol : string
}.
Definition ProtocolTCP : string := "TCP".

(** A probe whose handler is a [TCPSocket]. *)
Record Probe := mkProbe {
  p_TCPSocket : IntOrString;
  p_InitialDelaySeconds : Z;
  p_PeriodSeconds : Z;
  p_TimeoutSeconds : Z;
  p_SuccessThreshold : Z;
  p_FailureThreshold : Z
}.

Record SecurityContext := mkSecurityContext {
  sc_RunAsNonRoot : option bool;
  sc_RunAsUser : option Z;
  sc_ReadOnlyRootFilesystem : option bool;
  sc_AllowPrivilegeEscalation : option bool;
  sc_Capabilities_Drop : option (list string)
}.

Record VolumeMount := mkVolumeMount { vm_Name : string; vm_MountPath : string; vm_ReadOnly : bool }.

(** [v_ConfigMap] is the name in the [ConfigMapVolumeSource]. *)
Record Volume := mkVolume { v_Name : string; v_ConfigMap : option string; v_EmptyDir : option () }.

Record Container := mkContainer {
  ct_Name : string;
  ct_Image : string;
  ct_ImagePullPolicy : string;
  ct_Args : list string;
  ct_Env : list EnvVar;
  ct_Ports : list ContainerPort;
  ct_Resources : ResourceRequirements;
  ct_LivenessProbe : option Probe;
  ct_ReadinessProbe : option Probe;
  ct_SecurityContext : option SecurityContext;
  ct_VolumeMounts : list VolumeMount
}.

Record PodSpec := mkPodSpec {
  ps_Containers : list Container;
  ps_Volumes : list Volume;
  ps_RunAsNonRoot : option bool
}.

Record PodTemplateSpec := mkPodTemplateSpec { pt_ObjectMeta : ObjectMeta; pt_Spec : PodSpec }.

(** ** appsv1 *)
Record Deployment := mkDeployment {
  d_TypeMeta : TypeMeta;
  d_ObjectMeta : ObjectMeta;
  d_Replicas : option Z;
  d_Selector : gmap string string;
  d_Template : PodTemplateSpec;
  d_ReadyReplicas : Z
}.

(** ** Services *)
Record ServicePort := mkServicePort {
  sp_Name : string;
  sp_Protocol : string;
  sp_Port : Z;
  sp_TargetPort : IntOrString
}.

Record Service := mkService {
  s_TypeMeta : TypeMeta;
  s_ObjectMeta : ObjectMeta;
  s_Type : string;
  s_Selector : gmap string string;
  s_Ports : list ServicePort
}.

Record Endpoint := mkEndpoint { e_Port : string; e_Interval : string; e_ScrapeTimeout : string }.

Record ServiceMonitor := mkServiceMonitor {
  sm_TypeMeta : TypeMeta;
  sm_ObjectMeta : ObjectMeta;
  sm_Selector : gmap string string;
  sm_MatchNames : list string;
  sm_Endpoints : list Endpoint
}.

(** ** Label selectors *)

(** A selector given by [MatchLabels] selects the objects carrying all its
    pairs. *)
Definition selects (selector labels : gmap string string) : Prop := selector ⊆ labels.

(** ** The kinds the operator applies *)
Inductive Kind := KConfigMap | KDeployment | KService | KServiceMonitor.

#[export] Instance kind_eq_dec : EqDecision Kind.
Proof. solve_decision. Defined.

Definition obj_of (k : Kind) : Type :=
  match k with
  | KConfigMap => ConfigMap
  | KDeployment => Deployment
  | KService => Service
  | KServiceMonitor => ServiceMonitor
  end.

(** [obj.GetObjectMeta()] for any of them, and its replacement. *)
Definition obj_meta {k : Kind} : obj_of k → ObjectMeta :=
  match k with
  | KConfigMap => cm_ObjectMeta
  | KDeployment => d_ObjectMeta
  | KService => s_ObjectMeta
  | KServiceMonitor => sm_ObjectMeta
  end.

Definition obj_set_meta {k : Kind} (m : ObjectMeta) : obj_of k → obj_of k :=
  match k with
  | KConfigMap => λ o, mkConfigMap (cm_TypeMeta o) m (cm_Data o)
  | KDeployment => λ o,
      mkDeployment (d_TypeMeta o) m (d_Replicas o) (d_Selector o) (d_Template o) (d_ReadyReplicas o)
  | KService => λ o, mkService (s_TypeMeta o) m (s_Type o) (s_Selector o) (s_Ports o)
  | KServiceMonitor => λ o,
      mkServiceMonitor (sm_TypeMeta o) m (sm_Selector o) (sm_MatchNames o) (sm_Endpoints o)
  end.

Lemma obj_meta_set {k} (m : ObjectMeta) (o : obj_of k) : obj_meta (obj_set_meta m o) = m.
Proof. by destruct k. Qed.

Lemma obj_set_meta_twice {k} (m m' : ObjectMeta) (o : obj_of k) :
  obj_set_meta m (obj_set_meta m' o) = obj_set_meta m o.
Proof. by destruct k. Qed.

#[export] Hint Rewrite @obj_meta_set @obj_set_meta_twice : pgpilot_rw.
