(* ===== verification/Api.v ===== *)
(** [api/v1]: the custom resources [PgpilotMonitor] and
    [PgpilotMetricLibrary], the validation and defaulting the generated CRDs
    attach to them through the kubebuilder markers, and the field updates the
    controllers perform. *)
From S2P Require Import Prelude GoStd GoTime Kube.
From Stdlib Require Import ZArith.
Open Scope Z_scope.

(** ** pgpilotmetriclibrary_types.go *)
Record MetricDefinition := mkMetricDefinition {
  md_Name : string;
  md_Description : string;
  md_Interval : option Z;  (* *metav1.Duration, in nanoseconds *)
  md_SQLs : gmap string string;
  md_Gauges : list string;
  md_StatementTimeoutSeconds : Z;
  md_MasterOnly : bool;
  md_StandbyOnly : bool;
  md_IsInstanceLevel : bool
}.

Record PgpilotMetricLibrarySpec := mkLibrarySpec { ls_Metrics : list MetricDefinition }.

Record PgpilotMetricLibraryStatus := mkLibraryStatus {
  lst_ObservedGeneration : Z;
  lst_Conditions : list Condition
}.

Record PgpilotMetricLibrary := mkLibrary {
  lib_ObjectMeta : ObjectMeta;
  lib_Spec : PgpilotMetricLibrarySpec;
  lib_Status : PgpilotMetricLibraryStatus
}.

(** ** pgpilotmonitor_types.go *)
Definition SSLMode := string.
Definition SSLModeDisable : SSLMode := "disable".
Definition SSLModeAllow : SSLMode := "allow".
Definition SSLModePrefer : SSLMode := "prefer".
Definition SSLModeRequire : SSLMode := "require".
Definition SSLModeVerifyCA : SSLMode := "verify-ca".
Definition SSLModeVerifyFull : SSLMode := "verify-full".
Definition SSLModes : list SSLMode :=
  [SSLModeDisable; SSLModeAllow; SSLModePrefer; SSLModeRequire; SSLModeVerifyCA; SSLModeVerifyFull].

Record CredentialsSecretRef := mkCredentialsSecretRef {
  csr_Name : string;
  csr_UsernameKey : string;
  csr_PasswordKey : string
}.

Record DatabaseRef := mkDatabaseRef {
  db_Host : string;
  db_Port : Z;
  db_Database : string;
  db_SSLMode : SSLMode;
  db_Username : string;
  db_Password : string;
  db_CredentialsSecret : option CredentialsSecretRef;
  db_CustomTags : gmap string string
}.

Record LibraryRef := mkLibraryRef { lr_Name : string }.

Record MetricsSpec := mkMetricsSpec {
  ms_Preset : string;
  ms_FromLibraries : list LibraryRef;
  ms_Custom : list MetricDefinition
}.

Record PrometheusSink := mkPrometheusSink { prom_Enabled : bool; prom_Port : Z }.
Record GRPCTLS := mkGRPCTLS { tls_CASecretRef : string }.
Record GRPCSink := mkGRPCSink {
  grpc_Enabled : bool;
  grpc_Endpoint : string;
  grpc_TLS : option GRPCTLS
}.
Record SinksSpec := mkSinksSpec {
  sinks_Prometheus : option PrometheusSink;
  sinks_GRPC : option GRPCSink
}.

Record ImageSpec := mkImageSpec {
  img_Repository : string;
  img_Tag : string;
  img_PullPolicy : string
}.

Record ObjectMetadataOverrides := mkOverrides {
  ov_Labels : gmap string string;
  ov_Annotations : gmap string string
}.

Record PgpilotMonitorSpec := mkMonitorSpec {
  spec_Database : DatabaseRef;
  spec_Metrics : MetricsSpec;
  spec_Sinks : SinksSpec;
  spec_Resources : ResourceRequirements;
  spec_Image : ImageSpec;
  spec_PodMetadata : ObjectMetadataOverrides;
  spec_ServiceMetadata : ObjectMetadataOverrides
}.

Record PgpilotMonitorStatus := mkMonitorStatus {
  st_Ready : bool;
  st_PodName : string;
  st_ObservedGeneration : Z;
  st_ConfigHash : string;
  st_LastReconciled : option Time;
  st_Conditions : list Condition
}.

Record PgpilotMonitor := mkMonitor {
  mon_ObjectMeta : ObjectMeta;
  mon_Spec : PgpilotMonitorSpec;
  mon_Status : PgpilotMonitorStatus
}.

(** Promoted fields of the embedded [ObjectMeta]. *)
Definition mon_Name (m : PgpilotMonitor) : string := om_Name (mon_ObjectMeta m).
Definition mon_Namespace (m : PgpilotMonitor) : string := om_Namespace (mon_ObjectMeta m).
Definition mon_Generation (m : PgpilotMonitor) : Z := om_Generation (mon_ObjectMeta m).
Definition mon_key (m : PgpilotMonitor) : NamespacedName := meta_key (mon_ObjectMeta m).
Definition lib_key (l : PgpilotMetricLibrary) : NamespacedName := meta_key (lib_ObjectMeta l).
Definition lib_Name (l : PgpilotMetricLibrary) : string := om_Name (lib_ObjectMeta l).
Definition lib_Namespace (l : PgpilotMetricLibrary) : string := om_Namespace (lib_ObjectMeta l).

(** Assignments to fields of a monitor. *)
Definition set_meta (om : ObjectMeta) (m : PgpilotMonitor) : PgpilotMonitor :=
  mkMonitor om (mon_Spec m) (mon_Status m).
Definition set_status (s : PgpilotMonitorStatus) (m : PgpilotMonitor) : PgpilotMonitor :=
  mkMonitor (mon_ObjectMeta m) (mon_Spec m) s.
Definition on_status (f : PgpilotMonitorStatus → PgpilotMonitorStatus) (m : PgpilotMonitor) : PgpilotMonitor :=
  set_status (f (mon_Status m)) m.

Definition st_set_Ready (b : bool) (s : PgpilotMonitorStatus) : PgpilotMonitorStatus :=
  mkMonitorStatus b (st_PodName s) (st_ObservedGeneration s) (st_ConfigHash s)
    (st_LastReconciled s) (st_Conditions s).
Definition st_set_PodName (n : string) (s : PgpilotMonitorStatus) : PgpilotMonitorStatus :=
  mkMonitorStatus (st_Ready s) n (st_ObservedGeneration s) (st_ConfigHash s)
    (st_LastReconciled s) (st_Conditions s).
Definition st_set_ObservedGeneration (g : Z) (s : PgpilotMonitorStatus) : PgpilotMonitorStatus :=
  mkMonitorStatus (st_Ready s) (st_PodName s) g (st_ConfigHash s)
    (st_LastReconciled s) (st_Conditions s).
Definition st_set_ConfigHash (h : string) (s : PgpilotMonitorStatus) : PgpilotMonitorStatus :=
  mkMonitorStatus (st_Ready s) (st_PodName s) (st_ObservedGeneration s) h
    (st_LastReconciled s) (st_Conditions s).
Definition st_set_LastReconciled (t : Time) (s : PgpilotMonitorStatus) : PgpilotMonitorStatus :=
  mkMonitorStatus (st_Ready s) (st_PodName s) (st_ObservedGeneration s) (st_ConfigHash s)
    (Some t) (st_Conditions s).
Definition st_set_Conditions (cs : list Condition) (s : PgpilotMonitorStatus) : PgpilotMonitorStatus :=
  mkMonitorStatus (st_Ready s) (st_PodName s) (st_ObservedGeneration s) (st_ConfigHash s)
    (st_LastReconciled s) cs.

(** ** Admission: the validation markers *)

(** [has(self.f)] for a field with [omitempty] and [MinLength=1]. *)
Definition has (s : string) : bool := nonempty s.
Definition has_ref {A} (o : option A) : bool := bool_decide (is_Some o).

(** A port with [Minimum=1], [Maximum=65535], absent when zero. *)
Definition valid_port (p : Z) : bool := (p =? 0) || ((1 <=? p) && (p <=? 65535)).

(** The three XValidation rules of [DatabaseRef]. *)
Definition valid_credentials (d : DatabaseRef) : bool :=
  xorb (has (db_Username d) && has (db_Password d)) (has_ref (db_CredentialsSecret d))
  && (negb (has (db_Username d)) || has (db_Password d))
  && (negb (has (db_Password d)) || has (db_Username d)).

Definition valid_database (d : DatabaseRef) : bool :=
  valid_credentials d && has (db_Host d) && has (db_Database d) && valid_port (db_Port d)
  && (negb (has (db_SSLMode d)) || bool_decide (db_SSLMode d ∈ SSLModes))
  && match db_CredentialsSecret d with Some r => has (csr_Name r) | None => true end.

Definition valid_sinks (s : SinksSpec) : bool :=
  match sinks_Prometheus s with Some p => valid_port (prom_Port p) | None => true end.

Definition PullPolicies : list string := ["Always"; "IfNotPresent"; "Never"].
Definition valid_image (i : ImageSpec) : bool :=
  negb (has (img_PullPolicy i)) || bool_decide (img_PullPolicy i ∈ PullPolicies).

(** The pattern [^[a-z_][a-z0-9_]*$] with a length from 1 to 63. *)
Definition metric_head (c : Ascii.ascii) : bool :=
  let v := byte_val c in ((97 <=? v) && (v <=? 122)) || (v =? 95).
Definition metric_tail (c : Ascii.ascii) : bool :=
  let v := byte_val c in metric_head c || ((48 <=? v) && (v <=? 57)).
Definition valid_metric_name (s : string) : bool :=
  match String.list_ascii_of_string s with
  | [] => false
  | c :: cs => metric_head c && forallb metric_tail cs
  end && (String.length s <=? 63)%nat.

Definition valid_metric (md : MetricDefinition) : bool :=
  valid_metric_name (md_Name md) && negb (bool_decide (md_SQLs md = ∅))
  && (0 <=? md_StatementTimeoutSeconds md).

(** A monitor the API server admits. *)
Definition admitted (m : PgpilotMonitor) : bool :=
  valid_database (spec_Database (mon_Spec m)) && valid_sinks (spec_Sinks (mon_Spec m))
  && forallb valid_metric (ms_Custom (spec_Metrics (mon_Spec m)))
  && forallb (λ r, has (lr_Name r)) (ms_FromLibraries (spec_Metrics (mon_Spec m)))
  && valid_image (spec_Image (mon_Spec m)).

(** A library the API server admits. *)
Definition admitted_library (l : PgpilotMetricLibrary) : bool :=
  negb (length (ls_Metrics (lib_Spec l)) =? 0)%nat && forallb valid_metric (ls_Metrics (lib_Spec l)).

(** ** Defaulting: the [default] markers of the fields the builders read *)
Definition default_port (dflt p : Z) : Z := if p =? 0 then dflt else p.

Definition default_database (d : DatabaseRef) : DatabaseRef :=
  mkDatabaseRef (db_Host d) (default_port 5432 (db_Port d)) (db_Database d)
    (or_default (db_SSLMode d) "disable") (db_Username d) (db_Password d)
    ((λ r, mkCredentialsSecretRef (csr_Name r) (or_default (csr_UsernameKey r) "username")
             (or_default (csr_PasswordKey r) "password")) <$> db_CredentialsSecret d)
    (db_CustomTags d).

Definition default_sinks (s : SinksSpec) : SinksSpec :=
  mkSinksSpec ((λ p, mkPrometheusSink (prom_Enabled p) (default_port 9187 (prom_Port p)))
                 <$> sinks_Prometheus s) (sinks_GRPC s).

Definition default_image (i : ImageSpec) : ImageSpec :=
  mkImageSpec (or_default (img_Repository i) "cybertecpostgresql/pgwatch")
    (or_default (img_Tag i) "5.1.0") (or_default (img_PullPolicy i) "IfNotPresent").

(** What the API server stores for a submitted monitor. *)
Definition defaulted (m : PgpilotMonitor) : PgpilotMonitor :=
  let s := mon_Spec m in
  mkMonitor (mon_ObjectMeta m)
    (mkMonitorSpec (default_database (spec_Database s)) (spec_Metrics s)
       (default_sinks (spec_Sinks s)) (spec_Resources s) (default_image (spec_Image s))
       (spec_PodMetadata s) (spec_ServiceMetadata s))
    (mon_Status m).

(** ** Lemmas *)

(** The three rules together: inline credentials or a reference, never both. *)
Lemma valid_credentials_cases d :
  valid_credentials d = true →
  (db_Username d ≠ "" ∧ db_Password d ≠ "" ∧ db_CredentialsSecret d = None) ∨
  (db_Username d = "" ∧ db_Password d = "" ∧ is_Some (db_CredentialsSecret d)).
Proof.
  unfold valid_credentials, has, has_ref. destruct d as [? ? ? ? u p c ?]; simpl.
  destruct u, p, c; simpl; try done; intros _; [right|left]; eauto.
Qed.

Lemma admitted_database m : admitted m = true → valid_database (spec_Database (mon_Spec m)) = true.
Proof. unfold admitted. rewrite !andb_true_iff. naive_solver. Qed.

Lemma admitted_credentials m : admitted m = true → valid_credentials (spec_Database (mon_Spec m)) = true.
Proof. intros H%admitted_database. unfold valid_database in H. rewrite !andb_true_iff in H. naive_solver. Qed.

