(* ===== verification/Fixtures.v ===== *)
(** Concrete objects on which the theorems of the development are
    instantiated: two monitors as the samples of the repository write them
    (inline credentials, a referenced Secret), a metric library, and the
    cluster objects they need. *)
From S2P Require Import Prelude GoStd GoTime Kube Api.
From Stdlib Require Import ZArith.
Open Scope Z_scope.

Definition fx_meta (name : string) (finalizers : list string) : ObjectMeta :=
  mkObjectMeta name "team-a" ("uid-" +:+ name) 3 "7" None finalizers ∅ ∅ [] [].

Definition fx_metric (name : string) (interval : option Z) (sqls : gmap string string) : MetricDefinition :=
  mkMetricDefinition name "a metric" interval sqls ["*"] 0 false false false.

Definition fx_sqls : gmap string string := list_to_map [("11", "SELECT 1"); ("14", "SELECT 2")].

Definition fx_backlog : MetricDefinition := fx_metric "backlog" (Some (90 * Second)) fx_sqls.
Definition fx_backlog_fast : MetricDefinition := fx_metric "backlog" (Some (10 * Second)) fx_sqls.

Definition fx_library : PgpilotMetricLibrary :=
  mkLibrary (fx_meta "shared" []) (mkLibrarySpec [fx_backlog; fx_metric "orders" None fx_sqls])
    (mkLibraryStatus 0 []).

Definition fx_secret_ref : CredentialsSecretRef := mkCredentialsSecretRef "creds" "username" "password".

Definition fx_database (username password : string) (ref : option CredentialsSecretRef) : DatabaseRef :=
  mkDatabaseRef "db.example" 5432 "app" "require" username password ref ∅.

Definition fx_prometheus : SinksSpec := mkSinksSpec (Some (mkPrometheusSink true 9187)) None.

Definition fx_spec (db : DatabaseRef) (preset : string) (refs : list LibraryRef)
    (custom : list MetricDefinition) : PgpilotMonitorSpec :=
  mkMonitorSpec db (mkMetricsSpec preset refs custom) fx_prometheus (mkResources ∅ ∅ [])
    (mkImageSpec "" "" "") (mkOverrides {["tier" := "gold"]} ∅) (mkOverrides ∅ ∅).

Definition fx_status : PgpilotMonitorStatus := mkMonitorStatus false "" 0 "" None [].

(** With a referenced Secret, a library and an inline override of one of its
    metrics, on top of a preset. *)
Definition fx_monitor : PgpilotMonitor :=
  mkMonitor (fx_meta "orders" [])
    (fx_spec (fx_database "" "" (Some fx_secret_ref)) "basic" [mkLibraryRef "shared"] [fx_backlog_fast]) fx_status.

(** With inline credentials and a preset alone. *)
Definition fx_inline : PgpilotMonitor :=
  mkMonitor (fx_meta "billing" []) (fx_spec (fx_database "app" "pw" None) "basic" [] []) fx_status.

(** With neither, which admission rejects. *)
Definition fx_no_credentials : PgpilotMonitor :=
  mkMonitor (fx_meta "broken" []) (fx_spec (fx_database "" "" None) "" [] []) fx_status.

(** Under deletion. *)
Definition fx_deleting : PgpilotMonitor :=
  mkMonitor (mkObjectMeta "gone" "team-a" "uid-gone" 3 "7" (Some 5) ["pgpilot.io/finalizer"; "other/finalizer"] ∅ ∅ [] [])
    (mon_Spec fx_inline) fx_status.

Definition fx_secret : Secret :=
  mkSecret (fx_meta "creds" []) (list_to_map [("username", "app"); ("password", "pw")]).

Lemma fx_sqls_decimal : ∀ k, is_Some (fx_sqls !! k) → ∃ z, in_int64 z = true ∧ k = Itoa z.
Proof.
  intros k [v Hv]. unfold fx_sqls in Hv. simpl in Hv.
  apply lookup_insert_Some in Hv as [[<- _]|[_ Hv]]; [by exists 11|].
  apply lookup_insert_Some in Hv as [[<- _]|[_ Hv]]; [by exists 14|done].
Qed.
