(* ===== verification/Labels.v ===== *)
(** [internal/builder/labels.go]: system labels, the merge of system and user
    metadata, and the name of the generated resources. *)
From S2P Require Import Prelude GoStd Kube Api.

Definition LabelAppName : string := "app.kubernetes.io/name".
Definition LabelAppInstance : string := "app.kubernetes.io/instance".
Definition LabelAppManagedBy : string := "app.kubernetes.io/managed-by".
Definition LabelAppComponent : string := "app.kubernetes.io/component".
Definition LabelMonitorName : string := "pgpilot.io/monitor".
Definition AnnotationConfigHash : string := "pgpilot.io/config-hash".
Definition AppName : string := "pgpilot-monitor".
Definition ManagedBy : string := "pgpilot-operator".

Definition SystemLabels (monitorName : string) : gmap string string :=
  list_to_map [(LabelAppName, AppName); (LabelAppInstance, monitorName);
               (LabelAppManagedBy, ManagedBy); (LabelAppComponent, "pgwatch");
               (LabelMonitorName, monitorName)].

Definition MergeLabels (system user : gmap string string) : gmap string string :=
  maps_Copy (maps_Copy ∅ user) system.

Definition MergeAnnotations (system user : gmap string string) : gmap string string :=
  maps_Copy (maps_Copy ∅ user) system.

Definition ResourceName (monitorName : string) : string := "pgpilot-" +:+ monitorName.

(** The [MatchLabels] literal the Deployment, the Service, the ServiceMonitor
    and the Pod listing share. *)
Definition InstanceSelector (monitorName : string) : gmap string string :=
  list_to_map [(LabelAppInstance, monitorName); (LabelAppName, AppName)].

(** The keys the operator manages. *)
Definition SystemKeys : list string :=
  [LabelAppName; LabelAppInstance; LabelAppManagedBy; LabelAppComponent; LabelMonitorName].

(** ** Lemmas *)
Lemma MergeLabels_lookup system user k :
  MergeLabels system user !! k = match system !! k with Some v => Some v | None => user !! k end.
Proof. unfold MergeLabels. rewrite !maps_Copy_lookup, lookup_empty. by destruct (system !! k), (user !! k). Qed.

Lemma MergeAnnotations_lookup system user k :
  MergeAnnotations system user !! k = match system !! k with Some v => Some v | None => user !! k end.
Proof. apply MergeLabels_lookup. Qed.

(** Nothing the user gives can displace a system pair. *)
Lemma MergeLabels_system system user : system ⊆ MergeLabels system user.
Proof. apply map_subseteq_spec. intros k v Hk. by rewrite MergeLabels_lookup, Hk. Qed.

Lemma dom_SystemLabels n : dom (SystemLabels n) = list_to_set SystemKeys.
Proof. unfold SystemLabels. rewrite dom_list_to_map_L. done. Qed.

Lemma InstanceSelector_system n : InstanceSelector n ⊆ SystemLabels n.
Proof.
  apply map_subseteq_spec. intros k v. unfold InstanceSelector, SystemLabels. simpl.
  rewrite !lookup_insert. repeat case_decide; subst; done.
Qed.

Lemma selector_merged n user : InstanceSelector n ⊆ MergeLabels (SystemLabels n) user.
Proof. etrans; [apply InstanceSelector_system|apply MergeLabels_system]. Qed.

Lemma InstanceSelector_instance n : InstanceSelector n !! LabelAppInstance = Some n.
Proof. apply lookup_insert_eq. Qed.

Lemma SystemLabels_instance n : SystemLabels n !! LabelAppInstance = Some n.
Proof. eapply lookup_weaken; [apply InstanceSelector_instance|apply InstanceSelector_system]. Qed.

#[export] Hint Resolve MergeLabels_system InstanceSelector_system selector_merged : pgpilot.

(** ** Properties *)

(** System metadata always wins and user metadata is otherwise kept: on a
    key of [SystemLabels] the merge has the system value whatever the user
    asked for, on any other key it has exactly the user's value; keys under
    the same prefixes that are not one of the five system keys are therefore
    left to the user. *)
Theorem merge_system_wins n user k :
  MergeLabels (SystemLabels n) user !! k =
    (if decide (k ∈ SystemKeys) then SystemLabels n !! k else user !! k).
Proof.
  rewrite MergeLabels_lookup.
  assert (k ∈ dom (SystemLabels n) ↔ k ∈ SystemKeys) as Hdom.
  { by rewrite dom_SystemLabels, elem_of_list_to_set. }
  case_decide as Hk.
  - apply Hdom, elem_of_dom in Hk as [v Hv]. by rewrite Hv.
  - rewrite <-Hdom, not_elem_of_dom in Hk. by rewrite Hk.
Qed.
