(* ===== verification/Metrics.v ===== *)
(** [internal/builder/metrics_merge.go]: the effective metric set of a
    monitor, from its libraries and its inline metrics. *)
From S2P Require Import Prelude GoStd GoTime Kube Api Fixtures.
From Stdlib Require Import ZArith.
Open Scope Z_scope.

Record MetricDef := mkMetricDef {
  def_SQLs : gmap Z string;
  def_Gauges : list string;
  def_IsInstanceLevel : bool;
  def_NodeStatus : string;
  def_Description : string
}.

Record MergedMetrics := mkMergedMetrics {
  mm_Preset : string;
  mm_Intervals : gmap string Z;
  mm_Definitions : gmap string MetricDef
}.

Definition defaultInterval : Z := 60.

(** The interval of [addMetric], lines 70 to 76. *)
Definition metric_interval (md : MetricDefinition) : Z :=
  let interval := defaultInterval in
  let interval := match md_Interval md with Some d => SecondsInt d | None => interval end in
  if interval <=? 0 then defaultInterval else interval.

(** One turn of the loop over [md.SQLs]: a key [Atoi] refuses is skipped. *)
Definition add_sql (sqls : gmap Z string) (kv : string * string) : gmap Z string :=
  match Atoi kv.1 with Some ver => <[ver := kv.2]> sqls | None => sqls end.

Definition node_status (md : MetricDefinition) : string :=
  if md_MasterOnly md then "primary" else if md_StandbyOnly md then "standby" else "".

(** The loop [for verStr, sql := range md.SQLs], in the order [o] gives. *)
Definition convert_sqls (o : MapOrder) (sqls : gmap string string) : gmap Z string :=
  foldl add_sql ∅ (range o sqls).

Definition metric_def (o : MapOrder) (md : MetricDefinition) : MetricDef :=
  mkMetricDef (convert_sqls o (md_SQLs md)) (md_Gauges md) (md_IsInstanceLevel md)
    (node_status md) (md_Description md).

Definition addMetric (o : MapOrder) (m : MergedMetrics) (md : MetricDefinition) : MergedMetrics :=
  mkMergedMetrics (mm_Preset m)
    (<[md_Name md := metric_interval md]> (mm_Intervals m))
    (<[md_Name md := metric_def o md]> (mm_Definitions m)).

Definition MergeMetrics (o : MapOrder) (spec : MetricsSpec)
    (libraries : list PgpilotMetricLibrary) : MergedMetrics :=
  let m := mkMergedMetrics (ms_Preset spec) ∅ ∅ in
  let m := foldl (λ m lib, foldl (addMetric o) m (ls_Metrics (lib_Spec lib))) m libraries in
  foldl (addMetric o) m (ms_Custom spec).

(** ** Specification: the last definition of a name *)

(** All definitions in the order they are merged. *)
Definition all_metrics (spec : MetricsSpec) (libraries : list PgpilotMetricLibrary) :
    list MetricDefinition :=
  concat (map (λ l, ls_Metrics (lib_Spec l)) libraries) ++ ms_Custom spec.

(** The last element of a list with a given name. *)
Fixpoint last_named (n : string) (l : list MetricDefinition) : option MetricDefinition :=
  match l with
  | [] => None
  | md :: l' =>
      match last_named n l' with
      | Some r => Some r
      | None => if bool_decide (md_Name md = n) then Some md else None
      end
  end.

(** No two version keys of a metric denote the same number. *)
Definition versions_distinct (sqls : gmap string string) : Prop :=
  ∀ k1 k2 v, is_Some (sqls !! k1) → is_Some (sqls !! k2) →
    Atoi k1 = Some v → Atoi k2 = Some v → k1 = k2.

(** ** Lemmas *)
Lemma fold_addMetric o l m :
  foldl (addMetric o) m l = mkMergedMetrics (mm_Preset m)
    (foldl (λ i md, <[md_Name md := metric_interval md]> i) (mm_Intervals m) l)
    (foldl (λ d md, <[md_Name md := metric_def o md]> d) (mm_Definitions m) l).
Proof. revert m. induction l as [|md l IH]; intros m; [by destruct m|]. simpl. by rewrite IH. Qed.

Lemma fold_libraries o libs m :
  foldl (λ m lib, foldl (addMetric o) m (ls_Metrics (lib_Spec lib))) m libs =
  foldl (addMetric o) m (concat (map (λ l, ls_Metrics (lib_Spec l)) libs)).
Proof. revert m. induction libs as [|l libs IH]; intros m; [done|]. simpl. by rewrite IH, foldl_app. Qed.

(** The nested loops are one loop over all definitions. *)
Lemma MergeMetrics_flat o spec libs :
  MergeMetrics o spec libs =
  foldl (addMetric o) (mkMergedMetrics (ms_Preset spec) ∅ ∅) (all_metrics spec libs).
Proof. unfold MergeMetrics, all_metrics. by rewrite fold_libraries, foldl_app. Qed.

Lemma fold_insert_lookup {V} (f : MetricDefinition → V) l (m : gmap string V) n :
  foldl (λ i md, <[md_Name md := f md]> i) m l !! n =
    match last_named n l with Some md => Some (f md) | None => m !! n end.
Proof.
  revert m. induction l as [|md l IH]; intros m; [done|]. simpl. rewrite IH.
  destruct (last_named n l); [done|]. rewrite lookup_insert. by repeat case_decide; case_bool_decide.
Qed.

Lemma last_named_elem n l md : last_named n l = Some md → md ∈ l ∧ md_Name md = n.
Proof.
  induction l as [|md' l IH]; [done|]. simpl. destruct (last_named n l) as [r|].
  - intros [= ->]. destruct IH as [? ?]; [done|]. split; [by right|done].
  - case_bool_decide; [|done]. intros [= ->]. split; [by left|done].
Qed.

Lemma last_named_is_Some n l : is_Some (last_named n l) ↔ n ∈ map md_Name l.
Proof.
  induction l as [|md l IH]; simpl.
  - split; [by intros [? ?]|by intros ?%elem_of_nil].
  - rewrite elem_of_cons, <-IH. destruct (last_named n l) as [r|]; [split; eauto|].
    case_bool_decide as Hn; [split; [by left|eauto]|].
    split; [by intros [? ?]|]. by intros [->|[? ?]].
Qed.

(** [last_named] as a split: nothing after the chosen element has the name. *)
Lemma last_named_split n l1 md l2 :
  md_Name md = n → n ∉ map md_Name l2 → last_named n (l1 ++ md :: l2) = Some md.
Proof.
  intros Hn Hl2. induction l1 as [|a l1 IH]; simpl.
  - destruct (last_named n l2) as [r|] eqn:E.
    + destruct Hl2. apply last_named_is_Some. by exists r.
    + by rewrite bool_decide_true.
  - by rewrite IH.
Qed.

Lemma MergeMetrics_Preset o spec libs : mm_Preset (MergeMetrics o spec libs) = ms_Preset spec.
Proof. by rewrite MergeMetrics_flat, fold_addMetric. Qed.

Lemma MergeMetrics_Intervals o spec libs n :
  mm_Intervals (MergeMetrics o spec libs) !! n = metric_interval <$> last_named n (all_metrics spec libs).
Proof.
  rewrite MergeMetrics_flat, fold_addMetric. simpl. rewrite fold_insert_lookup.
  by destruct (last_named n _).
Qed.

Lemma MergeMetrics_Definitions o spec libs n :
  mm_Definitions (MergeMetrics o spec libs) !! n = metric_def o <$> last_named n (all_metrics spec libs).
Proof.
  rewrite MergeMetrics_flat, fold_addMetric. simpl. rewrite fold_insert_lookup.
  by destruct (last_named n _).
Qed.

Lemma MergeMetrics_dom o spec libs :
  dom (mm_Intervals (MergeMetrics o spec libs)) = dom (mm_Definitions (MergeMetrics o spec libs)).
Proof.
  apply set_eq. intros n. rewrite !elem_of_dom, MergeMetrics_Intervals, MergeMetrics_Definitions.
  by rewrite !fmap_is_Some.
Qed.

Lemma metric_interval_pos md : 0 < metric_interval md.
Proof. unfold metric_interval, defaultInterval. case_match; case_match; lia. Qed.

Lemma SecondsInt_neg d : d ≤ 0 → SecondsInt d ≤ 0.
Proof.
  intros Hd. unfold SecondsInt. pose proof (f64_trunc_nonneg d).
  destruct (decide (d = 0)) as [->|]; [done|]. rewrite Z.sgn_neg by lia. lia.
Qed.

(** The conversion loop over a list of entries with distinct keys. *)
Lemma fold_add_sql_lookup l (acc : gmap Z string) v :
  NoDup l.*1 →
  (∀ k1 k2, k1 ∈ l.*1 → k2 ∈ l.*1 → Atoi k1 = Some v → Atoi k2 = Some v → k1 = k2) →
  (∀ k q, (k, q) ∈ l → Atoi k = Some v → foldl add_sql acc l !! v = Some q) ∧
  ((∀ k, k ∈ l.*1 → Atoi k ≠ Some v) → foldl add_sql acc l !! v = acc !! v).
Proof.
  revert acc. induction l as [|[k q] l IH]; intros acc Hnd Hd; simpl.
  { split; [by intros ?? ?%elem_of_nil|done]. }
  simpl in Hnd. apply NoDup_cons in Hnd as [Hk Hnd].
  destruct (IH (add_sql acc (k, q)) Hnd) as [IH1 IH2].
  { intros. apply Hd; by try right. }
  assert (∀ acc', Atoi k ≠ Some v → add_sql acc' (k, q) !! v = acc' !! v) as Hskip.
  { intros acc' Hne. unfold add_sql. simpl. destruct (Atoi k); [|done].
    rewrite lookup_insert_ne; naive_solver. }
  split.
  - intros k' q' [[= -> ->]|Hin]%elem_of_cons Ha; [|by eapply IH1].
    rewrite IH2.
    + unfold add_sql. simpl. rewrite Ha. apply lookup_insert_eq.
    + intros k2 Hk2 Ha2. destruct Hk. replace k with k2; [done|]. apply Hd; [by right|left|done..].
  - intros Hno. rewrite IH2, Hskip; [done|apply Hno; left|]. intros k' Hk'. apply Hno. by right.
Qed.

(** Under distinct version numbers the converted map is described without any
    reference to the iteration order. *)
Lemma convert_sqls_lookup o sqls v q :
  versions_distinct sqls →
  convert_sqls o sqls !! v = Some q ↔ ∃ k, sqls !! k = Some q ∧ Atoi k = Some v.
Proof.
  intros Hd.
  assert (∀ k, k ∈ (range o sqls).*1 ↔ is_Some (sqls !! k)) as Hkeys.
  { intros k. rewrite list_elem_of_fmap. split.
    - intros ([k' q'] & -> & Hin%range_elem). by exists q'.
    - intros [q' Hq']. exists (k, q'). split; [done|]. by apply range_elem. }
  destruct (fold_add_sql_lookup (range o sqls) ∅ v) as [Hin Hout].
  { apply range_keys_NoDup. }
  { intros k1 k2 H1%Hkeys H2%Hkeys. by apply Hd. }
  split; [|intros (k & Hk & Ha); eapply Hin; [by apply range_elem|done]].
  intros Hq. unfold convert_sqls in Hq.
  destruct (decide (Exists (λ kv, Atoi kv.1 = Some v) (range o sqls))) as [Hex|Hno].
  - apply Exists_exists in Hex as ([k q'] & Hkin & Ha). simpl in Ha. exists k.
    rewrite (Hin k q' Hkin Ha) in Hq. apply range_elem in Hkin. by simplify_eq.
  - rewrite Hout in Hq; [by rewrite lookup_empty in Hq|].
    intros k Hk Ha. apply Hno. apply Exists_exists.
    apply list_elem_of_fmap in Hk as ([k' q'] & -> & Hk). by exists (k', q').
Qed.

Lemma convert_sqls_order o1 o2 sqls :
  versions_distinct sqls → convert_sqls o1 sqls = convert_sqls o2 sqls.
Proof. intros Hd. apply map_eq. intros v. apply option_eq. intros q. by rewrite !convert_sqls_lookup. Qed.

Lemma metric_def_order o1 o2 md :
  versions_distinct (md_SQLs md) → metric_def o1 md = metric_def o2 md.
Proof. intros Hd. unfold metric_def. by rewrite (convert_sqls_order o1 o2). Qed.

Lemma MergeMetrics_order o1 o2 spec libs :
  Forall (λ md, versions_distinct (md_SQLs md)) (all_metrics spec libs) →
  MergeMetrics o1 spec libs = MergeMetrics o2 spec libs.
Proof.
  intros Hall. rewrite !MergeMetrics_flat, !fold_addMetric. f_equal.
  apply map_eq. intros n. rewrite !fold_insert_lookup.
  destruct (last_named n _) as [md|] eqn:E; [|done]. f_equal. apply metric_def_order.
  apply last_named_elem in E as [E _]. by eapply Forall_forall in Hall.
Qed.

(** Keys written as plain decimal numbers that fit an [int] denote distinct
    numbers, so the hypothesis of the determinism of [MergeMetrics] holds for
    them; the parser accepts exactly one such spelling per number. *)
Lemma decimal_versions_distinct sqls :
  (∀ k, is_Some (sqls !! k) → ∃ z, in_int64 z = true ∧ k = Itoa z) → versions_distinct sqls.
Proof.
  intros Hdec k1 k2 v H1 H2.
  destruct (Hdec k1 H1) as (z1 & Hz1 & ->), (Hdec k2 H2) as (z2 & Hz2 & ->).
  rewrite !Atoi_Itoa_check, !atoi_check_in by done. by intros [= ->] [= ->].
Qed.

Lemma fx_versions : Forall (λ md, versions_distinct (md_SQLs md)) (all_metrics (spec_Metrics (mon_Spec fx_monitor)) [fx_library]).
Proof. repeat constructor; apply decimal_versions_distinct, fx_sqls_decimal. Qed.

(** ** Properties *)

(** C25 Whatever the iteration order, the merged set gives every metric name the
    interval and the definition of its last occurrence in the concatenation of
    the libraries (in the listed order) and the inline metrics, names no other
    metric, and passes the preset through. *)
Theorem MergeMetrics_last_wins o spec libs :
  mm_Preset (MergeMetrics o spec libs) = ms_Preset spec ∧
  ∀ n, mm_Intervals (MergeMetrics o spec libs) !! n
         = metric_interval <$> last_named n (all_metrics spec libs) ∧
       mm_Definitions (MergeMetrics o spec libs) !! n
         = metric_def o <$> last_named n (all_metrics spec libs).
Proof.
  split; [apply MergeMetrics_Preset|]. intros n.
  split; [apply MergeMetrics_Intervals|apply MergeMetrics_Definitions].
Qed.

(** An inline metric overrides every library metric of the same name: the
    merged entry is built from the last inline metric with that name, whatever
    the libraries hold. *)
Lemma inline_overrides_libraries o spec libs l1 md l2 :
  ms_Custom spec = l1 ++ md :: l2 → md_Name md ∉ map md_Name l2 →
  mm_Intervals (MergeMetrics o spec libs) !! md_Name md = Some (metric_interval md) ∧
  mm_Definitions (MergeMetrics o spec libs) !! md_Name md = Some (metric_def o md).
Proof.
  intros Hc Hl2. rewrite MergeMetrics_Intervals, MergeMetrics_Definitions. unfold all_metrics.
  rewrite Hc, app_assoc. by rewrite last_named_split.
Qed.

(** C26 When the version keys of every metric denote distinct numbers, the merged
    set does not depend on the order in which Go iterates over the maps. *)
Theorem MergeMetrics_deterministic o1 o2 spec libs :
  Forall (λ md, versions_distinct (md_SQLs md)) (all_metrics spec libs) →
  MergeMetrics o1 spec libs = MergeMetrics o2 spec libs.
Proof. apply MergeMetrics_order. Qed.

Lemma MergeMetrics_deterministic_witness :
  MergeMetrics ascending (spec_Metrics (mon_Spec fx_monitor)) [fx_library]
    = MergeMetrics descending (spec_Metrics (mon_Spec fx_monitor)) [fx_library] ∧
  size (mm_Definitions (MergeMetrics ascending (spec_Metrics (mon_Spec fx_monitor)) [fx_library])) = 2%nat.
Proof.
  split; [|vm_compute; reflexivity].
  apply (MergeMetrics_deterministic ascending descending). apply fx_versions.
Defined.

(** Two spellings of one version make the merged SQL depend on the iteration
    order of the map: with keys "13" and "013" the two orders keep different
    statements, so two reconciles of one unchanged object can produce two
    configurations. *)
Lemma version_collision_order_dependent :
  ∃ sqls : gmap string string,
    dom sqls = {["13"; "013"]} ∧
    convert_sqls ascending sqls !! 13 ≠ convert_sqls descending sqls !! 13.
Proof.
  exists (list_to_map [("13", "SELECT 1"); ("013", "SELECT 2")]).
  split; [by rewrite dom_list_to_map_L|]. vm_compute. discriminate.
Qed.

(** C39 The collection interval is always positive; it is the requested duration
    truncated to whole seconds when that is at least one second (up to 2^24
    seconds, where the float64 arithmetic is exact), and 60 otherwise: for an
    absent, negative or sub-second duration. *)
Theorem metric_interval_spec md :
  0 < metric_interval md ∧
  (md_Interval md = None → metric_interval md = 60) ∧
  ∀ d, md_Interval md = Some d → d / Second < 2 ^ 24 →
    metric_interval md = (if Second <=? d then d / Second else 60).
Proof.
  split; [apply metric_interval_pos|]. unfold metric_interval. split; [by intros ->|].
  intros d -> Hlt. destruct (Z.leb_spec Second d) as [Hd|Hd].
  - rewrite SecondsInt_trunc by (done || unfold Second in *; lia).
    assert (1 ≤ d / Second) by (apply Z.div_le_lower_bound; unfold Second in *; lia).
    destruct (Z.leb_spec (d / Second) 0); [lia|done].
  - destruct (decide (0 ≤ d)).
    + rewrite SecondsInt_trunc, Z.div_small by (done || lia). done.
    + pose proof (SecondsInt_neg d). destruct (Z.leb_spec (SecondsInt d) 0); [done|lia].
Qed.

(** The bound of 2^24 seconds is tight: at that many seconds plus
    0.999999999 s the float64 sum rounds up, and the interval is one second
    more than the truncated duration. *)
Lemma metric_interval_rounds_up md :
  md_Interval md = Some (2 ^ 24 * Second + 999999999) → metric_interval md = 2 ^ 24 + 1.
Proof. unfold metric_interval. by intros ->. Qed.
