(* ===== verification/ConfigMap.v ===== *)
(** [internal/builder/configmap.go] and [internal/builder/pgwatch_builtin.go]:
    the two pgwatch files, the ConfigMap that carries them, and its content
    hash.

    The YAML libraries are interfaces here (class [Yaml]); the embedded copy
    of pgwatch's metrics.yaml, a data file, is the class [Embedded]. *)
From S2P Require Import Prelude GoStd GoTime Sha256 Kube Api Fixtures Labels Metrics.
From Stdlib Require Import ZArith Ascii.
Open Scope Z_scope.

Definition SourcesKey : string := "sources.yaml".
Definition MetricsKey : string := "metrics.yaml".

(** ** File structures *)
Record pgwatchSource := mkSource {
  src_Name : string;
  src_ConnStr : string;
  src_Kind : string;
  src_PresetMetrics : string;
  src_CustomMetrics : gmap string Z;
  src_IsEnabled : bool;
  src_CustomTags : gmap string string
}.

Record pgwatchMetric := mkMetric {
  pm_InitSQL : string;
  pm_SQLs : gmap Z string;
  pm_Gauges : list string;
  pm_IsInstanceLevel : bool;
  pm_NodeStatus : string;
  pm_StorageName : string;
  pm_Description : string
}.

Record pgwatchPreset := mkPreset { pp_Description : string; pp_Metrics : gmap string Z }.

Record pgwatchMetricsFile := mkMetricsFile {
  mf_Metrics : gmap string pgwatchMetric;
  mf_Presets : gmap string pgwatchPreset
}.

(** The anonymous struct [loadBuiltinMetrics] unmarshals into; a section
    missing from the file leaves a nil map. *)
Record parsedBuiltin := mkParsed {
  parsed_Metrics : option (gmap string pgwatchMetric);
  parsed_Presets : option (gmap string pgwatchPreset)
}.

(** ** Interfaces *)

(** [sigs.k8s.io/yaml.Marshal] on a source list, [gopkg.in/yaml.v3]'s
    [Marshal] on a metrics file and [Unmarshal] into [parsedBuiltin]. *)
Class Yaml := {
  yaml_Marshal : list pgwatchSource → result string;
  yamlv3_Marshal : pgwatchMetricsFile → result string;
  yamlv3_Unmarshal : string → result parsedBuiltin
}.

(** The emitters write no NUL byte: YAML excludes it from its character set,
    and both libraries escape it. *)
Class YamlLaws `{Yaml} : Prop := {
  yaml_Marshal_no_nul x s : yaml_Marshal x = Ok s → has_byte "000" s = false;
  yamlv3_Marshal_no_nul x s : yamlv3_Marshal x = Ok s → has_byte "000" s = false
}.

(** [builtinMetricsYAML]. *)
Class Embedded := builtinMetricsYAML : string.

(** ** contentHash *)

(** The bytes one key contributes: [k], NUL, [data[k]], NUL. *)
Definition hash_entry (data : gmap string string) (k : string) : string :=
  k +:+ String "000" (map_get data k +:+ String "000" EmptyString).

(** Everything written to the hash, in the order of the loop. *)
Definition hash_stream (o : MapOrder) (data : gmap string string) : string :=
  let keys := sort_Strings (range o data).*1 in
  foldl (λ h k, h +:+ hash_entry data k) "" keys.

Definition contentHash (o : MapOrder) (data : gmap string string) : string :=
  hex (sha256 (hash_stream o data)).

(** ** sources.yaml *)
Definition buildConnStr (db : DatabaseRef) : string :=
  let port := if db_Port db =? 0 then 5432 else db_Port db in
  let sslmode := or_default (db_SSLMode db) SSLModeDisable in
  "postgresql://" +:+ db_Host db +:+ ":" +:+ Itoa port +:+ "/" +:+ db_Database db
    +:+ "?sslmode=" +:+ sslmode.

Definition with_custom (cm : gmap string Z) (s : pgwatchSource) : pgwatchSource :=
  mkSource (src_Name s) (src_ConnStr s) (src_Kind s) (src_PresetMetrics s) cm
    (src_IsEnabled s) (src_CustomTags s).
Definition with_preset (p : string) (s : pgwatchSource) : pgwatchSource :=
  mkSource (src_Name s) (src_ConnStr s) (src_Kind s) p (src_CustomMetrics s)
    (src_IsEnabled s) (src_CustomTags s).

(** [len(m) == 0]. *)
Definition is_empty {V} (m : gmap string V) : bool := (size m =? 0)%nat.

Section Render.
Context `{Y : Yaml} `{E : Embedded}.

(** *** pgwatch_builtin.go *)
Definition loadBuiltinMetrics : result (gmap string pgwatchMetric * gmap string pgwatchPreset) :=
  match yamlv3_Unmarshal builtinMetricsYAML with
  | Err e => Err (ErrWrap "parse embedded pgwatch metrics.yaml" e)
  | Ok parsed => Ok (default ∅ (parsed_Metrics parsed), default ∅ (parsed_Presets parsed))
  end.

Definition expandPresetIntoIntervals (presetName : string) (userIntervals : gmap string Z) :
    result (gmap string Z) :=
  (try (_, presets) := loadBuiltinMetrics in
   match presets !! presetName with
   | None => Err (ErrNew ("unknown pgwatch preset " +:+ Quote presetName))
   | Some preset => Ok (maps_Copy (maps_Copy ∅ (pp_Metrics preset)) userIntervals)
   end)%go.

(** *** renderSources *)

(** The source entry, lines 85 to 112. *)
Definition sources_entry (monitor : PgpilotMonitor) (merged : MergedMetrics) :
    result pgwatchSource :=
  let db := spec_Database (mon_Spec monitor) in
  let src := mkSource (mon_Name monitor) (buildConnStr db) "postgres" "" ∅ true
               (db_CustomTags db) in
  if nonempty (mm_Preset merged) && negb (is_empty (mm_Intervals merged)) then
    (try expanded := expandPresetIntoIntervals (mm_Preset merged) (mm_Intervals merged) in
     Ok (with_custom expanded src))%go
  else if nonempty (mm_Preset merged) then Ok (with_preset (mm_Preset merged) src)
  else if negb (is_empty (mm_Intervals merged)) then Ok (with_custom (mm_Intervals merged) src)
  else Ok src.

Definition renderSources (monitor : PgpilotMonitor) (merged : MergedMetrics) : result string :=
  (try src := sources_entry monitor merged in yaml_Marshal [src])%go.

(** *** renderMetrics *)
Definition metric_of_def (def : MetricDef) : pgwatchMetric :=
  mkMetric "" (def_SQLs def) (def_Gauges def) (def_IsInstanceLevel def) (def_NodeStatus def)
    "" (def_Description def).

(** The metrics file, lines 163 to 188. *)
Definition metrics_file (o : MapOrder) (merged : MergedMetrics) : result pgwatchMetricsFile :=
  let add (metrics : gmap string pgwatchMetric) :=
    foldl (λ ms kv, <[kv.1 := metric_of_def kv.2]> ms) metrics (range o (mm_Definitions merged)) in
  if nonempty (mm_Preset merged) then
    (try (bm, bp) := loadBuiltinMetrics in
     Ok (mkMetricsFile (add (maps_Copy ∅ bm)) (maps_Copy ∅ bp)))%go
  else Ok (mkMetricsFile (add ∅) ∅).

Definition renderMetrics (o : MapOrder) (merged : MergedMetrics) : result string :=
  (try mf := metrics_file o merged in yamlv3_Marshal mf)%go.

(** *** BuildConfigMap *)

(** The guard of line 46, shared with [buildArgs]. *)
Definition emits_metrics (merged : MergedMetrics) : bool :=
  nonempty (mm_Preset merged) || negb (is_empty (mm_Definitions merged)).

Definition configmap_data (o : MapOrder) (monitor : PgpilotMonitor) (merged : MergedMetrics) :
    result (gmap string string) :=
  (try sourcesYAML := wrap_err "render sources.yaml" (renderSources monitor merged) in
   let data := <[SourcesKey := sourcesYAML]> ∅ in
   if emits_metrics merged then
     try metricsYAML := wrap_err "render metrics.yaml" (renderMetrics o merged) in
     Ok (<[MetricsKey := metricsYAML]> data)
   else Ok data)%go.

Definition ConfigMapName (monitorName : string) : string := ResourceName monitorName +:+ "-config".

Definition BuildConfigMap (o : MapOrder) (monitor : PgpilotMonitor) (merged : MergedMetrics) :
    result (ConfigMap * string) :=
  (try data := configmap_data o monitor merged in
   let hash := contentHash o data in
   let cm := mkConfigMap (mkTypeMeta "v1" "ConfigMap")
               (objectMeta (ConfigMapName (mon_Name monitor)) (mon_Namespace monitor)
                  (SystemLabels (mon_Name monitor)) ∅) data in
   Ok (cm, hash))%go.
End Render.

(** ** Specifications *)

(** [strings.Cut]. *)
Fixpoint cut (c : ascii) (s : string) : option (string * string) :=
  match s with
  | EmptyString => None
  | String c' s' =>
      if bool_decide (c' = c) then Some (EmptyString, s')
      else match cut c s' with Some (a, b) => Some (String c' a, b) | None => None end
  end.

Fixpoint strip_prefix (p s : string) : option string :=
  match p, s with
  | EmptyString, _ => Some s
  | String c p', String c' s' => if bool_decide (c = c') then strip_prefix p' s' else None
  | _, _ => None
  end.

(** A reader of PostgreSQL connection URIs with one host and one option:
    host, port, database and sslmode. *)
Definition parse_conn (s : string) : option (string * Z * string * string) :=
  s ← strip_prefix "postgresql://" s;
  '(host, s) ← cut ":" s;
  '(port, s) ← cut "/" s;
  '(database, s) ← cut "?" s;
  sslmode ← strip_prefix "sslmode=" s;
  port ← Atoi port;
  Some (host, port, database, sslmode).

(** A monitor with other credentials. *)
Definition with_credentials (u p : string) (c : option CredentialsSecretRef)
    (m : PgpilotMonitor) : PgpilotMonitor :=
  let s := mon_Spec m in
  let d := spec_Database s in
  mkMonitor (mon_ObjectMeta m)
    (mkMonitorSpec (mkDatabaseRef (db_Host d) (db_Port d) (db_Database d) (db_SSLMode d) u p c
                      (db_CustomTags d))
       (spec_Metrics s) (spec_Sinks s) (spec_Resources s) (spec_Image s)
       (spec_PodMetadata s) (spec_ServiceMetadata s)) (mon_Status m).

(** ** Lemmas *)
Lemma is_empty_true {V} (m : gmap string V) : is_empty m = true ↔ m = ∅.
Proof. unfold is_empty. rewrite Nat.eqb_eq. apply map_size_empty_iff. Qed.

Lemma is_empty_false {V} (m : gmap string V) : is_empty m = false ↔ m ≠ ∅.
Proof. rewrite <-is_empty_true. by destruct (is_empty m). Qed.

(** *** The hash *)
Lemma sorted_keys_order {V} o1 o2 (m : gmap string V) :
  sort_Strings (range o1 m).*1 = sort_Strings (range o2 m).*1.
Proof. apply sort_Strings_perm. by rewrite (range_perm_orders o1 o2). Qed.

Lemma hash_stream_order o1 o2 data : hash_stream o1 data = hash_stream o2 data.
Proof. unfold hash_stream. by rewrite (sorted_keys_order o1 o2). Qed.

Lemma contentHash_order_irrel o1 o2 data : contentHash o1 data = contentHash o2 data.
Proof. unfold contentHash. by rewrite (hash_stream_order o1 o2). Qed.

Lemma length_contentHash o data : String.length (contentHash o data) = 64%nat.
Proof. unfold contentHash. by rewrite length_hex, length_sha256. Qed.

(** The stream as the concatenation of its entries. *)
Fixpoint stream_of (data : gmap string string) (ks : list string) : string :=
  match ks with [] => "" | k :: ks' => hash_entry data k +:+ stream_of data ks' end.

(** What the hash is to fingerprint: for each key in ascending order, the key
    and its value, each followed by a NUL. *)
Definition payload_bytes (data : gmap string string) : string :=
  stream_of data (sort_Strings (range ascending data).*1).

Lemma hash_stream_of o data : hash_stream o data = stream_of data (sort_Strings (range o data).*1).
Proof.
  unfold hash_stream. generalize (sort_Strings (range o data).*1). intros ks.
  enough (∀ h, foldl (λ h k, h +:+ hash_entry data k) h ks = h +:+ stream_of data ks) as Hg by apply Hg.
  induction ks as [|k ks IH]; intros h; simpl; [by rewrite append_nil_r|].
  by rewrite IH, append_assoc.
Qed.

(** The separator makes the stream decodable. *)
Lemma stream_of_inj d1 d2 ks1 ks2 :
  (∀ k, k ∈ ks1 → has_byte "000" k = false ∧ has_byte "000" (map_get d1 k) = false) →
  (∀ k, k ∈ ks2 → has_byte "000" k = false ∧ has_byte "000" (map_get d2 k) = false) →
  stream_of d1 ks1 = stream_of d2 ks2 →
  ks1 = ks2 ∧ ∀ k, k ∈ ks1 → map_get d1 k = map_get d2 k.
Proof.
  revert ks2. induction ks1 as [|k1 ks1 IH]; intros [|k2 ks2] H1 H2; simpl.
  - split; [done|]. by intros ? ?%elem_of_nil.
  - unfold hash_entry. rewrite !append_assoc. intros Heq. exfalso. by destruct k2.
  - unfold hash_entry. rewrite !append_assoc. intros Heq. exfalso. by destruct k1.
  - unfold hash_entry. rewrite !append_assoc, !append_cons, !append_assoc, !append_cons. intros Heq.
    destruct (H1 k1) as [Hk1 Hv1], (H2 k2) as [Hk2 Hv2]; [left..|].
    apply append_cut_inj in Heq as [-> Heq]; [|done..].
    apply append_cut_inj in Heq as [Hv Heq]; [|done..].
    destruct (IH ks2) as [-> Hrest]; [intros; apply H1; by right|intros; apply H2; by right|done|].
    split; [done|]. intros k [->|Hk]%elem_of_cons; [done|by apply Hrest].
Qed.

(** Data whose keys and values carry no NUL byte. *)
Definition nul_free (data : gmap string string) : Prop :=
  ∀ k v, data !! k = Some v → has_byte "000" k = false ∧ has_byte "000" v = false.

Lemma sorted_keys_elem {V} o (m : gmap string V) k : k ∈ sort_Strings (range o m).*1 ↔ is_Some (m !! k).
Proof.
  rewrite sort_Strings_elem, list_elem_of_fmap. split.
  - intros ([k' v] & -> & Hin%range_elem). by exists v.
  - intros [v Hv]. exists (k, v). split; [done|]. by apply range_elem.
Qed.

Lemma hash_stream_inj o1 o2 d1 d2 :
  nul_free d1 → nul_free d2 → hash_stream o1 d1 = hash_stream o2 d2 → d1 = d2.
Proof.
  intros Hn1 Hn2. rewrite !hash_stream_of. intros Heq.
  apply stream_of_inj in Heq as [Hks Hv].
  - apply map_eq. intros k.
    assert (is_Some (d1 !! k) ↔ is_Some (d2 !! k)) as Hiff.
    { by rewrite <-(sorted_keys_elem o1 d1), <-(sorted_keys_elem o2 d2), Hks. }
    destruct (d1 !! k) as [v1|] eqn:E1, (d2 !! k) as [v2|] eqn:E2; try done.
    + specialize (Hv k). unfold map_get in Hv. rewrite E1, E2 in Hv. simpl in Hv.
      rewrite Hv; [done|]. apply sorted_keys_elem. by rewrite E1.
    + destruct Hiff as [[? ?] _]; done.
    + destruct Hiff as [_ [? ?]]; done.
  - intros k [v Hk]%sorted_keys_elem. unfold map_get. rewrite Hk. simpl. by eapply Hn1.
  - intros k [v Hk]%sorted_keys_elem. unfold map_get. rewrite Hk. simpl. by eapply Hn2.
Qed.

(** *** Printing bytes in hexadecimal is injective *)
Lemma hex_digit_code n :
  0 ≤ n < 16 → Z.of_N (N_of_ascii (hex_digit n)) = if n <? 10 then 48 + n else 87 + n.
Proof.
  intros Hn. unfold hex_digit. rewrite N_ascii_embedding; destruct (Z.ltb_spec n 10); lia.
Qed.

Lemma hex_digit_inj a b : 0 ≤ a < 16 → 0 ≤ b < 16 → hex_digit a = hex_digit b → a = b.
Proof.
  intros Ha Hb Heq. pose proof (hex_digit_code a Ha) as Ca. pose proof (hex_digit_code b Hb) as Cb.
  rewrite Heq in Ca. destruct (Z.ltb_spec a 10), (Z.ltb_spec b 10); lia.
Qed.

Lemma hex_inj bs1 bs2 :
  Forall (λ b, 0 ≤ b < 256) bs1 → Forall (λ b, 0 ≤ b < 256) bs2 → hex bs1 = hex bs2 → bs1 = bs2.
Proof.
  intros H1. revert bs2. induction H1 as [|b1 bs1 Hb1 _ IH]; intros ? [|b2 bs2 Hb2 H2]; [done..|].
  unfold hex. cbn [foldr]. fold (hex bs1) (hex bs2). unfold hex_byte. rewrite !append_cons.
  change ("" +:+ hex bs1) with (hex bs1). change ("" +:+ hex bs2) with (hex bs2).
  intros [= Hhi Hlo Htl].
  apply hex_digit_inj in Hhi; [|split; [apply Z.div_pos; lia|apply Z.div_lt_upper_bound; lia]..].
  apply hex_digit_inj in Hlo; [|apply Z.mod_pos_bound; lia..].
  f_equal; [|by apply IH]. rewrite (Z.div_mod b1 16), (Z.div_mod b2 16) by done. lia.
Qed.

Lemma sha256_bytes s : Forall (λ b, 0 ≤ b < 256) (sha256 s).
Proof.
  unfold sha256. apply Forall_concat, Forall_map, Forall_true. intros w. unfold be_bytes.
  apply Forall_reverse, Forall_map, Forall_true. intros i. by apply Z.mod_pos_bound.
Qed.

Lemma contentHash_eq_or_collision o1 o2 d1 d2 :
  nul_free d1 → nul_free d2 → contentHash o1 d1 = contentHash o2 d2 →
  d1 = d2 ∨ (payload_bytes d1 ≠ payload_bytes d2 ∧ sha256 (payload_bytes d1) = sha256 (payload_bytes d2)).
Proof.
  intros Hn1 Hn2 Heq. apply hex_inj in Heq; [|apply sha256_bytes..]. rewrite !hash_stream_of in Heq.
  rewrite (sorted_keys_order o1 ascending), (sorted_keys_order o2 ascending) in Heq.
  destruct (decide (payload_bytes d1 = payload_bytes d2)) as [Hs|Hs]; [left|by right].
  apply (hash_stream_inj ascending ascending); [done..|]. by rewrite !hash_stream_of.
Qed.

(** *** Rendering *)
Lemma result_bind_Ok {A B} (r : result A) (f : A → result B) b :
  result_bind r f = Ok b ↔ ∃ a, r = Ok a ∧ f a = Ok b.
Proof. destruct r; simpl; naive_solver. Qed.

Lemma result_bind_Err {A B} (r : result A) (f : A → result B) e :
  result_bind r f = Err e ↔ r = Err e ∨ ∃ a, r = Ok a ∧ f a = Err e.
Proof. destruct r; simpl; naive_solver. Qed.

Lemma wrap_err_Ok {A} p (r : result A) a : wrap_err p r = Ok a ↔ r = Ok a.
Proof. destruct r; simpl; naive_solver. Qed.

Lemma wrap_err_Err {A} p (r : result A) e : wrap_err p r = Err e ↔ ∃ e', r = Err e' ∧ e = ErrWrap p e'.
Proof. destruct r; simpl; naive_solver. Qed.

#[export] Hint Rewrite @result_bind_Ok @result_bind_Err @wrap_err_Ok @wrap_err_Err : pgpilot_rw.

Section RenderFacts.
Context `{Y : Yaml} `{E : Embedded}.

(** The override loop of [renderMetrics] is a union: custom definitions over
    the registry, in whatever order the loop runs. *)
Lemma fold_defs_union o (defs : gmap string MetricDef) ms :
  foldl (λ ms kv, <[kv.1 := metric_of_def kv.2]> ms) ms (range o defs)
    = (metric_of_def <$> defs) ∪ ms.
Proof.
  assert (∀ l (ms : gmap string pgwatchMetric),
    foldl (λ ms kv, <[kv.1 := metric_of_def kv.2]> ms) ms l
    = insert_all ms (prod_map id metric_of_def <$> l)) as Hgen.
  { induction l as [|[k d] l IH]; intros ms'; [done|]. simpl. by rewrite IH. }
  rewrite Hgen. apply map_eq. intros k. rewrite lookup_union, lookup_fmap.
  assert ((prod_map id metric_of_def <$> range o defs).*1 = (range o defs).*1) as Hk.
  { rewrite <-list_fmap_compose. by apply list_fmap_ext. }
  pose proof (range_keys_NoDup o defs) as Hnd.
  destruct (defs !! k) as [d|] eqn:Ed; simpl.
  - apply range_elem with (o := o) in Ed. rewrite union_Some_l.
    apply insert_all_in; [by rewrite Hk|]. apply list_elem_of_fmap. by exists (k, d).
  - rewrite insert_all_not_in; [by destruct (ms !! k)|]. rewrite Hk, list_elem_of_fmap.
    intros ([k' d'] & -> & Hin%range_elem). simpl in Ed. by rewrite Hin in Ed.
Qed.

Lemma metrics_file_cases o merged mf :
  metrics_file o merged = Ok mf ↔
  (∃ bm bp, mm_Preset merged ≠ "" ∧ loadBuiltinMetrics = Ok (bm, bp) ∧
     mf = mkMetricsFile ((metric_of_def <$> mm_Definitions merged) ∪ bm) bp) ∨
  (mm_Preset merged = "" ∧ mf = mkMetricsFile (metric_of_def <$> mm_Definitions merged) ∅).
Proof.
  unfold metrics_file. rewrite fold_defs_union, (right_id_L ∅ (∪)).
  destruct (nonempty (mm_Preset merged)) eqn:Ep.
  - apply nonempty_true in Ep. rewrite result_bind_Ok. split.
    + intros ([bm bp] & Hl & [= <-]). left. exists bm, bp. rewrite fold_defs_union.
      unfold maps_Copy. by rewrite !(right_id_L ∅ (∪)).
    + intros [(bm & bp & _ & Hl & ->)|[? _]]; [|done]. exists (bm, bp). split; [done|].
      rewrite fold_defs_union. unfold maps_Copy. by rewrite !(right_id_L ∅ (∪)).
  - apply nonempty_false in Ep. split; [intros [= <-]; by right|].
    by intros [(? & ? & ? & _)|[_ ->]].
Qed.

Lemma metrics_file_order o1 o2 merged : metrics_file o1 merged = metrics_file o2 merged.
Proof.
  unfold metrics_file. rewrite !fold_defs_union. case_match; [|done].
  destruct loadBuiltinMetrics as [[bm bp]|]; [|done]. simpl. by rewrite !fold_defs_union.
Qed.

Lemma configmap_data_order o1 o2 m merged :
  configmap_data o1 m merged = configmap_data o2 m merged.
Proof. unfold configmap_data, renderMetrics. by rewrite (metrics_file_order o1 o2). Qed.

Lemma BuildConfigMap_order o1 o2 m merged : BuildConfigMap o1 m merged = BuildConfigMap o2 m merged.
Proof.
  unfold BuildConfigMap. rewrite (configmap_data_order o1 o2).
  destruct (configmap_data o2 m merged); [|done]. simpl. by rewrite (contentHash_order_irrel o1 o2).
Qed.

Lemma BuildConfigMap_Ok o m merged cm h :
  BuildConfigMap o m merged = Ok (cm, h) →
  ∃ data, configmap_data o m merged = Ok data ∧ h = contentHash o data ∧ cm_Data cm = data ∧
    cm_ObjectMeta cm = objectMeta (ConfigMapName (mon_Name m)) (mon_Namespace m)
                         (SystemLabels (mon_Name m)) ∅.
Proof. unfold BuildConfigMap. intros (data & Hd & [= <- <-])%result_bind_Ok. by exists data. Qed.

Lemma expandPreset_Ok p user cm :
  expandPresetIntoIntervals p user = Ok cm ↔
  ∃ bm bp preset, loadBuiltinMetrics = Ok (bm, bp) ∧ bp !! p = Some preset ∧
    cm = user ∪ pp_Metrics preset.
Proof.
  unfold expandPresetIntoIntervals. rewrite result_bind_Ok. split.
  - intros ([bm bp] & Hl & Hp). destruct (bp !! p) as [preset|] eqn:Eq; [|done].
    injection Hp as <-. exists bm, bp, preset. split_and!; [done..|].
    unfold maps_Copy. by rewrite (right_id_L ∅ (∪)).
  - intros (bm & bp & preset & Hl & Hp & ->). exists (bm, bp). split; [done|].
    rewrite Hp. unfold maps_Copy. by rewrite (right_id_L ∅ (∪)).
Qed.
End RenderFacts.



Lemma pretty_N_go_no_byte c x s :
  has_byte c s = false → (∀ d, (d < 10)%N → pretty_N_char d ≠ c) → has_byte c (pretty_N_go x s) = false.
Proof.
  intros Hs Hd. revert s Hs. induction (N.lt_wf_0 x) as [x _ IH]; intros s Hs.
  destruct (N.eq_0_gt_0_cases x) as [->|Hx]; [done|].
  rewrite pretty_N_go_step by done. apply IH; [by apply N.div_lt|]. simpl.
  rewrite bool_decide_false; [done|]. apply Hd. by apply N.mod_lt.
Qed.

Lemma Itoa_no_byte c z :
  (∀ d, (d < 10)%N → pretty_N_char d ≠ c) → c ≠ "-"%char → has_byte c (Itoa z) = false.
Proof.
  intros Hd Hm.
  assert (∀ x : N, has_byte c (pretty x) = false) as HN.
  { intros x. unfold pretty, pretty_N. case_decide; [|by apply pretty_N_go_no_byte].
    simpl. rewrite bool_decide_false; [done|]. by apply (Hd 0%N). }
  destruct z as [|p|p]; [apply (HN 0%N)|apply (HN (N.pos p))|].
  change (Itoa (Z.neg p)) with ("-" +:+ pretty (N.pos p)). rewrite has_byte_append, HN. simpl.
  by rewrite bool_decide_false.
Qed.

Lemma digit_not c : (48 ≤ byte_val c < 58 → False) → ∀ d, (d < 10)%N → pretty_N_char d ≠ c.
Proof.
  intros Hc d Hd <-. apply Hc. clear Hc. destruct d as [|d]; [done|].
  do 4 (destruct d as [d|d|]; try done; try lia).
Qed.


Lemma Itoa_no_nul z : has_byte "000" (Itoa z) = false.
Proof. apply Itoa_no_byte; [|done]. apply digit_not. vm_compute. naive_solver. Qed.

(** [%q] escapes NUL bytes. *)
Lemma quote_byte_no_nul c : has_byte "000" (quote_byte c) = false.
Proof. destruct c as [[] [] [] [] [] [] [] []]; vm_compute; reflexivity. Qed.

Lemma Quote_no_nul s : has_byte "000" (Quote s) = false.
Proof.
  unfold Quote. rewrite append_cons. simpl. rewrite has_byte_append. simpl. rewrite orb_false_r.
  induction s as [|c s IH]; [done|]. simpl. by rewrite has_byte_append, quote_byte_no_nul.
Qed.




(** ** A reference implementation of the interfaces

    A flow-style emitter that quotes every string, and a parser that knows one
    small registry: enough to execute the builders. *)
Definition show_list (l : list string) : string := foldr (λ x s, x +:+ ", " +:+ s) "" l.
Definition show_map {K V} `{Countable K} (f : K → string) (g : V → string) (m : gmap K V) : string :=
  "{" +:+ show_list (map (λ kv, f kv.1 +:+ ": " +:+ g kv.2) (map_to_list m)) +:+ "}".
Definition show_bool (b : bool) : string := if b then "true" else "false".

Definition show_source (s : pgwatchSource) : string :=
  "{name: " +:+ Quote (src_Name s) +:+ ", conn_str: " +:+ Quote (src_ConnStr s)
    +:+ ", kind: " +:+ Quote (src_Kind s) +:+ ", preset_metrics: " +:+ Quote (src_PresetMetrics s)
    +:+ ", custom_metrics: " +:+ show_map Quote Itoa (src_CustomMetrics s)
    +:+ ", is_enabled: " +:+ show_bool (src_IsEnabled s)
    +:+ ", custom_tags: " +:+ show_map Quote Quote (src_CustomTags s) +:+ "}".

Definition show_metric (m : pgwatchMetric) : string :=
  "{init_sql: " +:+ Quote (pm_InitSQL m) +:+ ", sqls: " +:+ show_map Itoa Quote (pm_SQLs m)
    +:+ ", gauges: [" +:+ show_list (map Quote (pm_Gauges m))
    +:+ "], is_instance_level: " +:+ show_bool (pm_IsInstanceLevel m)
    +:+ ", node_status: " +:+ Quote (pm_NodeStatus m) +:+ ", storage_name: " +:+ Quote (pm_StorageName m)
    +:+ ", description: " +:+ Quote (pm_Description m) +:+ "}".

Definition show_preset (p : pgwatchPreset) : string :=
  "{description: " +:+ Quote (pp_Description p) +:+ ", metrics: " +:+ show_map Quote Itoa (pp_Metrics p) +:+ "}".

Definition fx_registry : parsedBuiltin :=
  mkParsed (Some {["db_size" := mkMetric "" {[11 := "SELECT pg_database_size(current_database())"]} [] false "" "" ""]})
    (Some {["basic" := mkPreset "" {["db_size" := 300]}]}).

#[export] Instance plain_yaml : Yaml := {|
  yaml_Marshal := λ l, Ok ("[" +:+ show_list (map show_source l) +:+ "]");
  yamlv3_Marshal := λ mf, Ok ("{metrics: " +:+ show_map Quote show_metric (mf_Metrics mf)
                              +:+ ", presets: " +:+ show_map Quote show_preset (mf_Presets mf) +:+ "}");
  yamlv3_Unmarshal := λ s, if bool_decide (s = "registry") then Ok fx_registry
                           else Err (ErrExternal "" "yaml: unmarshal error")
|}.
#[export] Instance plain_embedded : Embedded := "registry".

Definition no_nul (s : string) : Prop := has_byte "000" s = false.

Lemma no_nul_append s1 s2 : no_nul s1 → no_nul s2 → no_nul (s1 +:+ s2).
Proof. unfold no_nul. intros H1 H2. by rewrite has_byte_append, H1, H2. Qed.

Lemma show_list_no_nul l : Forall no_nul l → no_nul (show_list l).
Proof. induction 1; [done|]. simpl. apply no_nul_append; [done|]. by apply no_nul_append. Qed.

Lemma show_map_no_nul {K V} `{Countable K} (f : K → string) (g : V → string) m :
  (∀ k, no_nul (f k)) → (∀ v, no_nul (g v)) → no_nul (show_map f g m).
Proof.
  intros Hf Hg. unfold show_map. repeat apply no_nul_append; try done.
  apply show_list_no_nul, Forall_map, Forall_true. intros [k v]. simpl.
  apply no_nul_append; [done|]. by apply no_nul_append.
Qed.

Lemma show_bool_no_nul b : no_nul (show_bool b).
Proof. by destruct b. Qed.

Lemma show_list_quoted l : no_nul (show_list (map Quote l)).
Proof. apply show_list_no_nul, Forall_map, Forall_true. apply Quote_no_nul. Qed.

#[local] Ltac no_nul := intros;
  repeat lazymatch goal with
  | |- no_nul (Quote _) => apply Quote_no_nul
  | |- no_nul (Itoa _) => apply Itoa_no_nul
  | |- no_nul (show_bool _) => apply show_bool_no_nul
  | |- no_nul (show_list (map Quote _)) => apply show_list_quoted
  | |- no_nul (show_map _ _ _) => apply show_map_no_nul; intros
  | |- no_nul (_ +:+ _) => apply no_nul_append
  | |- no_nul (String _ _) => reflexivity
  end.

Lemma show_source_no_nul s : no_nul (show_source s).
Proof. unfold show_source. no_nul. Qed.
Lemma show_metric_no_nul m : no_nul (show_metric m).
Proof. unfold show_metric. no_nul. Qed.
Lemma show_preset_no_nul p : no_nul (show_preset p).
Proof. unfold show_preset. no_nul. Qed.

#[export] Instance plain_yaml_laws : YamlLaws.
Proof.
  split; simpl.
  - intros x s [= <-]. change (no_nul ("[" +:+ show_list (map show_source x) +:+ "]")).
    repeat apply no_nul_append; [done| |done].
    apply show_list_no_nul, Forall_map, Forall_true, show_source_no_nul.
  - intros x s [= <-]. change (no_nul ("{metrics: " +:+ show_map Quote show_metric (mf_Metrics x)
      +:+ ", presets: " +:+ show_map Quote show_preset (mf_Presets x) +:+ "}")).
    no_nul; [apply show_metric_no_nul|apply show_preset_no_nul].
Qed.

(** The merged metrics of the fixture monitor: a preset with an override. *)
Definition fx_merged : MergedMetrics := MergeMetrics ascending (spec_Metrics (mon_Spec fx_monitor)) [fx_library].

Definition fx_data : gmap string string := list_to_map [("sources.yaml", "a"); ("metrics.yaml", "b")].

Lemma fx_data_nul_free : nul_free fx_data.
Proof.
  intros k v Hk. unfold fx_data in Hk. simpl in Hk.
  apply lookup_insert_Some in Hk as [[<- <-]|[_ Hk]]; [done|].
  by apply lookup_insert_Some in Hk as [[<- <-]|[_ Hk]].
Qed.

(** ** Properties *)
Section Properties.
Context `{Y : Yaml} `{E : Embedded}.

(** C29 A NUL-free ConfigMap payload is determined by its hash, short of a
    SHA-256 collision between these very payloads: if two payloads, hashed
    under any two iteration orders, get the same hash, they are equal, or their
    serialisations (keys in ascending order, each key and value followed by a
    NUL) are different byte strings with one SHA-256 digest. *)
Theorem contentHash_detects_changes o1 o2 d1 d2 :
  nul_free d1 → nul_free d2 → contentHash o1 d1 = contentHash o2 d2 →
  d1 = d2 ∨ (payload_bytes d1 ≠ payload_bytes d2 ∧ sha256 (payload_bytes d1) = sha256 (payload_bytes d2)).
Proof. apply contentHash_eq_or_collision. Qed.

(** C27 The ConfigMap and its hash do not depend on the order in which Go
    iterates over the definitions or the data: equal inputs give equal
    bytes, hence no spurious rollout. *)
Theorem BuildConfigMap_deterministic o1 o2 m merged :
  BuildConfigMap o1 m merged = BuildConfigMap o2 m merged.
Proof. apply BuildConfigMap_order. Qed.

(** C28 The returned hash is the hash of exactly the data of the returned
    ConfigMap and has 64 characters, so taking its first 12 never fails;
    and the data is NUL-free, so the hash identifies it. *)
Theorem BuildConfigMap_hash `{!YamlLaws} o m merged cm h :
  BuildConfigMap o m merged = Ok (cm, h) →
  h = contentHash o (cm_Data cm) ∧ String.length h = 64%nat ∧ nul_free (cm_Data cm).
Proof.
  intros (data & Hd & -> & -> & _)%BuildConfigMap_Ok. split_and!; [done|apply length_contentHash|].
  unfold configmap_data in Hd. apply result_bind_Ok in Hd as (sy & Hs%wrap_err_Ok & Hd).
  apply result_bind_Ok in Hs as (src & _ & Hs%yaml_Marshal_no_nul).
  assert (nul_free (<[SourcesKey:=sy]> ∅)) as Hsrc.
  { intros k v. rewrite lookup_insert. case_decide; [intros [= <-]; by subst|by rewrite lookup_empty]. }
  destruct (emits_metrics merged); [|by injection Hd as <-].
  apply result_bind_Ok in Hd as (my & Hm%wrap_err_Ok & [= <-]).
  apply result_bind_Ok in Hm as (mf & _ & Hm%yamlv3_Marshal_no_nul).
  intros k v. rewrite lookup_insert. case_decide; [intros [= <-]; by subst|apply Hsrc].
Qed.

(** C36 No credential reaches the ConfigMap: replacing the username, the
    password and the Secret reference of a monitor by any others changes
    neither the ConfigMap nor its hash. *)
Theorem configmap_independent_of_credentials o m merged u p c :
  BuildConfigMap o (with_credentials u p c m) merged = BuildConfigMap o m merged.
Proof. done. Qed.

(** C30 The source entry, on every branch of the switch: a preset with custom
    metrics is expanded into [custom_metrics], user intervals winning; a
    preset alone is passed by name; custom metrics alone are listed; and the
    entry never carries both fields, which pgwatch would not add up. *)
Theorem sources_entry_spec m merged src :
  sources_entry m merged = Ok src →
  src_Name src = mon_Name m ∧ src_ConnStr src = buildConnStr (spec_Database (mon_Spec m)) ∧
  src_IsEnabled src = true ∧ src_CustomTags src = db_CustomTags (spec_Database (mon_Spec m)) ∧
  (src_PresetMetrics src = "" ∨ src_CustomMetrics src = ∅) ∧
  (mm_Preset merged = "" → src_PresetMetrics src = "" ∧ src_CustomMetrics src = mm_Intervals merged) ∧
  (mm_Preset merged ≠ "" → mm_Intervals merged = ∅ →
     src_PresetMetrics src = mm_Preset merged ∧ src_CustomMetrics src = ∅) ∧
  (mm_Preset merged ≠ "" → mm_Intervals merged ≠ ∅ →
     ∃ bm bp preset, loadBuiltinMetrics = Ok (bm, bp) ∧ bp !! mm_Preset merged = Some preset ∧
       ∀ n, src_CustomMetrics src !! n =
         match mm_Intervals merged !! n with Some i => Some i | None => pp_Metrics preset !! n end).
Proof.
  unfold sources_entry. destruct (nonempty (mm_Preset merged)) eqn:Ep; simpl;
    [apply nonempty_true in Ep|apply nonempty_false in Ep].
  - destruct (is_empty (mm_Intervals merged)) eqn:Ei; simpl;
      [apply is_empty_true in Ei|apply is_empty_false in Ei].
    + intros [= <-]. simpl. split_and!; naive_solver.
    + intros (cm & (bm & bp & preset & Hl & Hb & ->)%expandPreset_Ok & [= <-])%result_bind_Ok. simpl.
      split_and!; try done; [by left|]. intros _ _. exists bm, bp, preset. split_and!; [done..|].
      intros n. rewrite lookup_union. by destruct (mm_Intervals merged !! n), (pp_Metrics preset !! n).
  - destruct (is_empty (mm_Intervals merged)) eqn:Ei; simpl; [apply is_empty_true in Ei|];
      intros [= <-]; simpl; split_and!; naive_solver.
Qed.

(** C22 A metrics.yaml generated for a preset is the whole embedded registry,
    presets included, with the custom definitions laid over it by name;
    without a preset it is the custom definitions alone. *)
Theorem metrics_file_overlay o merged mf n :
  metrics_file o merged = Ok mf →
  (mm_Preset merged = "" → mf_Presets mf = ∅ ∧
     mf_Metrics mf !! n = metric_of_def <$> mm_Definitions merged !! n) ∧
  (mm_Preset merged ≠ "" → ∃ bm, loadBuiltinMetrics = Ok (bm, mf_Presets mf) ∧
     mf_Metrics mf !! n = match mm_Definitions merged !! n with
                          | Some d => Some (metric_of_def d) | None => bm !! n end).
Proof.
  intros [(bm & bp & Hp & Hl & ->)|(Hp & ->)]%metrics_file_cases; simpl; (split; [intros Hp'|intros Hp']);
    try done.
  - exists bm. split; [done|]. rewrite lookup_union, lookup_fmap.
    by destruct (mm_Definitions merged !! n), (bm !! n).
  - by rewrite lookup_fmap.
Qed.

(** A preset the registry does not know is an error when it is combined
    with custom metrics, and goes unreported when it is used alone: the
    entry then names it verbatim. *)
Lemma unknown_preset_reported_only_with_custom m merged bm bp :
  loadBuiltinMetrics = Ok (bm, bp) → mm_Preset merged ≠ "" → bp !! mm_Preset merged = None →
  (mm_Intervals merged ≠ ∅ →
     sources_entry m merged = Err (ErrNew ("unknown pgwatch preset " +:+ Quote (mm_Preset merged)))) ∧
  (mm_Intervals merged = ∅ →
     ∃ src, sources_entry m merged = Ok src ∧ src_PresetMetrics src = mm_Preset merged).
Proof.
  intros Hl Hp Hu. unfold sources_entry. apply nonempty_true in Hp. rewrite Hp. simpl.
  split; intros Hi.
  - apply is_empty_false in Hi. rewrite Hi. simpl. unfold expandPresetIntoIntervals.
    rewrite Hl. simpl. by rewrite Hu.
  - apply is_empty_true in Hi. rewrite Hi. simpl. by eexists.
Qed.
End Properties.

Lemma contentHash_detects_changes_witness :
  contentHash ascending fx_data = contentHash descending fx_data ∧
  (fx_data = fx_data ∨ (payload_bytes fx_data ≠ payload_bytes fx_data ∧ sha256 (payload_bytes fx_data) = sha256 (payload_bytes fx_data))).
Proof.
  assert (contentHash ascending fx_data = contentHash descending fx_data) as Heq by (vm_compute; reflexivity).
  split; [exact Heq|].
  exact (contentHash_detects_changes ascending descending fx_data fx_data fx_data_nul_free fx_data_nul_free Heq).
Defined.

Lemma BuildConfigMap_hash_witness :
  match BuildConfigMap ascending fx_monitor fx_merged with
  | Ok (cm, h) => h = contentHash ascending (cm_Data cm) ∧ String.length h = 64%nat ∧ nul_free (cm_Data cm)
  | Err _ => False
  end.
Proof.
  destruct (BuildConfigMap ascending fx_monitor fx_merged) as [[cm h]|e] eqn:E.
  - exact (BuildConfigMap_hash ascending fx_monitor fx_merged cm h E).
  - vm_compute in E. discriminate.
Defined.

Lemma sources_entry_spec_witness :
  ∃ src, sources_entry fx_monitor fx_merged = Ok src ∧ src_PresetMetrics src = "" ∧
    src_CustomMetrics src !! "db_size" = Some 300 ∧ src_CustomMetrics src !! "backlog" = Some 10 ∧
    src_Name src = "orders".
Proof.
  destruct (sources_entry fx_monitor fx_merged) as [src|e] eqn:E; [|vm_compute in E; discriminate].
  exists src. split; [reflexivity|].
  destruct (sources_entry_spec fx_monitor fx_merged src E) as (Hn & _).
  vm_compute in E. injection E as <-. split_and!; vm_compute; reflexivity.
Defined.

Lemma metrics_file_overlay_witness :
  match metrics_file ascending fx_merged with
  | Ok mf => ∃ bm, loadBuiltinMetrics = Ok (bm, mf_Presets mf) ∧
      mf_Metrics mf !! "backlog" = match mm_Definitions fx_merged !! "backlog" with
                                   | Some d => Some (metric_of_def d) | None => bm !! "backlog" end
  | Err _ => False
  end.
Proof.
  destruct (metrics_file ascending fx_merged) as [mf|e] eqn:Ef; [|vm_compute in Ef; discriminate].
  destruct (metrics_file_overlay ascending fx_merged mf "backlog" Ef) as [_ Hp].
  apply Hp. discriminate.
Defined.



(** The host is not escaped: for an IPv6 address, which the API documents as
    an accepted host and admission lets through, the string does not read back
    as a connection string at all. *)
Lemma connstr_ipv6_broken :
  ∃ db, valid_database db = true ∧ db_Host db = "fd00::1" ∧ parse_conn (buildConnStr db) = None.
Proof.
  exists (mkDatabaseRef "fd00::1" 5432 "app" "require" "" ""
            (Some (mkCredentialsSecretRef "creds" "username" "password")) ∅).
  split_and!; vm_compute; reflexivity.
Qed.
