(* ===== verification/Registry.v ===== *)
(** The copy of pgwatch's metrics.yaml the operator embeds
    ([internal/builder/pgwatchdata/metrics.yaml]), as far as the generated
    files depend on it: the names of its metrics, and its presets with their
    intervals; and which metrics a generated configuration collects. *)
From S2P Require Import Prelude GoStd GoTime Kube Api Fixtures Labels Metrics ConfigMap.
From Stdlib Require Import ZArith.
Open Scope Z_scope.

(** ** The file *)

(** The keys of its section [metrics]. *)
Definition shipped_metrics : list string := [
  "archiver"; "backends"; "backup_age_pgbackrest"; "backup_age_walg"; "bgwriter"; "blocking_locks";
  "buffercache_by_db"; "buffercache_by_type"; "change_events"; "checkpointer"; "configuration_hashes";
  "cpu_load"; "database_conflicts"; "db_size"; "db_size_approx"; "db_stats"; "index_hashes"; "index_stats";
  "instance_up"; "invalid_indexes"; "kpi"; "locks"; "locks_mode"; "logical_subscriptions"; "pgbouncer_stats";
  "pgbouncer_clients"; "pgpool_processes"; "pgpool_stats"; "privilege_changes"; "psutil_cpu"; "psutil_disk";
  "psutil_disk_io_total"; "psutil_mem"; "reco_add_index"; "reco_default_public_schema";
  "reco_disabled_triggers"; "reco_drop_index"; "reco_nested_views"; "reco_partial_index_candidates";
  "reco_sprocs_wo_search_path"; "reco_superusers"; "replication"; "replication_slot_stats";
  "replication_slots"; "sequence_health"; "server_log_event_counts"; "settings"; "smart_health_per_disk";
  "sproc_hashes"; "sproc_stats"; "stat_activity"; "stat_io"; "stat_ssl"; "stat_statements";
  "stat_statements_calls"; "stat_statements_no_query_text"; "subscription_stats";
  "table_bloat_approx_stattuple"; "table_bloat_approx_summary"; "table_bloat_approx_summary_sql";
  "table_hashes"; "table_io_stats"; "table_stats"; "table_stats_approx"; "unused_indexes"; "vmstat";
  "wait_events"; "wal"; "wal_receiver"; "wal_size"; "wal_stats"; "datfrozenxid"; "postgres_role";
  "archiver_pending_count"].

(** Its section [presets]. *)
Definition shipped_presets : list (string * list (string * Z)) := [
  ("aiven", [
    ("archiver", 60); ("backends", 60); ("bgwriter", 60); ("checkpointer", 60); ("change_events", 300);
    ("db_size", 300); ("db_stats", 60); ("index_col_stats", 86400); ("index_stats", 900); ("locks", 60);
    ("locks_mode", 60); ("reco_add_index", 43200); ("reco_default_public_schema", 50400);
    ("reco_disabled_triggers", 57600); ("reco_drop_index", 64800); ("reco_nested_views", 72000);
    ("reco_partial_index_candidates", 79200); ("reco_sprocs_wo_search_path", 86400); ("reco_superusers",
    93600); ("replication", 120); ("replication_slots", 120); ("sequence_health", 3600); ("settings", 7200);
    ("sproc_stats", 180); ("stat_activity", 60); ("stat_statements", 180); ("stat_statements_calls", 60);
    ("table_bloat_approx_summary_sql", 7200); ("table_io_stats", 300); ("table_stats", 300); ("wal", 60);
    ("wal_receiver", 120)]);
  ("aurora", [
    ("archiver", 60); ("archiver_pending_count", 120); ("backends", 60); ("bgwriter", 60); ("checkpointer",
    60); ("change_events", 300); ("db_size", 300); ("db_stats", 60); ("index_stats", 900); ("locks", 60);
    ("locks_mode", 60); ("replication", 120); ("replication_slots", 120); ("sequence_health", 3600);
    ("settings", 7200); ("sproc_stats", 180); ("stat_activity", 30); ("stat_statements", 180);
    ("stat_statements_calls", 60); ("table_bloat_approx_summary_sql", 7200); ("table_io_stats", 600);
    ("table_stats", 300)]);
  ("azure", [
    ("archiver", 60); ("backends", 60); ("bgwriter", 60); ("checkpointer", 60); ("change_events", 300);
    ("db_size", 300); ("db_stats", 60); ("index_stats", 900); ("kpi", 120); ("locks", 60); ("locks_mode", 60);
    ("replication", 60); ("replication_slots", 60); ("sequence_health", 3600); ("settings", 7200);
    ("sproc_stats", 180); ("stat_ssl", 60); ("stat_statements", 180); ("stat_statements_calls", 60);
    ("table_bloat_approx_summary_sql", 7200); ("table_io_stats", 600); ("wal", 60); ("wal_receiver", 60);
    ("wal_size", 300)]);
  ("basic", [
    ("instance_up", 60); ("db_size", 300); ("db_stats", 60); ("wal", 60)]);
  ("exhaustive", [
    ("archiver", 60); ("archiver_pending_count", 120); ("backends", 60); ("bgwriter", 60); ("checkpointer",
    60); ("change_events", 300); ("cpu_load", 60); ("datfrozenxid", 300); ("db_size", 300); ("db_stats", 60);
    ("index_stats", 900); ("instance_up", 60); ("locks", 60); ("locks_mode", 60); ("postgres_role", 120);
    ("replication", 120); ("replication_slots", 120); ("sequence_health", 3600); ("settings", 7200);
    ("sproc_stats", 180); ("stat_activity", 30); ("stat_statements", 180); ("stat_statements_calls", 60);
    ("table_bloat_approx_summary_sql", 7200); ("table_io_stats", 600); ("table_stats", 300); ("wal", 60);
    ("wal_receiver", 120); ("wal_size", 300)]);
  ("full", [
    ("archiver", 60); ("archiver_pending_count", 120); ("backends", 60); ("bgwriter", 60); ("checkpointer",
    60); ("change_events", 300); ("cpu_load", 60); ("datfrozenxid", 300); ("db_size", 300); ("db_stats", 60);
    ("index_stats", 900); ("instance_up", 60); ("kpi", 120); ("locks", 60); ("locks_mode", 60);
    ("logical_subscriptions", 120); ("postgres_role", 120); ("psutil_cpu", 120); ("psutil_disk", 120);
    ("psutil_disk_io_total", 120); ("psutil_mem", 120); ("reco_add_index", 43200);
    ("reco_default_public_schema", 50400); ("reco_disabled_triggers", 57600); ("reco_drop_index", 64800);
    ("reco_nested_views", 72000); ("reco_partial_index_candidates", 79200); ("reco_sprocs_wo_search_path",
    86400); ("reco_superusers", 93600); ("replication", 120); ("replication_slots", 120); ("sequence_health",
    3600); ("server_log_event_counts", 60); ("settings", 7200); ("sproc_stats", 180); ("stat_activity", 30);
    ("stat_ssl", 120); ("stat_statements", 180); ("stat_statements_calls", 60);
    ("table_bloat_approx_summary_sql", 7200); ("table_io_stats", 600); ("table_stats", 300); ("wal", 60);
    ("wal_receiver", 120); ("wal_size", 120)]);
  ("gce", [
    ("archiver", 60); ("backends", 60); ("bgwriter", 60); ("checkpointer", 60); ("change_events", 300);
    ("db_size", 300); ("db_stats", 60); ("index_stats", 900); ("locks", 60); ("locks_mode", 60);
    ("replication", 120); ("replication_slots", 120); ("sequence_health", 3600); ("settings", 7200);
    ("sproc_stats", 180); ("stat_statements", 180); ("stat_statements_calls", 60);
    ("table_bloat_approx_summary_sql", 7200); ("table_io_stats", 600); ("table_stats", 300); ("wal", 60);
    ("wal_receiver", 120)]);
  ("minimal", [
    ("instance_up", 60); ("kpi", 60)]);
  ("pgbouncer", [
    ("pgbouncer_stats", 60); ("pgbouncer_clients", 60)]);
  ("pgpool", [
    ("pgpool_stats", 60); ("pgpool_processes", 60)]);
  ("recommendations", [
    ("reco_add_index", 43200); ("reco_default_public_schema", 50400); ("reco_disabled_triggers", 57600);
    ("reco_drop_index", 64800); ("reco_nested_views", 72000); ("reco_partial_index_candidates", 79200);
    ("reco_sprocs_wo_search_path", 86400); ("reco_superusers", 93600)]);
  ("rds", [
    ("archiver", 60); ("archiver_pending_count", 120); ("backends", 60); ("bgwriter", 60); ("checkpointer",
    60); ("change_events", 300); ("db_size", 300); ("db_stats", 60); ("index_stats", 900); ("locks", 60);
    ("locks_mode", 60); ("replication", 120); ("replication_slots", 120); ("sequence_health", 3600);
    ("settings", 7200); ("sproc_stats", 180); ("stat_activity", 30); ("stat_statements", 180);
    ("stat_statements_calls", 60); ("table_bloat_approx_summary_sql", 7200); ("table_io_stats", 600);
    ("table_stats", 300); ("wal", 60); ("wal_receiver", 120)]);
  ("standard", [
    ("cpu_load", 60); ("db_size", 300); ("db_stats", 60); ("index_stats", 900); ("instance_up", 60);
    ("sequence_health", 3600); ("sproc_stats", 180); ("stat_statements", 180); ("table_stats", 300); ("wal",
    60)]);
  ("exhaustive_no_python", [
    ("archiver", 60); ("archiver_pending_count", 120); ("backends", 60); ("bgwriter", 60); ("checkpointer",
    60); ("change_events", 300); ("datfrozenxid", 300); ("db_size", 300); ("db_stats", 60); ("index_stats",
    900); ("instance_up", 60); ("locks", 60); ("locks_mode", 60); ("postgres_role", 120); ("replication",
    120); ("replication_slots", 120); ("sequence_health", 3600); ("settings", 7200); ("sproc_stats", 180);
    ("stat_activity", 30); ("stat_statements", 180); ("stat_statements_calls", 60);
    ("table_bloat_approx_summary_sql", 7200); ("table_io_stats", 600); ("table_stats", 300); ("wal", 60);
    ("wal_receiver", 120); ("wal_size", 300)]);
  ("debug", [
    ("archiver", 30); ("archiver_pending_count", 30); ("backends", 30); ("backup_age_pgbackrest", 30);
    ("backup_age_walg", 30); ("bgwriter", 30); ("blocking_locks", 30); ("buffercache_by_db", 30);
    ("buffercache_by_type", 30); ("change_events", 30); ("checkpointer", 30); ("configuration_hashes", 30);
    ("cpu_load", 30); ("database_conflicts", 30); ("datfrozenxid", 30); ("db_size", 30); ("db_size_approx",
    30); ("db_stats", 30); ("index_hashes", 30); ("index_stats", 30); ("instance_up", 30); ("invalid_indexes",
    30); ("kpi", 30); ("locks", 30); ("locks_mode", 30); ("logical_subscriptions", 30); ("postgres_role", 30);
    ("privilege_changes", 30); ("psutil_cpu", 30); ("psutil_disk", 30); ("psutil_disk_io_total", 30);
    ("psutil_mem", 30); ("reco_add_index", 30); ("reco_default_public_schema", 30); ("reco_disabled_triggers",
    30); ("reco_drop_index", 30); ("reco_nested_views", 30); ("reco_partial_index_candidates", 30);
    ("reco_sprocs_wo_search_path", 30); ("reco_superusers", 30); ("replication", 30);
    ("replication_slot_stats", 30); ("replication_slots", 30); ("sequence_health", 30);
    ("server_log_event_counts", 30); ("settings", 30); ("smart_health_per_disk", 30); ("sproc_hashes", 30);
    ("sproc_stats", 30); ("stat_activity", 30); ("stat_io", 30); ("stat_ssl", 30); ("stat_statements", 30);
    ("stat_statements_calls", 30); ("stat_statements_no_query_text", 30); ("subscription_stats", 30);
    ("table_bloat_approx_stattuple", 30); ("table_bloat_approx_summary", 30);
    ("table_bloat_approx_summary_sql", 30); ("table_hashes", 30); ("table_io_stats", 30); ("table_stats", 30);
    ("table_stats_approx", 30); ("unused_indexes", 30); ("vmstat", 30); ("wait_events", 30); ("wal", 30);
    ("wal_receiver", 30); ("wal_size", 30); ("wal_stats", 30)])].

Definition metric_names : gset string := list_to_set shipped_metrics.
Definition preset_intervals : gmap string (gmap string Z) :=
  list_to_map (prod_map id list_to_map <$> shipped_presets).

(** The YAML parser reads the embedded file: it has these metrics, whatever
    their statements, and these presets. *)
Class Shipped `{Yaml} `{Embedded} : Prop := {
  shipped_parses : ∃ bm bp, loadBuiltinMetrics = Ok (bm, bp) ∧
    dom bm = metric_names ∧ (pp_Metrics <$> bp) = preset_intervals
}.

(** ** What pgwatch collects

    The metrics of a source entry: those of [custom_metrics], and those the
    preset it names lists in the metrics.yaml generated with it. *)
Definition collected (src : pgwatchSource) (mf : pgwatchMetricsFile) : gset string :=
  dom (src_CustomMetrics src) ∪
  match mf_Presets mf !! src_PresetMetrics src with Some p => dom (pp_Metrics p) | None => ∅ end.

(** The entries of presets that no metric of the file defines. *)
Definition dangling (preset : string) : gset string :=
  match preset_intervals !! preset with Some ms => dom ms ∖ metric_names | None => ∅ end.

(** ** Lemmas *)

(** The names an entry of the list gives and the file does not define. *)
Definition undefined_in (ms : list (string * Z)) : list string :=
  List.filter (λ n, negb (existsb (String.eqb n) shipped_metrics)) ms.*1.

Lemma undefined_in_elem ms n : n ∈ undefined_in ms ↔ n ∈ ms.*1 ∧ n ∉ metric_names.
Proof.
  unfold undefined_in, metric_names. rewrite elem_of_list_to_set, !list_elem_of_In, List.filter_In, negb_true_iff.
  rewrite <-not_true_iff_false, existsb_exists. split; (intros [Hn Hex]; split; [done|]).
  - intros Hin. apply Hex. exists n. split; [done|by apply String.eqb_eq].
  - by intros (n' & Hin & ->%String.eqb_eq).
Qed.

(** One preset lists one metric that does not exist. *)
Lemma undefined_by_preset :
  forallb (λ pl, match undefined_in pl.2 with
    | [] => negb (String.eqb pl.1 "aiven")
    | [n] => String.eqb pl.1 "aiven" && String.eqb n "index_col_stats"
    | _ => false
    end) shipped_presets = true.
Proof. vm_compute. reflexivity. Qed.

Lemma dangling_spec preset :
  dangling preset = if bool_decide (preset = "aiven") then {["index_col_stats"]} else ∅.
Proof.
  unfold dangling. destruct (preset_intervals !! preset) as [ms|] eqn:Hp.
  - apply elem_of_list_to_map_2, list_elem_of_fmap in Hp as ([p l] & [= -> ->] & Hin).
    pose proof undefined_by_preset as Hall. rewrite forallb_forall in Hall.
    specialize (Hall _ (proj1 (list_elem_of_In _ _) Hin)). simpl in Hall. simpl.
    apply set_eq. intros n. rewrite elem_of_difference, dom_list_to_map_L, elem_of_list_to_set, <-undefined_in_elem.
    destruct (undefined_in l) as [|n1 [|? ?]]; [| |done].
    + apply negb_true_iff, String.eqb_neq in Hall. rewrite bool_decide_false by done. set_solver.
    + apply andb_true_iff in Hall as [->%String.eqb_eq ->%String.eqb_eq]. rewrite bool_decide_true by done. set_solver.
  - case_bool_decide as Ha; [|done]. subst preset. exfalso.
    assert (match preset_intervals !! "aiven" with Some _ => true | None => false end = true) as Hs by (vm_compute; reflexivity).
    by rewrite Hp in Hs.
Qed.

Lemma no_empty_preset : preset_intervals !! "" = None.
Proof. vm_compute. reflexivity. Qed.

#[local] Opaque metric_names preset_intervals.

Section Collected.
Context `{Y : Yaml} `{E : Embedded} `{Sh : !Shipped}.

(** The presets of the parsed file. *)
Lemma preset_dom (bp : gmap string pgwatchPreset) p :
  (pp_Metrics <$> bp) = preset_intervals →
  match bp !! p with Some pr => dom (pp_Metrics pr) | None => ∅ end ∖ metric_names = dangling p.
Proof.
  intros Hbp. unfold dangling. rewrite <-Hbp, lookup_fmap. by destruct (bp !! p); simpl; [|set_solver].
Qed.

Lemma difference_defined (A D M : gset string) : A ∖ (D ∪ M) = A ∖ M ∖ D.
Proof. set_solver. Qed.
Lemma difference_both (A D M : gset string) : (D ∪ A) ∖ (D ∪ M) = A ∖ M ∖ D.
Proof. set_solver. Qed.

Lemma collected_metrics o spec libs m src mf :
  let merged := MergeMetrics o spec libs in
  sources_entry m merged = Ok src → metrics_file o merged = Ok mf →
  collected src mf ∖ dom (mf_Metrics mf) = dangling (mm_Preset merged) ∖ dom (mm_Definitions merged).
Proof.
  intros merged Hs Hf. pose proof (MergeMetrics_dom o spec libs) as Hdom. fold merged in Hdom.
  destruct shipped_parses as (bm & bp & Hl & Hbm & Hbp). unfold sources_entry in Hs. unfold collected.
  apply metrics_file_cases in Hf as [(bm' & bp' & Hp & Hl' & ->)|(Hp & ->)]; simpl.
  - rewrite Hl in Hl'. injection Hl' as <- <-. rewrite dom_union_L, dom_fmap_L, Hbm.
    pose proof (preset_dom bp (mm_Preset merged) Hbp) as Hd.
    apply nonempty_true in Hp. rewrite Hp in Hs. simpl in Hs.
    destruct (is_empty (mm_Intervals merged)) eqn:Hi; simpl in Hs.
    + injection Hs as <-. cbn [src_CustomMetrics src_PresetMetrics with_preset].
      by rewrite dom_empty_L, (left_id_L ∅ (∪)), difference_defined, Hd.
    + apply result_bind_Ok in Hs as (cm & (bm' & bp' & preset & Hl' & Hb & ->)%expandPreset_Ok & [= <-]).
      rewrite Hl in Hl'. injection Hl' as <- <-. rewrite Hb in Hd. simpl. rewrite dom_union_L, Hdom.
      assert (bp !! "" = None) as ->.
      { pose proof no_empty_preset as Hn. rewrite <-Hbp, lookup_fmap in Hn. by destruct (bp !! ""). }
      by rewrite (right_id_L ∅ (∪)), difference_both, Hd.
  - rewrite dom_fmap_L, <-Hdom, lookup_empty. apply nonempty_false in Hp as Hp'. rewrite Hp' in Hs. simpl in Hs.
    assert (dangling (mm_Preset merged) = ∅) as -> by (unfold dangling; by rewrite Hp, no_empty_preset).
    destruct (is_empty (mm_Intervals merged)); injection Hs as <-; cbn [src_CustomMetrics with_custom];
      apply set_eq; intros n; set_solver.
Qed.
End Collected.

(** ** Properties *)
Section Properties.
Context `{Y : Yaml} `{E : Embedded} `{Sh : !Shipped}.

(** C31 Which of the metrics pgwatch is told to collect are defined in the
    metrics.yaml generated with the source entry, exactly: all of them, except
    under the preset "aiven", where [index_col_stats] is collected and defined
    nowhere, unless the monitor or one of its libraries defines it. *)
Theorem collected_metrics_are_defined o spec libs m src mf :
  let merged := MergeMetrics o spec libs in
  sources_entry m merged = Ok src → metrics_file o merged = Ok mf →
  (ms_Preset spec ≠ "aiven" → collected src mf ⊆ dom (mf_Metrics mf)) ∧
  (ms_Preset spec = "aiven" →
     collected src mf ∖ dom (mf_Metrics mf) = {["index_col_stats"]} ∖ dom (mm_Definitions merged)).
Proof.
  intros merged Hs Hf. pose proof (collected_metrics o spec libs m src mf Hs Hf) as Hc. fold merged in Hc.
  unfold merged in Hc. rewrite MergeMetrics_Preset, dangling_spec in Hc. fold merged in Hc. split; intros Hp.
  - rewrite bool_decide_false in Hc by done. apply empty_difference_subseteq_L. rewrite Hc. set_solver.
  - by rewrite bool_decide_true in Hc.
Qed.
End Properties.

#[local] Transparent metric_names preset_intervals.

(** ** A concrete instance: the keys of the file, with empty statements *)
Definition fx_shipped : parsedBuiltin :=
  mkParsed (Some (gset_to_gmap (mkMetric "" ∅ [] false "" "" "") metric_names))
    (Some (mkPreset "" <$> preset_intervals)).

Definition keys_yaml : Yaml := {|
  yaml_Marshal := yaml_Marshal (Yaml := plain_yaml);
  yamlv3_Marshal := yamlv3_Marshal (Yaml := plain_yaml);
  yamlv3_Unmarshal := λ s, if bool_decide (s = "registry") then Ok fx_shipped else Err (ErrNew "unmarshal error")
|}.

Lemma keys_shipped : @Shipped keys_yaml plain_embedded.
Proof.
  split. do 2 eexists. split; [reflexivity|]. simpl. split; [apply dom_gset_to_gmap|].
  rewrite <-map_fmap_compose. apply map_fmap_id.
Qed.

(** A metric of one's own on top of the preset "aiven", and on top of "basic". *)
Definition fx_metrics (preset : string) : MetricsSpec := mkMetricsSpec preset [] [fx_backlog].

Lemma collected_metrics_are_defined_witness :
  match @sources_entry keys_yaml plain_embedded fx_monitor (MergeMetrics ascending (fx_metrics "aiven") []),
        @metrics_file keys_yaml plain_embedded ascending (MergeMetrics ascending (fx_metrics "aiven") []) with
  | Ok src, Ok mf => collected src mf ∖ dom (mf_Metrics mf) = {["index_col_stats"]}
  | _, _ => False
  end ∧
  match @sources_entry keys_yaml plain_embedded fx_monitor (MergeMetrics ascending (fx_metrics "basic") []),
        @metrics_file keys_yaml plain_embedded ascending (MergeMetrics ascending (fx_metrics "basic") []) with
  | Ok src, Ok mf => collected src mf ⊆ dom (mf_Metrics mf)
  | _, _ => False
  end.
Proof.
  split.
  - destruct (@sources_entry keys_yaml _ _ _) as [src|e] eqn:Es; [|vm_compute in Es; discriminate].
    destruct (@metrics_file keys_yaml _ _ _) as [mf|e] eqn:Ef; [|vm_compute in Ef; discriminate].
    rewrite (proj2 (@collected_metrics_are_defined keys_yaml plain_embedded keys_shipped ascending
      (fx_metrics "aiven") [] fx_monitor src mf Es Ef) eq_refl).
    apply (bool_decide_unpack _). vm_compute. exact I.
  - destruct (@sources_entry keys_yaml _ _ (MergeMetrics ascending (fx_metrics "basic") [])) as [src|e] eqn:Es; [|vm_compute in Es; discriminate].
    destruct (@metrics_file keys_yaml _ _ (MergeMetrics ascending (fx_metrics "basic") [])) as [mf|e] eqn:Ef; [|vm_compute in Ef; discriminate].
    apply (proj1 (@collected_metrics_are_defined keys_yaml plain_embedded keys_shipped ascending
      (fx_metrics "basic") [] fx_monitor src mf Es Ef)). discriminate.
Defined.
