(* ===== verification/Deployment.v ===== *)
(** [internal/builder/deployment.go]: the Deployment that runs pgwatch, its
    arguments, environment, image, ports and probes.

    [buildEnvVars] dereferences [spec.database.credentialsSecret] without a nil
    check when the inline credentials are incomplete: that is a panic here,
    and the controller's guard against it is proved in [MonitorController]. *)
From S2P Require Import Prelude GoStd GoTime Sha256 Kube Api Fixtures Labels Metrics ConfigMap.
From Stdlib Require Import ZArith Ascii.
Open Scope Z_scope.

Definition configVolumeName : string := "pgwatch-config".
Definition configMountPath : string := "/etc/pgwatch".
Definition containerName : string := "pgwatch".

Definition prom_sink_arg (port : Z) : string := "prometheus://0.0.0.0:" +:+ Itoa port.

Definition buildArgs (monitor : PgpilotMonitor) (merged : MergedMetrics) : list string :=
  let args := ["--sources"; configMountPath +:+ "/" +:+ SourcesKey] in
  let args :=
    if emits_metrics merged
    then args ++ ["--metrics"; configMountPath +:+ "/" +:+ MetricsKey] else args in
  let sinks := spec_Sinks (mon_Spec monitor) in
  let args :=
    match sinks_Prometheus sinks with
    | Some p =>
        if prom_Enabled p then
          let port := if prom_Port p =? 0 then 9187 else prom_Port p in
          args ++ ["--sink"; prom_sink_arg port]
        else args
    | None => args
    end in
  match sinks_GRPC sinks with
  | Some g =>
      if grpc_Enabled g && nonempty (grpc_Endpoint g)
      then args ++ ["--sink"; "grpc://" +:+ grpc_Endpoint g] else args
  | None => args
  end.

(** The condition of line 160, also tested by [validateCredentials]. *)
Definition has_inline (db : DatabaseRef) : bool :=
  nonempty (db_Username db) && nonempty (db_Password db).

Definition nil_dereference : string := "invalid memory address or nil pointer dereference".

Definition buildEnvVars (monitor : PgpilotMonitor) : outcome (list EnvVar) :=
  let db := spec_Database (mon_Spec monitor) in
  if has_inline db then
    Done [mkEnvVar "PGUSER" (db_Username db) None; mkEnvVar "PGPASSWORD" (db_Password db) None]
  else
    match db_CredentialsSecret db with
    | None => Panicked nil_dereference
    | Some secret =>
        let usernameKey := or_default (csr_UsernameKey secret) "username" in
        let passwordKey := or_default (csr_PasswordKey secret) "password" in
        Done [mkEnvVar "PGUSER" "" (Some (mkSecretKeySelector (csr_Name secret) usernameKey));
              mkEnvVar "PGPASSWORD" "" (Some (mkSecretKeySelector (csr_Name secret) passwordKey))]
    end.

Definition containerImage (monitor : PgpilotMonitor) : string :=
  let img := spec_Image (mon_Spec monitor) in
  or_default (img_Repository img) "cybertecpostgresql/pgwatch" +:+ ":" +:+
  or_default (img_Tag img) "5.1.0".

Definition prometheusPort (monitor : PgpilotMonitor) : Z :=
  match sinks_Prometheus (spec_Sinks (mon_Spec monitor)) with
  | Some p => if 0 <? prom_Port p then prom_Port p else 9187
  | None => 9187
  end.

Definition tcpProbe (port initialDelay period : Z) : Probe :=
  mkProbe (FromInt32 port) initialDelay period 5 1 3.

Definition securityContext : SecurityContext :=
  mkSecurityContext (Some true) (Some 65534) (Some true) (Some false) (Some ["ALL"]).

Definition pgwatchContainer (monitor : PgpilotMonitor) (merged : MergedMetrics)
    (envVars : list EnvVar) : Container :=
  let promPort := prometheusPort monitor in
  mkContainer containerName (containerImage monitor) "" (buildArgs monitor merged) envVars
    [mkContainerPort "metrics" promPort ProtocolTCP]
    (spec_Resources (mon_Spec monitor))
    (Some (tcpProbe promPort 15 20)) (Some (tcpProbe promPort 5 10))
    (Some securityContext)
    [mkVolumeMount configVolumeName configMountPath true; mkVolumeMount "tmp" "/tmp" false].

Definition BuildDeployment (monitor : PgpilotMonitor) (merged : MergedMetrics)
    (configHash : string) : outcome Deployment :=
  let name := ResourceName (mon_Name monitor) in
  let sysLabels := SystemLabels (mon_Name monitor) in
  let podLabels := MergeLabels sysLabels (ov_Labels (spec_PodMetadata (mon_Spec monitor))) in
  let podAnnotations := MergeAnnotations {[AnnotationConfigHash := configHash]}
                          (ov_Annotations (spec_PodMetadata (mon_Spec monitor))) in
  match buildEnvVars monitor with
  | Panicked msg => Panicked msg
  | Done envVars =>
      Done (mkDeployment (mkTypeMeta "apps/v1" "Deployment")
        (objectMeta name (mon_Namespace monitor) sysLabels ∅)
        (Some 1)
        (InstanceSelector (mon_Name monitor))
        (mkPodTemplateSpec (objectMeta "" "" podLabels podAnnotations)
           (mkPodSpec [pgwatchContainer monitor merged envVars]
              [mkVolume configVolumeName (Some (name +:+ "-config")) None;
               mkVolume "tmp" None (Some ())]
              (Some true)))
        0)
  end.

(** ** Specifications *)

(** The value that follows a flag, for each of its occurrences. *)
Fixpoint flag_values (flag : string) (args : list string) : list string :=
  match args with
  | a :: ((v :: _) as args') =>
      if bool_decide (a = flag) then v :: flag_values flag args' else flag_values flag args'
  | _ => []
  end.

(** An environment variable has a literal value or a source, and not both. *)
Definition env_well_formed (e : EnvVar) : bool :=
  match ev_ValueFrom e with None => true | Some _ => negb (nonempty (ev_Value e)) end.

(** ** Lemmas *)

Lemma BuildDeployment_Done m merged h dep :
  BuildDeployment m merged h = Done dep →
  ∃ env, buildEnvVars m = Done env ∧
    d_ObjectMeta dep = objectMeta (ResourceName (mon_Name m)) (mon_Namespace m)
                         (SystemLabels (mon_Name m)) ∅ ∧
    d_Selector dep = InstanceSelector (mon_Name m) ∧
    om_Labels (pt_ObjectMeta (d_Template dep))
      = MergeLabels (SystemLabels (mon_Name m)) (ov_Labels (spec_PodMetadata (mon_Spec m))) ∧
    om_Annotations (pt_ObjectMeta (d_Template dep))
      = MergeAnnotations {[AnnotationConfigHash := h]}
          (ov_Annotations (spec_PodMetadata (mon_Spec m))) ∧
    ps_Containers (pt_Spec (d_Template dep)) = [pgwatchContainer m merged env] ∧
    ps_Volumes (pt_Spec (d_Template dep))
      = [mkVolume configVolumeName (Some (ConfigMapName (mon_Name m))) None;
         mkVolume "tmp" None (Some ())].
Proof.
  unfold BuildDeployment. destruct (buildEnvVars m) as [env|]; [|done]. intros [= <-].
  exists env. by split_and!.
Qed.

Lemma BuildDeployment_total m merged h :
  (has_inline (spec_Database (mon_Spec m)) = true ∨
   is_Some (db_CredentialsSecret (spec_Database (mon_Spec m)))) →
  ∃ dep, BuildDeployment m merged h = Done dep.
Proof.
  intros Hc. unfold BuildDeployment, buildEnvVars.
  destruct (has_inline _); [by eexists|]. destruct Hc as [?|[r ->]]; [done|by eexists].
Qed.

Lemma admitted_has_credentials m :
  admitted m = true →
  has_inline (spec_Database (mon_Spec m)) = true ∨
  is_Some (db_CredentialsSecret (spec_Database (mon_Spec m))).
Proof.
  intros [(Hu & Hp & _)|(_ & _ & ?)]%admitted_credentials%valid_credentials_cases; [left|by right].
  unfold has_inline. by rewrite (proj2 (nonempty_true _) Hu), (proj2 (nonempty_true _) Hp).
Qed.

Lemma or_default_idemp s d : or_default (or_default s d) d = or_default s d.
Proof. unfold or_default. destruct (nonempty s) eqn:E; [by rewrite E|]. by destruct (nonempty d). Qed.

(** Case analysis on everything [buildArgs] tests. *)
Ltac buildArgs_cases m merged :=
  unfold buildArgs; destruct (emits_metrics merged),
    (sinks_Prometheus (spec_Sinks (mon_Spec m))) as [[[] ?]|],
    (sinks_GRPC (spec_Sinks (mon_Spec m))) as [[[] [|? ?] ?]|]; reflexivity.

Lemma buildArgs_sources m merged :
  flag_values "--sources" (buildArgs m merged) = [configMountPath +:+ "/" +:+ SourcesKey].
Proof. buildArgs_cases m merged. Qed.

Lemma buildArgs_metrics m merged :
  flag_values "--metrics" (buildArgs m merged)
    = if emits_metrics merged then [configMountPath +:+ "/" +:+ MetricsKey] else [].
Proof. buildArgs_cases m merged. Qed.

(** The [--sink] values, sink by sink. *)
Lemma buildArgs_sinks m merged :
  flag_values "--sink" (buildArgs m merged) =
    match sinks_Prometheus (spec_Sinks (mon_Spec m)) with
    | Some p => if prom_Enabled p then [prom_sink_arg (default_port 9187 (prom_Port p))] else []
    | None => []
    end ++
    match sinks_GRPC (spec_Sinks (mon_Spec m)) with
    | Some g => if grpc_Enabled g && nonempty (grpc_Endpoint g)
                then ["grpc://" +:+ grpc_Endpoint g] else []
    | None => []
    end.
Proof.
  unfold default_port. buildArgs_cases m merged.
Qed.

(** ** Properties *)

(** C32 The file names pgwatch is started with match what is mounted: [--sources]
    is always given, [--metrics] is given exactly when the ConfigMap built from
    the same metrics has a metrics.yaml key, each value is the mount path of
    the ConfigMap volume followed by a key of that ConfigMap, and the volume
    names that very ConfigMap. *)
Theorem mounted_files_match_args `{Yaml} `{Embedded} o m merged cm h dep c :
  BuildConfigMap o m merged = Ok (cm, h) → BuildDeployment m merged h = Done dep →
  ps_Containers (pt_Spec (d_Template dep)) = [c] →
  flag_values "--sources" (ct_Args c) = [configMountPath +:+ "/" +:+ SourcesKey] ∧
  is_Some (cm_Data cm !! SourcesKey) ∧
  flag_values "--metrics" (ct_Args c)
    = (if decide (is_Some (cm_Data cm !! MetricsKey)) then [configMountPath +:+ "/" +:+ MetricsKey] else []) ∧
  mkVolumeMount configVolumeName configMountPath true ∈ ct_VolumeMounts c ∧
  mkVolume configVolumeName (Some (om_Name (cm_ObjectMeta cm))) None ∈ ps_Volumes (pt_Spec (d_Template dep)).
Proof.
  intros (data & Hd & -> & -> & ->)%BuildConfigMap_Ok
    (env & _ & _ & _ & _ & _ & -> & ->)%BuildDeployment_Done [= <-].
  unfold configmap_data in Hd. apply result_bind_Ok in Hd as (sy & _ & Hd).
  cbn [ct_Args ct_VolumeMounts pgwatchContainer objectMeta om_Name].
  rewrite buildArgs_sources, buildArgs_metrics. split; [done|]. destruct (emits_metrics merged).
  - apply result_bind_Ok in Hd as (my & _ & [= <-]). split_and!; [..|left|left].
    + rewrite lookup_insert_ne by done. by rewrite lookup_insert_eq.
    + rewrite lookup_insert_eq. by rewrite decide_True by eauto.
  - injection Hd as <-. split_and!; [..|left|left].
    + by rewrite lookup_insert_eq.
    + rewrite lookup_insert_ne, lookup_empty by done. rewrite decide_False; [done|by intros [? ?]].
Qed.

Lemma mounted_files_match_args_witness :
  match BuildConfigMap ascending fx_monitor fx_merged with
  | Ok (cm, h) => ∃ dep c, BuildDeployment fx_monitor fx_merged h = Done dep ∧
      flag_values "--sources" (ct_Args c) = ["/etc/pgwatch/sources.yaml"] ∧
      is_Some (cm_Data cm !! SourcesKey) ∧
      mkVolume configVolumeName (Some (om_Name (cm_ObjectMeta cm))) None ∈ ps_Volumes (pt_Spec (d_Template dep))
  | Err _ => False
  end.
Proof.
  destruct (BuildConfigMap ascending fx_monitor fx_merged) as [[cm h]|e] eqn:E; [|vm_compute in E; discriminate].
  eexists _, _. split; [reflexivity|].
  destruct (mounted_files_match_args ascending fx_monitor fx_merged cm h _ _ E eq_refl eq_refl) as (H1 & H2 & _ & _ & H5).
  split_and!; [exact H1|exact H2|exact H5].
Defined.

(** The pod template carries the hash it was built with under
    [pgpilot.io/config-hash], whatever annotations the user adds, and every
    other annotation is the user's: a new hash changes the template (a
    rollout), and the user can neither pin nor forge it. *)
Theorem config_hash_annotation m merged h dep k :
  BuildDeployment m merged h = Done dep →
  om_Annotations (pt_ObjectMeta (d_Template dep)) !! k =
    if decide (k = AnnotationConfigHash) then Some h
    else ov_Annotations (spec_PodMetadata (mon_Spec m)) !! k.
Proof.
  intros (env & _ & _ & _ & _ & -> & _)%BuildDeployment_Done.
  rewrite MergeAnnotations_lookup. case_decide as Hk.
  - subst. by rewrite lookup_singleton_eq.
  - by rewrite lookup_singleton_ne.
Qed.

Lemma config_hash_annotation_witness :
  ∃ dep, BuildDeployment fx_inline fx_merged "abc" = Done dep ∧
    om_Annotations (pt_ObjectMeta (d_Template dep)) !! AnnotationConfigHash = Some "abc".
Proof.
  eexists. split; [reflexivity|].
  exact (config_hash_annotation fx_inline fx_merged "abc" _ AnnotationConfigHash eq_refl).
Defined.

(** C34 Container port and both probes use one port; and when the Prometheus sink
    is enabled with an admitted port, pgwatch is told to listen on it. *)
Theorem probes_follow_sink_port m merged h dep c p :
  BuildDeployment m merged h = Done dep →
  ps_Containers (pt_Spec (d_Template dep)) = [c] →
  sinks_Prometheus (spec_Sinks (mon_Spec m)) = Some p → prom_Enabled p = true →
  valid_port (prom_Port p) = true →
  ct_Ports c = [mkContainerPort "metrics" (prometheusPort m) ProtocolTCP] ∧
  p_TCPSocket <$> ct_LivenessProbe c = Some (FromInt32 (prometheusPort m)) ∧
  p_TCPSocket <$> ct_ReadinessProbe c = Some (FromInt32 (prometheusPort m)) ∧
  prom_sink_arg (prometheusPort m) ∈ flag_values "--sink" (ct_Args c).
Proof.
  intros (env & _ & _ & _ & _ & _ & -> & _)%BuildDeployment_Done [= <-] Hp He Hv.
  split_and!; [done..|]. change (ct_Args _) with (buildArgs m merged).
  rewrite buildArgs_sinks. unfold prometheusPort, default_port. rewrite Hp, He.
  apply elem_of_app. left. apply list_elem_of_singleton. f_equal.
  unfold valid_port in Hv. destruct (Z.eqb_spec (prom_Port p) 0) as [->|]; [done|].
  destruct (Z.ltb_spec 0 (prom_Port p)); [done|]. rewrite orb_false_l, andb_true_iff, !Z.leb_le in Hv. lia.
Qed.

Lemma probes_follow_sink_port_witness :
  ∃ dep c, BuildDeployment fx_inline fx_merged "abc" = Done dep ∧
    p_TCPSocket <$> ct_LivenessProbe c = Some (FromInt32 9187) ∧
    "prometheus://0.0.0.0:9187" ∈ flag_values "--sink" (ct_Args c).
Proof.
  eexists _, _. split; [reflexivity|].
  destruct (probes_follow_sink_port fx_inline fx_merged "abc" _ _ (mkPrometheusSink true 9187)
    eq_refl eq_refl eq_refl eq_refl eq_refl) as (_ & H2 & _ & H4).
  split; [exact H2|exact H4].
Defined.

(** With the Prometheus sink absent or disabled the probes still test a port
    no sink argument mentions: no [--sink] value is a Prometheus address, yet
    liveness is a TCP probe on [prometheusPort]. *)
Lemma disabled_prometheus_still_probed m merged h dep c :
  BuildDeployment m merged h = Done dep →
  ps_Containers (pt_Spec (d_Template dep)) = [c] →
  (∀ p, sinks_Prometheus (spec_Sinks (mon_Spec m)) = Some p → prom_Enabled p = false) →
  p_TCPSocket <$> ct_LivenessProbe c = Some (FromInt32 (prometheusPort m)) ∧
  ∀ port, prom_sink_arg port ∉ flag_values "--sink" (ct_Args c).
Proof.
  intros (env & _ & _ & _ & _ & _ & -> & _)%BuildDeployment_Done [= <-] Hno.
  split; [done|]. intros port. change (ct_Args _) with (buildArgs m merged).
  rewrite buildArgs_sinks.
  destruct (sinks_Prometheus _) as [p|]; [rewrite (Hno p eq_refl)|];
    destruct (sinks_GRPC _) as [g|]; try case_match; simpl;
    rewrite ?list_elem_of_singleton; (apply not_elem_of_nil || done).
Qed.

(** The builder does not reject a monitor without sinks: pgwatch gets no
    [--sink] at all exactly when no sink is enabled (a gRPC sink needing an
    endpoint as well), and the remaining arguments are produced all the same. *)
Lemma no_sink_accepted m merged :
  flag_values "--sink" (buildArgs m merged) = [] ↔
  (∀ p, sinks_Prometheus (spec_Sinks (mon_Spec m)) = Some p → prom_Enabled p = false) ∧
  (∀ g, sinks_GRPC (spec_Sinks (mon_Spec m)) = Some g →
     grpc_Enabled g = false ∨ grpc_Endpoint g = "").
Proof.
  rewrite buildArgs_sinks.
  destruct (sinks_Prometheus _) as [[[] pp]|]; destruct (sinks_GRPC _) as [[[] [|ch ep] tls]|]; simpl;
    (split; [intros Heq; try done; (split; [intros ? [= <-]|intros ? [= <-]]); simpl; auto; done|]);
    intros [H1 H2]; try done; try (by specialize (H1 _ eq_refl)); destruct (H2 _ eq_refl); done.
Qed.

(** C35 The environment on every branch: literal [PGUSER] and [PGPASSWORD] when
    both inline credentials are set, references to the two keys of the named
    Secret (with the documented default keys) otherwise, and a nil dereference
    exactly when there is neither. *)
Theorem buildEnvVars_spec m :
  match buildEnvVars m with
  | Panicked _ => has_inline (spec_Database (mon_Spec m)) = false ∧
                  db_CredentialsSecret (spec_Database (mon_Spec m)) = None
  | Done env =>
      map ev_Name env = ["PGUSER"; "PGPASSWORD"] ∧ forallb env_well_formed env = true ∧
      if has_inline (spec_Database (mon_Spec m)) then
        map ev_Value env = [db_Username (spec_Database (mon_Spec m));
                            db_Password (spec_Database (mon_Spec m))] ∧
        Forall (λ e, ev_ValueFrom e = None) env
      else
        ∃ r, db_CredentialsSecret (spec_Database (mon_Spec m)) = Some r ∧
          map ev_ValueFrom env =
            [Some (mkSecretKeySelector (csr_Name r)
                     (if decide (csr_UsernameKey r = "") then "username" else csr_UsernameKey r));
             Some (mkSecretKeySelector (csr_Name r)
                     (if decide (csr_PasswordKey r = "") then "password" else csr_PasswordKey r))]
  end.
Proof.
  unfold buildEnvVars, or_default.
  destruct (has_inline _) eqn:Ei; [split_and!; try done; by repeat constructor|].
  destruct (db_CredentialsSecret _) as [r|]; [|done]. split_and!; try done.
  exists r. split; [done|]. destruct (csr_UsernameKey r), (csr_PasswordKey r); reflexivity.
Qed.

(** C37 The fallbacks written in the builders are the defaults the CRDs declare:
    building from the object as submitted and from the object as the API
    server defaults it gives the same ConfigMap, hash and Deployment. *)
Theorem builder_defaults_match_crd `{Yaml} `{Embedded} o m merged h :
  BuildConfigMap o (defaulted m) merged = BuildConfigMap o m merged ∧
  BuildDeployment (defaulted m) merged h = BuildDeployment m merged h.
Proof.
  assert (buildConnStr (default_database (spec_Database (mon_Spec m)))
    = buildConnStr (spec_Database (mon_Spec m))) as Hconn.
  { unfold buildConnStr. simpl. rewrite or_default_idemp. unfold default_port.
    destruct (Z.eqb_spec (db_Port (spec_Database (mon_Spec m))) 0); [done|].
    by destruct (Z.eqb_spec (db_Port (spec_Database (mon_Spec m))) 0). }
  assert (buildArgs (defaulted m) merged = buildArgs m merged) as Hargs.
  { unfold buildArgs. simpl. destruct (sinks_Prometheus _) as [[[] pp]|]; simpl; [|done..].
    unfold default_port. by destruct (Z.eqb_spec pp 0) as [|Hpp]; [|destruct (Z.eqb_spec pp 0)]. }
  assert (prometheusPort (defaulted m) = prometheusPort m) as Hport.
  { unfold prometheusPort. simpl. destruct (sinks_Prometheus _) as [[b pp]|]; simpl; [|done].
    unfold default_port. by destruct (Z.eqb_spec pp 0) as [->|]. }
  assert (buildEnvVars (defaulted m) = buildEnvVars m) as Henv.
  { unfold buildEnvVars. simpl. destruct (db_CredentialsSecret _) as [r|]; simpl; [|done].
    by rewrite !or_default_idemp. }
  split.
  - unfold BuildConfigMap, configmap_data, renderSources, sources_entry. simpl. by rewrite Hconn.
  - unfold BuildDeployment. rewrite Henv. destruct (buildEnvVars m); [|done]. unfold pgwatchContainer.
    rewrite Hargs, Hport. unfold containerImage. simpl. by rewrite !or_default_idemp.
Qed.

(** Of the image settings only repository and tag reach the Deployment: two
    monitors that differ in [pullPolicy] alone, or in the gRPC TLS settings
    alone, get the same Deployment, with no pull policy set. *)
Lemma pull_policy_and_tls_ignored m merged h pp g tls :
  sinks_GRPC (spec_Sinks (mon_Spec m)) = Some g →
  let s := mon_Spec m in
  let m' := mkMonitor (mon_ObjectMeta m)
    (mkMonitorSpec (spec_Database s) (spec_Metrics s)
       (mkSinksSpec (sinks_Prometheus (spec_Sinks s))
          (Some (mkGRPCSink (grpc_Enabled g) (grpc_Endpoint g) tls)))
       (spec_Resources s)
       (mkImageSpec (img_Repository (spec_Image s)) (img_Tag (spec_Image s)) pp)
       (spec_PodMetadata s) (spec_ServiceMetadata s)) (mon_Status m) in
  BuildDeployment m' merged h = BuildDeployment m merged h ∧
  ∀ dep c, BuildDeployment m merged h = Done dep →
    ps_Containers (pt_Spec (d_Template dep)) = [c] → ct_ImagePullPolicy c = "".
Proof.
  intros Hg s m'. split.
  - unfold BuildDeployment, buildEnvVars, pgwatchContainer, buildArgs, containerImage, prometheusPort.
    simpl. unfold s. by rewrite Hg.
  - by intros dep c (env & _ & _ & _ & _ & _ & -> & _)%BuildDeployment_Done [= <-].
Qed.
