(* ===== verification/Service.v ===== *)
(** [internal/builder/service.go], [servicemonitor.go] and [discovery.go]: the
    Service in front of pgwatch, the optional ServiceMonitor that scrapes it,
    and the start-up check that decides whether ServiceMonitors are built. *)
From S2P Require Import Prelude GoStd Kube Api Fixtures Labels Metrics ConfigMap Deployment.
From Stdlib Require Import ZArith.
Open Scope Z_scope.

Definition ServiceTypeClusterIP : string := "ClusterIP".

Definition BuildService (monitor : PgpilotMonitor) : Service :=
  let name := ResourceName (mon_Name monitor) in
  let sysLabels := SystemLabels (mon_Name monitor) in
  let port := prometheusPort monitor in
  let svcLabels := MergeLabels sysLabels (ov_Labels (spec_ServiceMetadata (mon_Spec monitor))) in
  let svcAnnotations := MergeAnnotations ∅ (ov_Annotations (spec_ServiceMetadata (mon_Spec monitor))) in
  mkService (mkTypeMeta "v1" "Service")
    (objectMeta name (mon_Namespace monitor) svcLabels svcAnnotations)
    ServiceTypeClusterIP
    (InstanceSelector (mon_Name monitor))
    [mkServicePort "metrics" ProtocolTCP port (FromString "metrics")].

Definition BuildServiceMonitor (monitor : PgpilotMonitor) : ServiceMonitor :=
  let name := ResourceName (mon_Name monitor) in
  let sysLabels := SystemLabels (mon_Name monitor) in
  mkServiceMonitor (mkTypeMeta "monitoring.coreos.com/v1" "ServiceMonitor")
    (objectMeta name (mon_Namespace monitor)
       (MergeLabels sysLabels (ov_Labels (spec_ServiceMetadata (mon_Spec monitor)))) ∅)
    (InstanceSelector (mon_Name monitor))
    [mon_Namespace monitor]
    [mkEndpoint "metrics" "30s" "10s"].

(** [dc.ServerResourcesForGroupVersion], an API call: the kinds it lists. *)
Definition DiscoveryClient := string → result (list string).

(** The loop of [HasServiceMonitorCRD]. *)
Fixpoint has_kind (kind : string) (kinds : list string) : bool :=
  match kinds with
  | [] => false
  | k :: kinds' => if bool_decide (k = kind) then true else has_kind kind kinds'
  end.

Definition HasServiceMonitorCRD (dc : DiscoveryClient) : bool :=
  match dc "monitoring.coreos.com/v1" with
  | Err _ => false
  | Ok kinds => has_kind "ServiceMonitor" kinds
  end.

(** ** Properties *)

(** C33 The scrape path is connected end to end: the Service selects the pods of
    the Deployment, the Deployment selects its own pods, the ServiceMonitor
    selects the Service in the monitor's namespace and refers to its port by
    name, and the Service port resolves to a named container port of the same
    number, whatever labels the user adds. *)
Theorem scrape_path_connected m merged h dep c :
  BuildDeployment m merged h = Done dep →
  ps_Containers (pt_Spec (d_Template dep)) = [c] →
  let svc := BuildService m in
  let sm := BuildServiceMonitor m in
  let pod_labels := om_Labels (pt_ObjectMeta (d_Template dep)) in
  selects (s_Selector svc) pod_labels ∧ selects (d_Selector dep) pod_labels ∧
  selects (sm_Selector sm) (om_Labels (s_ObjectMeta svc)) ∧
  om_Namespace (s_ObjectMeta svc) ∈ sm_MatchNames sm ∧
  (∀ e, e ∈ sm_Endpoints sm → e_Port e ∈ map sp_Name (s_Ports svc)) ∧
  (∀ sp, sp ∈ s_Ports svc → ∃ cp, cp ∈ ct_Ports c ∧
     sp_TargetPort sp = FromString (cp_Name cp) ∧ cp_ContainerPort cp = sp_Port sp).
Proof.
  intros (env & _ & _ & -> & -> & _ & -> & _)%BuildDeployment_Done [= <-]. simpl. unfold selects.
  split_and!; eauto with pgpilot.
  - by left.
  - intros e [->|He%elem_of_nil]%elem_of_cons; [by left|done].
  - intros sp [->|Hsp%elem_of_nil]%elem_of_cons; [|done]. eexists. split; [by left|done].
Qed.

Lemma scrape_path_connected_witness :
  ∃ dep, BuildDeployment fx_monitor fx_merged "abc" = Done dep ∧
    selects (s_Selector (BuildService fx_monitor)) (om_Labels (pt_ObjectMeta (d_Template dep))) ∧
    selects (sm_Selector (BuildServiceMonitor fx_monitor)) (om_Labels (s_ObjectMeta (BuildService fx_monitor))).
Proof.
  eexists. split; [reflexivity|].
  destruct (scrape_path_connected fx_monitor fx_merged "abc" _ _ eq_refl eq_refl) as (H1 & _ & H3 & _).
  split; [exact H1|exact H3].
Defined.

(** A selector never catches the pods of another monitor: if the selector of
    one monitor selects the labels of a pod template built for another, the
    two monitors have one name. *)
Theorem selector_isolates m1 m2 merged h dep :
  BuildDeployment m2 merged h = Done dep →
  selects (s_Selector (BuildService m1)) (om_Labels (pt_ObjectMeta (d_Template dep))) →
  mon_Name m1 = mon_Name m2.
Proof.
  intros (env & _ & _ & _ & -> & _)%BuildDeployment_Done Hsel.
  pose proof (lookup_weaken _ _ _ _ (InstanceSelector_instance (mon_Name m1)) Hsel) as H1.
  rewrite MergeLabels_lookup, SystemLabels_instance in H1. by injection H1.
Qed.

Lemma selector_isolates_witness :
  ∃ dep, BuildDeployment fx_monitor fx_merged "abc" = Done dep ∧
    selects (s_Selector (BuildService fx_monitor)) (om_Labels (pt_ObjectMeta (d_Template dep))) ∧
    mon_Name fx_monitor = mon_Name fx_monitor.
Proof.
  eexists. split; [reflexivity|].
  assert (selects (s_Selector (BuildService fx_monitor)) (om_Labels (pt_ObjectMeta
    (d_Template (match BuildDeployment fx_monitor fx_merged "abc" with Done d => d | Panicked _ => mkDeployment
       (mkTypeMeta "" "") (fx_meta "" []) None ∅ (mkPodTemplateSpec (fx_meta "" []) (mkPodSpec [] [] None)) 0 end))))) as Hsel.
  { apply selector_merged. }
  split; [exact Hsel|].
  exact (selector_isolates fx_monitor fx_monitor fx_merged "abc" _ eq_refl Hsel).
Defined.

(** ServiceMonitors are enabled exactly when the discovery call for the
    prometheus-operator group succeeds and lists the kind; any failure of the
    call disables them. *)
Lemma HasServiceMonitorCRD_spec dc :
  HasServiceMonitorCRD dc = true ↔
  ∃ kinds, dc "monitoring.coreos.com/v1" = Ok kinds ∧ "ServiceMonitor" ∈ kinds.
Proof.
  assert (∀ k l, has_kind k l = true ↔ k ∈ l) as Hk.
  { intros k l. induction l as [|k' l IH]; simpl; [by rewrite elem_of_nil|].
    rewrite elem_of_cons. case_bool_decide; naive_solver. }
  unfold HasServiceMonitorCRD. destruct (dc _) as [kinds|e]; [|naive_solver].
  rewrite Hk. naive_solver.
Qed.
