(* ===== verification/Prog.v ===== *)
(** The effects of the controllers and their meaning.

    A handler is a [prog]: a finite tree of calls to the world (the API
    server through the controller-runtime client, the event recorder, the
    clock, Go's map iteration), each followed by a continuation for every
    answer the world may give.  Logging is left out.

    [runs p t r] says that [p] can make the calls of the trace [t], getting the
    answers recorded there, and end with [r].  Nothing constrains the answers,
    so what holds of every run holds whatever the API server does: failures,
    stale reads and interleaved changes included.  [interp] executes a program
    against a concrete world. *)
From S2P Require Import Prelude GoStd Kube Api.

(** ** Calls *)
Inductive Eff : Type → Type :=
  | GetMonitor (k : NamespacedName) : Eff (result PgpilotMonitor)
  | UpdateMonitor (m : PgpilotMonitor) : Eff (result PgpilotMonitor)
  | UpdateMonitorStatus (m : PgpilotMonitor) : Eff (option error)
  | ListMonitors (ns : string) : Eff (result (list PgpilotMonitor))
  | GetLibrary (k : NamespacedName) : Eff (result PgpilotMetricLibrary)
  | UpdateLibraryStatus (l : PgpilotMetricLibrary) : Eff (option error)
  | GetSecret (k : NamespacedName) : Eff (result Secret)
  | GetDeployment (k : NamespacedName) : Eff (result Deployment)
  | ListPods (ns : string) (labels : gmap string string) : Eff (result (list Pod))
  | Patch (k : Kind) (obj : obj_of k) (owner : string) (force : bool) : Eff (result (obj_of k))
  | RecordEvent (k : NamespacedName) (eventtype reason message : string) : Eff ()
  | Now : Eff Time
  | PickOrder : Eff MapOrder.

(** ** Programs *)
Inductive prog (A : Type) : Type :=
  | Ret (a : A)
  | Panic (message : string)
  | Call {X : Type} (e : Eff X) (k : X → prog A).
Arguments Ret {_} a.
Arguments Panic {_} message.
Arguments Call {_ _} e k.

Fixpoint bind {A B} (p : prog A) (f : A → prog B) : prog B :=
  match p with
  | Ret a => f a
  | Panic m => Panic m
  | Call e k => Call e (λ x, bind (k x) f)
  end.

Definition call {X} (e : Eff X) : prog X := Call e Ret.

(** A computation of Go code without effects, which may panic. *)
Definition lift {A} (o : outcome A) : prog A :=
  match o with Done a => Ret a | Panicked m => Panic m end.

Declare Scope prog_scope.
Delimit Scope prog_scope with prog.
Notation "'run' x := p 'in' q" := (bind p (λ x, q))
  (at level 10, x pattern, p at level 100, q at level 200) : prog_scope.

(** ** Traces *)
Inductive entry :=
  | Entry {X : Type} (e : Eff X) (answer : X).

Definition trace := list entry.

Fixpoint runs {A} (p : prog A) (t : trace) (r : outcome A) : Prop :=
  match p with
  | Ret a => t = [] ∧ r = Done a
  | Panic m => t = [] ∧ r = Panicked m
  | Call e k => ∃ x t', t = Entry e x :: t' ∧ runs (k x) t' r
  end.

(** ** Weakest preconditions: a property of all runs *)
Fixpoint wp {A} (p : prog A) (Q : trace → outcome A → Prop) : Prop :=
  match p with
  | Ret a => Q [] (Done a)
  | Panic m => Q [] (Panicked m)
  | Call e k => ∀ x, wp (k x) (λ t r, Q (Entry e x :: t) r)
  end.

(** ** Execution against a world *)
Definition handler (S : Type) := ∀ X : Type, Eff X → S → X * S.

Fixpoint interp {A S} (h : handler S) (p : prog A) (s : S) : trace * outcome A * S :=
  match p with
  | Ret a => ([], Done a, s)
  | Panic m => ([], Panicked m, s)
  | Call e k =>
      let '(x, s1) := h _ e s in
      let '(t, r, s2) := interp h (k x) s1 in
      (Entry e x :: t, r, s2)
  end.

(** ** Lemmas *)
Section Runs.
Context {A : Type}.
Implicit Types (p : prog A).

Lemma wp_runs p Q : wp p Q ↔ ∀ t r, runs p t r → Q t r.
Proof.
  revert Q. induction p as [a|m|X e k IH]; intros Q; simpl.
  - split; [by intros ? ?? [-> ->]|eauto].
  - split; [by intros ? ?? [-> ->]|eauto].
  - split.
    + intros Hw t r (x & t' & -> & Hr). specialize (Hw x). rewrite IH in Hw. by apply Hw.
    + intros Hq x. apply IH. intros t r Hr. apply Hq. by exists x, t.
Qed.

Lemma wp_mono p (Q Q' : trace → outcome A → Prop) :
  (∀ t r, Q t r → Q' t r) → wp p Q → wp p Q'.
Proof. rewrite !wp_runs. eauto. Qed.

End Runs.

Section Bind.
Context {A B : Type}.
Implicit Types (p : prog A) (f : A → prog B).

Lemma runs_bind p f t r :
  runs (bind p f) t r ↔
  (∃ m, runs p t (Panicked m) ∧ r = Panicked m) ∨
  (∃ t1 t2 a, t = t1 ++ t2 ∧ runs p t1 (Done a) ∧ runs (f a) t2 r).
Proof.
  revert t. induction p as [a|m|X e k IH]; intros t; simpl.
  - split.
    + intros Hr. right. by exists [], t, a.
    + intros [(m & [_ ?] & _)|(t1 & t2 & a' & -> & [-> [= ->]] & Hr)]; [done|by simpl].
  - split.
    + intros [-> ->]. left. by exists m.
    + intros [(m' & [-> [= ->]] & ->)|(t1 & t2 & a' & _ & [_ ?] & _)]; done.
  - split.
    + intros (x & t' & -> & [(m & Hm & ->)|(t1 & t2 & a & -> & H1 & H2)]%IH).
      * left. exists m. split; [by exists x, t'|done].
      * right. exists (Entry e x :: t1), t2, a. split_and!; [done|by exists x, t1|done].
    + intros [(m & (x & t' & -> & Hm) & ->)|(t1 & t2 & a & -> & (x & t' & -> & H1) & H2)].
      * exists x, t'. split; [done|]. apply IH. left. by exists m.
      * exists x, (t' ++ t2). split; [done|]. apply IH. right. by exists t', t2, a.
Qed.

(** The rule for sequencing. *)
Lemma wp_bind p f Q :
  wp p (λ t r, match r with
               | Done a => wp (f a) (λ t' r', Q (t ++ t') r')
               | Panicked m => Q t (Panicked m)
               end) → wp (bind p f) Q.
Proof.
  rewrite (wp_runs p), (wp_runs (bind p f)). intros Hw t r [(m & Hm & ->)|(t1 & t2 & a & -> & H1 & H2)]%runs_bind.
  - by apply (Hw _ _ Hm).
  - specialize (Hw _ _ H1). simpl in Hw. rewrite wp_runs in Hw. by apply Hw.
Qed.

(** Every execution is a run, so what holds of all runs holds of it. *)
Lemma interp_runs {S} (h : handler S) p s :
  let '(t, r, _) := interp h p s in runs p t r.
Proof.
  revert s. induction p as [a|m|X e k IH]; intros s; simpl; [done..|].
  destruct (h X e s) as [x s1]. specialize (IH x s1).
  destruct (interp h (k x) s1) as [[t r] s2]. by exists x, t.
Qed.

Lemma interp_bind {S} (h : handler S) p f s :
  interp h (bind p f) s =
  let '(t1, r1, s1) := interp h p s in
  match r1 with
  | Done a => let '(t2, r2, s2) := interp h (f a) s1 in (t1 ++ t2, r2, s2)
  | Panicked m => (t1, Panicked m, s1)
  end.
Proof.
  revert s. induction p as [a|m|X e k IH]; intros s; simpl; [|done|].
  - by destruct (interp h (f a) s) as [[??]?].
  - destruct (h X e s) as [x s1]. rewrite IH. destruct (interp h (k x) s1) as [[t1 r1] s2].
    destruct r1; [|done]. by destruct (interp h (f a) s2) as [[??]?].
Qed.
End Bind.

(** Sequencing in monadic terms; equality of trees is extensional, so the last
    law is stated on runs. *)
Lemma bind_ret_l {A B} (a : A) (f : A → prog B) : bind (Ret a) f = f a.
Proof. done. Qed.

Lemma runs_bind_assoc {A B C} (p : prog A) (f : A → prog B) (g : B → prog C) t r :
  runs (bind (bind p f) g) t r ↔ runs (bind p (λ a, bind (f a) g)) t r.
Proof.
  revert t. induction p as [a|m|X e k IH]; intros t; simpl; [done..|].
  by setoid_rewrite IH.
Qed.

(** Every program has a run: each call has some answer. *)
Definition some_answer {X} (e : Eff X) : X :=
  match e in Eff X return X with
  | GetMonitor _ | UpdateMonitor _ => Err (ErrNew "")
  | UpdateMonitorStatus _ | UpdateLibraryStatus _ => None
  | ListMonitors _ => Ok []
  | GetLibrary _ => Err (ErrNew "")
  | GetSecret _ => Err (ErrNew "")
  | GetDeployment _ => Err (ErrNew "")
  | ListPods _ _ => Ok []
  | Patch _ _ _ _ => Err (ErrNew "")
  | RecordEvent _ _ _ _ => tt
  | Now => 0%Z
  | PickOrder => ascending
  end.

Lemma runs_exist {A} (p : prog A) : ∃ t r, runs p t r.
Proof.
  induction p as [a|m|X e k IH]; [by eexists [], _|by eexists [], _|].
  destruct (IH (some_answer e)) as (t & r & Hr). exists (Entry e (some_answer e) :: t), r. by exists (some_answer e), t.
Qed.

(** ** Observations on traces *)

Definition is_patch (en : entry) : bool :=
  match en with @Entry _ e _ => match e with Patch _ _ _ _ => true | _ => false end end.

Definition is_status_update (en : entry) : bool :=
  match en with @Entry _ e _ => match e with UpdateMonitorStatus _ => true | _ => false end end.

(** The events recorded in a trace: type and reason. *)
Definition event_of (en : entry) : option (string * string) :=
  match en with
  | @Entry _ e _ => match e with RecordEvent _ ty reason _ => Some (ty, reason) | _ => None end
  end.
Definition events (t : trace) : list (string * string) := omap event_of t.

Lemma events_app t1 t2 : events (t1 ++ t2) = events t1 ++ events t2.
Proof. apply omap_app. Qed.

#[export] Hint Rewrite events_app : pgpilot_rw.

Lemma existsb_Exists (f : entry → bool) (t : trace) : existsb f t = true → Exists (λ en, f en = true) t.
Proof. rewrite existsb_exists, Exists_exists. intros (x & Hx%list_elem_of_In & Hf). eauto. Qed.


#[global] Arguments bind : simpl never.
#[global] Arguments call : simpl never.

(** ** Invariants of every call

    [always P p R]: in every run of [p] each call with its answer satisfies
    [P], and the outcome satisfies [R]. *)
Definition always {A} (P : entry → Prop) (p : prog A) (R : outcome A → Prop) : Prop :=
  wp p (λ t r, Forall P t ∧ R r).

Section Always.
Context (P : entry → Prop).

Lemma always_ret {A} (a : A) (R : outcome A → Prop) : R (Done a) → always P (Ret a) R.
Proof. by split. Qed.

Lemma always_call {X} (e : Eff X) (R : outcome X → Prop) :
  (∀ x, P (Entry e x)) → (∀ x, R (Done x)) → always P (call e) R.
Proof. intros HP HR x. split; [by constructor|done]. Qed.

Lemma always_bind {A B} (p : prog A) (f : A → prog B) (R : outcome A → Prop) (R' : outcome B → Prop) :
  always P p R →
  (∀ a, R (Done a) → always P (f a) R') →
  (∀ m, R (Panicked m) → R' (Panicked m)) →
  always P (bind p f) R'.
Proof.
  intros Hp Hf Hm. apply wp_bind. eapply wp_mono; [|exact Hp].
  intros t [a|m] [Ht Hr]; [|by auto].
  eapply wp_mono; [|by apply Hf]. intros t' r' [Ht' Hr']. by rewrite Forall_app.
Qed.

(** What is left of a program after a call still satisfies the invariant. *)
Lemma always_inv {A X} (e : Eff X) (k : X → prog A) (R : outcome A → Prop) :
  always P (Call e k) R → ∀ x, P (Entry e x) ∧ always P (k x) R.
Proof.
  intros Ha x. specialize (Ha x). cbv beta in Ha. unfold always. rewrite wp_runs in Ha. rewrite wp_runs. split.
  - destruct (runs_exist (k x)) as (t & r & Hr). destruct (Ha t r Hr) as [Ht _]. by apply Forall_cons in Ht as [? _].
  - intros t r Hr. destruct (Ha t r Hr) as [Ht ?]. split; [by apply Forall_cons in Ht as [_ ?]|done].
Qed.

Lemma always_mono {A} (p : prog A) (R R' : outcome A → Prop) :
  (∀ r, R r → R' r) → always P p R → always P p R'.
Proof. intros HR. apply wp_mono. naive_solver. Qed.
End Always.

(** ** Trace automata

    A specification of the order of calls: a deterministic automaton over
    entries.  [follows δ p s Q]: every run of [p] started in state [s] is
    accepted, and the final state and outcome satisfy [Q]. *)
Section Automaton.
Context {St : Type} (δ : St → entry → option St).

Fixpoint track (s : St) (t : trace) : option St :=
  match t with
  | [] => Some s
  | en :: t' => match δ s en with Some s' => track s' t' | None => None end
  end.

Lemma track_app s t1 t2 : track s (t1 ++ t2) = s' ← track s t1; track s' t2.
Proof. revert s. induction t1 as [|en t1 IH]; intros s; [done|]. simpl. by destruct (δ s en). Qed.

Definition follows {A} (p : prog A) (s : St) (Q : St → outcome A → Prop) : Prop :=
  wp p (λ t r, ∃ s', track s t = Some s' ∧ Q s' r).

Lemma follows_ret {A} (a : A) s Q : Q s (Done a) → follows (Ret a) s Q.
Proof. intros. by exists s. Qed.

Lemma follows_call {X} (e : Eff X) s (Q : St → outcome X → Prop) :
  (∀ x, ∃ s', δ s (Entry e x) = Some s' ∧ Q s' (Done x)) → follows (call e) s Q.
Proof. intros Hc x. destruct (Hc x) as (s' & Hs & Hq). exists s'. simpl. by rewrite Hs. Qed.

(** What is left of a program after a call follows the automaton. *)
Lemma follows_inv {A X} (e : Eff X) (k : X → prog A) s Q :
  follows (Call e k) s Q → ∀ x, ∃ s', δ s (Entry e x) = Some s' ∧ follows (k x) s' Q.
Proof.
  intros Hf x. specialize (Hf x). cbv beta in Hf. rewrite wp_runs in Hf.
  destruct (runs_exist (k x)) as (t & r & Hr). destruct (Hf t r Hr) as (s1 & Ht & _). simpl in Ht.
  destruct (δ s (Entry e x)) as [s'|] eqn:Hs; [|done]. exists s'. split; [done|].
  unfold follows. rewrite wp_runs. intros t' r' Hr'. destruct (Hf t' r' Hr') as (s2 & Ht' & HQ). simpl in Ht'.
  rewrite Hs in Ht'. by exists s2.
Qed.

Lemma follows_bind {A B} (p : prog A) (f : A → prog B) s (R : St → outcome A → Prop) Q :
  follows p s R →
  (∀ a s', R s' (Done a) → follows (f a) s' Q) →
  (∀ m s', R s' (Panicked m) → Q s' (Panicked m)) →
  follows (bind p f) s Q.
Proof.
  intros Hp Hf Hm. apply wp_bind. eapply wp_mono; [|exact Hp].
  intros t [a|m] (s1 & Ht & Hr); [|by eauto].
  eapply wp_mono; [|by apply (Hf a s1)]. intros t' r' (s2 & Ht' & Hr').
  exists s2. split; [|done]. rewrite track_app, Ht. done.
Qed.

End Automaton.
