(* ===== verification/Machinery.v ===== *)
(** Interfaces of the libraries the controllers call: apimachinery
    ([meta.SetStatusCondition], [errors.IsNotFound], [Time.IsZero]),
    controller-runtime ([controllerutil]'s finalizer functions and
    [SetControllerReference]) and client-go ([retry.RetryOnConflict]).

    [Machinery] gives their types, [MachineryLaws] their documented behaviour.
    The theorems on the controllers use only the laws; [reference] is an
    implementation of them, so that the laws are known to be satisfiable and
    the controllers can be executed. *)
From S2P Require Import Prelude GoStd Kube Api Prog.
From Stdlib Require Import ZArith.
Open Scope Z_scope.

Class Machinery := {
  IsZero : option Time → bool;
  ContainsFinalizer : ObjectMeta → string → bool;
  AddFinalizer : ObjectMeta → string → ObjectMeta;
  RemoveFinalizer : ObjectMeta → string → ObjectMeta;
  SetControllerReference : ObjectMeta → ObjectMeta → result ObjectMeta;
  SetStatusCondition : Time → list Condition → Condition → list Condition;
  IsNotFound : error → bool;
  IsConflict : error → bool;
  RetryOnConflict : prog (option error) → prog (option error)
}.

(** [meta.FindStatusCondition]. *)
Definition find_condition (ty : string) (cs : list Condition) : option Condition :=
  List.find (λ c, bool_decide (c_Type c = ty)) cs.

(** [retry.OnError] with a backoff of [n] steps: the function is run until it
    returns nil or an error that is not a conflict, at most [n] times; the
    last error is returned. *)
Fixpoint retry_loop (conflict : error → bool) (n : nat) (last : option error)
    (fn : prog (option error)) : prog (option error) :=
  match n with
  | O => Ret last
  | S n' =>
      bind fn (λ r, match r with
                    | None => Ret None
                    | Some e => if conflict e then retry_loop conflict n' (Some e) fn
                                else Ret (Some e)
                    end)
  end.

(** [retry.DefaultRetry.Steps]. *)
Definition DefaultRetrySteps : nat := 5.

Class MachineryLaws `{Machinery} : Prop := {
  IsZero_nil : IsZero None = true;
  IsZero_set t : t ≠ 0 → IsZero (Some t) = false;
  ContainsFinalizer_spec m f : ContainsFinalizer m f = true ↔ f ∈ om_Finalizers m;
  AddFinalizer_spec m f :
    ∃ fs, AddFinalizer m f = meta_set_finalizers fs m ∧
      ∀ g, g ∈ fs ↔ g = f ∨ g ∈ om_Finalizers m;
  RemoveFinalizer_spec m f :
    ∃ fs, RemoveFinalizer m f = meta_set_finalizers fs m ∧
      ∀ g, g ∈ fs ↔ g ≠ f ∧ g ∈ om_Finalizers m;
  SetControllerReference_spec owner m m' :
    SetControllerReference owner m = Ok m' →
    ∃ os ref, m' = meta_set_owners os m ∧ ref ∈ os ∧ or_Controller ref = true ∧
      or_Name ref = om_Name owner ∧ or_UID ref = om_UID owner ∧ or_Kind ref = "PgpilotMonitor";
  SetControllerReference_fresh owner m :
    om_OwnerReferences m = [] → om_Namespace owner = om_Namespace m →
    ∃ m', SetControllerReference owner m = Ok m';
  SetStatusCondition_same t cs c :
    ∃ c', find_condition (c_Type c) (SetStatusCondition t cs c) = Some c' ∧
      c_Type c' = c_Type c ∧ c_Status c' = c_Status c ∧ c_Reason c' = c_Reason c ∧
      c_Message c' = c_Message c ∧ c_ObservedGeneration c' = c_ObservedGeneration c;
  SetStatusCondition_other t cs c ty :
    ty ≠ c_Type c → find_condition ty (SetStatusCondition t cs c) = find_condition ty cs;
  SetStatusCondition_NoDup t cs c :
    NoDup (map c_Type cs) → NoDup (map c_Type (SetStatusCondition t cs c));
  RetryOnConflict_spec fn :
    RetryOnConflict fn = retry_loop IsConflict DefaultRetrySteps None fn
}.

(** ** A reference implementation *)

(** The in-place update of [SetStatusCondition]: the transition time moves only
    when the status changes. *)
Definition update_condition (now : Time) (old new : Condition) : Condition :=
  mkCondition (c_Type old) (c_Status new) (c_ObservedGeneration new)
    (if bool_decide (c_Status old = c_Status new) then c_LastTransitionTime old else now)
    (c_Reason new) (c_Message new).

Fixpoint set_condition (now : Time) (cs : list Condition) (c : Condition) : list Condition :=
  match cs with
  | [] => [mkCondition (c_Type c) (c_Status c) (c_ObservedGeneration c) now (c_Reason c) (c_Message c)]
  | c' :: cs' =>
      if bool_decide (c_Type c' = c_Type c) then update_condition now c' c :: cs'
      else c' :: set_condition now cs' c
  end.

Fixpoint has_reason (reason : string) (e : error) : bool :=
  match e with
  | ErrExternal r _ => bool_decide (r = reason)
  | ErrNew _ => false
  | ErrWrap _ e' => has_reason reason e'
  end.

#[export] Instance reference : Machinery := {|
  IsZero := λ t, match t with Some t => t =? 0 | None => true end;
  ContainsFinalizer := λ m f, bool_decide (f ∈ om_Finalizers m);
  AddFinalizer := λ m f,
    meta_set_finalizers (if bool_decide (f ∈ om_Finalizers m) then om_Finalizers m
                         else om_Finalizers m ++ [f]) m;
  RemoveFinalizer := λ m f, meta_set_finalizers (filter (λ g, g ≠ f) (om_Finalizers m)) m;
  SetControllerReference := λ owner m,
    if bool_decide (om_Namespace owner = om_Namespace m)
    then Ok (meta_set_owners
               (om_OwnerReferences m ++ [mkOwnerReference "PgpilotMonitor" (om_Name owner) (om_UID owner) true]) m)
    else Err (ErrNew "cross-namespace owner references are disallowed");
  SetStatusCondition := set_condition;
  IsNotFound := has_reason "NotFound";
  IsConflict := has_reason "Conflict";
  RetryOnConflict := retry_loop (has_reason "Conflict") DefaultRetrySteps None
|}.

Lemma set_condition_types now cs c :
  map c_Type (set_condition now cs c) =
    if decide (c_Type c ∈ map c_Type cs) then map c_Type cs else map c_Type cs ++ [c_Type c].
Proof.
  induction cs as [|c' cs IH]; [done|]. simpl. case_bool_decide as Ht.
  - rewrite decide_True by (rewrite Ht; left). done.
  - simpl. rewrite IH. destruct (decide (c_Type c ∈ map c_Type cs)).
    + by rewrite decide_True by (by right).
    + rewrite decide_False; [done|]. rewrite elem_of_cons. naive_solver.
Qed.

#[export] Instance reference_laws : MachineryLaws.
Proof.
  split; simpl.
  - done.
  - intros t Ht. by apply Z.eqb_neq.
  - intros m f. apply bool_decide_eq_true.
  - intros m f. eexists. split; [done|]. intros g. case_bool_decide; [naive_solver|].
    rewrite elem_of_app, list_elem_of_singleton. naive_solver.
  - intros m f. eexists. split; [done|]. intros g. by rewrite list_elem_of_filter.
  - intros owner m m'. case_bool_decide; [|done]. intros [= <-]. eexists _, _.
    split; [done|]. split; [rewrite elem_of_app; right; by left|done].
  - intros owner m _ Hns. rewrite bool_decide_true by done. by eexists.
  - intros t cs c. induction cs as [|c' cs IH]; simpl.
    + rewrite bool_decide_true by done. by eexists.
    + case_bool_decide as Ht; simpl; [rewrite bool_decide_true by done|rewrite bool_decide_false by done].
      * by eexists.
      * done.
  - intros t cs c ty Hty. induction cs as [|c' cs IH]; simpl.
    + by rewrite bool_decide_false by done.
    + case_bool_decide as Ht; simpl.
      * rewrite !bool_decide_false by congruence. done.
      * by rewrite IH.
  - intros t cs c Hnd. rewrite set_condition_types. case_decide; [done|].
    apply NoDup_app. split_and!; [done| |apply NoDup_singleton].
    intros x Hx ->%list_elem_of_singleton. done.
  - done.
Qed.
