(* ===== verification/ApiServer.v ===== *)
(** What the reconcilers rely on of the API server, as an interface: a state
    with a view of the stored objects ([Cluster]), the resource versions issued
    so far, and the behaviour the Kubernetes documentation gives to the calls.
    Reads return what is stored and change nothing.  A write is either refused,
    with an error and without effect (validation, immutable fields, admission,
    a second controller, quota: the interface does not say when), or carried
    out: an update needs the current resource version (the status being left to
    the status subresource), server-side apply with forced ownership makes the
    applied fields those of the stored object and leaves its status alone.
    Whatever changes gets a resource version never used before.

    [Memory] is an implementation, so that the laws are known to be
    satisfiable and whole reconciliations can be executed.  It refuses an
    apply that changes the selector of a Deployment, that would give an object
    a second controller, or that names a Service by something else than a
    label; the theorems do not depend on this choice. *)
From S2P Require Import Prelude GoStd Kube Api Fixtures Prog Machinery.
From Stdlib Require Import ZArith Ascii.
Open Scope Z_scope.

(** ** The stored objects *)
Record Cluster := mkCluster {
  cl_monitors : gmap NamespacedName PgpilotMonitor;
  cl_libraries : gmap NamespacedName PgpilotMetricLibrary;
  cl_secrets : gmap NamespacedName Secret;
  cl_configmaps : gmap NamespacedName ConfigMap;
  cl_deployments : gmap NamespacedName Deployment;
  cl_services : gmap NamespacedName Service;
  cl_servicemonitors : gmap NamespacedName ServiceMonitor
}.

Definition children (c : Cluster) (k : Kind) : gmap NamespacedName (obj_of k) :=
  match k with
  | KConfigMap => cl_configmaps c
  | KDeployment => cl_deployments c
  | KService => cl_services c
  | KServiceMonitor => cl_servicemonitors c
  end.

Definition put_child (k : Kind) : obj_of k → Cluster → Cluster :=
  let key (obj : obj_of k) := meta_key (obj_meta obj) in
  match k return (obj_of k → NamespacedName) → obj_of k → Cluster → Cluster with
  | KConfigMap => λ key obj c, mkCluster (cl_monitors c) (cl_libraries c) (cl_secrets c)
      (<[key obj := obj]> (cl_configmaps c)) (cl_deployments c) (cl_services c) (cl_servicemonitors c)
  | KDeployment => λ key obj c, mkCluster (cl_monitors c) (cl_libraries c) (cl_secrets c)
      (cl_configmaps c) (<[key obj := obj]> (cl_deployments c)) (cl_services c) (cl_servicemonitors c)
  | KService => λ key obj c, mkCluster (cl_monitors c) (cl_libraries c) (cl_secrets c)
      (cl_configmaps c) (cl_deployments c) (<[key obj := obj]> (cl_services c)) (cl_servicemonitors c)
  | KServiceMonitor => λ key obj c, mkCluster (cl_monitors c) (cl_libraries c) (cl_secrets c)
      (cl_configmaps c) (cl_deployments c) (cl_services c) (<[key obj := obj]> (cl_servicemonitors c))
  end key.

Definition put_monitor (m : PgpilotMonitor) (c : Cluster) : Cluster :=
  mkCluster (<[mon_key m := m]> (cl_monitors c)) (cl_libraries c) (cl_secrets c)
    (cl_configmaps c) (cl_deployments c) (cl_services c) (cl_servicemonitors c).

Definition put_library (l : PgpilotMetricLibrary) (c : Cluster) : Cluster :=
  mkCluster (cl_monitors c) (<[lib_key l := l]> (cl_libraries c)) (cl_secrets c)
    (cl_configmaps c) (cl_deployments c) (cl_services c) (cl_servicemonitors c).

(** ** The interface *)

(** Calls that store nothing. *)
Definition quiet {X} (e : Eff X) : bool :=
  match e with
  | UpdateMonitor _ | UpdateMonitorStatus _ | UpdateLibraryStatus _ | Patch _ _ _ _ => false
  | _ => true
  end.

(** The ready replicas of the Deployment stored under a key. *)
Definition ready_at (c : Cluster) (key : NamespacedName) : Z :=
  match cl_deployments c !! key with Some d => d_ReadyReplicas d | None => 0 end.

(** The fields of an applied object are those of the stored one; maps may hold
    further entries other managers own, lists of structures further elements. *)
Definition fields_applied (k : Kind) : obj_of k → obj_of k → Prop :=
  match k with
  | KConfigMap => λ o o', cm_Data o ⊆ cm_Data o'
  | KDeployment => λ o o',
      d_Selector o' = d_Selector o ∧
      om_Labels (pt_ObjectMeta (d_Template o)) ⊆ om_Labels (pt_ObjectMeta (d_Template o')) ∧
      om_Annotations (pt_ObjectMeta (d_Template o)) ⊆ om_Annotations (pt_ObjectMeta (d_Template o')) ∧
      (∀ ct, ct ∈ ps_Containers (pt_Spec (d_Template o)) →
         ∃ ct', ct' ∈ ps_Containers (pt_Spec (d_Template o')) ∧ ct_Name ct' = ct_Name ct ∧
           ct_Image ct' = ct_Image ct ∧ ct_Args ct' = ct_Args ct ∧ ct_Env ct ⊆ ct_Env ct') ∧
      ps_Volumes (pt_Spec (d_Template o)) ⊆ ps_Volumes (pt_Spec (d_Template o'))
  | KService => λ o o', s_Selector o' = s_Selector o ∧ s_Ports o ⊆ s_Ports o'
  | KServiceMonitor => λ o o', sm_Selector o' = sm_Selector o ∧ sm_Endpoints o' = sm_Endpoints o
  end.

Definition applied {k : Kind} (o o' : obj_of k) : Prop :=
  meta_key (obj_meta o') = meta_key (obj_meta o) ∧
  om_Labels (obj_meta o) ⊆ om_Labels (obj_meta o') ∧
  om_Annotations (obj_meta o) ⊆ om_Annotations (obj_meta o') ∧
  om_OwnerReferences (obj_meta o) ⊆ om_OwnerReferences (obj_meta o') ∧
  fields_applied k o o'.

(** Applying a Deployment leaves its status alone. *)
Definition status_kept (c : Cluster) (k : Kind) : obj_of k → Prop :=
  match k with
  | KDeployment => λ o', d_ReadyReplicas o' = ready_at c (meta_key (d_ObjectMeta o'))
  | _ => λ _, True
  end.

(** An object under deletion goes away with its last finalizer. *)
Definition store_updated (m' : PgpilotMonitor) (c : Cluster) : Cluster :=
  match om_DeletionTimestamp (mon_ObjectMeta m'), om_Finalizers (mon_ObjectMeta m') with
  | Some _, [] => mkCluster (delete (mon_key m') (cl_monitors c)) (cl_libraries c) (cl_secrets c)
                    (cl_configmaps c) (cl_deployments c) (cl_services c) (cl_servicemonitors c)
  | _, _ => put_monitor m' c
  end.

Class ApiServer (S : Type) := {
  serve : handler S;
  store : S → Cluster;
  issued : S → string → Prop  (* the resource versions in use up to now *)
}.

(** Whoever changes the objects, the server gives what changed a new version,
    and keeps objects under their keys. *)
Record versioned {S} `{ApiServer S} (s s' : S) : Prop := {
  ver_issued v : issued s v → issued s' v;
  ver_monitors k m' : cl_monitors (store s') !! k = Some m' →
    cl_monitors (store s) !! k = Some m' ∨
    (mon_key m' = k ∧ ¬ issued s (om_ResourceVersion (mon_ObjectMeta m')) ∧
     issued s' (om_ResourceVersion (mon_ObjectMeta m')));
  ver_libraries k l' : cl_libraries (store s') !! k = Some l' →
    cl_libraries (store s) !! k = Some l' ∨ lib_key l' = k
}.

(** An update of the finalizers of [m]. *)
Definition with_finalizers (fs : list string) (m : PgpilotMonitor) : PgpilotMonitor :=
  set_meta (meta_set_finalizers fs (mon_ObjectMeta m)) m.
Definition with_version (rv : string) (m : PgpilotMonitor) : PgpilotMonitor :=
  set_meta (SetResourceVersion rv (mon_ObjectMeta m)) m.

Class ApiServerLaws (S : Type) `{ApiServer S} : Prop := {
  serve_versioned X (e : Eff X) s : versioned s (serve X e s).2;
  serve_quiet X (e : Eff X) s : quiet e = true → store (serve X e s).2 = store s;
  serve_GetMonitor k s m : (serve _ (GetMonitor k) s).1 = Ok m ↔ cl_monitors (store s) !! k = Some m;
  serve_GetLibrary k s l : cl_libraries (store s) !! k = Some l → (serve _ (GetLibrary k) s).1 = Ok l;
  serve_GetSecret k s x : cl_secrets (store s) !! k = Some x → (serve _ (GetSecret k) s).1 = Ok x;
  serve_GetDeployment k s d : cl_deployments (store s) !! k = Some d → (serve _ (GetDeployment k) s).1 = Ok d;
  serve_UpdateMonitor m fs s :
    cl_monitors (store s) !! mon_key m = Some m →
    let '(x, s') := serve _ (UpdateMonitor (with_finalizers fs m)) s in
    ((∃ e, x = Err e) ∧ store s' = store s) ∨
    ∃ rv, x = Ok (with_version rv (with_finalizers fs m)) ∧ issued s' rv ∧
      store s' = store_updated (with_version rv (with_finalizers fs m)) (store s);
  serve_UpdateMonitor_stale m s :
    (∀ m0, cl_monitors (store s) !! mon_key m = Some m0 →
       om_ResourceVersion (mon_ObjectMeta m0) ≠ om_ResourceVersion (mon_ObjectMeta m)) →
    let '(x, s') := serve _ (UpdateMonitor m) s in (∃ e, x = Err e) ∧ store s' = store s;
  serve_UpdateMonitorStatus m s :
    let '(x, s') := serve _ (UpdateMonitorStatus m) s in
    ((∃ e, x = Some e) ∧ store s' = store s) ∨
    ∃ m0 rv, cl_monitors (store s) !! mon_key m = Some m0 ∧ x = None ∧
      store s' = put_monitor (set_status (mon_Status m) (with_version rv m0)) (store s);
  serve_UpdateLibraryStatus l s :
    let '(x, s') := serve _ (UpdateLibraryStatus l) s in
    ((∃ e, x = Some e) ∧ store s' = store s) ∨
    ∃ l0 rv, cl_libraries (store s) !! lib_key l = Some l0 ∧ x = None ∧
      store s' = put_library (mkLibrary (SetResourceVersion rv (lib_ObjectMeta l0)) (lib_Spec l0) (lib_Status l)) (store s);
  serve_Patch k (o : obj_of k) fo fc s :
    let '(x, s') := serve _ (Patch k o fo fc) s in
    ((∃ e, x = Err e) ∧ store s' = store s) ∨
    ∃ o', x = Ok o' ∧ applied o o' ∧ status_kept (store s) k o' ∧ store s' = put_child k o' (store s)
}.

(** ** Lemmas *)
Lemma children_put_same k (o : obj_of k) c :
  children (put_child k o c) k = <[meta_key (obj_meta o) := o]> (children c k).
Proof. by destruct k. Qed.

Lemma children_put_other k k' (o : obj_of k) c : k' ≠ k → children (put_child k o c) k' = children c k'.
Proof. by destruct k, k'. Qed.

(** Storing a child touches only the place it names. *)
Lemma children_put_frame k k' (o : obj_of k) c key :
  (k' = k → key ≠ meta_key (obj_meta o)) → children (put_child k o c) k' !! key = children c k' !! key.
Proof.
  intros Hk. destruct (decide (k' = k)) as [->|Hne].
  - rewrite children_put_same. by apply lookup_insert_ne, not_eq_sym, Hk.
  - by rewrite children_put_other.
Qed.

Lemma monitors_put_child k (o : obj_of k) c : cl_monitors (put_child k o c) = cl_monitors c.
Proof. by destruct k. Qed.
Lemma libraries_put_child k (o : obj_of k) c : cl_libraries (put_child k o c) = cl_libraries c.
Proof. by destruct k. Qed.
Lemma secrets_put_child k (o : obj_of k) c : cl_secrets (put_child k o c) = cl_secrets c.
Proof. by destruct k. Qed.
Lemma children_put_monitor m c k : children (put_monitor m c) k = children c k.
Proof. by destruct k. Qed.

#[export] Hint Rewrite @monitors_put_child @libraries_put_child @secrets_put_child children_put_monitor : pgpilot_rw.

Lemma applied_refl k (o : obj_of k) : applied o o.
Proof.
  split_and!; try done. destruct k; simpl; [done| |done|done]. split_and!; [done..| |done].
  intros ct Hct. by exists ct.
Qed.

(** ** An implementation in memory *)
Record Memory := mkMemory { mem_cluster : Cluster; mem_revision : Z; mem_clock : Time; mem_pods : list Pod }.

Definition mem_put (c : Cluster) (s : Memory) : Memory :=
  mkMemory c (mem_revision s + 1) (mem_clock s) (mem_pods s).

Definition not_found {A} : result A := Err (ErrExternal "NotFound" "not found").
Definition conflict : error := ErrExternal "Conflict" "the object has been modified".

Definition read {A} (m : gmap NamespacedName A) (k : NamespacedName) : result A :=
  match m !! k with Some x => Ok x | None => not_found end.

(** Labels, annotations and owners that others gave the object stay; the
    operator is the only manager of the other fields. *)
Definition mem_merge_meta (old new : ObjectMeta) : ObjectMeta :=
  mkObjectMeta (om_Name new) (om_Namespace new) (om_UID old) (om_Generation old) (om_ResourceVersion old)
    (om_DeletionTimestamp old) (om_Finalizers old) (om_Labels new ∪ om_Labels old)
    (om_Annotations new ∪ om_Annotations old)
    (om_OwnerReferences new ++
       filter (λ ref, or_UID ref ∉ map or_UID (om_OwnerReferences new)) (om_OwnerReferences old))
    (om_ManagedFields old).

Definition mem_merge (k : Kind) (c : Cluster) (o : obj_of k) : obj_of k :=
  let o := match children c k !! meta_key (obj_meta o) with
           | Some old => obj_set_meta (mem_merge_meta (obj_meta old) (obj_meta o)) o
           | None => o
           end in
  match k return obj_of k → obj_of k with
  | KDeployment => λ o, mkDeployment (d_TypeMeta o) (d_ObjectMeta o) (d_Replicas o) (d_Selector o)
                     (d_Template o) (ready_at c (meta_key (d_ObjectMeta o)))
  | _ => λ o, o
  end o.

(** What [Memory] checks before it stores: [o] was applied, [o'] results. *)
Definition mem_admits (k : Kind) (c : Cluster) (o o' : obj_of k) : bool :=
  (length (filter (λ ref, or_Controller ref = true) (om_OwnerReferences (obj_meta o'))) <=? 1)%nat &&
  match k return obj_of k → bool with
  | KDeployment => λ o, match cl_deployments c !! meta_key (d_ObjectMeta o) with
                        | Some d => bool_decide (d_Selector d = d_Selector o) | None => true end
  | KService => λ o, (String.length (om_Name (s_ObjectMeta o)) <=? 63)%nat &&
                     negb (has_byte "."%char (om_Name (s_ObjectMeta o)))
  | _ => λ _, true
  end o.

Definition mem_patch (k : Kind) (o : obj_of k) (s : Memory) : result (obj_of k) * Memory :=
  let c := mem_cluster s in
  let o' := mem_merge k c o in
  if mem_admits k c o o' then (Ok o', mem_put (put_child k o' c) s)
  else (Err (ErrExternal "Invalid" "the object is invalid"), s).

Definition mem_serve : handler Memory := λ X e s,
  let c := mem_cluster s in
  let fresh := Itoa (mem_revision s) in
  match e in Eff X return X * Memory with
  | GetMonitor k => (read (cl_monitors c) k, s)
  | UpdateMonitor m =>
      match cl_monitors c !! mon_key m with
      | None => (not_found, s)
      | Some m0 =>
          if bool_decide (om_ResourceVersion (mon_ObjectMeta m) = om_ResourceVersion (mon_ObjectMeta m0)) then
            let m' := mkMonitor (SetResourceVersion fresh (mon_ObjectMeta m)) (mon_Spec m) (mon_Status m0) in
            (Ok m', mem_put (store_updated m' c) s)
          else (Err conflict, s)
      end
  | UpdateMonitorStatus m =>
      match cl_monitors c !! mon_key m with
      | None => (Some (ErrExternal "NotFound" "not found"), s)
      | Some m0 =>
          if bool_decide (om_ResourceVersion (mon_ObjectMeta m) = om_ResourceVersion (mon_ObjectMeta m0)) then
            let m' := mkMonitor (SetResourceVersion fresh (mon_ObjectMeta m0)) (mon_Spec m0) (mon_Status m) in
            (None, mem_put (put_monitor m' c) s)
          else (Some conflict, s)
      end
  | ListMonitors ns => (Ok (filter (λ m, mon_Namespace m = ns) (map_to_list (cl_monitors c)).*2), s)
  | GetLibrary k => (read (cl_libraries c) k, s)
  | UpdateLibraryStatus l =>
      match cl_libraries c !! lib_key l with
      | None => (Some (ErrExternal "NotFound" "not found"), s)
      | Some l0 =>
          if bool_decide (om_ResourceVersion (lib_ObjectMeta l) = om_ResourceVersion (lib_ObjectMeta l0)) then
            let l' := mkLibrary (SetResourceVersion fresh (lib_ObjectMeta l0)) (lib_Spec l0) (lib_Status l) in
            (None, mem_put (put_library l' c) s)
          else (Some conflict, s)
      end
  | GetSecret k => (read (cl_secrets c) k, s)
  | GetDeployment k => (read (cl_deployments c) k, s)
  | ListPods ns ls => (Ok (filter (λ p, om_Namespace (pod_ObjectMeta p) = ns ∧ ls ⊆ om_Labels (pod_ObjectMeta p)) (mem_pods s)), s)
  | Patch k o _ _ => mem_patch k o s
  | RecordEvent _ _ _ _ => (tt, s)
  | Now => (mem_clock s, mkMemory c (mem_revision s) (mem_clock s + 1) (mem_pods s))
  | PickOrder => (ascending, s)
  end.

#[export] Instance memory : ApiServer Memory := {
  serve := mem_serve;
  store := mem_cluster;
  issued := λ s v, ∃ n, n < mem_revision s ∧ v = Itoa n
}.

Lemma Itoa_inj a b : Itoa a = Itoa b → a = b.
Proof. apply (inj pretty). Qed.

(** The next version is new, and then issued. *)
Lemma mem_fresh (s : Memory) c :
  ¬ issued s (Itoa (mem_revision s)) ∧ issued (mem_put c s) (Itoa (mem_revision s)).
Proof.
  split; [|exists (mem_revision s); simpl; split; [lia|done]].
  intros (n & Hn & Hv%Itoa_inj). lia.
Qed.

Lemma mem_issued (s : Memory) c v : issued s v → issued (mem_put c s) v.
Proof. intros (n & Hn & ->). exists n. simpl. split; [lia|done]. Qed.

Lemma versioned_refl {S} `{ApiServer S} (s : S) : versioned s s.
Proof. split; auto. Qed.

(** Storing a monitor with the next version. *)
Lemma mem_versioned_put (s : Memory) m' c' :
  om_ResourceVersion (mon_ObjectMeta m') = Itoa (mem_revision s) →
  cl_libraries c' = cl_libraries (mem_cluster s) →
  (∀ k m, cl_monitors c' !! k = Some m → cl_monitors (mem_cluster s) !! k = Some m ∨ (m = m' ∧ k = mon_key m')) →
  versioned s (mem_put c' s).
Proof.
  intros Hv Hl Hm. split; simpl.
  - intros v. apply (mem_issued s c').
  - intros k m [Hold|[-> ->]]%Hm; [by left|right]. split; [done|]. rewrite Hv. apply (mem_fresh s c').
  - rewrite Hl. auto.
Qed.

Lemma lookup_put_monitor m c k x :
  cl_monitors (put_monitor m c) !! k = Some x → cl_monitors c !! k = Some x ∨ (x = m ∧ k = mon_key m).
Proof.
  simpl. destruct (decide (k = mon_key m)) as [->|Hne].
  - rewrite lookup_insert_eq. intros [= <-]. by right.
  - rewrite lookup_insert_ne by done. by left.
Qed.

Lemma lookup_store_updated m c k x :
  cl_monitors (store_updated m c) !! k = Some x → cl_monitors c !! k = Some x ∨ (x = m ∧ k = mon_key m).
Proof.
  unfold store_updated. destruct (om_DeletionTimestamp _); [destruct (om_Finalizers _)|]; try apply lookup_put_monitor.
  simpl. intros [_ Hx]%lookup_delete_Some. by left.
Qed.

Lemma lookup_store_updated_same m c x : cl_monitors (store_updated m c) !! mon_key m = Some x → x = m.
Proof.
  unfold store_updated. destruct (om_DeletionTimestamp _); [destruct (om_Finalizers _)|]; simpl;
    rewrite ?lookup_insert_eq, ?lookup_delete_eq; congruence.
Qed.

Lemma store_updated_libraries m c : cl_libraries (store_updated m c) = cl_libraries c.
Proof. unfold store_updated. destruct (om_DeletionTimestamp _); [destruct (om_Finalizers _)|]; done. Qed.

Lemma mem_versioned_same (s s' : Memory) :
  mem_revision s ≤ mem_revision s' → cl_monitors (mem_cluster s') = cl_monitors (mem_cluster s) →
  cl_libraries (mem_cluster s') = cl_libraries (mem_cluster s) → versioned s s'.
Proof.
  intros Hr Hm Hl. split; simpl; rewrite ?Hm, ?Hl; auto. intros v (n & Hn & ->). exists n. split; [lia|done].
Qed.

Lemma mem_versioned X (e : Eff X) (s : Memory) : versioned s (mem_serve X e s).2.
Proof.
  destruct e; simpl; try apply versioned_refl.
  - destruct (_ !! _) as [m0|]; [|apply versioned_refl]. case_bool_decide; [|apply versioned_refl].
    eapply mem_versioned_put; [|apply store_updated_libraries|apply lookup_store_updated]. done.
  - destruct (_ !! _) as [m0|]; [|apply versioned_refl]. case_bool_decide; [|apply versioned_refl].
    eapply mem_versioned_put; [|done|apply lookup_put_monitor]. done.
  - destruct (_ !! _) as [l0|] eqn:Hl; [|apply versioned_refl]. case_bool_decide; [|apply versioned_refl].
    split; simpl; [intros v; apply (mem_issued s (mem_cluster s))|auto|]. intros k l'.
    destruct (decide (k = lib_key l0)) as [->|Hne].
    + intros Hl'. right. by rewrite lookup_insert_eq in Hl'; injection Hl' as <-.
    + rewrite lookup_insert_ne by done. by left.
  - unfold mem_patch. destruct (mem_admits _ _ _ _); [|apply versioned_refl].
    apply mem_versioned_same; simpl; [lia|by rewrite monitors_put_child|by rewrite libraries_put_child].
  - by apply mem_versioned_same.
Qed.

Lemma mem_merge_meta_key k c (o : obj_of k) :
  meta_key (obj_meta (mem_merge k c o)) = meta_key (obj_meta o).
Proof.
  unfold mem_merge. destruct (children c k !! _) as [old|]; destruct k; done.
Qed.

Lemma mem_merge_applied k c (o : obj_of k) : applied o (mem_merge k c o) ∧ status_kept c k (mem_merge k c o).
Proof.
  unfold mem_merge. destruct (children c k !! _) as [old|].
  - split; [|by destruct k].
    assert (applied o (obj_set_meta (mem_merge_meta (obj_meta old) (obj_meta o)) o)) as (H1 & H2 & H3 & H4 & H5).
    { split_and!; rewrite ?obj_meta_set; [done|apply map_union_subseteq_l..| |].
      - intros ref Href. apply elem_of_app. by left.
      - pose proof (applied_refl k o) as (_ & _ & _ & _ & Hf). by destruct k. }
    destruct k; by split_and!.
  - split; [|by destruct k]. pose proof (applied_refl k o) as (H1 & H2 & H3 & H4 & H5). destruct k; by split_and!.
Qed.

#[export] Instance memory_laws : ApiServerLaws Memory.
Proof.
  split.
  - apply mem_versioned.
  - intros X e s Hq. by destruct e.
  - intros k s m. simpl. unfold read. destruct (_ !! k); naive_solver.
  - intros k s m Hm. simpl in *. unfold read. by rewrite Hm.
  - intros k s m Hm. simpl in *. unfold read. by rewrite Hm.
  - intros k s m Hm. simpl in *. unfold read. by rewrite Hm.
  - intros m fs s Hm. simpl in *. change (mon_key (with_finalizers fs m)) with (mon_key m).
    rewrite Hm, bool_decide_true by done. right. eexists. split; [done|]. split; [|done]. apply mem_fresh.
  - intros m s Hm. simpl in *. destruct (_ !! _) as [m0|]; [|split; [by eexists|done]].
    rewrite bool_decide_false; [split; [by eexists|done]|]. apply not_eq_sym. by apply Hm.
  - intros m s. simpl. destruct (_ !! _) as [m0|]; [|left; split; [by eexists|done]].
    case_bool_decide; [right|left; split; [by eexists|done]]. exists m0. by eexists.
  - intros l s. simpl. destruct (_ !! _) as [l0|]; [|left; split; [by eexists|done]].
    case_bool_decide; [right|left; split; [by eexists|done]]. exists l0. by eexists.
  - intros k o fo fc s. simpl. unfold mem_patch.
    destruct (mem_admits _ _ _ _); [right|left; split; [by eexists|done]].
    destruct (mem_merge_applied k (mem_cluster s) o) as [Ha Hs]. by exists (mem_merge k (mem_cluster s) o).
Qed.

(** ** Concrete servers *)
Definition fx_cluster (libs : list PgpilotMetricLibrary) (secrets : list Secret) : Cluster :=
  mkCluster (list_to_map ((λ m, (mon_key m, m)) <$> [fx_monitor; fx_inline; fx_no_credentials; fx_deleting]))
    (list_to_map ((λ l, (lib_key l, l)) <$> libs))
    (list_to_map ((λ x, (meta_key (sec_ObjectMeta x), x)) <$> secrets)) ∅ ∅ ∅ ∅.

Definition fx_server : Memory := mkMemory (fx_cluster [fx_library] [fx_secret]) 100 1000 [].
Definition fx_server_no_secret : Memory := mkMemory (fx_cluster [fx_library] []) 100 1000 [].
Definition fx_server_no_library : Memory := mkMemory (fx_cluster [] [fx_secret]) 100 1000 [].
