(* ===== verification/MonitorController.v ===== *)
(** [internal/controller/pgpilotmonitor_controller.go]: the reconciler of
    [PgpilotMonitor].

    [monitor] is a local object of [Reconcile], mutated through a pointer: the
    functions that mutate it return the new value.  Logging is left out. *)
From S2P Require Import Prelude GoStd GoTime Sha256 Kube Api Labels Metrics ConfigMap.
From S2P Require Import Deployment Service Prog Machinery.
From Stdlib Require Import ZArith.
Open Scope Z_scope.
Open Scope prog_scope.

Definition finalizerName : string := "pgpilot.io/finalizer".
Definition fieldOwner : string := "pgpilot-operator".
Definition EventTypeNormal : string := "Normal".
Definition EventTypeWarning : string := "Warning".

(** [PgpilotMonitorReconciler]: its client, recorder and scheme are the effects
    and interfaces; what is left is the flag. *)
Record PgpilotMonitorReconciler := mkReconciler { ServiceMonitorEnabled : bool }.

(** [ctrl.Result]: a zero [RequeueAfter] asks for no requeue. *)
Record Result := mkResult { RequeueAfter : Z }.
Definition noRequeue : Result := mkResult 0.
Definition requeue_after (seconds : Z) : Result := mkResult (seconds * Second).

(** [s[:n]], which panics when the string is too short. *)
Definition slice_to (n : nat) (s : string) : outcome string :=
  if (n <=? String.length s)%nat then Done (String.substring 0 n s)
  else Panicked "slice bounds out of range".

Section Controller.
Context `{Y : Yaml} `{E : Embedded} `{M : Machinery}.

Definition setCondition (condType status reason message : string) (m : PgpilotMonitor) :
    prog PgpilotMonitor :=
  run now := call Now in
  Ret (on_status (λ s, st_set_Conditions
         (SetStatusCondition now (st_Conditions s)
            (mkCondition condType status (mon_Generation m) 0 reason message)) s) m).

(** The closure [patchStatus] retries. *)
Definition patchStatus_once (m : PgpilotMonitor) : prog (option error) :=
  run r := call (GetMonitor (mon_key m)) in
  match r with
  | Err e => Ret (Some e)
  | Ok latest => call (UpdateMonitorStatus (set_status (mon_Status m) latest))
  end.

Definition patchStatus (m : PgpilotMonitor) : prog (option error) :=
  RetryOnConflict (patchStatus_once m).

Definition serverSideApply {k : Kind} (obj : obj_of k) : prog (result (obj_of k)) :=
  let obj := obj_set_meta (SetManagedFields [] (obj_meta obj)) obj in
  let obj := obj_set_meta (SetResourceVersion "" (obj_meta obj)) obj in
  call (Patch k obj fieldOwner true).

(** [Eventf] on the monitor. *)
Definition event (m : PgpilotMonitor) (ty reason message : string) : prog () :=
  call (RecordEvent (mon_key m) ty reason message).

(** *** validateCredentials *)
Definition validateCredentials (monitor : PgpilotMonitor) :
    prog (PgpilotMonitor * Result * bool) :=
  let db := spec_Database (mon_Spec monitor) in
  if has_inline db then
    run monitor := setCondition "DatabaseReachable" ConditionTrue "InlineCredentials"
                     "Inline username/password configured" monitor in
    Ret (monitor, noRequeue, true)
  else
    match db_CredentialsSecret db with
    | Some ref =>
        run r := call (GetSecret (mkNN (mon_Namespace monitor) (csr_Name ref))) in
        match r with
        | Err err =>
            run monitor := setCondition "Ready" ConditionFalse "SecretNotFound"
              ("Secret " +:+ Quote (csr_Name ref) +:+ " not found: " +:+ Error err) monitor in
            run monitor := setCondition "DatabaseReachable" ConditionFalse "SecretNotFound"
              ("Credentials secret " +:+ Quote (csr_Name ref) +:+ " not found") monitor in
            run _ := event monitor EventTypeWarning "SecretNotFound"
              ("Credentials secret " +:+ Quote (csr_Name ref) +:+ " not found in namespace "
                 +:+ Quote (mon_Namespace monitor)) in
            run _ := patchStatus monitor in
            Ret (monitor, requeue_after 30, false)
        | Ok _ =>
            run monitor := setCondition "DatabaseReachable" ConditionTrue "CredentialsFound"
              ("Credentials secret " +:+ Quote (csr_Name ref) +:+ " exists") monitor in
            Ret (monitor, noRequeue, true)
        end
    | None =>
        run monitor := setCondition "Ready" ConditionFalse "NoCredentials"
          "spec.database has no inline username/password and no credentialsSecret" monitor in
        run _ := patchStatus monitor in
        Ret (monitor, requeue_after 30, false)
    end.

(** *** resolveLibraries *)
Fixpoint resolve_refs (ns : string) (refs : list LibraryRef) (libs : list PgpilotMetricLibrary) :
    prog (result (list PgpilotMetricLibrary)) :=
  match refs with
  | [] => Ret (Ok libs)
  | ref :: refs' =>
      run r := call (GetLibrary (mkNN ns (lr_Name ref))) in
      match r with
      | Err err => Ret (Err (ErrWrap ("library " +:+ Quote (lr_Name ref)) err))
      | Ok lib => resolve_refs ns refs' (libs ++ [lib])
      end
  end.

Definition resolveLibraries (monitor : PgpilotMonitor) : prog (result (list PgpilotMetricLibrary)) :=
  resolve_refs (mon_Namespace monitor) (ms_FromLibraries (spec_Metrics (mon_Spec monitor))) [].

(** *** Applying one desired object: set the owner, then patch. *)
Definition apply_child {k : Kind} (monitor : PgpilotMonitor) (what : string) (obj : obj_of k) :
    prog (result (obj_of k)) :=
  match SetControllerReference (mon_ObjectMeta monitor) (obj_meta obj) with
  | Err err => Ret (Err err)
  | Ok om =>
      run r := serverSideApply (obj_set_meta om obj) in
      Ret (wrap_err ("reconcile " +:+ what) r)
  end.

(** *** Step 7: observe the Deployment and write the status *)
Definition observe_status (monitor : PgpilotMonitor) (dep : NamespacedName) :
    prog (Result * option error) :=
  run r := call (GetDeployment dep) in
  match r with
  | Err err => Ret (noRequeue, Some err)
  | Ok currentDep =>
      let wasReady := st_Ready (mon_Status monitor) in
      let ready := 0 <? d_ReadyReplicas currentDep in
      let monitor := on_status (st_set_Ready ready) monitor in
      let monitor := on_status (st_set_ObservedGeneration (mon_Generation monitor)) monitor in
      run now := call Now in
      let monitor := on_status (st_set_LastReconciled now) monitor in
      run monitor :=
        (if ready then
           run monitor := setCondition "Ready" ConditionTrue "PodRunning"
                            "pgwatch pod running and scraping" monitor in
           run _ := (if negb wasReady
                     then event monitor EventTypeNormal "PodRunning" "pgwatch pod running and scraping"
                     else Ret tt) in
           Ret monitor
         else
           run monitor := setCondition "Ready" ConditionFalse "PodNotReady"
                            "pgwatch pod is not ready yet" monitor in
           run _ := (if wasReady
                     then event monitor EventTypeWarning "PodNotReady" "pgwatch pod is not ready yet"
                     else Ret tt) in
           Ret monitor) in
      run pods := call (ListPods (mon_Namespace monitor) (InstanceSelector (mon_Name monitor))) in
      let monitor :=
        match pods with
        | Ok (pod :: _) => on_status (st_set_PodName (om_Name (pod_ObjectMeta pod))) monitor
        | _ => monitor
        end in
      run err := patchStatus monitor in
      match err with
      | Some err => Ret (noRequeue, Some (ErrWrap "update status" err))
      | None => if negb ready then Ret (requeue_after 15, None) else Ret (noRequeue, None)
      end
  end.

(** *** Steps 5 to 7: Deployment, Service, ServiceMonitor, status *)
Definition apply_workload (r : PgpilotMonitorReconciler) (monitor : PgpilotMonitor)
    (merged : MergedMetrics) (configHash : string) : prog (Result * option error) :=
  run desiredDep := lift (BuildDeployment monitor merged configHash) in
  run rd := apply_child (k := KDeployment) monitor "deployment" desiredDep in
  match rd with
  | Err err => Ret (noRequeue, Some err)
  | Ok desiredDep =>
      run rs := apply_child (k := KService) monitor "service" (BuildService monitor) in
      match rs with
      | Err err => Ret (noRequeue, Some err)
      | Ok _ =>
          if ServiceMonitorEnabled r then
            run rm := apply_child (k := KServiceMonitor) monitor "servicemonitor"
                        (BuildServiceMonitor monitor) in
            match rm with
            | Err err => Ret (noRequeue, Some err)
            | Ok _ => observe_status monitor (meta_key (d_ObjectMeta desiredDep))
            end
          else observe_status monitor (meta_key (d_ObjectMeta desiredDep))
      end
  end.

(** *** Steps 3 to 7 *)
Definition apply_config (r : PgpilotMonitorReconciler) (monitor : PgpilotMonitor)
    (libraries : list PgpilotMetricLibrary) : prog (Result * option error) :=
  run order := call PickOrder in
  let merged := MergeMetrics order (spec_Metrics (mon_Spec monitor)) libraries in
  run order := call PickOrder in
  match BuildConfigMap order monitor merged with
  | Err err => Ret (noRequeue, Some (ErrWrap "build configmap" err))
  | Ok (desiredCM, configHash) =>
      run rc := apply_child (k := KConfigMap) monitor "configmap" desiredCM in
      match rc with
      | Err err => Ret (noRequeue, Some err)
      | Ok desiredCM =>
          let name := om_Name (cm_ObjectMeta desiredCM) in
          run short := lift (slice_to 12 configHash) in
          run monitor := setCondition "ConfigGenerated" ConditionTrue "ConfigMapUpdated"
            ("ConfigMap " +:+ name +:+ " up to date (hash=" +:+ short +:+ ")") monitor in
          run monitor :=
            (if negb (bool_decide (st_ConfigHash (mon_Status monitor) = configHash)) then
               run _ := event monitor EventTypeNormal "ConfigMapUpdated"
                 ("ConfigMap " +:+ name +:+ " reconciled (hash=" +:+ short +:+ ")") in
               Ret (on_status (st_set_ConfigHash configHash) monitor)
             else Ret monitor) in
          apply_workload r monitor merged configHash
      end
  end.

(** *** Steps 1 to 7, on an object that is not being deleted *)
Definition reconcile_live (r : PgpilotMonitorReconciler) (monitor : PgpilotMonitor) :
    prog (Result * option error) :=
  run (monitor, result, ok) := validateCredentials monitor in
  if negb ok then Ret (result, None)
  else
    run libs := resolveLibraries monitor in
    match libs with
    | Err err =>
        run monitor := setCondition "Ready" ConditionFalse "LibraryResolveFailed" (Error err) monitor in
        run _ := event monitor EventTypeWarning "LibraryResolveFailed"
          ("Failed to resolve metric libraries: " +:+ Error err) in
        run _ := patchStatus monitor in
        Ret (requeue_after 30, None)
    | Ok libraries => apply_config r monitor libraries
    end.

(** *** Reconcile *)
Definition Reconcile (r : PgpilotMonitorReconciler) (req : NamespacedName) :
    prog (Result * option error) :=
  run got := call (GetMonitor req) in
  match got with
  | Err err => if IsNotFound err then Ret (noRequeue, None) else Ret (noRequeue, Some err)
  | Ok monitor =>
      if negb (IsZero (om_DeletionTimestamp (mon_ObjectMeta monitor))) then
        if ContainsFinalizer (mon_ObjectMeta monitor) finalizerName then
          let monitor := set_meta (RemoveFinalizer (mon_ObjectMeta monitor) finalizerName) monitor in
          run upd := call (UpdateMonitor monitor) in
          match upd with
          | Err err => Ret (noRequeue, Some err)
          | Ok _ => Ret (noRequeue, None)
          end
        else Ret (noRequeue, None)
      else
        if negb (ContainsFinalizer (mon_ObjectMeta monitor) finalizerName) then
          let monitor := set_meta (AddFinalizer (mon_ObjectMeta monitor) finalizerName) monitor in
          run upd := call (UpdateMonitor monitor) in
          match upd with
          | Err err => Ret (noRequeue, Some err)
          | Ok monitor => reconcile_live r monitor
          end
        else reconcile_live r monitor
  end.

(** *** libraryToMonitors *)

(** The watched [client.Object], of which only a library passes the type
    assertion. *)
Inductive WatchedObject := WatchedLibrary (l : PgpilotMetricLibrary) | WatchedOther.

(** The inner loop with its [break]. *)
Fixpoint references (name : string) (refs : list LibraryRef) : bool :=
  match refs with
  | [] => false
  | ref :: refs' => if bool_decide (lr_Name ref = name) then true else references name refs'
  end.

Fixpoint monitor_requests (name : string) (items : list PgpilotMonitor) : list NamespacedName :=
  match items with
  | [] => []
  | m :: items' =>
      if references name (ms_FromLibraries (spec_Metrics (mon_Spec m)))
      then mon_key m :: monitor_requests name items'
      else monitor_requests name items'
  end.

Definition libraryToMonitors (obj : WatchedObject) : prog (list NamespacedName) :=
  match obj with
  | WatchedOther => Ret []
  | WatchedLibrary lib =>
      run r := call (ListMonitors (lib_Namespace lib)) in
      match r with
      | Err _ => Ret []
      | Ok items => Ret (monitor_requests (lib_Name lib) items)
      end
  end.
End Controller.
