(* ===== verification/Protocol.v ===== *)
(** An abstract specification of one reconciliation and the proof that
    [Reconcile] refines it.

    The specification is an automaton over calls and answers.  It fixes the
    order of the writes (ConfigMap, Deployment, Service, ServiceMonitor,
    status), stops after the first write that fails, confines every read to
    the monitor's namespace, lets the status be written only after a fresh
    read, and lets a monitor under deletion lose its finalizer and nothing
    else. *)
From S2P Require Import Prelude GoStd GoTime Sha256 Kube Api Labels Metrics ConfigMap.
From S2P Require Import Deployment Service Prog Machinery ApiServer Fixtures MonitorController.
From Stdlib Require Import ZArith.
Open Scope Z_scope.

Inductive phase :=
  | PStart (req : NamespacedName)
  | PDeleting
  | PFetched (k : NamespacedName)
  | PLive (k : NamespacedName)
  | PConfigured (k : NamespacedName)
  | PDeployed (k : NamespacedName)
  | PServed (k : NamespacedName)
  | PScraped (k : NamespacedName)
  | PObserved (k : NamespacedName)
  | PReporting (full fresh : bool) (k : NamespacedName)
  | PStopped.

(** Where each child of the monitor [k] lives. *)
Definition child_key (k : NamespacedName) (kind : Kind) : NamespacedName :=
  mkNN (nn_Namespace k)
    (match kind with KConfigMap => ConfigMapName (nn_Name k) | _ => ResourceName (nn_Name k) end).

(** The object is a well-formed apply request for the child. *)
Definition patch_ok (k : NamespacedName) (kind : Kind) (m : ObjectMeta) (owner : string) (force : bool) : bool :=
  bool_decide (meta_key m = child_key k kind) && bool_decide (owner = fieldOwner) && force
  && bool_decide (om_ResourceVersion m = "") && bool_decide (om_ManagedFields m = []).

Definition answer_ok {A} (r : result A) : bool := match r with Ok _ => true | Err _ => false end.

Definition guard (b : bool) (p : phase) : option phase := if b then Some p else None.

Section Spec.
Context `{M : Machinery} (scrape : bool).

(** The one child that may be applied in a phase, and the phase after it. *)
Definition next_child (p : phase) : option (NamespacedName * Kind * phase) :=
  match p with
  | PFetched k | PLive k => Some (k, KConfigMap, PConfigured k)
  | PConfigured k => Some (k, KDeployment, PDeployed k)
  | PDeployed k => Some (k, KService, PServed k)
  | PServed k => if scrape then Some (k, KServiceMonitor, PScraped k) else None
  | _ => None
  end.

(** The monitor a phase works on, while the clock may be read and events
    recorded. *)
Definition busy (p : phase) : option NamespacedName :=
  match p with
  | PFetched k | PLive k | PConfigured k | PObserved k => Some k
  | _ => None
  end.

Definition local (p : phase) : phase := match p with PFetched k => PLive k | _ => p end.

Definition on_get_monitor (p : phase) (k : NamespacedName) (ans : result PgpilotMonitor) : option phase :=
  match p with
  | PStart req =>
      guard (bool_decide (k = req))
        match ans with
        | Err _ => PStopped
        | Ok m => if negb (IsZero (om_DeletionTimestamp (mon_ObjectMeta m))) then PDeleting
                  else PFetched (mon_key m)
        end
  | PFetched k' | PLive k' => guard (bool_decide (k = k')) (PReporting false (answer_ok ans) k')
  | PObserved k' => guard (bool_decide (k = k')) (PReporting true (answer_ok ans) k')
  | PReporting full _ k' => guard (bool_decide (k = k')) (PReporting full (answer_ok ans) k')
  | _ => None
  end.

Definition on_update_monitor (p : phase) (m : PgpilotMonitor) (ans : result PgpilotMonitor) : option phase :=
  let has := bool_decide (finalizerName ∈ om_Finalizers (mon_ObjectMeta m)) in
  match p with
  | PDeleting => guard (negb has) PStopped
  | PFetched _ => guard has match ans with Ok m' => PLive (mon_key m') | Err _ => PStopped end
  | _ => None
  end.

Definition step (p : phase) (en : entry) : option phase :=
  match en with
  | @Entry _ e x =>
      match e in Eff X return X → option phase with
      | GetMonitor k => λ ans, on_get_monitor p k ans
      | UpdateMonitor m => λ ans, on_update_monitor p m ans
      | UpdateMonitorStatus _ => λ _,
          match p with PReporting full true k => Some (PReporting full false k) | _ => None end
      | GetSecret sk => λ _,
          match p with
          | PFetched k | PLive k => guard (bool_decide (nn_Namespace sk = nn_Namespace k)) (PLive k)
          | _ => None
          end
      | GetLibrary lk => λ _,
          match p with
          | PFetched k | PLive k => guard (bool_decide (nn_Namespace lk = nn_Namespace k)) (PLive k)
          | _ => None
          end
      | Patch kind obj owner force => λ ans,
          match next_child p with
          | Some (k, kind', p') =>
              guard (bool_decide (kind = kind') && patch_ok k kind (obj_meta obj) owner force)
                (if answer_ok ans then p' else PStopped)
          | None => None
          end
      | GetDeployment _ => λ ans,
          match p with
          | PServed k => guard (negb scrape) (if answer_ok ans then PObserved k else PStopped)
          | PScraped k => Some (if answer_ok ans then PObserved k else PStopped)
          | _ => None
          end
      | ListPods ns _ => λ _,
          match p with PObserved k => guard (bool_decide (ns = nn_Namespace k)) p | _ => None end
      | RecordEvent k' _ _ _ => λ _,
          match busy p with Some k => guard (bool_decide (k' = k)) (local p) | None => None end
      | Now | PickOrder => λ _, match busy p with Some _ => Some (local p) | None => None end
      | ListMonitors _ | UpdateLibraryStatus _ => λ _, None
      end x
  end.

(** What the outcome says about where the run stopped: an error asks for
    controller-runtime's own backoff; a report without errors is retried
    after 30 s when reconciliation could not proceed, after 15 s at most when
    it did; anything else is final. *)
Definition verdict (p : phase) (r : outcome (Result * option error)) : Prop :=
  match r with
  | Panicked _ => False
  | Done (res, Some _) => res = noRequeue
  | Done (res, None) =>
      match p with
      | PReporting false _ _ => res = requeue_after 30
      | PReporting true _ _ => res = noRequeue ∨ res = requeue_after 15
      | PStopped | PDeleting => res = noRequeue
      | _ => False
      end
  end.
End Spec.

(** ** The handler refines the automaton *)

(** The reconciler's functions change a monitor's status only. *)
Definition same_object (m m' : PgpilotMonitor) : Prop :=
  mon_ObjectMeta m' = mon_ObjectMeta m ∧ mon_Spec m' = mon_Spec m.

#[export] Instance same_object_refl : Reflexive same_object.
Proof. done. Qed.
#[export] Instance same_object_trans : Transitive same_object.
Proof. intros m1 m2 m3 [? ?] [? ?]. split; congruence. Qed.

Lemma same_object_key m m' : same_object m m' → mon_key m' = mon_key m.
Proof. unfold mon_key. by intros [-> _]. Qed.
Lemma same_object_on_status f m : same_object m (on_status f m).
Proof. done. Qed.
#[export] Hint Resolve same_object_on_status : pgpilot.

Section Refinement.
Context `{Y : Yaml} `{E : Embedded} `{M : Machinery} `{L : !MachineryLaws} (scrape : bool).

Abbreviation F := (follows (step scrape)).

Definition live (k : NamespacedName) (p : phase) : Prop := p = PFetched k ∨ p = PLive k.

Lemma live_busy k p : live k p → busy p = Some k ∧ local p = PLive k.
Proof. by intros [->| ->]. Qed.
Lemma live_PLive k : live k (PLive k).
Proof. by right. Qed.
Hint Resolve live_PLive : pgpilot.

Lemma guard_true b p : b = true → guard b p = Some p.
Proof. by intros ->. Qed.

Lemma setCondition_follows ty st re ms m p k :
  busy p = Some k →
  F (setCondition ty st re ms m) p (λ q o, q = local p ∧ ∃ m', o = Done m' ∧ same_object m m').
Proof.
  intros Hb. eapply (follows_bind _ _ _ _ (λ q o, q = local p ∧ ∃ t, o = Done t)).
  - apply follows_call. intros t. exists (local p). simpl. rewrite Hb. eauto.
  - intros t q [-> _]. apply follows_ret. split; [done|]. eexists. split; [done|]. apply same_object_on_status.
  - by intros ? ? [_ [? ?]].
Qed.

Lemma event_follows m ty re ms p :
  busy p = Some (mon_key m) → F (event m ty re ms) p (λ q o, q = local p ∧ o = Done tt).
Proof.
  intros Hb. apply follows_call. intros []. exists (local p). simpl. rewrite Hb.
  by rewrite bool_decide_true.
Qed.

(** Phases in which a report may start, and the report they belong to. *)
Definition reportable (full : bool) (k : NamespacedName) (p : phase) : Prop :=
  ∀ ans, on_get_monitor p k ans = Some (PReporting full (answer_ok ans) k).

Lemma reportable_live k p : live k p → reportable false k p.
Proof. intros [->| ->] ans; simpl; by rewrite bool_decide_true. Qed.
Lemma reportable_observed k : reportable true k (PObserved k).
Proof. intros ans; simpl; by rewrite bool_decide_true. Qed.
Lemma reportable_reporting full fresh k : reportable full k (PReporting full fresh k).
Proof. intros ans; simpl; by rewrite bool_decide_true. Qed.

Definition reported (full : bool) (k : NamespacedName) {A} (q : phase) (o : outcome A) : Prop :=
  (∃ fresh, q = PReporting full fresh k) ∧ ∃ a, o = Done a.

Lemma patchStatus_once_follows full m p :
  reportable full (mon_key m) p → F (patchStatus_once m) p (reported full (mon_key m)).
Proof.
  intros Hp. eapply (follows_bind _ _ _ _
    (λ q o, ∃ r, o = Done r ∧ q = PReporting full (answer_ok r) (mon_key m))).
  - apply follows_call. intros r. eexists. split; [apply Hp|eauto].
  - intros r q (r' & [= <-] & ->). destruct r as [latest|e]; simpl.
    + apply follows_call. intros e. eexists. split; [done|]. split; eauto.
    + apply follows_ret. split; eauto.
  - by intros ? ? (? & ? & _).
Qed.

Lemma retry_follows full k c n last fn p :
  (∀ q, reportable full k q → F fn q (reported full k)) →
  reportable full k p → F (retry_loop c (S n) last fn) p (reported full k).
Proof.
  intros Hfn. revert last p. induction n as [|n IH]; intros last p Hp;
    (eapply (follows_bind _ _ _ _ (reported full k)); [by apply Hfn| |by intros ? ? [_ [? ?]]]);
    intros r q [(fresh & ->) _]; (destruct r as [e|]; [destruct (c e)|]);
    try (apply follows_ret; split; eauto; done).
  apply (IH (Some e)), reportable_reporting.
Qed.

Lemma patchStatus_follows full m p :
  reportable full (mon_key m) p → F (patchStatus m) p (reported full (mon_key m)).
Proof.
  intros Hp. unfold patchStatus. rewrite RetryOnConflict_spec. apply retry_follows; [|done].
  intros q Hq. by apply patchStatus_once_follows.
Qed.

(** One step of a handler: a condition set on [m], an event recorded, the
    status reported. *)
Ltac step_condition m :=
  eapply follows_bind;
  [by eapply (setCondition_follows _ _ _ _ m)|cbn beta|by intros ? ? [_ (? & ? & _)]].
Ltac step_event :=
  eapply follows_bind; [eapply event_follows|cbn beta|by intros ? ? [_ ?]].
Ltac step_report full :=
  eapply follows_bind; [eapply (patchStatus_follows full)|cbn beta|by intros ? ? [_ [? ?]]].

Lemma validateCredentials_follows m p :
  live (mon_key m) p →
  F (validateCredentials m) p (λ q o, ∃ m' res ok, o = Done (m', res, ok) ∧
    if ok then live (mon_key m') q ∧ same_object m m' ∧
               (has_inline (spec_Database (mon_Spec m)) = true ∨
                is_Some (db_CredentialsSecret (spec_Database (mon_Spec m))))
    else verdict q (Done (res, None))).
Proof.
  intros Hp. destruct (live_busy _ _ Hp) as [Hb Hl]. unfold validateCredentials.
  destruct (has_inline _) eqn:Hi.
  { step_condition m.
    intros a q [-> (m' & [= <-] & Hs)]. apply follows_ret. do 3 eexists. split; [done|].
    rewrite Hl, (same_object_key _ _ Hs). eauto with pgpilot. }
  destruct (db_CredentialsSecret _) as [ref|] eqn:Hr.
  - eapply (follows_bind _ _ _ _ (λ q o, q = PLive (mon_key m) ∧ ∃ r, o = Done r)).
    { apply follows_call. intros r. exists (PLive (mon_key m)).
      split; [|eauto]. destruct Hp as [->| ->]; simpl; by rewrite bool_decide_true. }
    2: by intros ? ? [_ [? ?]].
    intros r q [-> _]. destruct r as [sec|err].
    + step_condition m.
      intros a q [-> (m' & [= <-] & Hs)]. apply follows_ret. do 3 eexists. split; [done|]. cbv iota.
      rewrite (same_object_key _ _ Hs). eauto with pgpilot.
    + step_condition m.
      intros m1 q [-> (m' & [= <-] & Hs)].
      step_condition m1.
      intros m2 q [-> (m' & [= <-] & Hs2)].
      assert (mon_key m2 = mon_key m) as Hk by (rewrite (same_object_key _ _ Hs2); by apply same_object_key).
      step_event; [by rewrite Hk|].
      intros [] q [-> _].
      step_report false.
      { rewrite Hk. apply reportable_live, live_PLive. }
      intros e q [(fresh & ->) _]. apply follows_ret. do 3 eexists. by split.
  - step_condition m.
    intros m1 q [-> (m' & [= <-] & Hs)].
    step_report false.
    { rewrite Hl, (same_object_key _ _ Hs). apply reportable_live, live_PLive. }
    intros e q [(fresh & ->) _]. apply follows_ret. do 3 eexists. by split.
Qed.

Lemma resolve_refs_follows ns refs libs p k :
  ns = nn_Namespace k → live k p →
  F (resolve_refs ns refs libs) p (λ q o, live k q ∧ ∃ r, o = Done r).
Proof.
  intros ->. revert libs p. induction refs as [|ref refs IH]; intros libs p Hp; cbn [resolve_refs].
  - apply follows_ret. eauto.
  - eapply (follows_bind _ _ _ _ (λ q o, q = PLive k ∧ ∃ r, o = Done r)).
    + apply follows_call. intros r. exists (PLive k). split; [|eauto].
      destruct Hp as [->| ->]; simpl; by rewrite bool_decide_true.
    + intros [lib|err] q [-> _]; [apply IH, live_PLive|apply follows_ret; eauto with pgpilot].
    + by intros ? ? [_ [? ?]].
Qed.

(** An object whose metadata is a fresh literal at the child's place. *)
Lemma apply_child_follows {kind} m what (obj : obj_of kind) p q :
  next_child scrape p = Some (mon_key m, kind, q) →
  meta_key (obj_meta obj) = child_key (mon_key m) kind →
  F (apply_child m what obj) p (λ p' o, ∃ r, o = Done r ∧
      match r with Ok _ => p' = q | Err _ => True end).
Proof.
  intros Hn Hk. unfold apply_child.
  destruct (SetControllerReference _ _) as [om|err] eqn:Hs; [|by apply follows_ret; eexists].
  apply SetControllerReference_spec in Hs as (os & ref & -> & _).
  eapply (follows_bind _ _ _ _ (λ p' o, ∃ r, o = Done r ∧ match r with Ok _ => p' = q | Err _ => True end)).
  - apply follows_call. intros r. exists (if answer_ok r then q else PStopped).
    split; [|exists r; split; [done|]; by destruct r].
    simpl. rewrite Hn. apply guard_true. rewrite !obj_meta_set.
    rewrite bool_decide_true by done. unfold patch_ok. simpl.
    rewrite !bool_decide_true by done. done.
  - intros r p' (? & [= <-] & Hr). apply follows_ret. eexists. split; [done|]. by destruct r.
  - by intros ? ? (? & ? & _).
Qed.

Lemma observe_status_follows m dep p :
  p = (if scrape then PScraped (mon_key m) else PServed (mon_key m)) →
  F (observe_status m dep) p verdict.
Proof.
  intros Hp. unfold observe_status.
  eapply (follows_bind _ _ _ _ (λ q o, ∃ r, o = Done r ∧
    q = if answer_ok r then PObserved (mon_key m) else PStopped)).
  { apply follows_call. intros r. eexists. split; [|eauto]. subst p. by destruct scrape. }
  2: by intros ? ? (? & ? & _).
  intros r q (? & [= <-] & ->). destruct r as [currentDep|err]; simpl; [|by apply follows_ret].
  set (ready := 0 <? d_ReadyReplicas currentDep). set (was := st_Ready (mon_Status m)).
  eapply (follows_bind _ _ _ _ (λ q o, q = PObserved (mon_key m) ∧ ∃ t, o = Done t)).
  { apply follows_call. eauto. }
  2: by intros ? ? [_ [? ?]].
  intros now q [-> _].
  set (m1 := on_status (st_set_LastReconciled now) _).
  assert (same_object m m1) as Hs1 by done. clearbody m1.
  eapply (follows_bind _ _ _ _ (λ q o, q = PObserved (mon_key m) ∧ ∃ m', o = Done m' ∧ same_object m m')).
  { assert (∀ m2 (b : bool) ty re ms, same_object m m2 →
      F (bind (if b then event m2 ty re ms else Ret tt) (λ _, Ret m2)) (PObserved (mon_key m))
        (λ q o, q = PObserved (mon_key m) ∧ ∃ m', o = Done m' ∧ same_object m m')) as Hev.
    { intros m2 b ty re ms Hs. eapply (follows_bind _ _ _ _ (λ q o, q = PObserved (mon_key m) ∧ o = Done tt)).
      - destruct b; [|by apply follows_ret]. apply event_follows. by rewrite (same_object_key _ _ Hs).
      - intros [] q [-> _]. apply follows_ret. eauto.
      - by intros ? ? [_ ?]. }
    destruct ready; step_condition m1; intros m2 q [-> (? & [= <-] & Hs2)]; apply Hev; by etrans. }
  2: by intros ? ? [_ (? & ? & _)].
  intros m2 q [-> (? & [= <-] & Hs2)].
  eapply (follows_bind _ _ _ _ (λ q o, q = PObserved (mon_key m) ∧ ∃ t, o = Done t)).
  { apply follows_call. intros pods. eexists. split; [|eauto]. simpl. apply guard_true, bool_decide_true.
    by destruct Hs2 as [Hm _]; unfold mon_Namespace; rewrite Hm. }
  2: by intros ? ? [_ [? ?]].
  intros pods q [-> _].
  set (m3 := match pods with Ok (pod :: _) => _ | _ => m2 end).
  assert (mon_key m3 = mon_key m) as Hk3.
  { rewrite <-(same_object_key _ _ Hs2). by destruct pods as [[|]|]. }
  clearbody m3. step_report true; [rewrite Hk3; apply reportable_observed|].
  intros [err|] q [(fresh & ->) _]; [by apply follows_ret|].
  destruct ready; apply follows_ret; simpl; eauto.
Qed.

Lemma apply_workload_follows r m merged h :
  ServiceMonitorEnabled r = scrape →
  has_inline (spec_Database (mon_Spec m)) = true ∨
    is_Some (db_CredentialsSecret (spec_Database (mon_Spec m))) →
  F (apply_workload r m merged h) (PConfigured (mon_key m)) verdict.
Proof.
  intros Hr Hc. unfold apply_workload.
  destruct (BuildDeployment_total m merged h Hc) as [dep Hd]. rewrite Hd. cbn [lift]. rewrite bind_ret_l.
  apply BuildDeployment_Done in Hd as (env & _ & Hmeta & _).
  eapply follows_bind;
    [apply (apply_child_follows (kind := KDeployment)); [done|simpl; by rewrite Hmeta]
    |cbn beta|by intros ? ? (? & ? & _)].
  intros rd q (? & [= <-] & Hq). destruct rd as [d|err]; [subst q|by apply follows_ret].
  eapply follows_bind; [by eapply (apply_child_follows (kind := KService))|cbn beta|by intros ? ? (? & ? & _)].
  intros rs q (? & [= <-] & Hq). destruct rs as [svc|err]; [subst q|by apply follows_ret].
  destruct (ServiceMonitorEnabled r).
  - eapply follows_bind;
      [eapply (apply_child_follows (kind := KServiceMonitor)); [simpl; by rewrite <-Hr|done]
      |cbn beta|by intros ? ? (? & ? & _)].
    intros rm q (? & [= <-] & Hq). destruct rm as [sm|err]; [subst q|by apply follows_ret].
    apply observe_status_follows. by rewrite <-Hr.
  - apply observe_status_follows. by rewrite <-Hr.
Qed.

Lemma slice_hash o m merged cm h :
  BuildConfigMap o m merged = Ok (cm, h) → slice_to 12 h = Done (String.substring 0 12 h).
Proof. intros (data & _ & -> & _)%BuildConfigMap_Ok. unfold slice_to. by rewrite length_contentHash. Qed.

Lemma apply_config_follows r m libs p :
  ServiceMonitorEnabled r = scrape → live (mon_key m) p →
  has_inline (spec_Database (mon_Spec m)) = true ∨
    is_Some (db_CredentialsSecret (spec_Database (mon_Spec m))) →
  F (apply_config r m libs) p verdict.
Proof.
  intros Hr Hp Hc. unfold apply_config.
  assert (∀ p, live (mon_key m) p →
    F (call PickOrder) p (λ q o, q = PLive (mon_key m) ∧ ∃ t, o = Done t)) as Hpick.
  { intros p' Hp'. destruct (live_busy _ _ Hp') as [Hb Hl]. apply follows_call. intros o.
    simpl. rewrite Hb, Hl. eauto. }
  eapply follows_bind; [by apply Hpick|cbn beta|by intros ? ? [_ [? ?]]]. intros o1 q [-> _].
  eapply follows_bind; [apply Hpick, live_PLive|cbn beta|by intros ? ? [_ [? ?]]]. intros o2 q [-> _].
  destruct (BuildConfigMap o2 m _) as [[cm h]|err] eqn:Hcm; [|by apply follows_ret].
  rewrite (slice_hash _ _ _ _ _ Hcm). apply BuildConfigMap_Ok in Hcm as (data & _ & _ & _ & Hmeta).
  eapply follows_bind;
    [eapply (apply_child_follows (kind := KConfigMap)); [done|simpl; by rewrite Hmeta]
    |cbn beta|by intros ? ? (? & ? & _)].
  intros rc q (? & [= <-] & Hq). destruct rc as [cm'|err]; [subst q|by apply follows_ret].
  cbn [lift]. rewrite bind_ret_l. step_condition m. intros m1 q [-> (? & [= <-] & Hs)].
  rewrite <-(same_object_key _ _ Hs). destruct Hs as [_ Hspec]. rewrite <-Hspec in Hc.
  eapply (follows_bind _ _ _ _ (λ q o, q = PConfigured (mon_key m1) ∧ ∃ m', o = Done m' ∧ same_object m1 m')).
  - destruct (negb _).
    + step_event; [done|]. intros [] q [-> _]. apply follows_ret. split; [done|]. by eexists.
    + apply follows_ret. split; [done|]. by eexists.
  - intros m2 q [-> (? & [= <-] & Hs2)]. rewrite <-(same_object_key _ _ Hs2).
    apply apply_workload_follows; [done|]. by destruct Hs2 as [_ ->].
  - by intros ? ? [_ (? & ? & _)].
Qed.

Lemma reconcile_live_follows r m p :
  ServiceMonitorEnabled r = scrape → live (mon_key m) p → F (reconcile_live r m) p verdict.
Proof.
  intros Hr Hp. unfold reconcile_live.
  eapply follows_bind; [by apply validateCredentials_follows|cbn beta|by intros ? ? (? & ? & ? & ? & _)].
  intros [[m1 res] ok] q (? & ? & ? & [= <- <- <-] & Hok).
  destruct ok; simpl; [|by apply follows_ret]. destruct Hok as (Hq & [_ Hspec] & Hc).
  eapply follows_bind; [by eapply (resolve_refs_follows _ _ _ _ (mon_key m1))|cbn beta|by intros ? ? [_ [? ?]]].
  intros libs q1 [Hq1 _]. destruct libs as [libs|err].
  - apply apply_config_follows; [done..|]. by rewrite Hspec.
  - destruct (live_busy _ _ Hq1) as [Hb Hl]. step_condition m1.
    intros m2 q2 [-> (? & [= <-] & Hs)]. rewrite Hl, <-(same_object_key _ _ Hs).
    step_event; [done|]. intros [] q2 [-> _].
    step_report false; [apply reportable_live, live_PLive|].
    intros e q2 [(fresh & ->) _]. by apply follows_ret.
Qed.

Lemma Reconcile_follows r req :
  ServiceMonitorEnabled r = scrape → F (Reconcile r req) (PStart req) verdict.
Proof.
  intros Hr. unfold Reconcile.
  eapply (follows_bind _ _ _ _ (λ q o, ∃ got, o = Done got ∧ q =
    match got with
    | Err _ => PStopped
    | Ok m => if negb (IsZero (om_DeletionTimestamp (mon_ObjectMeta m))) then PDeleting
              else PFetched (mon_key m)
    end)).
  { apply follows_call. intros got. eexists. split; [|eauto]. simpl. by rewrite bool_decide_true. }
  2: by intros ? ? (? & ? & _).
  intros got q (? & [= <-] & ->). destruct got as [m|err]; [|case_match; by apply follows_ret].
  destruct (negb (IsZero _)).
  - destruct (ContainsFinalizer _ _); [|by apply follows_ret].
    destruct (RemoveFinalizer_spec (mon_ObjectMeta m) finalizerName) as (fs & -> & Hfs).
    eapply (follows_bind _ _ _ _ (λ q o, q = PStopped ∧ ∃ r, o = Done r)).
    + apply follows_call. intros upd. eexists. split; [|eauto]. simpl. apply guard_true.
      rewrite bool_decide_false; [done|]. rewrite Hfs. naive_solver.
    + intros [m'|err] q [-> _]; by apply follows_ret.
    + by intros ? ? [_ [? ?]].
  - destruct (negb (ContainsFinalizer _ _)); [|by apply reconcile_live_follows; [|left]].
    destruct (AddFinalizer_spec (mon_ObjectMeta m) finalizerName) as (fs & -> & Hfs).
    eapply (follows_bind _ _ _ _ (λ q o, ∃ r, o = Done r ∧
      match r with Ok m' => q = PLive (mon_key m') | Err _ => q = PStopped end)).
    + apply follows_call. intros upd.
      exists (match upd with Ok m' => PLive (mon_key m') | Err _ => PStopped end).
      split; [|exists upd; split; [done|]; by destruct upd]. simpl. apply guard_true, bool_decide_true.
      rewrite Hfs. by left.
    + intros [m'|err] q (? & [= <-] & Hq); subst q; [apply reconcile_live_follows; [done|apply live_PLive]|].
      by apply follows_ret.
    + by intros ? ? (? & ? & _).
Qed.
End Refinement.

(** ** Properties *)
Section Properties.
Context `{Y : Yaml} `{E : Embedded} `{M : Machinery} `{L : !MachineryLaws}.

(** C2 Every run of [Reconcile], whatever the API server answers, is accepted
    by the protocol automaton: at most one finalizer update, reads confined
    to the monitor's namespace, then ConfigMap, Deployment, Service and (when
    enabled) ServiceMonitor, each applied under its own name and only after
    the previous one succeeded, then the observation of the Deployment, then
    status writes each preceded by a fresh read; and the returned requeue
    matches the phase in which the run stopped. *)
Theorem reconcile_refines_protocol r req t o :
  runs (Reconcile r req) t o →
  ∃ p, track (step (ServiceMonitorEnabled r)) (PStart req) t = Some p ∧ verdict p o.
Proof.
  intros Hrun. pose proof (Reconcile_follows (ServiceMonitorEnabled r) r req eq_refl) as Hf.
  unfold follows in Hf. rewrite wp_runs in Hf. by apply Hf.
Qed.

(** [Reconcile] never panics: neither the unchecked dereference of
    [credentialsSecret] in [buildEnvVars] nor the slice [configHash[:12]] can
    fail, for any monitor (admitted or not) and any answers of the API
    server. *)
Theorem reconcile_never_panics r req t o :
  runs (Reconcile r req) t o → ∃ res err, o = Done (res, err).
Proof.
  intros Hrun. pose proof (Reconcile_follows (ServiceMonitorEnabled r) r req eq_refl) as Hf.
  unfold follows in Hf. rewrite wp_runs in Hf. destruct (Hf _ _ Hrun) as (p & _ & Hv).
  destruct o as [[res err]|]; [by eauto|done].
Qed.
End Properties.

(** The run of the fixture monitor against the server in memory. *)
Lemma reconcile_refines_protocol_witness :
  let '(t, o, _) := interp mem_serve (Reconcile (mkReconciler true) (mon_key fx_monitor)) fx_server in
  ∃ p, track (step true) (PStart (mon_key fx_monitor)) t = Some p ∧ verdict p o.
Proof.
  pose proof (interp_runs mem_serve (Reconcile (mkReconciler true) (mon_key fx_monitor)) fx_server) as Hr.
  destruct (interp mem_serve _ fx_server) as [[t o] s'].
  exact (reconcile_refines_protocol (mkReconciler true) (mon_key fx_monitor) t o Hr).
Defined.

Lemma reconcile_never_panics_witness :
  let '(t, o, _) := interp mem_serve (Reconcile (mkReconciler false) (mon_key fx_no_credentials)) fx_server in
  ∃ res err, o = Done (res, err).
Proof.
  pose proof (interp_runs mem_serve (Reconcile (mkReconciler false) (mon_key fx_no_credentials)) fx_server) as Hr.
  destruct (interp mem_serve _ fx_server) as [[t o] s'].
  exact (reconcile_never_panics (mkReconciler false) (mon_key fx_no_credentials) t o Hr).
Defined.
