(* ===== verification/MonitorSpec.v ===== *)
(** What the monitor's reconciler does on each of its branches: deletion,
    failed prerequisites, ownership of what it applies, the status it reports
    and how it writes it, and the mapping from libraries to monitors. *)
From S2P Require Import Prelude GoStd GoTime Sha256 Kube Api Labels Metrics ConfigMap.
From S2P Require Import Deployment Service Prog Machinery ApiServer Fixtures MonitorController Protocol.
From Stdlib Require Import ZArith.
Open Scope Z_scope.

(** ** Specifications *)

(** The entry, if it applies a child, applies one controlled by the owner, at
    the place that kind of child has for the owner, forced for the operator's
    field manager, and free of server-managed fields. *)
Definition patch_owned (owner : ObjectMeta) (en : entry) : Prop :=
  match en with
  | @Entry _ e _ =>
      match e with
      | Patch k obj fo force =>
          fo = fieldOwner ∧ force = true ∧
          meta_key (obj_meta obj) = child_key (meta_key owner) k ∧
          om_ResourceVersion (obj_meta obj) = "" ∧ om_ManagedFields (obj_meta obj) = [] ∧
          ∃ ref, ref ∈ om_OwnerReferences (obj_meta obj) ∧ or_Controller ref = true ∧
            or_Kind ref = "PgpilotMonitor" ∧ or_Name ref = om_Name owner ∧ or_UID ref = om_UID owner
      | _ => True
      end
  end.

(** Reads of a metric library. *)
Definition reads_library (en : entry) : bool :=
  match en with @Entry _ e _ => match e with GetLibrary _ => true | _ => false end end.

(** What the steps after the resolution of the libraries may do. *)
Definition applies_for (owner : ObjectMeta) (en : entry) : Prop :=
  patch_owned owner en ∧ reads_library en = false.

(** The answer an entry records, when it is a read of a monitor, an update of
    one, or a read of a Secret. *)
Definition get_answer (en : entry) : option (result PgpilotMonitor) :=
  match en with
  | @Entry _ e x =>
      match e in Eff X return X → option (result PgpilotMonitor) with
      | GetMonitor _ => Some | _ => λ _, None
      end x
  end.
Definition update_answer (en : entry) : option (result PgpilotMonitor) :=
  match en with
  | @Entry _ e x =>
      match e in Eff X return X → option (result PgpilotMonitor) with
      | UpdateMonitor _ => Some | _ => λ _, None
      end x
  end.
Definition secret_answer (en : entry) : option (result Secret) :=
  match en with
  | @Entry _ e x =>
      match e in Eff X return X → option (result Secret) with
      | GetSecret _ => Some | _ => λ _, None
      end x
  end.

(** The monitor a run of [Reconcile] works on: the one it fetched, or the one
    the finalizer update returned. *)
Definition subject (t : trace) : option PgpilotMonitor :=
  match head (tail t) ≫= update_answer, head t ≫= get_answer with
  | Some (Ok m), _ => Some m
  | _, Some (Ok m) => Some m
  | _, _ => None
  end.

(** The status an entry writes satisfies [P]. *)
Definition writes_status (P : PgpilotMonitorStatus → Prop) (en : entry) : Prop :=
  match en with
  | @Entry _ e _ => match e with UpdateMonitorStatus m => P (mon_Status m) | _ => True end
  end.

(** The condition of a type, as status and reason. *)
Definition condition_is (ty status reason : string) (s : PgpilotMonitorStatus) : Prop :=
  ∃ c, find_condition ty (st_Conditions s) = Some c ∧ c_Status c = status ∧ c_Reason c = reason.

(** The reference a monitor would use for the library. *)
Definition LibraryRef_of (lib : PgpilotMetricLibrary) : LibraryRef := mkLibraryRef (lib_Name lib).

#[export] Instance library_ref_eq_dec : EqDecision LibraryRef.
Proof. solve_decision. Defined.

(** One attempt of [patchStatus]: the read fails, or it returns an object that
    is then updated. *)
Inductive attempt :=
  | ReadFailed (e : error)
  | Written (latest : PgpilotMonitor) (answer : option error).

Definition attempt_trace (m : PgpilotMonitor) (a : attempt) : trace :=
  match a with
  | ReadFailed e => [Entry (GetMonitor (mon_key m)) (Err e)]
  | Written latest answer =>
      [Entry (GetMonitor (mon_key m)) (Ok latest);
       Entry (UpdateMonitorStatus (set_status (mon_Status m) latest)) answer]
  end.

(** The status of a monitor [m] with [Ready] false for the given reason, and
    otherwise as it was, but for the conditions of the types [touched]. *)
Definition not_ready (m : PgpilotMonitor) (reason : string) (touched : list string) (s : PgpilotMonitorStatus) : Prop :=
  condition_is "Ready" ConditionFalse reason s ∧
  s = st_set_Conditions (st_Conditions s) (mon_Status m) ∧
  ∀ ty, ty ∉ touched → find_condition ty (st_Conditions s) = find_condition ty (st_Conditions (mon_Status m)).

Definition attempt_error (a : attempt) : option error :=
  match a with ReadFailed e => Some e | Written _ answer => answer end.

Section Spec.
Context `{Y : Yaml} `{E : Embedded} `{M : Machinery} `{L : !MachineryLaws}.

Definition is_conflict (a : attempt) : bool :=
  match attempt_error a with Some e => IsConflict e | None => false end.

(** *** patchStatus *)
Lemma patchStatus_once_runs m t o :
  runs (patchStatus_once m) t o ↔ ∃ a, t = attempt_trace m a ∧ o = Done (attempt_error a).
Proof.
  unfold patchStatus_once. simpl. split.
  - intros (r & t' & -> & Hr). destruct r as [latest|e].
    + destruct Hr as (answer & t'' & -> & -> & ->). by exists (Written latest answer).
    + destruct Hr as [-> ->]. by exists (ReadFailed e).
  - intros ([e|latest answer] & -> & ->); simpl.
    + by exists (Err e), [].
    + eexists (Ok latest), _. split; [done|]. by exists answer, [].
Qed.

(** A run of the retried function that ends the loop with [n] attempts left
    after it. *)
Definition retried (m : PgpilotMonitor) (n : nat) (t : trace) (o : outcome (option error)) : Prop :=
  ∃ before a, t = concat (map (attempt_trace m) (before ++ [a])) ∧ o = Done (attempt_error a) ∧
    Forall (λ b, is_conflict b = true) before ∧
    (is_conflict a = false ∨ length before = n) ∧ (length before ≤ n)%nat.

(** A run that stops early: nothing applied, retried after 30 s, the given
    events, and at its end a report (one to five attempts to write it) of a
    status that satisfies [P], the only one it tries to write. *)
Definition stopped (m : PgpilotMonitor) (P : PgpilotMonitorStatus → Prop) (evs : list (string * string))
    (t : trace) (o : outcome (Result * option error)) : Prop :=
  o = Done (requeue_after 30, None) ∧ events t = evs ∧ Forall (λ en, is_patch en = false) t ∧
  ∃ m' before report e, t = before ++ report ∧ Forall (λ en, is_status_update en = false) before ∧
    retried m' 4 report (Done e) ∧ same_object m m' ∧ P (mon_Status m').

Lemma retried_last m n a : is_conflict a = false ∨ n = O → retried m n (attempt_trace m a) (Done (attempt_error a)).
Proof. intros H. exists [], a. simpl. rewrite app_nil_r. split_and!; [done|done|by constructor|naive_solver|simpl; lia]. Qed.

Lemma retry_loop_runs m n last t o :
  runs (retry_loop IsConflict (S n) last (patchStatus_once m)) t o ↔ retried m n t o.
Proof.
  assert (∀ last k t o, runs (retry_loop IsConflict (S k) last (patchStatus_once m)) t o ↔
    ∃ a t', t = attempt_trace m a ++ t' ∧
      if is_conflict a then runs (retry_loop IsConflict k (attempt_error a) (patchStatus_once m)) t' o
      else t' = [] ∧ o = Done (attempt_error a)) as Hstep.
  { clear. intros last k t o. cbn [retry_loop]. rewrite runs_bind. split.
    - intros [(msg & (a & _ & ?)%patchStatus_once_runs & _)|(t1 & t2 & r & -> & (a & -> & [= ->])%patchStatus_once_runs & H2)]; [done|].
      exists a, t2. split; [done|]. unfold is_conflict.
      destruct (attempt_error a) as [e|]; [by destruct (IsConflict e)|done].
    - intros (a & t' & -> & H2). right. exists (attempt_trace m a), t', (attempt_error a). split; [done|].
      split; [apply patchStatus_once_runs; by exists a|]. unfold is_conflict in H2.
      destruct (attempt_error a) as [e|]; [by destruct (IsConflict e)|done]. }
  revert last t. induction n as [|n IH]; intros last t; rewrite Hstep; split.
  - intros (a & t' & -> & H2). destruct (is_conflict a) eqn:Hc; destruct H2 as [-> ->];
      rewrite app_nil_r; apply retried_last; auto.
  - intros ([|b before] & a & -> & -> & _ & _ & Hlen); simpl in *; [|lia]. exists a, []. split; [done|].
    by destruct (is_conflict a).
  - intros (a & t' & -> & H2). destruct (is_conflict a) eqn:Hc.
    + apply IH in H2 as (before & b & -> & -> & Hb & Hlast & Hlen). exists (a :: before), b.
      split_and!; [done|done|by constructor|simpl; naive_solver|simpl; lia].
    + destruct H2 as [-> ->]. rewrite app_nil_r. apply retried_last; auto.
  - intros ([|b before] & a & -> & -> & Hb & Hlast & Hlen); simpl.
    + exists a, []. split; [done|]. by destruct Hlast as [->|?].
    + apply Forall_cons in Hb as [Hc Hb]. eexists b, _. split; [done|]. rewrite Hc. apply (proj2 (IH (attempt_error b) _)).
      exists before, a. simpl in *. split_and!; [done..|destruct Hlast; auto with lia|lia].
Qed.

Lemma patchStatus_runs m t o : runs (patchStatus m) t o ↔ retried m 4 t o.
Proof. unfold patchStatus. rewrite RetryOnConflict_spec. apply retry_loop_runs. Qed.

Definition silent (m : PgpilotMonitor) (t : trace) : Prop :=
  events t = [] ∧ Forall (λ en, is_patch en = false ∧ reads_library en = false) t ∧
  Forall (writes_status (λ s, s = mon_Status m)) t.

Lemma attempt_silent m a : silent m (attempt_trace m a).
Proof. destruct a; repeat constructor. Qed.

Lemma silent_app m t1 t2 : silent m t1 → silent m t2 → silent m (t1 ++ t2).
Proof. intros (He1 & ? & ?) (He2 & ? & ?). split_and!; [by rewrite events_app, He1, He2|by apply Forall_app..]. Qed.

(** Reporting records no event, applies nothing, and writes one status. *)
Lemma patchStatus_silent m t o : runs (patchStatus m) t o → silent m t.
Proof.
  intros (before & a & -> & _)%patchStatus_runs. induction (before ++ [a]) as [|b l IH]; simpl.
  - repeat constructor.
  - apply silent_app; [apply attempt_silent|done].
Qed.

(** *** Inverting runs *)
Lemma runs_call_bind {X A} (e : Eff X) (f : X → prog A) t o :
  runs (bind (call e) f) t o ↔ ∃ x t', t = Entry e x :: t' ∧ runs (f x) t' o.
Proof. done. Qed.

Definition with_condition (now : Time) (ty st re ms : string) (m : PgpilotMonitor) : PgpilotMonitor :=
  on_status (λ s, st_set_Conditions (SetStatusCondition now (st_Conditions s)
    (mkCondition ty st (mon_Generation m) 0 re ms)) s) m.

Lemma runs_setCondition_bind {A} ty st re ms m (f : PgpilotMonitor → prog A) t o :
  runs (bind (setCondition ty st re ms m) f) t o ↔
  ∃ now t', t = Entry Now now :: t' ∧ runs (f (with_condition now ty st re ms m)) t' o.
Proof. done. Qed.

Lemma runs_event_bind {A} m ty re ms (f : () → prog A) t o :
  runs (bind (event m ty re ms) f) t o ↔
  ∃ t', t = Entry (RecordEvent (mon_key m) ty re ms) tt :: t' ∧ runs (f tt) t' o.
Proof. split; [intros ([] & ?); eauto|intros (t' & ?); by exists tt, t']. Qed.

Lemma runs_report_bind {A} m (f : option error → prog A) t o :
  runs (bind (patchStatus m) f) t o →
  ∃ e t1 t2, t = t1 ++ t2 ∧ (silent m t1 ∧ retried m 4 t1 (Done e)) ∧ runs (f e) t2 o.
Proof.
  intros [(msg & Hr & _)|(t1 & t2 & e & -> & Hr & H2)]%runs_bind.
  - apply patchStatus_runs in Hr as (? & ? & _ & ? & _). done.
  - exists e, t1, t2. split_and!; [done|by eapply patchStatus_silent|by apply patchStatus_runs|done].
Qed.

Lemma with_condition_same now ty st re ms m :
  condition_is ty st re (mon_Status (with_condition now ty st re ms m)).
Proof.
  destruct (SetStatusCondition_same now (st_Conditions (mon_Status m))
    (mkCondition ty st (mon_Generation m) 0 re ms)) as (c & Hc & _ & Hs & Hr & _).
  by exists c.
Qed.

Lemma with_condition_other now ty st re ms m ty' st' re' :
  ty' ≠ ty → condition_is ty' st' re' (mon_Status m) →
  condition_is ty' st' re' (mon_Status (with_condition now ty st re ms m)).
Proof.
  intros Hne (c & Hc & Hs & Hr). exists c. split; [|done].
  unfold with_condition. simpl. by rewrite SetStatusCondition_other.
Qed.

Lemma silent_status m P t : silent m t → P (mon_Status m) → Forall (writes_status P) t.
Proof.
  intros (_ & _ & Hs) HP. eapply Forall_impl; [exact Hs|]. intros [X e x]. destruct e; try done.
  simpl. by intros ->.
Qed.

(** *** Ownership *)
Abbreviation owned m := (always (applies_for (mon_ObjectMeta m))).
Abbreviation any := (λ _, True).

Lemma always_any_bind {A B} P (p : prog A) (f : A → prog B) :
  always P p any → (∀ a, always P (f a) any) → always P (bind p f) any.
Proof. intros Hp Hf. by apply (always_bind _ _ _ any). Qed.

(** Calls that neither apply a child nor read a library. *)
Lemma no_patch_applies om (en : entry) :
  is_patch en = false ∧ reads_library en = false → applies_for om en.
Proof. destruct en as [X e x]. by destruct e as [| | | | | | | | | | | |]; intros [? ?]. Qed.

Lemma always_weaken {A} (P P' : entry → Prop) (p : prog A) R :
  (∀ en, P en → P' en) → always P p R → always P' p R.
Proof.
  intros HP. apply wp_mono. intros t r [Ht Hr]. split; [|done]. by eapply Forall_impl.
Qed.

Lemma patchStatus_owned om m :
  always (applies_for om) (patchStatus m) (λ o, ∃ e, o = Done e).
Proof.
  unfold always. rewrite wp_runs. intros t o Hr. split.
  - apply patchStatus_silent in Hr as (_ & Hp & _). eapply Forall_impl; [exact Hp|]. apply no_patch_applies.
  - apply patchStatus_runs in Hr as (? & a & _ & -> & _). by eexists.
Qed.

Lemma setCondition_owned om ty st re ms m :
  always (applies_for om) (setCondition ty st re ms m)
    (λ o, ∃ m', o = Done m' ∧ mon_ObjectMeta m' = mon_ObjectMeta m ∧ mon_Spec m' = mon_Spec m).
Proof.
  unfold setCondition. eapply (always_bind _ _ _ (λ o, ∃ now, o = Done now)).
  - apply always_call; [done|by eexists].
  - intros now _. apply always_ret. by eexists.
  - by intros ? [? ?].
Qed.

Lemma apply_child_owned {k} m what (obj : obj_of k) :
  meta_key (obj_meta obj) = child_key (mon_key m) k → owned m (apply_child m what obj) any.
Proof.
  intros Hns. unfold apply_child. destruct (SetControllerReference _ _) as [om|err] eqn:Hs; [|by apply always_ret].
  apply SetControllerReference_spec in Hs as (os & ref & -> & Hin & Hc & Hn & Hu & Hk).
  apply always_any_bind; [|intros r; by apply always_ret].
  apply always_call; [|done]. intros r. split; [|done]. simpl. rewrite !obj_meta_set. simpl.
  split_and!; [done..|]. exists ref. by split_and!.
Qed.

Lemma event_owned om m ty re ms : always (applies_for om) (event m ty re ms) any.
Proof. by apply always_call. Qed.

(** Steps of a handler that keep the monitor's metadata. *)
Ltac owned_condition m1 m2 :=
  eapply (always_bind _ _ _ _ _ (setCondition_owned _ _ _ _ _ m1));
  [intros m2 (? & [= <-] & ? & ?)|by intros ? (? & ? & _)].
Ltac owned_report :=
  eapply (always_bind _ _ _ _ _ (patchStatus_owned _ _)); [intros ? _|by intros ? [? ?]].
Ltac owned_any := apply always_any_bind; [|intros ?].

Lemma observe_status_owned om m dep : always (applies_for om) (observe_status m dep) any.
Proof.
  unfold observe_status. owned_any; [by apply always_call|]. case_match; [|by apply always_ret].
  owned_any; [by apply always_call|]. owned_any.
  { destruct (0 <? _); (owned_any; [|owned_any; [|by apply always_ret]]);
      try (eapply always_mono, setCondition_owned; done);
      case_match; (apply event_owned || by apply always_ret). }
  owned_any; [by apply always_call|]. owned_report. repeat case_match; by apply always_ret.
Qed.

Lemma lift_owned {A B} om (a : outcome A) (f : A → prog B) :
  (∀ x, a = Done x → always (applies_for om) (f x) any) → always (applies_for om) (bind (lift a) f) any.
Proof. destruct a as [x|]; intros Hf; [by apply Hf|by split]. Qed.

Lemma apply_workload_owned r m merged h : owned m (apply_workload r m merged h) any.
Proof.
  unfold apply_workload. apply lift_owned. intros dep (env & _ & Hm & _)%BuildDeployment_Done.
  owned_any; [apply (apply_child_owned (k := KDeployment)); simpl; by rewrite Hm|].
  case_match; [|by apply always_ret].
  owned_any; [by apply (apply_child_owned (k := KService))|]. case_match; [|by apply always_ret].
  case_match; [|apply observe_status_owned].
  owned_any; [by apply (apply_child_owned (k := KServiceMonitor))|].
  case_match; [apply observe_status_owned|by apply always_ret].
Qed.

Lemma apply_config_owned r m libs : owned m (apply_config r m libs) any.
Proof.
  unfold apply_config. owned_any; [by apply always_call|]. owned_any; [by apply always_call|].
  case_match eqn:Hcm; [|by apply always_ret]. destruct a1 as [cm h].
  apply BuildConfigMap_Ok in Hcm as (data & _ & _ & _ & Hm).
  owned_any; [apply (apply_child_owned (k := KConfigMap)); simpl; by rewrite Hm|].
  case_match; [|by apply always_ret]. apply lift_owned. intros short _.
  eapply (always_bind _ _ _ _ _ (setCondition_owned _ _ _ _ _ m)); [|done].
  intros m1 (? & [= <-] & Hm1 & _). rewrite <-Hm1.
  eapply (always_bind _ _ _ (λ o, ∃ m', o = Done m' ∧ mon_ObjectMeta m' = mon_ObjectMeta m1)).
  - case_match; [|by apply always_ret; eexists].
    eapply (always_bind _ _ _ (λ o, o = Done tt)); [by apply always_call; [|intros []]| |done].
    intros [] _. apply always_ret. by eexists.
  - intros m2 (? & [= <-] & Hm2). rewrite <-Hm2. apply apply_workload_owned.
  - by intros ? (? & ? & _).
Qed.

Lemma validateCredentials_owned om m :
  always (applies_for om) (validateCredentials m)
    (λ o, ∃ m' res ok, o = Done (m', res, ok) ∧ mon_ObjectMeta m' = mon_ObjectMeta m ∧
            mon_Spec m' = mon_Spec m).
Proof.
  unfold validateCredentials. case_match.
  { owned_condition m m1. apply always_ret. by do 3 eexists. }
  case_match.
  - eapply (always_bind _ _ _ (λ o, ∃ r, o = Done r)); [apply always_call; [done|by eexists]| |by intros ? [? ?]].
    intros [sec|err] _.
    + owned_condition m m1. apply always_ret. by do 3 eexists.
    + owned_condition m m1. owned_condition m1 m2.
      eapply (always_bind _ _ _ (λ o, o = Done tt)); [by apply always_call; [|intros []]| |done].
      intros [] _. owned_report. apply always_ret. do 3 eexists. split; [done|]. split; congruence.
  - owned_condition m m1. owned_report. apply always_ret. by do 3 eexists.
Qed.

Lemma resolve_refs_owned om ns refs libs :
  always (patch_owned om) (resolve_refs ns refs libs) any.
Proof.
  revert libs. induction refs as [|ref refs IH]; intros libs; cbn [resolve_refs]; [by apply always_ret|].
  owned_any; [by apply always_call|]. case_match; [apply IH|by apply always_ret].
Qed.

Lemma reconcile_live_owned r m : always (patch_owned (mon_ObjectMeta m)) (reconcile_live r m) any.
Proof.
  assert (∀ {A} (p : prog A) R, owned m p R → always (patch_owned (mon_ObjectMeta m)) p R) as Hw.
  { intros A p R. apply always_weaken. by intros en [? _]. }
  unfold reconcile_live.
  eapply (always_bind _ _ _ _ _ (Hw _ _ _ (validateCredentials_owned _ m))); [|done].
  intros [[m1 res] ok] (? & ? & ? & [= <- <- <-] & Hm & _).
  case_match; [by apply always_ret|]. owned_any; [apply resolve_refs_owned|].
  case_match; apply Hw; [rewrite <-Hm; apply apply_config_owned|].
  owned_condition m1 m2. owned_any; [apply event_owned|]. owned_report. by apply always_ret.
Qed.

(** *** Branches *)
Lemma silent_no_patch m t : silent m t → Forall (λ en, is_patch en = false) t.
Proof. intros (_ & Hp & _). eapply Forall_impl; [exact Hp|]. by intros ? [? _]. Qed.

Lemma stopped_report m m' (P : PgpilotMonitorStatus → Prop) evs t1 t2 e :
  silent m' t2 ∧ retried m' 4 t2 (Done e) → same_object m m' → P (mon_Status m') →
  events t1 = evs → Forall (λ en, is_patch en = false ∧ is_status_update en = false) t1 →
  stopped m P evs (t1 ++ t2) (Done (requeue_after 30, None)).
Proof.
  intros [Hs Hr] Hm HP <- Ht1. split; [done|]. split; [|split].
  - destruct Hs as (He & _). by rewrite events_app, He, app_nil_r.
  - apply Forall_app. split; [|by eapply silent_no_patch].
    eapply Forall_impl; [exact Ht1|]. by intros ? [? _].
  - exists m', t1, t2, e. split_and!; try done. eapply Forall_impl; [exact Ht1|]. by intros ? [_ ?].
Qed.

(** Setting conditions. *)
Lemma with_condition_touched now ty st re ms m ty' :
  ty' ≠ ty → find_condition ty' (st_Conditions (mon_Status (with_condition now ty st re ms m)))
    = find_condition ty' (st_Conditions (mon_Status m)).
Proof. intros Hne. unfold with_condition. simpl. by rewrite SetStatusCondition_other. Qed.

Lemma not_ready_set now re ms m :
  not_ready m re ["Ready"] (mon_Status (with_condition now "Ready" ConditionFalse re ms m)).
Proof.
  split; [apply with_condition_same|]. split; [done|]. intros ty Hty.
  apply with_condition_touched. intros ->. apply Hty. left.
Qed.

(** A further condition, before or after. *)
Lemma not_ready_then now ty st re re' ms m m' tys :
  ty ≠ "Ready" → not_ready m re tys (mon_Status m') →
  not_ready m re (tys ++ [ty]) (mon_Status (with_condition now ty st re' ms m')).
Proof.
  intros Hne (Hc & Hs & Ht). split; [by apply with_condition_other|]. split; [simpl; by rewrite Hs|].
  intros ty'. rewrite not_elem_of_app, list_elem_of_singleton. intros [Hty Hty'].
  rewrite with_condition_touched by done. by apply Ht.
Qed.

Lemma not_ready_after now ty st re re' ms m tys s :
  not_ready (with_condition now ty st re' ms m) re tys s → not_ready m re (ty :: tys) s.
Proof.
  intros (Hc & Hs & Ht). split; [done|]. split; [by rewrite Hs|].
  intros ty'. rewrite not_elem_of_cons. intros [Hty Hty']. rewrite Ht by done. by apply with_condition_touched.
Qed.

(** [validateCredentials], branch by branch. *)
Lemma validateCredentials_runs m t o :
  runs (validateCredentials m) t o →
  (∃ now m', t = [Entry Now now] ∧ o = Done (m', noRequeue, true) ∧ same_object m m' ∧
     has_inline (spec_Database (mon_Spec m)) = true ∧
     m' = with_condition now "DatabaseReachable" ConditionTrue "InlineCredentials"
            "Inline username/password configured" m) ∨
  (has_inline (spec_Database (mon_Spec m)) = false ∧
   ∃ ref, db_CredentialsSecret (spec_Database (mon_Spec m)) = Some ref ∧
     ((∃ sec now m', t = [Entry (GetSecret (mkNN (mon_Namespace m) (csr_Name ref))) (Ok sec); Entry Now now] ∧
         o = Done (m', noRequeue, true) ∧ same_object m m' ∧
         m' = with_condition now "DatabaseReachable" ConditionTrue "CredentialsFound"
                ("Credentials secret " +:+ Quote (csr_Name ref) +:+ " exists") m) ∨
      (∃ err t' m', t = Entry (GetSecret (mkNN (mon_Namespace m) (csr_Name ref))) (Err err) :: t' ∧
         o = Done (m', requeue_after 30, false) ∧
         stopped m (λ s, not_ready m "SecretNotFound" ["Ready"; "DatabaseReachable"] s ∧
             condition_is "DatabaseReachable" ConditionFalse "SecretNotFound" s)
           [(EventTypeWarning, "SecretNotFound")] t (Done (requeue_after 30, None))))) ∨
  (has_inline (spec_Database (mon_Spec m)) = false ∧
   db_CredentialsSecret (spec_Database (mon_Spec m)) = None ∧
   ∃ m', o = Done (m', requeue_after 30, false) ∧
     stopped m (not_ready m "NoCredentials" ["Ready"]) [] t (Done (requeue_after 30, None))).
Proof.
  unfold validateCredentials. destruct (has_inline _).
  { intros (now & t' & -> & -> & ->)%runs_setCondition_bind. left. exists now. by eexists. }
  destruct (db_CredentialsSecret _) as [ref|]; intros Hr; [right; left|right; right].
  - split; [done|]. exists ref. split; [done|].
    apply runs_call_bind in Hr as ([sec|err] & t' & -> & Hr); [left|right].
    + apply runs_setCondition_bind in Hr as (now & t1 & -> & -> & ->). exists sec, now. by eexists.
    + apply runs_setCondition_bind in Hr as (n1 & t1 & -> & Hr).
      apply runs_setCondition_bind in Hr as (n2 & t2 & -> & Hr).
      apply runs_event_bind in Hr as (t3 & -> & Hr).
      apply runs_report_bind in Hr as (e & t4 & t5 & -> & Hs & -> & ->).
      eexists err, _, _. rewrite app_nil_r. split; [done|]. split; [done|].
      eapply (stopped_report _ _ _ _ [_; _; _; _]); [exact Hs|done| |done|by repeat constructor].
      split; [|apply with_condition_same]. apply (not_ready_then _ _ _ _ _ _ _ _ ["Ready"]); [done|apply not_ready_set].
  - split_and!; [done..|]. apply runs_setCondition_bind in Hr as (n1 & t1 & -> & Hr).
    apply runs_report_bind in Hr as (e & t4 & t5 & -> & Hs & -> & ->). eexists. split; [done|].
    rewrite app_nil_r.
    eapply (stopped_report _ _ _ _ [_]); [exact Hs|done|apply not_ready_set|done|by repeat constructor].
Qed.

(** *** Libraries *)

(** The reads of the libraries of the given names, with their answers. *)
Definition library_reads (ns : string) (l : list (string * result PgpilotMetricLibrary)) : trace :=
  map (λ nr, Entry (GetLibrary (mkNN ns nr.1)) nr.2) l.

Lemma library_reads_quiet ns l :
  events (library_reads ns l) = [] ∧
  Forall (λ en, is_patch en = false ∧ is_status_update en = false) (library_reads ns l).
Proof. unfold library_reads. induction l as [|nr l [IH1 IH2]]; [by repeat constructor|]. split; [done|by constructor]. Qed.

Lemma Entry_library_inj (k1 k2 : NamespacedName) (x1 x2 : result PgpilotMetricLibrary) :
  Entry (GetLibrary k1) x1 = Entry (GetLibrary k2) x2 → x1 = x2.
Proof.
  intros Hx. pose (f en := match en with @Entry _ ef y =>
    match ef in Eff X return X → result PgpilotMetricLibrary with
    | GetLibrary _ => λ y, y | _ => λ _, x1 end y end). exact (f_equal f Hx).
Qed.

Lemma library_reads_elem ns l k x :
  Entry (GetLibrary k) x ∈ library_reads ns l → ∃ n, (n, x) ∈ l.
Proof.
  unfold library_reads. intros ([n y] & Heq & Hy)%list_elem_of_fmap.
  apply Entry_library_inj in Heq. simpl in Heq. subst. by exists n.
Qed.

Lemma Entry_library_key (k1 k2 : NamespacedName) (x1 x2 : result PgpilotMetricLibrary) :
  Entry (GetLibrary k1) x1 = Entry (GetLibrary k2) x2 → k1 = k2.
Proof.
  intros Hx. pose (f en := match en with @Entry _ ef _ =>
    match ef with GetLibrary k => k | _ => k1 end end). exact (f_equal f Hx).
Qed.

Lemma library_reads_key ns names found k x :
  Entry (GetLibrary k) x ∈ library_reads ns (zip names found) → ∃ n, k = mkNN ns n ∧ n ∈ names.
Proof.
  unfold library_reads. intros ([n y] & Heq & Hy%elem_of_zip_l)%list_elem_of_fmap.
  apply Entry_library_key in Heq. by exists n.
Qed.

Lemma library_reads_all ns names found n :
  length found = length names → n ∈ names →
  ∃ x, Entry (GetLibrary (mkNN ns n)) x ∈ library_reads ns (zip names (map Ok found)).
Proof.
  revert found. induction names as [|n' names IH]; intros [|lib found] Hl Hn; try done; [by apply elem_of_nil in Hn|].
  apply elem_of_cons in Hn as [->|Hn]; [exists (Ok lib); by left|].
  destruct (IH found) as [x Hx]; [simpl in Hl; lia|done|]. exists x. by right.
Qed.

(** *** The watch *)
Lemma references_elem lib refs : references (lib_Name lib) refs = true ↔ LibraryRef_of lib ∈ refs.
Proof.
  induction refs as [|[n] refs IH]; simpl; [by rewrite elem_of_nil|].
  rewrite elem_of_cons. unfold LibraryRef_of in *. case_bool_decide; naive_solver.
Qed.

Lemma monitor_requests_filter lib items :
  monitor_requests (lib_Name lib) items =
  mon_key <$> filter (λ m, LibraryRef_of lib ∈ ms_FromLibraries (spec_Metrics (mon_Spec m))) items.
Proof.
  induction items as [|m items IH]; [done|]. simpl. rewrite filter_cons.
  destruct (references _ _) eqn:Href; [apply references_elem in Href|].
  - by rewrite decide_True, fmap_cons, IH.
  - rewrite decide_False; [done|]. rewrite <-references_elem. by rewrite Href.
Qed.

Lemma NoDup_fmap_key items m m' :
  NoDup (mon_key <$> items) → m ∈ items → m' ∈ items → mon_key m' = mon_key m → m' = m.
Proof.
  induction items as [|a items IH]; intros Hnd Hm Hm' Hk; [by apply elem_of_nil in Hm|].
  rewrite fmap_cons in Hnd. apply NoDup_cons in Hnd as [Ha Hnd].
  apply elem_of_cons in Hm as [->|Hm], Hm' as [->|Hm'].
  - done.
  - destruct Ha. rewrite <-Hk. by apply list_elem_of_fmap_2.
  - destruct Ha. rewrite Hk. by apply list_elem_of_fmap_2.
  - by apply IH.
Qed.

Lemma resolve_refs_runs ns refs libs t o :
  runs (resolve_refs ns refs libs) t o ↔
  (∃ found, length found = length refs ∧ o = Done (Ok (libs ++ found)) ∧
     t = library_reads ns (zip (map lr_Name refs) (map Ok found))) ∨
  (∃ before ref after found e, refs = before ++ ref :: after ∧ length found = length before ∧
     o = Done (Err (ErrWrap ("library " +:+ Quote (lr_Name ref)) e)) ∧
     t = library_reads ns (zip (map lr_Name before) (map Ok found) ++ [(lr_Name ref, Err e)])).
Proof.
  revert libs t. induction refs as [|ref refs IH]; intros libs t; cbn [resolve_refs].
  { split.
    - intros [-> ->]. left. exists []. by rewrite app_nil_r.
    - intros [([|? ?] & ? & -> & ->)|([|? ?] & ? & ? & ? & ? & ? & _)]; try done. by rewrite app_nil_r. }
  rewrite runs_call_bind. split.
  - intros ([lib|e] & t' & -> & Hr).
    + apply IH in Hr as [(found & Hl & -> & ->)|(before & ref' & after & found & e & -> & Hl & -> & ->)].
      * left. exists (lib :: found). split_and!; [simpl; congruence|by rewrite <-app_assoc|done].
      * right. exists (ref :: before), ref', after, (lib :: found), e. split_and!; [done|simpl; congruence|done..].
    + destruct Hr as [-> ->]. right. by exists [], ref, refs, [], e.
  - intros [([|lib found] & Hl & -> & ->)|([|ref' before] & rf & after & found & e & Heq & Hl & -> & ->)]; try done.
    + eexists (Ok lib), _. split; [done|]. apply IH. left. exists found. simpl in Hl.
      split_and!; [lia|by rewrite <-app_assoc|done].
    + destruct found; [|done]. simplify_eq/=. eexists (Err e), _. split; [done|done].
    + destruct found as [|lib found]; [done|]. simplify_eq/=. eexists (Ok lib), _. split; [done|].
      apply IH. right. exists before, rf, after, found, e. by split_and!.
Qed.

(** *** The observation *)
Definition observation (m : PgpilotMonitor) (ready : bool) (s : PgpilotMonitorStatus) : Prop :=
  st_Ready s = ready ∧ st_ObservedGeneration s = mon_Generation m ∧
  is_Some (st_LastReconciled s) ∧ st_ConfigHash s = st_ConfigHash (mon_Status m) ∧
  condition_is "Ready" (if ready then ConditionTrue else ConditionFalse)
    (if ready then "PodRunning" else "PodNotReady") s.

(** The fields [observe_status] sets, then the condition. *)
Definition observing (now : Time) (ready : bool) (m : PgpilotMonitor) : PgpilotMonitor :=
  let m := on_status (st_set_Ready ready) m in
  let m := on_status (st_set_ObservedGeneration (mon_Generation m)) m in
  on_status (st_set_LastReconciled now) m.

Lemma observing_observation now n2 ready ms m :
  observation m ready (mon_Status (with_condition n2 "Ready"
    (if ready then ConditionTrue else ConditionFalse) (if ready then "PodRunning" else "PodNotReady")
    ms (observing now ready m))).
Proof. split_and!; [done|done|by eexists|done|apply with_condition_same]. Qed.

(** The event of a change of readiness. *)
Definition transition (was ready : bool) : list (string * string) :=
  match was, ready with
  | false, true => [(EventTypeNormal, "PodRunning")]
  | true, false => [(EventTypeWarning, "PodNotReady")]
  | _, _ => []
  end.

Definition observed (m : PgpilotMonitor) (ready : bool) (t : trace)
    (o : outcome (Result * option error)) : Prop :=
  events t = transition (st_Ready (mon_Status m)) ready ∧
  Forall (writes_status (observation m ready)) t ∧
  ((o = Done (if ready then noRequeue else requeue_after 15, None) ∧
    ∃ m', Entry (UpdateMonitorStatus m') None ∈ t ∧ observation m ready (mon_Status m')) ∨
   ∃ e, o = Done (noRequeue, Some (ErrWrap "update status" e))).

(** A successful report ends with an accepted write of the status. *)
Lemma runs_report_written {A} m (f : option error → prog A) t o :
  runs (bind (patchStatus m) f) t o →
  ∃ e t1 t2, t = t1 ++ t2 ∧ silent m t1 ∧ runs (f e) t2 o ∧
    (e = None → ∃ latest, Entry (UpdateMonitorStatus (set_status (mon_Status m) latest)) None ∈ t1).
Proof.
  intros [(msg & Hr & _)|(t1 & t2 & e & -> & Hr & H2)]%runs_bind.
  - by apply patchStatus_runs in Hr as (? & ? & _ & ? & _).
  - exists e, t1, t2. split_and!; [done|by eapply patchStatus_silent|done|].
    apply patchStatus_runs in Hr as (before & a & -> & [= ->] & _).
    intros Ha. destruct a as [err|latest ans]; simpl in Ha; [done|subst ans]. exists latest.
    rewrite map_app, concat_app. apply elem_of_app. right. simpl. right. by left.
Qed.

(** The part of [observe_status] after the condition is set. *)
Lemma observed_report (m m' : PgpilotMonitor) ready t1 t (f : option error → prog (Result * option error)) t2 o :
  observation m ready (mon_Status m') →
  Forall (λ en, is_status_update en = false) t1 →
  events t1 = transition (st_Ready (mon_Status m)) ready →
  f None = Ret (if ready then noRequeue else requeue_after 15, None) →
  (∀ e, f (Some e) = Ret (noRequeue, Some (ErrWrap "update status" e))) →
  runs (bind (patchStatus m') f) t2 o → t = t1 ++ t2 → observed m ready t o.
Proof.
  intros Ho Ht1 He HfN HfS Hr ->.
  apply runs_report_written in Hr as (e & t3 & t4 & -> & Hs & Hr & Hw).
  assert (t4 = []) as ->. { destruct e as [e|]; [rewrite HfS in Hr|rewrite HfN in Hr]; by destruct Hr. }
  rewrite app_nil_r. pose proof Hs as (Hev & _). split_and!.
  - by rewrite events_app, Hev, app_nil_r.
  - apply Forall_app. split; [|by eapply silent_status].
    eapply Forall_impl; [exact Ht1|]. intros [X ef x] Hn. by destruct ef.
  - destruct e as [e|]; [right|left].
    + rewrite HfS in Hr. destruct Hr as [_ ->]. by eexists.
    + rewrite HfN in Hr. destruct Hr as [_ ->]. split; [done|]. destruct (Hw eq_refl) as [latest Hin].
      exists (set_status (mon_Status m') latest). split; [|done]. apply elem_of_app. by right.
Qed.

Lemma observe_status_runs m dep t o :
  runs (observe_status m dep) t o →
  ∃ r t', t = Entry (GetDeployment dep) r :: t' ∧
    match r with
    | Err e => t' = [] ∧ o = Done (noRequeue, Some e)
    | Ok d => observed m (0 <? d_ReadyReplicas d) t o
    end.
Proof.
  unfold observe_status. intros (r & t' & -> & Hr)%runs_call_bind. exists r, t'. split; [done|].
  destruct r as [d|e]; [|done]. cbv zeta in Hr.
  apply runs_call_bind in Hr as (now & t1 & -> & Hr). cbv beta in Hr. rewrite ?bind_ret_l in Hr.
  generalize dependent (0 <? d_ReadyReplicas d). intros ready Hr.
  set (m1 := on_status (st_set_LastReconciled now) _) in Hr.
  assert (∃ m2 t2 evs, runs
    (run pods := call (ListPods (mon_Namespace m2) (InstanceSelector (mon_Name m2))) in
      let monitor := match pods with
        | Ok (pod :: _) => on_status (st_set_PodName (om_Name (pod_ObjectMeta pod))) m2
        | _ => m2 end in
      run err := patchStatus monitor in
      match err with
      | Some err => Ret (noRequeue, Some (ErrWrap "update status" err))
      | None => if negb ready then Ret (requeue_after 15, None) else Ret (noRequeue, None)
      end)%prog t2 o ∧ t1 = evs ++ t2 ∧ events evs = transition (st_Ready (mon_Status m)) ready ∧
    Forall (λ en, is_status_update en = false) evs ∧ observation m ready (mon_Status m2) ∧
    mon_ObjectMeta m2 = mon_ObjectMeta m) as (m2 & t2 & evs & Hr2 & -> & He & Hev & Ho & Hm).
  { destruct ready; apply runs_bind_assoc in Hr;
      apply runs_setCondition_bind in Hr as (n2 & t2 & -> & Hr); apply runs_bind_assoc in Hr;
      destruct (st_Ready (mon_Status m)) eqn:Hw; cbn [negb] in Hr;
      rewrite ?bind_ret_l in Hr; try (apply runs_event_bind in Hr as (t3 & -> & Hr));
      rewrite ?bind_ret_l in Hr;
      [eexists _, _, [_]|eexists _, _, [_; _]|eexists _, _, [_; _]|eexists _, _, [_]];
      (split; [exact Hr|split; [done|split; [done|split; [by repeat constructor|split; [|done]]]]]);
      exact (observing_observation now n2 _ _ m). }
  apply runs_call_bind in Hr2 as (pods & t3 & -> & Hr2). cbv beta in Hr2. rewrite ?bind_ret_l in Hr2.
  eapply (observed_report m _ ready (Entry (GetDeployment dep) (Ok d) :: Entry Now now :: evs ++
    [Entry (ListPods (mon_Namespace m2) (InstanceSelector (mon_Name m2))) pods]) _ _ _ o);
    [| | | | |exact Hr2|].
  - destruct pods as [[|pod ?]|]; exact Ho.
  - repeat (apply Forall_cons; split; [done|]). apply Forall_app. split; [done|by repeat constructor].
  - change (events (evs ++ [Entry (ListPods (mon_Namespace m2) (InstanceSelector (mon_Name m2))) pods])
      = transition (st_Ready (mon_Status m)) ready). by rewrite events_app, He, app_nil_r.
  - by destruct ready.
  - done.
  - simpl. by rewrite <-app_assoc.
Qed.
End Spec.

(** After the finalizer is settled the monitor itself is not updated: the
    protocol has no such step. *)
Lemma reconcile_live_no_update `{Yaml} `{Embedded} `{MachineryLaws} r m t o :
  runs (reconcile_live r m) t o → head t ≫= update_answer = None.
Proof.
  intros Hr. pose proof (reconcile_live_follows (ServiceMonitorEnabled r) r m (PLive (mon_key m)) eq_refl) as Hf.
  unfold follows in Hf. rewrite wp_runs in Hf. destruct (Hf ltac:(by right) _ _ Hr) as (p & Ht & _).
  destruct t as [|[X e x] t]; [done|]. by destruct e.
Qed.

Lemma Reconcile_owned `{Yaml} `{Embedded} `{MachineryLaws} r req t o :
  runs (Reconcile r req) t o →
  Forall (λ en, is_patch en = true → ∃ m, subject t = Some m ∧ patch_owned (mon_ObjectMeta m) en) t.
Proof.
  assert (∀ m t o, runs (reconcile_live r m) t o → Forall (patch_owned (mon_ObjectMeta m)) t) as Hlive.
  { intros m t' o' Hr. pose proof (reconcile_live_owned r m) as Ho. unfold always in Ho.
    rewrite wp_runs in Ho. by destruct (Ho _ _ Hr). }
  assert (∀ m (t1 t2 : trace), Forall (λ en, is_patch en = false) t1 →
    subject (t1 ++ t2) = Some m → Forall (patch_owned (mon_ObjectMeta m)) t2 →
    Forall (λ en, is_patch en = true → ∃ m, subject (t1 ++ t2) = Some m ∧ patch_owned (mon_ObjectMeta m) en)
      (t1 ++ t2)) as Hgen.
  { intros m t1 t2 Hq1 Hs Hq2. apply Forall_app. split; (eapply Forall_impl; [eassumption|]); cbv beta.
    - by intros en ->.
    - eauto. }
  unfold Reconcile. intros (got & t' & -> & Hr)%runs_call_bind. rewrite bind_ret_l in Hr. destruct got as [m|err].
  2: { destruct (IsNotFound err); destruct Hr as [-> ->]; by repeat constructor. }
  destruct (negb (IsZero _)).
  { destruct (ContainsFinalizer _ _); [|destruct Hr as [-> ->]; by repeat constructor].
    apply runs_call_bind in Hr as ([]& t2 & -> & -> & ->); by repeat constructor. }
  destruct (negb (ContainsFinalizer _ _)).
  - apply runs_call_bind in Hr as ([m'|err] & t2 & -> & Hr); [|destruct Hr as [-> ->]; by repeat constructor].
    apply (Hgen m' [_; _]); [by repeat constructor|done|by eapply Hlive].
  - apply (Hgen m [_]); [by repeat constructor| |by eapply Hlive].
    unfold subject. simpl. by rewrite (reconcile_live_no_update _ _ _ _ Hr).
Qed.

Lemma child_key_inj k1 k2 kind : child_key k1 kind = child_key k2 kind → k1 = k2.
Proof.
  destruct k1 as [ns1 n1], k2 as [ns2 n2]. unfold child_key. simpl. intros [= -> Hn]. f_equal.
  destruct kind; unfold ConfigMapName, ResourceName in Hn; simplify_eq/=; try done.
  by apply append_inj_r in Hn.
Qed.

(** ** Properties *)
Section Properties.
Context `{Y : Yaml} `{E : Embedded} `{M : Machinery} `{L : !MachineryLaws}.

(** C6 A run on a monitor under deletion does nothing but drop the operator's
    finalizer: when the finalizer is absent it only reads; when it is
    present it sends one update, which keeps the spec, the status and every
    other finalizer, and its error is returned. *)
Theorem deletion_only_drops_finalizer r req t o m :
  runs (Reconcile r req) t o → head t ≫= get_answer = Some (Ok m) →
  IsZero (om_DeletionTimestamp (mon_ObjectMeta m)) = false →
  (finalizerName ∉ om_Finalizers (mon_ObjectMeta m) →
     t = [Entry (GetMonitor req) (Ok m)] ∧ o = Done (noRequeue, None)) ∧
  (finalizerName ∈ om_Finalizers (mon_ObjectMeta m) →
     ∃ fs ans, t = [Entry (GetMonitor req) (Ok m);
                    Entry (UpdateMonitor (set_meta (meta_set_finalizers fs (mon_ObjectMeta m)) m)) ans] ∧
       (∀ g, g ∈ fs ↔ g ≠ finalizerName ∧ g ∈ om_Finalizers (mon_ObjectMeta m)) ∧
       o = Done (noRequeue, match ans with Ok _ => None | Err e => Some e end)).
Proof.
  unfold Reconcile. intros (got & t' & -> & Hr)%runs_call_bind [= ->] Hz.
  rewrite bind_ret_l, Hz in Hr. simpl in Hr.
  destruct (ContainsFinalizer _ _) eqn:Hc.
  - apply ContainsFinalizer_spec in Hc. split; [done|]. intros _.
    destruct (RemoveFinalizer_spec (mon_ObjectMeta m) finalizerName) as (fs & Hm & Hfs). rewrite Hm in Hr.
    apply runs_call_bind in Hr as (ans & t2 & -> & Hr). exists fs, ans.
    destruct ans; destruct Hr as [-> ->]; done.
  - destruct Hr as [-> ->]. split; [done|]. intros Hin%ContainsFinalizer_spec. by rewrite Hc in Hin.
Qed.

(** C7 Everything [Reconcile] applies is owned by the monitor it works on: each
    patch carries a controller reference with the monitor's name and UID,
    targets the monitor's own child of its kind, is forced for the operator's field
    manager, and carries no resource version and no managed fields, so that
    the children are garbage-collected with the monitor. *)
Theorem applied_children_are_owned r req t o :
  runs (Reconcile r req) t o →
  Forall (λ en, is_patch en = true → ∃ m, subject t = Some m ∧ patch_owned (mon_ObjectMeta m) en) t.
Proof. apply Reconcile_owned. Qed.

(** C8 No child is applied before the finalizer is in place: in a run that
    applies anything, the fetched monitor carries the finalizer already, or
    the very next call adds it, keeping the others, and succeeds. *)
Theorem finalizer_before_children r req t o :
  runs (Reconcile r req) t o → Exists (λ en, is_patch en = true) t →
  ∃ m t', t = Entry (GetMonitor req) (Ok m) :: t' ∧
    IsZero (om_DeletionTimestamp (mon_ObjectMeta m)) = true ∧
    (finalizerName ∈ om_Finalizers (mon_ObjectMeta m) ∨
     ∃ fs m' t'', t' = Entry (UpdateMonitor (set_meta (meta_set_finalizers fs (mon_ObjectMeta m)) m)) (Ok m') :: t'' ∧
       ∀ g, g ∈ fs ↔ g = finalizerName ∨ g ∈ om_Finalizers (mon_ObjectMeta m)).
Proof.
  assert (∀ en, is_patch en = false → ¬ Exists (λ en, is_patch en = true) [en]) as Hno.
  { intros en Hen Hex%Exists_cons. destruct Hex as [Hp|Hnil%Exists_nil]; [congruence|done]. }
  assert (∀ en1 en2, is_patch en1 = false → is_patch en2 = false →
    ¬ Exists (λ en, is_patch en = true) [en1; en2]) as Hno2.
  { intros en1 en2 H1 H2 Hex%Exists_cons. destruct Hex as [Hp|Hex]; [congruence|by eapply Hno]. }
  unfold Reconcile. intros (got & t' & -> & Hr)%runs_call_bind Hex. rewrite bind_ret_l in Hr.
  destruct got as [m|err]; [|destruct (IsNotFound err); destruct Hr as [-> _]; by apply Hno in Hex].
  exists m, t'. split; [done|]. destruct (IsZero _); simpl in Hr.
  - split; [done|]. destruct (ContainsFinalizer _ _) eqn:Hc; simpl in Hr.
    + left. by apply ContainsFinalizer_spec.
    + right. destruct (AddFinalizer_spec (mon_ObjectMeta m) finalizerName) as (fs & Hm & Hfs). rewrite Hm in Hr.
      apply runs_call_bind in Hr as ([m'|err] & t2 & -> & Hr); [by exists fs, m', t2|].
      destruct Hr as [-> _]. by apply Hno2 in Hex.
  - destruct (ContainsFinalizer _ _); [|destruct Hr as [-> _]; by apply Hno in Hex].
    apply runs_call_bind in Hr as ([] & t2 & -> & -> & _); by apply Hno2 in Hex.
Qed.

(** C9 [patchStatus], completely: it makes one to five attempts, each a fresh
    read followed, when the read succeeds, by a write of the object just
    read with only its status replaced; every attempt but the last met a
    conflict, the last did not unless it was the fifth, and the last
    attempt's error is returned. *)
Theorem patchStatus_spec m t o :
  runs (patchStatus m) t o ↔
  ∃ before a, t = concat (map (attempt_trace m) (before ++ [a])) ∧ o = Done (attempt_error a) ∧
    Forall (λ b, is_conflict b = true) before ∧
    (is_conflict a = false ∨ length before = 4%nat) ∧ (length before ≤ 4)%nat.
Proof. apply patchStatus_runs. Qed.

(** C15 Without usable credentials nothing is applied: when the referenced
    Secret cannot be read, the run records one warning event (at every attempt)
    and ends with a report of [Ready] and [DatabaseReachable] false; when there
    is neither a reference nor inline credentials, it records no event and
    reports [Ready] false, leaving [DatabaseReachable] alone.  Every other
    condition and the rest of the status, the [ready] flag included, are
    reported as they were; the report is tried as [patchStatus] does, and the
    run asks to be retried in 30 s whether it succeeds or not. *)
Theorem missing_credentials_stop r m t o :
  runs (reconcile_live r m) t o → has_inline (spec_Database (mon_Spec m)) = false →
  match db_CredentialsSecret (spec_Database (mon_Spec m)) with
  | None => stopped m (not_ready m "NoCredentials" ["Ready"]) [] t o
  | Some ref => ∃ ans, head t = Some (Entry (GetSecret (mkNN (mon_Namespace m) (csr_Name ref))) ans) ∧
      ∀ err, ans = Err err →
        stopped m (λ s, not_ready m "SecretNotFound" ["Ready"; "DatabaseReachable"] s ∧
            condition_is "DatabaseReachable" ConditionFalse "SecretNotFound" s)
          [(EventTypeWarning, "SecretNotFound")] t o
  end.
Proof.
  unfold reconcile_live. intros Hr Hi.
  apply runs_bind in Hr as [(msg & Hv & _)|(t1 & t2 & [[m1 res] ok] & -> & Hv & Hr)].
  { apply validateCredentials_runs in Hv. naive_solver. }
  apply validateCredentials_runs in Hv as [(? & ? & ? & ? & ? & ? & _)|[(_ & ref & -> & Hv)|(_ & -> & m' & [= -> -> ->] & Hs)]].
  - congruence.
  - destruct Hv as [(sec & now & m' & -> & [= -> -> ->] & _)|(err & t' & m' & -> & [= -> -> ->] & Hs)].
    + eexists. split; [done|]. done.
    + destruct Hr as [-> ->]. rewrite app_nil_r. eexists. split; [done|]. done.
  - destruct Hr as [-> ->]. by rewrite app_nil_r.
Qed.

(** C17 [resolveLibraries], completely: it reads the referenced libraries in
    the listed order, in the monitor's namespace, and returns them in that
    order; at the first read that fails it stops, and returns that error
    wrapped with the name of the library. *)
Theorem resolveLibraries_spec m t o :
  let refs := ms_FromLibraries (spec_Metrics (mon_Spec m)) in
  runs (resolveLibraries m) t o ↔
  (∃ found, length found = length refs ∧ o = Done (Ok found) ∧
     t = library_reads (mon_Namespace m) (zip (map lr_Name refs) (map Ok found))) ∨
  (∃ before ref after found e, refs = before ++ ref :: after ∧ length found = length before ∧
     o = Done (Err (ErrWrap ("library " +:+ Quote (lr_Name ref)) e)) ∧
     t = library_reads (mon_Namespace m)
           (zip (map lr_Name before) (map Ok found) ++ [(lr_Name ref, Err e)])).
Proof. intros refs. unfold resolveLibraries. apply resolve_refs_runs. Qed.

(** C16 An unreadable library stops the run: whenever a read of a library fails,
    nothing is applied, one warning event is recorded (at every attempt), and
    the run ends with a report, tried as [patchStatus] does, of [Ready] false
    and [DatabaseReachable] true, every other condition and the rest of the
    status, the [ready] flag included, being as they were; the run asks to be
    retried in 30 s whether the report succeeds or not. *)
Theorem missing_library_stops r m t o :
  runs (reconcile_live r m) t o → (∃ k e, Entry (GetLibrary k) (Err e) ∈ t) →
  stopped m (λ s, not_ready m "LibraryResolveFailed" ["DatabaseReachable"; "Ready"] s ∧
      ∃ re, condition_is "DatabaseReachable" ConditionTrue re s)
    [(EventTypeWarning, "LibraryResolveFailed")] t o.
Proof.
  unfold reconcile_live. intros Hr (k & e & Hin).
  assert (∀ {A} (p : prog A) R om t o, always (applies_for om) p R → runs p t o →
    Entry (GetLibrary k) (Err e) ∉ t) as Hno.
  { intros A p R om t' o' Ha Hp Hin'. unfold always in Ha. rewrite wp_runs in Ha.
    destruct (Ha _ _ Hp) as [Hall _]. rewrite Forall_forall in Hall. by destruct (Hall _ Hin'). }
  apply runs_bind in Hr as [(msg & Hv & _)|(t1 & t2 & [[m1 res] ok] & -> & Hv & Hr)].
  { apply validateCredentials_runs in Hv. naive_solver. }
  apply elem_of_app in Hin as [Hin|Hin]; [by eapply Hno in Hin; [|apply (validateCredentials_owned (mon_ObjectMeta m))|exact Hv]|].
  destruct ok; [|by destruct Hr as [-> _]; apply elem_of_nil in Hin]. simpl in Hr.
  assert (same_object m m1 ∧ events t1 = [] ∧
    Forall (λ en, is_patch en = false ∧ is_status_update en = false) t1 ∧
    ∃ now re ms, m1 = with_condition now "DatabaseReachable" ConditionTrue re ms m) as (Hs & He1 & Hp1 & n1 & re & ms & ->).
  { apply validateCredentials_runs in Hv as [(now & m' & -> & [= ->] & Hs & _ & ->)
      |[(_ & ref & _ & [(sec & now & m' & -> & [= ->] & Hs & ->)|(? & ? & ? & _ & ? & _)])|(_ & _ & ? & ? & _)]];
      try done; split_and!; try done; try (by repeat constructor); by do 3 eexists. }
  clear Hv. set (m1 := with_condition _ _ _ _ _ m) in *.
  apply runs_bind in Hr as [(msg & Hl & _)|(t3 & t4 & libs & -> & Hl & Hr)].
  { apply resolve_refs_runs in Hl. naive_solver. }
  apply resolve_refs_runs in Hl as [(found & _ & [= ->] & ->)|(before & ref & after & found & e' & _ & _ & [= ->] & ->)].
  { exfalso. apply elem_of_app in Hin as [Hin|Hin]; [|by eapply Hno in Hin; [|apply apply_config_owned|exact Hr]].
    apply library_reads_elem in Hin as (n & Hx%elem_of_zip_r).
    by apply list_elem_of_fmap in Hx as (lib & ? & _). }
  apply runs_setCondition_bind in Hr as (now & t5 & -> & Hr).
  apply runs_event_bind in Hr as (t6 & -> & Hr).
  apply runs_report_bind in Hr as (e2 & t7 & t8 & -> & Hs7 & -> & ->). rewrite app_nil_r, app_assoc.
  rewrite (app_assoc _ [_; _] _ : _ ++ Entry Now now :: _ :: t7 = _).
  destruct (library_reads_quiet (mon_Namespace m1) (zip (map lr_Name before) (map Ok found) ++ [(lr_Name ref, Err e')]))
    as [Hev Hq].
  eapply stopped_report; [exact Hs7|done| | |].
  - split; [eapply not_ready_after, not_ready_set|]. exists re. apply with_condition_other; [done|]. apply with_condition_same.
  - by rewrite !events_app, He1, Hev.
  - rewrite !Forall_app. split_and!; [done|done|by repeat constructor].
Qed.

(** C18 The last step reports what it observed: [ready] exactly when the
    Deployment has a ready replica, the generation it acted on, the time and
    the matching condition; an event is recorded on transitions only; a run
    without error has had a status of this form accepted by the API server,
    and asks for a retry after 15 s exactly when pgwatch is not ready; a
    failed read or write is returned as an error. *)
Theorem status_report m dep t o :
  runs (observe_status m dep) t o →
  ∃ r t', t = Entry (GetDeployment dep) r :: t' ∧
    match r with
    | Err e => t' = [] ∧ o = Done (noRequeue, Some e)
    | Ok d => observed m (0 <? d_ReadyReplicas d) t o
    end.
Proof. apply observe_status_runs. Qed.

(** A changed library enqueues exactly the monitors of its namespace's
    listing that reference it, in the order of the listing and once each
    (also when one monitor lists the library twice); a failing listing, or
    an object that is not a library, enqueues nothing. *)
Theorem libraryToMonitors_spec obj t o :
  runs (libraryToMonitors obj) t o →
  match obj with
  | WatchedOther => t = [] ∧ o = Done []
  | WatchedLibrary lib => ∃ r, t = [Entry (ListMonitors (lib_Namespace lib)) r] ∧
      match r with
      | Err _ => o = Done []
      | Ok items => ∃ reqs, o = Done reqs ∧
          reqs = mon_key <$> filter (λ m, LibraryRef_of lib ∈ ms_FromLibraries (spec_Metrics (mon_Spec m))) items ∧
          (NoDup (mon_key <$> items) → NoDup reqs)
      end
  end.
Proof.
  destruct obj as [lib|]; [|done]. intros (r & t' & -> & Hr)%runs_call_bind. rewrite bind_ret_l in Hr.
  exists r. destruct r as [items|e]; destruct Hr as [-> ->]; split; try done.
  eexists. split; [done|]. split; [apply monitor_requests_filter|].
  rewrite monitor_requests_filter. intros Hnd. eapply sublist_NoDup; [exact Hnd|]. apply fmap_sublist, sublist_filter.
Qed.

(** C19 The watch covers the reads: a monitor of the library's namespace is
    enqueued when the library changes if and only if resolving its libraries
    (when all of them can be read) reads that very library, so no
    change that a reconciliation depends on goes unnoticed and no other
    monitor is woken. *)
Theorem watch_covers_reads lib items m t libs :
  m ∈ items → NoDup (mon_key <$> items) → mon_Namespace m = lib_Namespace lib →
  runs (resolveLibraries m) t (Done (Ok libs)) →
  mon_key m ∈ monitor_requests (lib_Name lib) items ↔ ∃ x, Entry (GetLibrary (lib_key lib)) x ∈ t.
Proof.
  intros Hm Hnd Hns Hr. apply resolve_refs_runs in Hr as [(found & Hl & _ & ->)|(? & ? & ? & ? & ? & _ & _ & ? & _)]; [|done].
  rewrite monitor_requests_filter, list_elem_of_fmap. split.
  - intros (m' & Hk & [Href Hm']%list_elem_of_filter).
    assert (m' = m) as -> by (by eapply (NoDup_fmap_key items)).
    change (lib_key lib) with (mkNN (lib_Namespace lib) (lib_Name lib)). rewrite <-Hns.
    apply library_reads_all; [by rewrite length_map|]. apply list_elem_of_fmap. by exists (LibraryRef_of lib).
  - intros (x & Hin). exists m. split; [done|]. apply list_elem_of_filter. split; [|done].
    apply library_reads_key in Hin as (n & Hk & Hn). apply list_elem_of_fmap in Hn as ([n'] & -> & Href).
    by injection Hk as _ <-.
Qed.

(** C13 Two monitors never write to one object: if runs of [Reconcile] for two
    requests apply a child of one kind at one key, the monitors they work on
    have the same namespace and name. *)
Theorem monitors_never_share_children r1 r2 req1 req2 t1 t2 o1 o2 k (x1 x2 : obj_of k) fo1 fo2 f1 f2 a1 a2 :
  runs (Reconcile r1 req1) t1 o1 → runs (Reconcile r2 req2) t2 o2 →
  Entry (Patch k x1 fo1 f1) a1 ∈ t1 → Entry (Patch k x2 fo2 f2) a2 ∈ t2 →
  meta_key (obj_meta x1) = meta_key (obj_meta x2) →
  ∃ m1 m2, subject t1 = Some m1 ∧ subject t2 = Some m2 ∧ mon_key m1 = mon_key m2.
Proof.
  intros H1 H2 Hin1 Hin2 Hk. apply Reconcile_owned in H1, H2. rewrite Forall_forall in H1, H2.
  destruct (H1 _ Hin1 eq_refl) as (m1 & Hs1 & _ & _ & Hk1 & _), (H2 _ Hin2 eq_refl) as (m2 & Hs2 & _ & _ & Hk2 & _).
  exists m1, m2. split_and!; [done..|].
  apply (child_key_inj _ _ k). change (child_key (meta_key (mon_ObjectMeta m1)) k = child_key (meta_key (mon_ObjectMeta m2)) k).
  by rewrite <-Hk1, <-Hk2.
Qed.
End Properties.

(** ** Witnesses: runs against the server in memory *)
Definition fx_run (s : Memory) (m : PgpilotMonitor) : trace * outcome (Result * option error) * Memory :=
  interp mem_serve (Reconcile (mkReconciler true) (mon_key m)) s.
Definition fx_live_run (s : Memory) (m : PgpilotMonitor) : trace * outcome (Result * option error) * Memory :=
  interp mem_serve (reconcile_live (mkReconciler true) m) s.

Lemma fx_run_runs s m : runs (Reconcile (mkReconciler true) (mon_key m)) (fx_run s m).1.1 (fx_run s m).1.2.
Proof.
  unfold fx_run. pose proof (interp_runs mem_serve (Reconcile (mkReconciler true) (mon_key m)) s) as Hr.
  by destruct (interp _ _ s) as [[t o] s'].
Qed.

Lemma fx_live_runs s m : runs (reconcile_live (mkReconciler true) m) (fx_live_run s m).1.1 (fx_live_run s m).1.2.
Proof.
  unfold fx_live_run. pose proof (interp_runs mem_serve (reconcile_live (mkReconciler true) m) s) as Hr.
  by destruct (interp _ _ s) as [[t o] s'].
Qed.

Lemma deletion_only_drops_finalizer_witness :
  ∃ fs ans, (fx_run fx_server fx_deleting).1.1 =
    [Entry (GetMonitor (mon_key fx_deleting)) (Ok fx_deleting);
     Entry (UpdateMonitor (set_meta (meta_set_finalizers fs (mon_ObjectMeta fx_deleting)) fx_deleting)) ans] ∧
    "other/finalizer" ∈ fs ∧ finalizerName ∉ fs.
Proof.
  destruct (deletion_only_drops_finalizer (mkReconciler true) _ _ _ fx_deleting
    (fx_run_runs fx_server fx_deleting) eq_refl eq_refl) as [_ Hd].
  destruct Hd as (fs & ans & Ht & Hfs & _); [left|].
  exists fs, ans. split; [exact Ht|]. split; [apply Hfs; split; [discriminate|right; left]|].
  intros Hin. apply Hfs in Hin. destruct Hin as [Hne _]. apply Hne. reflexivity.
Defined.

Lemma applied_children_are_owned_witness :
  Forall (λ en, is_patch en = true → ∃ m, subject (fx_run fx_server fx_monitor).1.1 = Some m ∧
    patch_owned (mon_ObjectMeta m) en) (fx_run fx_server fx_monitor).1.1 ∧
  length (filter (λ en, is_patch en = true) (fx_run fx_server fx_monitor).1.1) = 4%nat.
Proof.
  split; [|vm_compute; reflexivity].
  exact (applied_children_are_owned (mkReconciler true) _ _ _ (fx_run_runs fx_server fx_monitor)).
Defined.

Lemma finalizer_before_children_witness :
  ∃ m t', (fx_run fx_server fx_monitor).1.1 = Entry (GetMonitor (mon_key fx_monitor)) (Ok m) :: t'.
Proof.
  assert (existsb is_patch (fx_run fx_server fx_monitor).1.1 = true) as Hp by (vm_compute; reflexivity).
  destruct (finalizer_before_children (mkReconciler true) _ _ _ (fx_run_runs fx_server fx_monitor)
    (existsb_Exists _ _ Hp)) as (m & t' & Ht & _).
  exists m, t'. exact Ht.
Defined.

(** A conflict, then a write that goes through. *)
Lemma patchStatus_spec_witness :
  runs (patchStatus fx_monitor)
    (attempt_trace fx_monitor (Written fx_monitor (Some conflict)) ++ attempt_trace fx_monitor (Written fx_monitor None))
    (Done None).
Proof.
  apply (proj2 (patchStatus_spec fx_monitor _ _)).
  exists [Written fx_monitor (Some conflict)], (Written fx_monitor None).
  split_and!; [reflexivity|reflexivity|by repeat constructor|left; reflexivity|simpl; lia].
Defined.

Lemma missing_credentials_stop_witness :
  stopped fx_monitor (λ s, not_ready fx_monitor "SecretNotFound" ["Ready"; "DatabaseReachable"] s ∧
      condition_is "DatabaseReachable" ConditionFalse "SecretNotFound" s)
    [(EventTypeWarning, "SecretNotFound")]
    (fx_live_run fx_server_no_secret fx_monitor).1.1 (fx_live_run fx_server_no_secret fx_monitor).1.2.
Proof.
  destruct (missing_credentials_stop (mkReconciler true) fx_monitor _ _
    (fx_live_runs fx_server_no_secret fx_monitor) eq_refl) as (ans & Hh & Hs).
  apply (Hs (ErrExternal "NotFound" "not found")).
  exact (f_equal (λ h, match h with
    | Some en => match secret_answer en with Some a => a | None => ans end | None => ans end) (eq_sym Hh)).
Defined.

Lemma missing_library_stops_witness :
  stopped fx_monitor (λ s, not_ready fx_monitor "LibraryResolveFailed" ["DatabaseReachable"; "Ready"] s ∧
      ∃ re, condition_is "DatabaseReachable" ConditionTrue re s)
    [(EventTypeWarning, "LibraryResolveFailed")]
    (fx_live_run fx_server_no_library fx_monitor).1.1 (fx_live_run fx_server_no_library fx_monitor).1.2.
Proof.
  apply (missing_library_stops (mkReconciler true) fx_monitor _ _ (fx_live_runs fx_server_no_library fx_monitor)).
  exists (lib_key fx_library), (ErrExternal "NotFound" "not found").
  apply list_elem_of_lookup. exists 2%nat. vm_compute. reflexivity.
Defined.

(** A Deployment that has become ready. *)
Definition fx_deployment : Deployment :=
  mkDeployment (mkTypeMeta "apps/v1" "Deployment") (fx_meta "pgpilot-orders" []) (Some 1)
    (InstanceSelector "orders") (mkPodTemplateSpec (fx_meta "" []) (mkPodSpec [] [] None)) 1.
Definition fx_server_ready : Memory :=
  mkMemory (put_child KDeployment fx_deployment (mem_cluster fx_server)) 100 1000 [].

Lemma status_report_witness :
  let '(t, o, _) := interp mem_serve (observe_status fx_monitor (meta_key (d_ObjectMeta fx_deployment))) fx_server_ready in
  ∃ r t', t = Entry (GetDeployment (meta_key (d_ObjectMeta fx_deployment))) r :: t' ∧
    match r with Err _ => True | Ok d => observed fx_monitor (0 <? d_ReadyReplicas d) t o end.
Proof.
  pose proof (interp_runs mem_serve (observe_status fx_monitor (meta_key (d_ObjectMeta fx_deployment))) fx_server_ready) as Hr.
  destruct (interp mem_serve _ fx_server_ready) as [[t o] s'].
  destruct (status_report fx_monitor _ t o Hr) as (r & t' & Ht & Hm).
  exists r, t'. split; [exact Ht|]. destruct r; [exact Hm|exact I].
Defined.

Lemma libraryToMonitors_spec_witness :
  ∃ r, [Entry (ListMonitors "team-a") (Ok [fx_inline; fx_monitor])] = [Entry (ListMonitors "team-a") r] ∧
    monitor_requests "shared" [fx_inline; fx_monitor] = [mkNN "team-a" "orders"].
Proof.
  assert (runs (libraryToMonitors (WatchedLibrary fx_library))
    [Entry (ListMonitors "team-a") (Ok [fx_inline; fx_monitor])]
    (Done (monitor_requests "shared" [fx_inline; fx_monitor]))) as Hr.
  { exists (Ok [fx_inline; fx_monitor]), []. split; [reflexivity|]. split; reflexivity. }
  destruct (libraryToMonitors_spec (WatchedLibrary fx_library) _ _ Hr) as (r & Ht & _).
  exists r. split; [exact Ht|vm_compute; reflexivity].
Defined.

Lemma watch_covers_reads_witness :
  mon_key fx_monitor ∈ monitor_requests (lib_Name fx_library) [fx_inline; fx_monitor] ∧
  ∃ x, Entry (GetLibrary (lib_key fx_library)) x ∈ [Entry (GetLibrary (lib_key fx_library)) (Ok fx_library)].
Proof.
  assert (mon_key fx_monitor ∈ monitor_requests (lib_Name fx_library) [fx_inline; fx_monitor]) as Hin by left.
  assert (NoDup (mon_key <$> [fx_inline; fx_monitor])) as Hnd.
  { apply NoDup_cons. split; [by rewrite list_elem_of_singleton|apply NoDup_singleton]. }
  split; [exact Hin|].
  apply (proj1 (watch_covers_reads fx_library [fx_inline; fx_monitor] fx_monitor
    [Entry (GetLibrary (lib_key fx_library)) (Ok fx_library)] [fx_library]
    ltac:(right; left) Hnd eq_refl
    ltac:(exists (Ok fx_library), []; split; [reflexivity|split; reflexivity]))).
  exact Hin.
Defined.

(** Two reconciliations of one monitor, by operators with different settings. *)
Lemma monitors_never_share_children_witness :
  ∃ m1 m2, subject (fx_run fx_server fx_inline).1.1 = Some m1 ∧
    subject (fx_run fx_server fx_inline).1.1 = Some m2 ∧ mon_key m1 = mon_key m2.
Proof.
  assert (∃ x fo f a, (fx_run fx_server fx_inline).1.1 !! 5%nat = Some (Entry (Patch KConfigMap x fo f) a))
    as (x & fo & f & a & Hx%list_elem_of_lookup_2) by (do 4 eexists; vm_compute; reflexivity).
  exact (monitors_never_share_children (mkReconciler true) (mkReconciler true) _ _ _ _ _ _ KConfigMap
    x x fo fo f f a a (fx_run_runs fx_server fx_inline) (fx_run_runs fx_server fx_inline) Hx Hx eq_refl).
Defined.
