(* ===== verification/LibraryController.v ===== *)
(** [internal/controller/pgpilotmetriclibrary_controller.go]: the reconciler of
    [PgpilotMetricLibrary], which only maintains the status of a library, and
    the composition with the monitors' watch. *)
From S2P Require Import Prelude GoStd Kube Api Fixtures Prog Machinery ApiServer MonitorController.
From Stdlib Require Import ZArith.
Open Scope Z_scope.
Open Scope prog_scope.

Definition lib_set_status (s : PgpilotMetricLibraryStatus) (l : PgpilotMetricLibrary) : PgpilotMetricLibrary :=
  mkLibrary (lib_ObjectMeta l) (lib_Spec l) s.
Definition lib_Generation (l : PgpilotMetricLibrary) : Z := om_Generation (lib_ObjectMeta l).

Section Library.
Context `{M : Machinery}.

(** [client.IgnoreNotFound]. *)
Definition IgnoreNotFound (e : error) : option error := if IsNotFound e then None else Some e.

(** Lines 51 to 67: the condition, without its transition time. *)
Definition library_condition (lib : PgpilotMetricLibrary) : Condition :=
  let valid := (0 <? Z.of_nat (length (ls_Metrics (lib_Spec lib)))) in
  let status := if negb valid then ConditionFalse else ConditionTrue in
  let reason := if negb valid then "Empty" else "Valid" in
  let message := if negb valid then "Library has no metric definitions"
                 else "Library contains metric definitions" in
  mkCondition "Valid" status (lib_Generation lib) 0 reason message.

Definition ReconcileLibrary (req : NamespacedName) : prog (Result * option error) :=
  run got := call (GetLibrary req) in
  match got with
  | Err err => Ret (noRequeue, IgnoreNotFound err)
  | Ok lib =>
      run now := call Now in
      let lib := lib_set_status
        (mkLibraryStatus (lst_ObservedGeneration (lib_Status lib))
           (SetStatusCondition now (lst_Conditions (lib_Status lib)) (library_condition lib))) lib in
      let lib := lib_set_status
        (mkLibraryStatus (lib_Generation lib) (lst_Conditions (lib_Status lib))) lib in
      run err := call (UpdateLibraryStatus lib) in
      match err with
      | Some err => Ret (noRequeue, Some err)
      | None => Ret (noRequeue, None)
      end
  end.
End Library.

(** ** Properties *)
Section Properties.
Context `{M : Machinery} `{L : !MachineryLaws}.

(** C40 The library reconciler, completely: a library that is gone is not an
    error, any other failed read is returned; otherwise it sends exactly one
    write, of the library it read with only its status changed: the observed
    generation is the current one and the condition [Valid], stamped with
    that generation, is true exactly when the library defines a metric, every
    other condition being kept; the error of the write is returned, and no
    requeue is ever requested. *)
Theorem library_reconcile_spec req t o :
  runs (ReconcileLibrary req) t o →
  (∃ e, t = [Entry (GetLibrary req) (Err e)] ∧
     o = Done (noRequeue, if IsNotFound e then None else Some e)) ∨
  (∃ lib now lib' ans, t = [Entry (GetLibrary req) (Ok lib); Entry Now now; Entry (UpdateLibraryStatus lib') ans] ∧
     o = Done (noRequeue, ans) ∧
     lib_ObjectMeta lib' = lib_ObjectMeta lib ∧ lib_Spec lib' = lib_Spec lib ∧
     lst_ObservedGeneration (lib_Status lib') = lib_Generation lib ∧
     (∃ c, find_condition "Valid" (lst_Conditions (lib_Status lib')) = Some c ∧
        c_ObservedGeneration c = lib_Generation lib ∧
        (c_Status c = ConditionTrue ↔ ls_Metrics (lib_Spec lib) ≠ []) ∧
        (c_Status c = ConditionFalse ↔ ls_Metrics (lib_Spec lib) = [])) ∧
     (∀ ty, ty ≠ "Valid" →
        find_condition ty (lst_Conditions (lib_Status lib')) = find_condition ty (lst_Conditions (lib_Status lib)))).
Proof.
  intros (got & t' & -> & Hr). rewrite bind_ret_l in Hr. destruct got as [lib|e]; [right|left].
  2: { exists e. by destruct Hr as [-> ->]. }
  destruct Hr as (now & t2 & -> & ans & t3 & -> & Hr). rewrite bind_ret_l in Hr.
  assert (t3 = [] ∧ o = Done (noRequeue, ans)) as [-> ->] by (destruct ans; by destruct Hr as [-> ->]).
  exists lib, now. do 2 eexists. split_and!; [done..| |].
  - destruct (SetStatusCondition_same now (lst_Conditions (lib_Status lib)) (library_condition lib))
      as (c & Hc & _ & Hs & _ & _ & Hg).
    exists c. split; [exact Hc|]. rewrite Hg, Hs. unfold library_condition. simpl.
    destruct (ls_Metrics (lib_Spec lib)) as [|md mds]; simpl; split_and!; done.
  - intros ty Hty. simpl. by apply SetStatusCondition_other.
Qed.
End Properties.

Lemma library_reconcile_spec_witness :
  let '(t, o, _) := interp mem_serve (ReconcileLibrary (lib_key fx_library)) fx_server in
  o = Done (noRequeue, None) ∧ length t = 3%nat.
Proof.
  pose proof (interp_runs mem_serve (ReconcileLibrary (lib_key fx_library)) fx_server) as Hr.
  assert ((interp mem_serve (ReconcileLibrary (lib_key fx_library)) fx_server).1.2 = Done (noRequeue, None)) as Ho
    by (vm_compute; reflexivity).
  assert (length (interp mem_serve (ReconcileLibrary (lib_key fx_library)) fx_server).1.1 = 3%nat) as Hl
    by (vm_compute; reflexivity).
  destruct (interp mem_serve _ fx_server) as [[t o] s']. simpl in Ho, Hl.
  destruct (library_reconcile_spec (lib_key fx_library) t o Hr) as [(e & Ht & _)|(lib & now & lib' & ans & Ht & Hd & _)].
  - rewrite Ht in Hl. discriminate.
  - split; [exact Ho|exact Hl].
Defined.
