(* ===== verification/Execution.v ===== *)
(** Executing the reconcilers against an API server that behaves as
    documented: a small program logic over [interp], with one rule per
    operation of the reconciler.

    [exec p s Q F]: running [p] from the server state [s] ends with events,
    outcome and final state satisfying [Q], or the server refused a write on
    the way and they satisfy [F].  Each rule for a write has a premise for the
    case that it is refused. *)
From S2P Require Import Prelude GoStd GoTime Sha256 Kube Api Labels Metrics ConfigMap.
From S2P Require Import Deployment Service Prog Machinery MonitorController Protocol MonitorSpec ApiServer.
From Stdlib Require Import ZArith.
Open Scope Z_scope.

(** The stored object carries what was applied, controlled by the monitor. *)
Definition realised (m : PgpilotMonitor) {k : Kind} (o o' : obj_of k) : Prop :=
  meta_key (obj_meta o') = meta_key (obj_meta o) ∧
  om_Labels (obj_meta o) ⊆ om_Labels (obj_meta o') ∧
  om_Annotations (obj_meta o) ⊆ om_Annotations (obj_meta o') ∧
  fields_applied k o o' ∧
  ∃ ref, ref ∈ om_OwnerReferences (obj_meta o') ∧ or_Controller ref = true ∧
    or_Kind ref = "PgpilotMonitor" ∧ or_Name ref = mon_Name m ∧ or_UID ref = om_UID (mon_ObjectMeta m).

(** The credentials source of the monitor is usable. *)
Definition credentials_ready (c : Cluster) (m : PgpilotMonitor) : Prop :=
  has_inline (spec_Database (mon_Spec m)) = true ∨
  ∃ ref, db_CredentialsSecret (spec_Database (mon_Spec m)) = Some ref ∧
    is_Some (cl_secrets c !! mkNN (mon_Namespace m) (csr_Name ref)).

(** The status differs in its conditions only. *)
Definition conditions_only (m m' : PgpilotMonitor) : Prop :=
  same_object m m' ∧ mon_Status m' = st_set_Conditions (st_Conditions (mon_Status m')) (mon_Status m).

Section Exec.
Context {S : Type} `{AS : ApiServer S}.

(** Postconditions: of the events, the outcome and the final state. *)
Definition post (A : Type) : Type := list (string * string) → outcome A → S → Prop.

(** The entry is a write of the monitor or of a child that was refused. *)
Definition refused (en : entry) : bool :=
  match en with
  | @Entry _ e x =>
      match e in Eff X return X → bool with
      | UpdateMonitor _ | Patch _ _ _ _ => λ x, negb (answer_ok x)
      | UpdateMonitorStatus _ | UpdateLibraryStatus _ => λ x, match x with Some _ => true | None => false end
      | _ => λ _, false
      end x
  end.
Definition some_refused (t : trace) : Prop := Exists (λ en, refused en = true) t.

Definition after {A} (p : prog A) (s : S) (F : post A) : Prop :=
  let '(t, o, s') := interp serve p s in F (events t) o s'.

Definition exec {A} (p : prog A) (s : S) (Q F : post A) : Prop :=
  let '(t, o, s') := interp serve p s in Q (events t) o s' ∨ (some_refused t ∧ F (events t) o s').

Definition event_list {X} (e : Eff X) : list (string * string) :=
  match e with RecordEvent _ ty re _ => [(ty, re)] | _ => [] end.

Lemma after_ret {A} (a : A) s (F : post A) : F [] (Done a) s → after (Ret a) s F.
Proof. done. Qed.

Lemma exec_ret {A} (a : A) s (Q F : post A) : Q [] (Done a) s → exec (Ret a) s Q F.
Proof. by left. Qed.

(** Sequencing: [f] goes on from what [p] leaves, refused or not. *)
Lemma exec_bind {A B} (p : prog A) (f : A → prog B) s (Q F : post B) :
  exec p s
    (λ ev o s1, match o with
       | Done a => exec (f a) s1 (λ ev', Q (ev ++ ev')) (λ ev', F (ev ++ ev'))
       | Panicked msg => Q ev (Panicked msg) s1
       end)
    (λ ev o s1, match o with
       | Done a => after (f a) s1 (λ ev', F (ev ++ ev'))
       | Panicked msg => F ev (Panicked msg) s1
       end) →
  exec (bind p f) s Q F.
Proof.
  unfold exec, after, some_refused. rewrite interp_bind. destruct (interp serve p s) as [[t o] s1].
  destruct o as [a|msg]; [|done]. destruct (interp serve (f a) s1) as [[t' o'] s2].
  rewrite events_app, Exists_app. tauto.
Qed.

Lemma exec_call {X B} (e : Eff X) (f : X → prog B) s (Q F : post B) :
  exec (f (serve X e s).1) (serve X e s).2 (λ ev, Q (event_list e ++ ev)) (λ ev, F (event_list e ++ ev)) →
  exec (bind (call e) f) s Q F.
Proof.
  intros Hf. apply exec_bind. unfold exec at 1, call. simpl. destruct (serve X e s) as [x s1]. simpl in *.
  left. by destruct e.
Qed.

(** A write that is refused. *)
Lemma exec_call_refused {X B} (e : Eff X) (f : X → prog B) s (Q F : post B) :
  event_list e = [] → refused (Entry e (serve X e s).1) = true →
  after (f (serve X e s).1) (serve X e s).2 F → exec (bind (call e) f) s Q F.
Proof.
  intros He Hr Hf. unfold exec. rewrite interp_bind. unfold call, after in *. simpl.
  destruct (serve X e s) as [x s1]. simpl in *. destruct (interp serve (f x) s1) as [[t o] s2].
  right. simpl. split; [by left|]. by destruct e.
Qed.

Context `{AL : !ApiServerLaws S} `{Y : Yaml} `{E : Embedded} `{M : Machinery} `{L : !MachineryLaws}.

(** A call that stores nothing and records no event. *)
Lemma exec_quiet {X B} (e : Eff X) (f : X → prog B) s (Q F : post B) :
  quiet e = true → event_list e = [] →
  (∀ s', store s' = store s → exec (f (serve X e s).1) s' Q F) → exec (bind (call e) f) s Q F.
Proof. intros Hq He Hf. apply exec_call. rewrite He. apply Hf. by apply serve_quiet. Qed.

Lemma exec_event {B} m ty re ms (f : () → prog B) s (Q F : post B) :
  (∀ s', store s' = store s → exec (f tt) s' (λ ev, Q ((ty, re) :: ev)) (λ ev, F ((ty, re) :: ev))) →
  exec (bind (event m ty re ms) f) s Q F.
Proof.
  intros Hf. apply exec_call. destruct (serve _ _ s).1 eqn:Hx. apply Hf. by apply serve_quiet.
Qed.

Lemma exec_condition {B} ty st re ms m (f : PgpilotMonitor → prog B) s (Q F : post B) :
  (∀ now s', store s' = store s → exec (f (with_condition now ty st re ms m)) s' Q F) →
  exec (bind (setCondition ty st re ms m) f) s Q F.
Proof.
  intros Hf. apply exec_bind. apply exec_quiet; [done..|]. intros s' Hs. apply exec_ret.
  apply (Hf _ s' Hs).
Qed.

Lemma exec_validate {B} m (f : PgpilotMonitor * Result * bool → prog B) s (Q F : post B) :
  credentials_ready (store s) m →
  (∀ m' s', store s' = store s → conditions_only m m' →
     (∃ re, condition_is "DatabaseReachable" ConditionTrue re (mon_Status m')) →
     exec (f (m', noRequeue, true)) s' Q F) →
  exec (bind (validateCredentials m) f) s Q F.
Proof.
  intros Hc Hf. apply exec_bind. unfold validateCredentials. destruct (has_inline _) eqn:Hi.
  - apply exec_condition. intros now s' Hs. apply exec_ret. apply Hf; [done|by split|].
    eexists. apply with_condition_same.
  - destruct Hc as [?|(ref & Hr & sec & Hsec)]; [congruence|]. rewrite Hr.
    apply exec_quiet; [done..|]. intros s1 Hs1. rewrite (serve_GetSecret _ _ _ Hsec).
    apply exec_condition. intros now s' Hs. apply exec_ret. apply Hf; [congruence|by split|].
    eexists. apply with_condition_same.
Qed.

Lemma exec_resolve {B} ns refs libs found (f : result (list PgpilotMetricLibrary) → prog B) s (Q F : post B) :
  map (λ r, cl_libraries (store s) !! mkNN ns (lr_Name r)) refs = map Some found →
  (∀ s', store s' = store s → exec (f (Ok (libs ++ found))) s' Q F) →
  exec (bind (resolve_refs ns refs libs) f) s Q F.
Proof.
  intros Hl Hf. apply exec_bind. revert libs found s Hl Hf. induction refs as [|ref refs IH];
    intros libs [|lib found] s Hl Hf; simplify_eq/=.
  - apply exec_ret. rewrite app_nil_r in Hf. by apply Hf.
  - apply exec_quiet; [done..|]. intros s1 Hs1. rewrite (serve_GetLibrary _ _ lib) by done.
    apply (IH _ found).
    + by rewrite Hs1.
    + intros s' Hs. rewrite <-app_assoc. apply Hf. congruence.
Qed.

Lemma exec_apply_child {k B} m what (o : obj_of k) (f : result (obj_of k) → prog B) s (Q F : post B) :
  om_Namespace (obj_meta o) = mon_Namespace m → om_OwnerReferences (obj_meta o) = [] →
  (∀ o' s', store s' = put_child k o' (store s) → realised m o o' → status_kept (store s) k o' →
     exec (f (Ok o')) s' Q F) →
  (∀ e s', store s' = store s → after (f (Err e)) s' F) →
  exec (bind (apply_child m what o) f) s Q F.
Proof.
  intros Hns Ho Hf Hr. apply exec_bind. unfold apply_child.
  destruct (SetControllerReference_fresh (mon_ObjectMeta m) (obj_meta o) Ho) as [om Hom]; [done|].
  rewrite Hom. apply SetControllerReference_spec in Hom as (os & ref & -> & Hin & Hc & Hn & Hu & Hk).
  unfold serverSideApply. rewrite !obj_set_meta_twice, !obj_meta_set.
  set (om := SetResourceVersion "" _).
  pose proof (serve_Patch k (obj_set_meta om o) fieldOwner true s) as Hp.
  destruct (serve _ (Patch k (obj_set_meta om o) fieldOwner true) s) as [x s'] eqn:Hs.
  destruct Hp as [[[e ->] Hst]|(o' & -> & Ha & Hk' & Hst)].
  - apply exec_call_refused; [done|by rewrite Hs|]. rewrite Hs. apply after_ret. by apply Hr.
  - apply exec_call. rewrite Hs. apply exec_ret. apply Hf; [done| |done]. destruct Ha as (H1 & H2 & H3 & H4 & H5).
    rewrite !obj_meta_set in *. split_and!; [done..| |].
    + by destruct k.
    + exists ref. split_and!; try done. by apply H4.
Qed.

(** The stored monitor, as written by a report. *)
Definition with_status_of (rv : string) (m m0 : PgpilotMonitor) : PgpilotMonitor :=
  mkMonitor (SetResourceVersion rv (mon_ObjectMeta m0)) (mon_Spec m0) (mon_Status m).

(** Reporting, whatever is refused on the way: written once, or not at all. *)
Lemma interp_report m m0 n last s :
  cl_monitors (store s) !! mon_key m = Some m0 → mon_key m0 = mon_key m →
  let '(t, o, s') := interp serve (retry_loop IsConflict n last (patchStatus_once m)) s in
  events t = [] ∧
  ((o = Done None ∧ ∃ rv, store s' = put_monitor (with_status_of rv m m0) (store s)) ∨
   (o = Done last ∧ t = [] ∧ n = O ∧ store s' = store s) ∨
   (∃ e, o = Done (Some e) ∧ some_refused t ∧ store s' = store s)).
Proof.
  revert last s. induction n as [|n IH]; intros last s Hm Hk; [simpl; split; [done|by right; left]|].
  cbn [retry_loop]. rewrite interp_bind. unfold patchStatus_once at 1. rewrite interp_bind. unfold call at 1. cbn [interp].
  pose proof (proj2 (serve_GetMonitor (mon_key m) s m0) Hm) as Hg.
  pose proof (serve_quiet _ (GetMonitor (mon_key m)) s eq_refl) as Hq.
  destruct (serve _ (GetMonitor (mon_key m)) s) as [x s1]. simpl in Hg, Hq. subst x. cbn [interp].
  unfold call. cbn [interp].
  pose proof (serve_UpdateMonitorStatus (set_status (mon_Status m) m0) s1) as Hu.
  change (mon_key (set_status (mon_Status m) m0)) with (mon_key m0) in Hu. rewrite Hq, Hk, Hm in Hu.
  destruct (serve _ (UpdateMonitorStatus _) s1) as [x s2].
  destruct Hu as [[[e ->] Hs2]|(m1 & rv & [= <-] & -> & Hs2)].
  - destruct (IsConflict e) eqn:He; cbn [interp].
    + specialize (IH (Some e) s2). rewrite Hs2 in IH. specialize (IH Hm Hk).
      destruct (interp serve (retry_loop _ n _ _) s2) as [[t o] s3]. destruct IH as [Hev IH]. split; [exact Hev|].
      assert (∀ t', some_refused ((Entry (GetMonitor (mon_key m)) (Ok m0) ::
        [Entry (UpdateMonitorStatus (set_status (mon_Status m) m0)) (Some e)]) ++ t')) as Hr
        by (intros t'; right; by left).
      destruct IH as [[-> [rv Hs3]]|[(-> & _ & _ & Hs3)|(e' & -> & _ & Hs3)]].
      * left. split; [done|]. by exists rv.
      * right; right. exists e. split_and!; [done|apply Hr|done].
      * right; right. exists e'. split_and!; [done|apply Hr|done].
    + split; [done|]. right; right. exists e. split_and!; [done|right; by left|done].
  - split; [done|]. left. split; [done|]. by exists rv.
Qed.

Lemma exec_report {B} m m0 (f : option error → prog B) s (Q F : post B) :
  cl_monitors (store s) !! mon_key m = Some m0 → mon_key m0 = mon_key m →
  (∀ rv s', store s' = put_monitor (with_status_of rv m m0) (store s) → exec (f None) s' Q F) →
  (∀ e s', store s' = store s → after (f (Some e)) s' F) →
  exec (bind (patchStatus m) f) s Q F.
Proof.
  intros Hm Hk Hf Hr. apply exec_bind. unfold patchStatus. rewrite RetryOnConflict_spec. unfold exec.
  pose proof (interp_report m m0 DefaultRetrySteps None s Hm Hk) as Hi.
  destruct (interp serve (retry_loop _ _ _ _) s) as [[t o] s'].
  destruct Hi as [-> [[-> [rv Hs]]|[(_ & _ & ? & _)|(e & -> & Ht & Hs)]]].
  - left. by eapply Hf.
  - done.
  - right. split; [done|]. by apply Hr.
Qed.
End Exec.
