(* ===== verification/Convergence.v ===== *)
(** Total correctness of one reconciliation against an API server that
    behaves as documented ([ApiServer]): from any state in which the
    prerequisites of a live monitor hold, whatever its children look like,
    [Reconcile] returns, and the children and the status are the desired
    ones, or else the server refused a write, the error of which is returned
    with nothing but desired children stored. *)
From S2P Require Import Prelude GoStd GoTime Sha256 Kube Api Labels Metrics ConfigMap.
From S2P Require Import Deployment Service Prog Machinery MonitorController Protocol MonitorSpec.
From S2P Require Import ApiServer Execution Fixtures.
From Stdlib Require Import ZArith.
Open Scope Z_scope.

(** The prerequisites of a reconciliation of [m] with the libraries [libs]. *)
Record reconcilable `{Yaml} `{Embedded} (c : Cluster) (m : PgpilotMonitor)
    (libs : list PgpilotMetricLibrary) (cm : ConfigMap) (h : string) : Prop := {
  rc_stored : cl_monitors c !! mon_key m = Some m;
  rc_live : om_DeletionTimestamp (mon_ObjectMeta m) = None;
  rc_credentials : credentials_ready c m;
  rc_libraries :
    map (λ r, cl_libraries c !! mkNN (mon_Namespace m) (lr_Name r)) (ms_FromLibraries (spec_Metrics (mon_Spec m)))
      = map Some libs;
  rc_versions : Forall (λ md, versions_distinct (md_SQLs md)) (all_metrics (spec_Metrics (mon_Spec m)) libs);
  rc_config : BuildConfigMap ascending m (MergeMetrics ascending (spec_Metrics (mon_Spec m)) libs) = Ok (cm, h)
}.

(** Some stored object carries the desired one. *)
Definition holds (c : Cluster) (m : PgpilotMonitor) {k : Kind} (o : obj_of k) : Prop :=
  ∃ o', children c k !! meta_key (obj_meta o) = Some o' ∧ realised m o o'.

(** All desired children are in place. *)
Definition children_in_place (scrape : bool) (c : Cluster) (m : PgpilotMonitor)
    (merged : MergedMetrics) (cm : ConfigMap) (h : string) : Prop :=
  holds (k := KConfigMap) c m cm ∧
  (∃ dep, BuildDeployment m merged h = Done dep ∧ holds (k := KDeployment) c m dep) ∧
  holds (k := KService) c m (BuildService m) ∧
  (scrape = true → holds (k := KServiceMonitor) c m (BuildServiceMonitor m)).

(** The status reports the outcome of the reconciliation of [m]. *)
Definition status_reported (c : Cluster) (m : PgpilotMonitor) (h : string) (ready : bool) : Prop :=
  ∃ m', cl_monitors c !! mon_key m = Some m' ∧ mon_key m' = mon_key m ∧ mon_Spec m' = mon_Spec m ∧
    finalizerName ∈ om_Finalizers (mon_ObjectMeta m') ∧
    om_UID (mon_ObjectMeta m') = om_UID (mon_ObjectMeta m) ∧ mon_Generation m' = mon_Generation m ∧
    om_DeletionTimestamp (mon_ObjectMeta m') = None ∧
    st_Ready (mon_Status m') = ready ∧ st_ConfigHash (mon_Status m') = h ∧
    st_ObservedGeneration (mon_Status m') = mon_Generation m ∧
    condition_is "Ready" (if ready then ConditionTrue else ConditionFalse)
      (if ready then "PodRunning" else "PodNotReady") (mon_Status m').

(** Nothing else changed. *)
Definition elsewhere_unchanged (c c' : Cluster) (m : PgpilotMonitor) : Prop :=
  cl_libraries c' = cl_libraries c ∧ cl_secrets c' = cl_secrets c ∧
  (∀ k, k ≠ mon_key m → cl_monitors c' !! k = cl_monitors c !! k) ∧
  (∀ k key, key ≠ child_key (mon_key m) k → children c' k !! key = children c k !! key).

(** The monitor's Deployment has a ready replica. *)
Definition ready_of (c : Cluster) (m : PgpilotMonitor) : bool :=
  0 <? ready_at c (child_key (mon_key m) KDeployment).

(** The outcome of a successful reconciliation of [m] that found the cluster
    [c] and left [c']. *)
Definition settled `{Yaml} `{Embedded} (scrape : bool) (c c' : Cluster) (m : PgpilotMonitor)
    (merged : MergedMetrics) (cm : ConfigMap) (h : string) (ready : bool) : Prop :=
  children_in_place scrape c' m merged cm h ∧ status_reported c' m h ready ∧ elsewhere_unchanged c c' m ∧
  ready_of c' m = ready_of c m.

(** The events of a run on [m]. *)
Definition run_events (m : PgpilotMonitor) (h : string) (ready : bool) : list (string * string) :=
  (if bool_decide (st_ConfigHash (mon_Status m) = h) then [] else [(EventTypeNormal, "ConfigMapUpdated")])
    ++ transition (st_Ready (mon_Status m)) ready.

(** The child of each kind the monitor asks for, if it asks for one. *)
Definition desired `{Yaml} `{Embedded} (scrape : bool) (m : PgpilotMonitor) (merged : MergedMetrics)
    (cm : ConfigMap) (h : string) (k : Kind) : option (obj_of k) :=
  match k with
  | KConfigMap => Some cm
  | KDeployment => match BuildDeployment m merged h with Done dep => Some dep | Panicked _ => None end
  | KService => Some (BuildService m)
  | KServiceMonitor => if scrape then Some (BuildServiceMonitor m) else None
  end.

(** The monitor is as it was, but for finalizers and version. *)
Definition status_untouched (c : Cluster) (m : PgpilotMonitor) : Prop :=
  ∃ m', cl_monitors c !! mon_key m = Some m' ∧ mon_Spec m' = mon_Spec m ∧ mon_Status m' = mon_Status m.

(** What a run that found [c] leaves when a write was refused: the status as it
    was, every child of [m] as it was or as desired, all else unchanged. *)
Definition interrupted `{Yaml} `{Embedded} (scrape : bool) (c c' : Cluster) (m : PgpilotMonitor)
    (merged : MergedMetrics) (cm : ConfigMap) (h : string) : Prop :=
  elsewhere_unchanged c c' m ∧ status_untouched c' m ∧
  ∀ k (o : obj_of k), desired scrape m merged cm h k = Some o →
    children c' k !! child_key (mon_key m) k = children c k !! child_key (mon_key m) k ∨ holds c' m o.

(** ** The builders read name, namespace and spec only *)
Section Inputs.
Context `{Y : Yaml} `{E : Embedded}.

Definition same_inputs (m m' : PgpilotMonitor) : Prop := mon_key m' = mon_key m ∧ mon_Spec m' = mon_Spec m.

Lemma same_inputs_names m m' : same_inputs m m' → mon_Name m' = mon_Name m ∧ mon_Namespace m' = mon_Namespace m.
Proof. intros [[= ? ?] _]. by split. Qed.

Lemma BuildConfigMap_inputs o m m' merged : same_inputs m m' → BuildConfigMap o m' merged = BuildConfigMap o m merged.
Proof.
  intros Hi. destruct (same_inputs_names _ _ Hi) as [Hn Hns], Hi as [_ Hs].
  unfold BuildConfigMap, configmap_data, renderSources, sources_entry. by rewrite Hn, Hns, Hs.
Qed.

Lemma BuildDeployment_inputs m m' merged h : same_inputs m m' → BuildDeployment m' merged h = BuildDeployment m merged h.
Proof.
  intros Hi. destruct (same_inputs_names _ _ Hi) as [Hn Hns], Hi as [_ Hs].
  unfold BuildDeployment, buildEnvVars, pgwatchContainer, prometheusPort, containerImage, buildArgs.
  by rewrite Hn, Hns, Hs.
Qed.

Lemma BuildService_inputs m m' : same_inputs m m' →
  BuildService m' = BuildService m ∧ BuildServiceMonitor m' = BuildServiceMonitor m.
Proof.
  intros Hi. destruct (same_inputs_names _ _ Hi) as [Hn Hns], Hi as [_ Hs].
  unfold BuildService, BuildServiceMonitor, prometheusPort. by rewrite Hn, Hns, Hs.
Qed.
End Inputs.

(** ** Children stored one after the other

    [advance D m c c']: [c'] is [c] with children of [m] stored, each carrying
    an object of [D]. *)
Section Advance.
Context (D : ∀ k, option (obj_of k)) (m : PgpilotMonitor).

Inductive advance (c : Cluster) : Cluster → Prop :=
  | advance_refl : advance c c
  | advance_put c1 k (o o' : obj_of k) :
      advance c c1 → D k = Some o → realised m o o' → advance c (put_child k o' c1).

Lemma advance_monitors c c' : advance c c' → cl_monitors c' = cl_monitors c.
Proof. induction 1; by autorewrite with pgpilot_rw. Qed.

Lemma realised_key k (o o' : obj_of k) : realised m o o' → meta_key (obj_meta o') = meta_key (obj_meta o).
Proof. by intros (? & _). Qed.

Context (HD : ∀ k o, D k = Some o → meta_key (obj_meta o) = child_key (mon_key m) k).

Lemma advance_elsewhere c c' : advance c c' → elsewhere_unchanged c c' m.
Proof.
  induction 1 as [|c1 k o o' _ (H1 & H2 & H3 & H4) Ho Hr]; [done|].
  unfold elsewhere_unchanged. autorewrite with pgpilot_rw. split_and!; [done..|].
  intros k' key Hkey. rewrite children_put_frame; [by apply H4|]. intros -> ->. apply Hkey.
  by rewrite (realised_key _ _ _ Hr), (HD _ _ Ho).
Qed.

(** Every child is as it was or as [D] says. *)
Lemma advance_children c c' k (o : obj_of k) :
  advance c c' → D k = Some o →
  children c' k !! child_key (mon_key m) k = children c k !! child_key (mon_key m) k ∨ holds c' m o.
Proof.
  intros Hc Ho. induction Hc as [|c1 k1 o1 o' Hc IH Ho1 Hr]; [by left|].
  destruct (decide (k = k1)) as [->|Hne].
  - assert (o1 = o) as -> by congruence. right. exists o'. rewrite children_put_same.
    rewrite <-(realised_key _ _ _ Hr), lookup_insert_eq. done.
  - unfold holds. rewrite children_put_other by done. done.
Qed.
End Advance.

Lemma advance_owner D m m' c c' :
  mon_Name m' = mon_Name m → om_UID (mon_ObjectMeta m') = om_UID (mon_ObjectMeta m) →
  advance D m' c c' → advance D m c c'.
Proof.
  intros Hn Hu. induction 1 as [|c1 k o o' _ IH Ho Hr]; [constructor|].
  eapply advance_put; [done..|]. unfold realised in *. by rewrite <-Hn, <-Hu.
Qed.

Lemma advance_trans D m c c1 c2 : advance D m c c1 → advance D m c1 c2 → advance D m c c2.
Proof. intros H1. induction 1; [done|]. by eapply advance_put. Qed.

(** ** The steps, executed *)
Section Steps.
Context {S : Type} `{AS : ApiServer S} `{AL : !ApiServerLaws S}.
Context `{Y : Yaml} `{E : Embedded} `{M : Machinery} `{L : !MachineryLaws}.
Abbreviation postcondition := (@post S (Result * option error)%type).

Lemma exec_observe m m0 d dep s (Q F : postcondition) :
  cl_deployments (store s) !! dep = Some d →
  cl_monitors (store s) !! mon_key m = Some m0 → mon_key m0 = mon_key m →
  (∀ rv m' s', store s' = put_monitor (with_status_of rv m' m0) (store s) →
     observation m (0 <? d_ReadyReplicas d) (mon_Status m') →
     Q (transition (st_Ready (mon_Status m)) (0 <? d_ReadyReplicas d))
       (Done (if 0 <? d_ReadyReplicas d then noRequeue else requeue_after 15, None)) s') →
  (∀ e s', store s' = store s →
     F (transition (st_Ready (mon_Status m)) (0 <? d_ReadyReplicas d)) (Done (noRequeue, Some e)) s') →
  exec (observe_status m dep) s Q F.
Proof.
  intros Hd Hm Hk HQ HF. unfold observe_status. apply exec_quiet; [done..|]. intros s1 Hs1.
  rewrite (serve_GetDeployment _ _ d) by done. cbv beta iota zeta.
  generalize dependent (0 <? d_ReadyReplicas d). intros ready HQ HF.
  apply exec_quiet; [done..|]. intros s2 Hs2. generalize (serve Time Now s1).1 as now. intros now.
  set (m1 := on_status (st_set_LastReconciled now) _).
  assert (∀ m2 s3 ev, store s3 = store s → observation m ready (mon_Status m2) →
    mon_ObjectMeta m2 = mon_ObjectMeta m → ev = transition (st_Ready (mon_Status m)) ready →
    exec (run pods := call (ListPods (mon_Namespace m2) (InstanceSelector (mon_Name m2))) in
      let monitor := match pods with
        | Ok (pod :: _) => on_status (st_set_PodName (om_Name (pod_ObjectMeta pod))) m2
        | _ => m2 end in
      run err := patchStatus monitor in
      match err with
      | Some err => Ret (noRequeue, Some (ErrWrap "update status" err))
      | None => if negb ready then Ret (requeue_after 15, None) else Ret (noRequeue, None)
      end)%prog s3 (λ ev', Q (ev ++ ev')) (λ ev', F (ev ++ ev'))) as Htail.
  { intros m2 s3 ev Hs3 Ho Hmeta ->. apply exec_quiet; [done..|]. intros s4 Hs4.
    set (m3 := match (serve _ (ListPods _ _) s3).1 with Ok (pod :: _) => _ | _ => m2 end).
    assert (observation m ready (mon_Status m3)) as Ho3 by (unfold m3; by repeat case_match).
    assert (mon_key m3 = mon_key m) as Hk3
      by (unfold m3; repeat case_match; unfold mon_key; simpl; by rewrite Hmeta).
    apply (exec_report m3 m0); [congruence|congruence| |].
    - intros rv s5 Hs5. destruct ready; apply exec_ret; rewrite app_nil_r; apply (HQ rv m3); congruence || done.
    - intros e s5 Hs5. apply after_ret. rewrite app_nil_r. apply HF. congruence. }
  apply exec_bind. destruct ready; apply exec_condition; intros n2 s3 Hs3.
  - destruct (st_Ready (mon_Status m)) eqn:Hw; cbn [negb]; rewrite ?bind_ret_l.
    + apply exec_ret. apply Htail; [congruence|exact (observing_observation now n2 _ _ m)|done|done].
    + apply exec_event. intros s4 Hs4. apply exec_ret. apply Htail; [congruence|exact (observing_observation now n2 _ _ m)|done|done].
  - destruct (st_Ready (mon_Status m)) eqn:Hw; cbn [negb]; rewrite ?bind_ret_l.
    + apply exec_event. intros s4 Hs4. apply exec_ret. apply Htail; [congruence|exact (observing_observation now n2 _ _ m)|done|done].
    + apply exec_ret. apply Htail; [congruence|exact (observing_observation now n2 _ _ m)|done|done].
Qed.

Definition verdict_of (ready : bool) : outcome (Result * option error) :=
  Done (if ready then noRequeue else requeue_after 15, None).

(** The store after the ServiceMonitor, when there is one. *)
Definition put_scrape (scrape : bool) (sm : obj_of KServiceMonitor) (c : Cluster) : Cluster :=
  if scrape then put_child KServiceMonitor sm c else c.

Lemma holds_intro c m k (o o' : obj_of k) :
  children c k !! meta_key (obj_meta o') = Some o' → realised m o o' → holds c m o.
Proof. intros Hl Hr. exists o'. by rewrite <-(realised_key _ _ _ _ Hr). Qed.

Lemma exec_workload r m m0 dep merged h (D : ∀ k, option (obj_of k)) s (Q F : postcondition) :
  BuildDeployment m merged h = Done dep →
  cl_monitors (store s) !! mon_key m = Some m0 → mon_key m0 = mon_key m →
  D KDeployment = Some dep → D KService = Some (BuildService m) →
  (ServiceMonitorEnabled r = true → D KServiceMonitor = Some (BuildServiceMonitor m)) →
  (∀ dep' svc' sm' rv m' s',
     store s' = put_monitor (with_status_of rv m' m0)
       (put_scrape (ServiceMonitorEnabled r) sm' (put_child KService svc' (put_child KDeployment dep' (store s)))) →
     realised (k := KDeployment) m dep dep' →
     d_ReadyReplicas dep' = ready_at (store s) (child_key (mon_key m) KDeployment) →
     realised (k := KService) m (BuildService m) svc' →
     (ServiceMonitorEnabled r = true → realised (k := KServiceMonitor) m (BuildServiceMonitor m) sm') →
     observation m (ready_of (store s) m) (mon_Status m') →
     Q (transition (st_Ready (mon_Status m)) (ready_of (store s) m)) (verdict_of (ready_of (store s) m)) s') →
  (∀ ev e s', ev `prefix_of` transition (st_Ready (mon_Status m)) (ready_of (store s) m) →
     advance D m (store s) (store s') → F ev (Done (noRequeue, Some e)) s') →
  exec (apply_workload r m merged h) s Q F.
Proof.
  intros Hdep Hm Hk HD1 HD2 HD3 HQ HF. unfold apply_workload. rewrite Hdep. cbn [lift]. rewrite bind_ret_l.
  apply BuildDeployment_Done in Hdep as (env & _ & Hmeta & Hds & _).
  assert (meta_key (d_ObjectMeta dep) = child_key (mon_key m) KDeployment) as Hdk by by rewrite Hmeta.
  assert (∀ e s', advance D m (store s) (store s') → after (Ret (noRequeue, Some e)) s' F) as Herr.
  { intros e s' Ha. apply after_ret. apply HF; [apply prefix_nil|done]. }
  apply exec_apply_child; [by simpl; rewrite Hmeta..| |].
  2: { intros e s1 Hs1. apply Herr. rewrite Hs1. constructor. }
  intros dep' s1 Hs1 Hrd Hst. cbv iota.
  assert (advance D m (store s) (store s1)) as Ha1
    by (rewrite Hs1; apply (advance_put _ _ _ _ KDeployment dep); [constructor|done..]).
  apply exec_apply_child; [done|done| |].
  2: { intros e s2 Hs2. apply Herr. by rewrite Hs2. }
  intros svc' s2 Hs2 Hrs _. cbv iota.
  assert (advance D m (store s) (store s2)) as Ha2
    by (rewrite Hs2; by apply (advance_put _ _ _ _ KService (BuildService m))).
  pose proof (realised_key _ _ _ _ Hrd) as Hkd. simpl in Hkd.
  assert (d_ReadyReplicas dep' = ready_at (store s) (child_key (mon_key m) KDeployment)) as Hrep.
  { unfold status_kept in Hst. by rewrite Hst, Hkd, Hdk. }
  assert (∀ sm' s3, store s3 = put_scrape (ServiceMonitorEnabled r) sm' (store s2) →
    (ServiceMonitorEnabled r = true → realised (k := KServiceMonitor) m (BuildServiceMonitor m) sm') →
    exec (observe_status m (meta_key (d_ObjectMeta dep'))) s3 Q F) as Hobs.
  { intros sm' s3 Hs3 Hrm.
    assert (cl_deployments (store s3) !! meta_key (d_ObjectMeta dep') = Some dep') as Hlk.
    { rewrite Hs3, Hs2, Hs1. unfold put_scrape. destruct (ServiceMonitorEnabled r); apply lookup_insert_eq. }
    assert (cl_monitors (store s3) !! mon_key m = Some m0) as Hm3.
    { rewrite Hs3, Hs2, Hs1. unfold put_scrape. by destruct (ServiceMonitorEnabled r). }
    apply (exec_observe m m0 dep'); [done..| |].
    - intros rv m' s' Hs' Ho. rewrite Hrep in Ho |- *.
      apply (HQ dep' svc' sm' rv m'); [by rewrite Hs', Hs3, Hs2, Hs1|done..].
    - intros e s' Hs'. rewrite Hrep. apply HF; [done|]. rewrite Hs', Hs3. unfold put_scrape.
      destruct (ServiceMonitorEnabled r); [|done].
      apply (advance_put _ _ _ _ KServiceMonitor (BuildServiceMonitor m)); auto. }
  destruct (ServiceMonitorEnabled r).
  - apply exec_apply_child; [done|done| |].
    + intros sm' s3 Hs3 Hrm _. by apply (Hobs sm').
    + intros e s3 Hs3. apply Herr. by rewrite Hs3.
  - by apply (Hobs (BuildServiceMonitor m)).
Qed.

Lemma realised_owner m m' k (o o' : obj_of k) :
  mon_ObjectMeta m' = mon_ObjectMeta m → realised m' o o' → realised m o o'.
Proof. unfold realised, mon_Name. by intros ->. Qed.

Lemma slice_config o m merged cm h :
  BuildConfigMap o m merged = Ok (cm, h) → ∃ short, slice_to 12 h = Done short.
Proof. intros (data & _ & -> & _)%BuildConfigMap_Ok. unfold slice_to. rewrite length_contentHash. by eexists. Qed.

Lemma exec_config r m m0 libs cm h dep (D : ∀ k, option (obj_of k)) s (Q F : postcondition) :
  let merged := MergeMetrics ascending (spec_Metrics (mon_Spec m)) libs in
  Forall (λ md, versions_distinct (md_SQLs md)) (all_metrics (spec_Metrics (mon_Spec m)) libs) →
  BuildConfigMap ascending m merged = Ok (cm, h) →
  BuildDeployment m merged h = Done dep →
  cl_monitors (store s) !! mon_key m = Some m0 → mon_key m0 = mon_key m →
  D KConfigMap = Some cm → D KDeployment = Some dep → D KService = Some (BuildService m) →
  (ServiceMonitorEnabled r = true → D KServiceMonitor = Some (BuildServiceMonitor m)) →
  (∀ cm' dep' svc' sm' rv m' s',
     store s' = put_monitor (with_status_of rv m' m0) (put_scrape (ServiceMonitorEnabled r) sm'
       (put_child KService svc' (put_child KDeployment dep' (put_child KConfigMap cm' (store s))))) →
     realised (k := KConfigMap) m cm cm' → realised (k := KDeployment) m dep dep' →
     d_ReadyReplicas dep' = ready_at (store s) (child_key (mon_key m) KDeployment) →
     realised (k := KService) m (BuildService m) svc' →
     (ServiceMonitorEnabled r = true → realised (k := KServiceMonitor) m (BuildServiceMonitor m) sm') →
     observation (on_status (st_set_ConfigHash h) m) (ready_of (store s) m) (mon_Status m') →
     Q (run_events m h (ready_of (store s) m)) (verdict_of (ready_of (store s) m)) s') →
  (∀ ev e s', ev `prefix_of` run_events m h (ready_of (store s) m) →
     advance D m (store s) (store s') → F ev (Done (noRequeue, Some e)) s') →
  exec (apply_config r m libs) s Q F.
Proof.
  intros merged Hv Hcm Hdep Hm Hk HD1 HD2 HD3 HD4 HQ HF. unfold apply_config.
  apply exec_quiet; [done..|]. intros s1 Hs1. apply exec_quiet; [done..|]. intros s2 Hs2.
  rewrite (MergeMetrics_order _ ascending) by done. fold merged.
  rewrite (BuildConfigMap_order _ ascending), Hcm. destruct (slice_config _ _ _ _ _ Hcm) as [short ->].
  apply BuildConfigMap_Ok in Hcm as (data & _ & _ & _ & Hmeta).
  assert (store s2 = store s) as Hs by congruence.
  apply exec_apply_child; [by simpl; rewrite Hmeta..| |].
  2: { intros e s3 Hs3. apply after_ret. apply HF; [apply prefix_nil|]. rewrite Hs3, Hs. constructor. }
  intros cm' s3 Hs3 Hrc _. cbv iota beta zeta. cbn [lift]. rewrite bind_ret_l. rewrite Hs in Hs3.
  assert (advance D m (store s) (store s3)) as Ha
    by (rewrite Hs3; apply (advance_put _ _ _ _ KConfigMap cm); [constructor|done..]).
  apply exec_condition. intros now s4 Hs4. set (m1 := with_condition now _ _ _ _ m).
  assert (∀ m2 s5 ev, store s5 = store s3 → mon_ObjectMeta m2 = mon_ObjectMeta m →
    mon_Spec m2 = mon_Spec m → st_ConfigHash (mon_Status m2) = h → st_Ready (mon_Status m2) = st_Ready (mon_Status m) →
    run_events m h (ready_of (store s) m) = ev ++ transition (st_Ready (mon_Status m)) (ready_of (store s) m) →
    exec (apply_workload r m2 merged h) s5 (λ ev', Q (ev ++ ev')) (λ ev', F (ev ++ ev'))) as Htail.
  { intros m2 s5 ev Hs5 Hm2 Hsp Hh Hw Hev. rewrite Hs3 in Hs5.
    assert (mon_key m2 = mon_key m) as Hk2 by (unfold mon_key; by rewrite Hm2).
    destruct (BuildService_inputs m m2) as [Hsvc Hsm]; [done|].
    assert (ready_of (store s5) m2 = ready_of (store s) m) as Hro by (unfold ready_of; by rewrite Hs5, Hk2).
    apply (exec_workload r m2 m0 dep _ _ D); rewrite ?Hsvc, ?Hsm; [|by rewrite Hs5, Hk2|by rewrite Hk2|done|done|done| |].
    - by rewrite (BuildDeployment_inputs m m2).
    - rewrite Hro, Hw, Hs5. intros dep' svc' sm' rv m' s' Hs' Hrd Hrep Hrs Hrm Ho. rewrite <-Hev.
      apply (HQ cm' dep' svc' sm' rv m'); [done|done|by eapply realised_owner|by rewrite Hrep, Hk2|by eapply realised_owner|intros; eapply realised_owner; [done|auto]|].
      destruct Ho as (? & ? & ? & ? & ?). unfold mon_Generation in *. rewrite Hm2 in *.
      split_and!; simpl; try done; congruence.
    - intros ev' e s' Hpre Hadv. rewrite Hro, Hw in Hpre. apply HF; [by rewrite Hev; apply prefix_app|].
      eapply advance_trans; [exact Ha|]. rewrite Hs3, <-Hs5.
      eapply (advance_owner _ m m2); [unfold mon_Name; by rewrite Hm2|by rewrite Hm2|done]. }
  unfold run_events in Htail. destruct (bool_decide_reflect (st_ConfigHash (mon_Status m) = h)) as [Hh|Hh].
  - rewrite bool_decide_true by done. cbn [negb]. rewrite bind_ret_l.
    apply (Htail m1 s4 []); [congruence|done..].
  - rewrite bool_decide_false by done. cbn [negb]. apply exec_bind, exec_event. intros s5 Hs5.
    apply exec_ret. apply Htail; [congruence|done..].
Qed.

(** What the store equation of a run amounts to. *)
Lemma settled_store scrape c c' m merged cm h dep cm' dep' svc' sm' rv m' ready :
  c' = put_monitor (with_status_of rv m' m) (put_scrape scrape sm'
         (put_child KService svc' (put_child KDeployment dep' (put_child KConfigMap cm' c)))) →
  BuildConfigMap ascending m merged = Ok (cm, h) → BuildDeployment m merged h = Done dep →
  finalizerName ∈ om_Finalizers (mon_ObjectMeta m) → om_DeletionTimestamp (mon_ObjectMeta m) = None →
  realised (k := KConfigMap) m cm cm' → realised (k := KDeployment) m dep dep' →
  d_ReadyReplicas dep' = ready_at c (child_key (mon_key m) KDeployment) →
  realised (k := KService) m (BuildService m) svc' →
  (scrape = true → realised (k := KServiceMonitor) m (BuildServiceMonitor m) sm') →
  observation (on_status (st_set_ConfigHash h) m) ready (mon_Status m') →
  settled scrape c c' m merged cm h ready.
Proof.
  intros -> Hcm Hdep Hfin Hlive Hrc Hrd Hrep Hrs Hrm Ho.
  apply BuildConfigMap_Ok in Hcm as (data & _ & _ & _ & Hcmeta).
  pose proof Hdep as (env & _ & Hdmeta & _)%BuildDeployment_Done.
  assert (meta_key (obj_meta (k := KConfigMap) cm') = child_key (mon_key m) KConfigMap) as Hkc
    by (rewrite (realised_key _ _ _ _ Hrc); simpl; by rewrite Hcmeta).
  assert (meta_key (obj_meta (k := KDeployment) dep') = child_key (mon_key m) KDeployment) as Hkd
    by (rewrite (realised_key _ _ _ _ Hrd); simpl; by rewrite Hdmeta).
  pose proof (realised_key _ _ _ _ Hrs) as Hks.
  split; [split; [|split; [|split]]|split; [|split]].
  - apply (holds_intro _ _ _ _ cm'); [destruct scrape; apply lookup_insert_eq|done].
  - exists dep. split; [done|].
    apply (holds_intro _ _ _ _ dep'); [destruct scrape; apply lookup_insert_eq|done].
  - apply (holds_intro _ _ _ _ svc'); [destruct scrape; apply lookup_insert_eq|done].
  - intros ->. apply (holds_intro _ _ _ _ sm'); [apply lookup_insert_eq|by apply Hrm].
  - exists (with_status_of rv m' m). destruct Ho as (H1 & H2 & _ & H3 & H4).
    split; [destruct scrape; apply lookup_insert_eq|]. by split_and!.
  - unfold elsewhere_unchanged. split_and!; [by destruct scrape..| |].
    + intros k Hk. destruct scrape; by apply lookup_insert_ne, not_eq_sym.
    + intros k key Hkey. rewrite children_put_monitor.
      unfold put_scrape. destruct scrape; [rewrite children_put_frame|];
        rewrite ?children_put_frame; try done; intros ->; rewrite ?Hkc, ?Hkd, ?Hks; try done.
      by rewrite (realised_key _ _ _ _ (Hrm eq_refl)).
  - unfold ready_of. f_equal. rewrite <-Hrep. unfold ready_at.
    assert (cl_deployments (put_child KDeployment dep' c) !! child_key (mon_key m) KDeployment = Some dep') as Hl
      by (rewrite <-Hkd; apply lookup_insert_eq).
    destruct scrape; exact (f_equal (from_option d_ReadyReplicas 0) Hl).
Qed.

Lemma credentials_ready_deployment c m merged h :
  credentials_ready c m → ∃ dep, BuildDeployment m merged h = Done dep.
Proof. intros [Hi|(ref & Hr & _)]; apply BuildDeployment_total; [by left|right; by exists ref]. Qed.

Lemma desired_key scrape m merged cm h k (o : obj_of k) :
  BuildConfigMap ascending m merged = Ok (cm, h) → desired scrape m merged cm h k = Some o →
  meta_key (obj_meta o) = child_key (mon_key m) k.
Proof.
  intros (data & _ & _ & _ & Hcm)%BuildConfigMap_Ok. destruct k; simpl.
  - intros [= <-]. by rewrite Hcm.
  - destruct (BuildDeployment m merged h) as [dep|] eqn:Hdep; [|done]. intros [= <-].
    apply BuildDeployment_Done in Hdep as (env & _ & -> & _). done.
  - by intros [= <-].
  - destruct scrape; [|done]. by intros [= <-].
Qed.

(** The postcondition of a run on [m] in which a write was refused. *)
Definition run_interrupted (scrape : bool) (c : Cluster) (m : PgpilotMonitor) (merged : MergedMetrics)
    (cm : ConfigMap) (h : string) : postcondition := λ ev o s',
  (∃ e, o = Done (noRequeue, Some e)) ∧ ev `prefix_of` run_events m h (ready_of c m) ∧
  interrupted scrape c (store s') m merged cm h.

(** The reconciliation proper, of a stored monitor that has its finalizer. *)
Lemma exec_live r m libs cm h s (Q F : postcondition) :
  let merged := MergeMetrics ascending (spec_Metrics (mon_Spec m)) libs in
  reconcilable (store s) m libs cm h → finalizerName ∈ om_Finalizers (mon_ObjectMeta m) →
  (∀ s', settled (ServiceMonitorEnabled r) (store s) (store s') m merged cm h (ready_of (store s) m) →
     Q (run_events m h (ready_of (store s) m)) (verdict_of (ready_of (store s) m)) s') →
  (∀ ev o s', run_interrupted (ServiceMonitorEnabled r) (store s) m merged cm h ev o s' → F ev o s') →
  exec (reconcile_live r m) s Q F.
Proof.
  intros merged Hrc Hfin HQ HF. destruct Hrc as [Hm Hlive Hcred Hlibs Hv Hcm].
  destruct (credentials_ready_deployment _ _ merged h Hcred) as [dep Hdep].
  unfold reconcile_live. apply exec_validate; [done|]. intros m1 s1 Hs1 [[Hmeta Hspec] Hst] _. cbn [negb].
  assert (same_inputs m m1) as Hi by (split; [unfold mon_key; by rewrite Hmeta|done]).
  pose proof (proj1 Hi) as Hk1. destruct (BuildService_inputs m m1 Hi) as [Hsvc Hsm].
  unfold resolveLibraries. apply (exec_resolve _ _ _ libs).
  { unfold mon_Namespace. rewrite Hs1, Hspec, Hmeta. exact Hlibs. }
  intros s2 Hs2. rewrite app_nil_l. assert (store s2 = store s) as Hss by congruence.
  assert (ready_of (store s) m1 = ready_of (store s) m) as Hro by (unfold ready_of; by rewrite Hk1).
  assert (∀ ready, run_events m1 h ready = run_events m h ready) as Hrun by (intros; unfold run_events; by rewrite Hst).
  apply (exec_config r m1 m libs cm h dep (desired (ServiceMonitorEnabled r) m merged cm h));
    rewrite ?Hspec, ?Hk1, ?Hss, ?Hro, ?Hrun, ?Hsvc, ?Hsm;
    [done| | |done|done|done|simpl; by rewrite Hdep|done|simpl; by intros ->| |].
  - by rewrite (BuildConfigMap_inputs _ m m1).
  - by rewrite (BuildDeployment_inputs m m1).
  - intros cm' dep' svc' sm' rv m' s' Hs' Hc Hd Hrep Hsv Hsm' Ho. apply HQ.
    eapply (settled_store _ _ _ m); [exact Hs'|done|done|done|done| | |by rewrite Hrep, ?Hk1, ?Hss| | |];
      try (eapply realised_owner; [|eassumption]; done); [intros; eapply realised_owner; [|by auto]; done|].
    destruct Ho as (? & ? & ? & ? & ?). unfold mon_Generation in *. simpl in *. rewrite Hmeta in *. by split_and!.
  - intros ev e s' Hpre Hadv. apply HF.
    assert (advance (desired (ServiceMonitorEnabled r) m merged cm h) m (store s) (store s')) as Hadv'
      by (eapply (advance_owner _ m m1); [unfold mon_Name; by rewrite Hmeta|by rewrite Hmeta|done]).
    assert (∀ k o, desired (ServiceMonitorEnabled r) m merged cm h k = Some o →
      meta_key (obj_meta o) = child_key (mon_key m) k) as HD by (intros k o; by apply desired_key).
    split; [by exists e|]. split; [done|]. split; [by eapply advance_elsewhere|]. split.
    + exists m. by rewrite (advance_monitors _ _ _ _ Hadv').
    + intros k o Ho. by eapply advance_children.
Qed.

(** A monitor that differs in bookkeeping metadata only. *)
Lemma settled_transport scrape c c1 c' m m1 merged cm h ready :
  same_inputs m m1 → om_UID (mon_ObjectMeta m1) = om_UID (mon_ObjectMeta m) →
  mon_Generation m1 = mon_Generation m → elsewhere_unchanged c c1 m → ready_of c1 m = ready_of c m →
  settled scrape c1 c' m1 merged cm h ready → settled scrape c c' m merged cm h ready.
Proof.
  intros Hi Hu Hg Hel0 Hro0 (Hch & Hst & Hel & Hro). pose proof Hi as [Hk Hsp].
  destruct (same_inputs_names _ _ Hi) as [Hn _]. destruct (BuildService_inputs _ _ Hi) as [Hsvc Hsm].
  assert (∀ k (o : obj_of k), holds c' m1 o → holds c' m o) as Hh.
  { intros k o (o' & Hl & H1 & H2 & H3 & H4 & ref & Hr). exists o'. split; [done|]. split_and!; try done.
    exists ref. by rewrite <-Hn, <-Hu. }
  split; [|split; [|split]].
  - destruct Hch as (H1 & (dep & Hd & H2) & H3 & H4). rewrite Hsvc, Hsm in *.
    rewrite (BuildDeployment_inputs m m1) in Hd by done.
    split; [by apply Hh|]. split; [exists dep; split; [done|by apply Hh]|]. split; [by apply Hh|].
    intros Hs. by apply Hh, H4.
  - destruct Hst as (m' & H). exists m'. by rewrite <-Hk, <-Hsp, <-Hu, <-Hg.
  - destruct Hel as (H1 & H2 & H3 & H4), Hel0 as (H5 & H6 & H7 & H8). rewrite Hk in *.
    split; [congruence|]. split; [congruence|]. split.
    + intros k Hne. by rewrite H3, H7.
    + intros k key Hne. by rewrite H4, H8.
  - unfold ready_of in *. rewrite Hk in Hro. congruence.
Qed.

Lemma put_monitor_elsewhere c m m1 : mon_key m1 = mon_key m → elsewhere_unchanged c (put_monitor m1 c) m.
Proof.
  intros Hk. split; [done|]. split; [done|]. split; [|intros; by rewrite children_put_monitor].
  intros k Hne. simpl. apply lookup_insert_ne. congruence.
Qed.

(** The same for a run that was interrupted. *)
Lemma interrupted_transport scrape c c1 c' m m1 merged cm h :
  same_inputs m m1 → om_UID (mon_ObjectMeta m1) = om_UID (mon_ObjectMeta m) →
  mon_Status m1 = mon_Status m → elsewhere_unchanged c c1 m → (∀ k, children c1 k = children c k) →
  interrupted scrape c1 c' m1 merged cm h → interrupted scrape c c' m merged cm h.
Proof.
  intros Hi Hu Hst (H1 & H2 & H3 & H4) Hch ((G1 & G2 & G3 & G4) & (m' & Hm' & Hsp & Hs) & Hd).
  pose proof Hi as [Hk Hspec]. destruct (same_inputs_names _ _ Hi) as [Hn _].
  destruct (BuildService_inputs _ _ Hi) as [Hsvc Hsm]. rewrite Hk in *.
  split; [|split; [exists m'; by rewrite <-Hspec, <-Hst|]].
  - unfold elsewhere_unchanged. split_and!; [congruence..| |]; intros; [rewrite G3, H3|rewrite G4, H4]; done.
  - intros k o Ho. rewrite <-(Hch k).
    assert (desired scrape m1 merged cm h k = Some o) as Ho1
      by (destruct k; simpl in *; by rewrite ?Hsvc, ?Hsm, ?(BuildDeployment_inputs m m1)).
    destruct (Hd k o Ho1) as [Hold|(o' & Hl & R1 & R2 & R3 & R4 & ref & Hr)]; [by left|right].
    exists o'. split; [done|]. split_and!; try done. exists ref. by rewrite <-Hn, <-Hu.
Qed.

(** An interrupted run leaves children in place that were. *)
Lemma interrupted_in_place scrape c c' m m1 merged cm h :
  same_inputs m m1 → om_UID (mon_ObjectMeta m1) = om_UID (mon_ObjectMeta m) →
  BuildConfigMap ascending m merged = Ok (cm, h) →
  children_in_place scrape c m merged cm h → interrupted scrape c c' m1 merged cm h →
  children_in_place scrape c' m merged cm h.
Proof.
  intros Hi Hu Hcm (Hc & (dep & Hdep & Hd) & Hs & Hsm) (_ & _ & Hch).
  destruct (same_inputs_names _ _ Hi) as [Hn _]. destruct (BuildService_inputs _ _ Hi) as [Hsvc Hsmo].
  assert (∀ k (o : obj_of k), desired scrape m merged cm h k = Some o → holds c m o → holds c' m o) as Hkeep.
  { intros k o Ho Hold. pose proof (desired_key _ _ _ _ _ _ _ Hcm Ho) as Hkey.
    assert (desired scrape m1 merged cm h k = Some o) as Ho1
      by (destruct k; simpl in *; by rewrite ?Hsvc, ?Hsmo, ?(BuildDeployment_inputs m m1)).
    destruct (Hch k o Ho1) as [Hsame|(o' & Hl & R1 & R2 & R3 & R4 & ref & Hr)].
    - destruct Hold as (o' & Hl & Hr). exists o'. split; [|done]. rewrite Hkey in *. rewrite (proj1 Hi) in Hsame. by rewrite Hsame.
    - exists o'. split; [done|]. split_and!; try done. exists ref. by rewrite <-Hn, <-Hu. }
  split; [by apply (Hkeep KConfigMap)|]. split; [exists dep; split; [done|]; apply (Hkeep KDeployment); simpl; by rewrite ?Hdep|].
  split; [by apply (Hkeep KService)|]. intros ->. by apply (Hkeep KServiceMonitor), Hsm.
Qed.

(** A settled cluster is ready for the next reconciliation. *)
Lemma settled_reconcilable scrape c c' m libs cm h ready :
  reconcilable c m libs cm h →
  settled scrape c c' m (MergeMetrics ascending (spec_Metrics (mon_Spec m)) libs) cm h ready →
  ∃ m', same_inputs m m' ∧ om_UID (mon_ObjectMeta m') = om_UID (mon_ObjectMeta m) ∧
    mon_Generation m' = mon_Generation m ∧ reconcilable c' m' libs cm h ∧
    st_ConfigHash (mon_Status m') = h ∧ st_Ready (mon_Status m') = ready.
Proof.
  intros [Hm Hlive Hcred Hlibs Hv Hcm] (Hch & Hst & (Hl & Hsec & _) & _).
  destruct Hst as (m' & Hm' & Hk & Hsp & Hfin & Hu & Hg & Hd & Hr & Hh & _).
  exists m'. assert (same_inputs m m') as Hi by done. destruct (same_inputs_names _ _ Hi) as [Hn Hns].
  split_and!; [done..| |done|done]. constructor; rewrite ?Hk, ?Hsp, ?Hns, ?Hn, ?Hl; try done.
  - destruct Hcred as [?|(ref & ? & ?)]; [left; by rewrite Hsp|right; exists ref]. by rewrite Hsp, Hsec, Hns.
  - by rewrite (BuildConfigMap_inputs _ m m').
Qed.

Lemma exec_Reconcile r m libs cm h s :
  let merged := MergeMetrics ascending (spec_Metrics (mon_Spec m)) libs in
  reconcilable (store s) m libs cm h →
  exec (Reconcile r (mon_key m)) s
    (λ ev o s', o = verdict_of (ready_of (store s) m) ∧ ev = run_events m h (ready_of (store s) m) ∧
       settled (ServiceMonitorEnabled r) (store s) (store s') m merged cm h (ready_of (store s) m))
    (run_interrupted (ServiceMonitorEnabled r) (store s) m merged cm h).
Proof.
  intros merged Hrc. pose proof Hrc as [Hm Hlive Hcred Hlibs Hv Hcm].
  unfold Reconcile. apply exec_quiet; [done..|]. intros s1 Hs1. rewrite (proj2 (serve_GetMonitor _ _ _) Hm).
  rewrite Hlive, IsZero_nil. cbn [negb]. destruct (ContainsFinalizer _ _) eqn:Hc; cbn [negb].
  { apply ContainsFinalizer_spec in Hc. rewrite <-Hs1 in Hrc. apply (exec_live r m libs cm h); rewrite ?Hs1 in *; auto. }
  destruct (AddFinalizer_spec (mon_ObjectMeta m) finalizerName) as (fs & -> & Hfs).
  change (set_meta (meta_set_finalizers fs (mon_ObjectMeta m)) m) with (with_finalizers fs m).
  pose proof (serve_UpdateMonitor m fs s1) as Hu. rewrite Hs1 in Hu. specialize (Hu Hm).
  destruct (serve _ (UpdateMonitor (with_finalizers fs m)) s1) as [x s2] eqn:Hserve.
  destruct Hu as [[[e ->] Hs2]|(rv & -> & _ & Hs2)].
  { apply exec_call_refused; [done|by rewrite Hserve|]. rewrite Hserve. apply after_ret.
    split; [by exists e|]. split; [apply prefix_nil|]. cbn [snd]. rewrite Hs2. split; [done|]. split; [by exists m|]. by left. }
  set (m1 := with_version rv _) in *. unfold store_updated in Hs2. cbn in Hs2. rewrite Hlive in Hs2.
  assert (same_inputs m m1) as Hi by done.
  assert (ready_of (store s2) m1 = ready_of (store s) m) as Hro by (by rewrite Hs2).
  assert (elsewhere_unchanged (store s) (store s2) m) as Hel by (rewrite Hs2; by apply put_monitor_elsewhere).
  apply exec_call. rewrite Hserve. apply (exec_live r m1 libs cm h).
  - simpl. rewrite Hs2. constructor; try done. apply lookup_insert_eq.
  - apply Hfs. by left.
  - cbn [snd]. rewrite Hro. intros s' Hset. split; [done|]. split; [done|].
    eapply (settled_transport _ _ _ _ m m1); [done..| | |exact Hset]; [done|by rewrite Hs2].
  - cbn [snd]. intros ev o s' (He & Hpre & Hint). split; [done|]. rewrite Hro in Hpre. split; [done|].
    eapply (interrupted_transport _ _ _ _ m m1); [done..| |exact Hint]. intros k. by rewrite Hs2, children_put_monitor.
Qed.
End Steps.

(** ** Properties *)
Section Properties.
Context {S : Type} `{AS : ApiServer S} `{AL : !ApiServerLaws S}.
Context `{Y : Yaml} `{E : Embedded} `{M : Machinery} `{L : !MachineryLaws}.

(** C1 Convergence: against any API server that behaves as documented,
    [Reconcile] of a live monitor whose prerequisites hold returns, whatever
    the children looked like before, in one of two ways.  Either it settles the
    monitor: ConfigMap, Deployment, Service and (when enabled) ServiceMonitor
    are in place and controlled by the monitor, the finalizer is set, the
    status reports readiness, hash and generation, nothing else in the cluster
    changed, the requeue is 15 s exactly when pgwatch is not ready, and the
    events are those of a changed hash and a changed readiness.  Or the server
    refused a write of this run, and then it returns an error (so that
    controller-runtime tries again), has recorded no other events than these,
    has left the status as it was and every child as it was or as desired, and
    nothing else in the cluster changed. *)
Theorem reconcile_converges r m libs cm h (s : S) :
  reconcilable (store s) m libs cm h →
  let '(t, o, s') := interp serve (Reconcile r (mon_key m)) s in
  let ready := ready_of (store s) m in
  let merged := MergeMetrics ascending (spec_Metrics (mon_Spec m)) libs in
  (o = Done (if ready then noRequeue else requeue_after 15, None) ∧
   events t = run_events m h ready ∧
   settled (ServiceMonitorEnabled r) (store s) (store s') m merged cm h ready) ∨
  (some_refused t ∧ (∃ e, o = Done (noRequeue, Some e)) ∧
   events t `prefix_of` run_events m h ready ∧
   interrupted (ServiceMonitorEnabled r) (store s) (store s') m merged cm h).
Proof.
  intros Hrc. pose proof (exec_Reconcile r m libs cm h s Hrc) as Hx.
  unfold exec in Hx. destruct (interp _ _ _) as [[t o] s']. exact Hx.
Qed.

(** C4 Idempotence: once a run has settled a monitor, reconciling again with
    nothing changed in between records no event at all and leaves every desired
    child in place, also when the server refuses one of its writes, the error
    of which it then returns; otherwise it gives the same verdict and leaves
    the cluster settled exactly as the first run did. *)
Theorem second_reconcile_is_silent r m libs cm h (s : S) :
  reconcilable (store s) m libs cm h →
  let '(_, o1, s1) := interp serve (Reconcile r (mon_key m)) s in
  let '(t2, o2, s2) := interp serve (Reconcile r (mon_key m)) s1 in
  let merged := MergeMetrics ascending (spec_Metrics (mon_Spec m)) libs in
  (∃ res, o1 = Done (res, None)) →
  events t2 = [] ∧ children_in_place (ServiceMonitorEnabled r) (store s2) m merged cm h ∧
  ((o2 = o1 ∧ settled (ServiceMonitorEnabled r) (store s) (store s2) m merged cm h (ready_of (store s) m)) ∨
   (some_refused t2 ∧ ∃ e, o2 = Done (noRequeue, Some e))).
Proof.
  intros Hrc. pose proof (exec_Reconcile r m libs cm h s Hrc) as Hx.
  unfold exec in Hx. destruct (interp serve _ s) as [[t1 o1] s1].
  destruct (interp serve (Reconcile r (mon_key m)) s1) as [[t2 o2] s2] eqn:Hi2. intros merged [res Hres].
  destruct Hx as [(-> & _ & Hset)|(_ & [e ->] & _)]; [|done].
  destruct (settled_reconcilable _ _ _ _ _ _ _ _ Hrc Hset) as (m' & Hi & Hu & Hg & Hrc' & Hh & Hr).
  pose proof Hset as (Hch & _ & Hel & Hro).
  assert (ready_of (store s1) m' = ready_of (store s) m) as Hro'
    by (rewrite <-Hro; unfold ready_of; by rewrite (proj1 Hi)).
  assert (run_events m' h (ready_of (store s) m) = []) as Hnil
    by (unfold run_events; rewrite Hh, Hr, bool_decide_true by done; by destruct (ready_of _ _)).
  pose proof (exec_Reconcile r m' libs cm h s1 Hrc') as Hx.
  unfold exec, run_interrupted in Hx. rewrite (proj1 Hi), Hi2, Hro', Hnil, (proj2 Hi) in Hx.
  destruct Hx as [(-> & -> & Hset2)|(Href & He & Hpre & Hint)].
  - split; [done|].
    assert (settled (ServiceMonitorEnabled r) (store s) (store s2) m merged cm h (ready_of (store s) m)) as Hs2
      by by eapply (settled_transport _ _ _ _ m m').
    split; [apply Hs2|]. by left.
  - split; [by apply prefix_nil_inv|]. split; [|by right].
    eapply (interrupted_in_place _ (store s1) _ m m'); [done|done|apply Hrc|done|done].
Qed.
End Properties.

(** ** Witnesses: the fixture monitor on the server in memory *)
Lemma fx_reconcilable cm h :
  BuildConfigMap ascending fx_monitor fx_merged = Ok (cm, h) →
  reconcilable (mem_cluster fx_server) fx_monitor [fx_library] cm h.
Proof.
  intros Hcm. constructor; [reflexivity|reflexivity| |reflexivity|apply fx_versions|exact Hcm].
  right. exists fx_secret_ref. split; [done|]. by exists fx_secret.
Qed.

(** A server that has a Deployment of the monitor's with another selector: it
    refuses the one the operator applies. *)
Definition fx_foreign_deployment : Deployment :=
  mkDeployment (mkTypeMeta "apps/v1" "Deployment") (fx_meta "pgpilot-orders" []) (Some 1)
    {["app" := "other"]} (mkPodTemplateSpec (fx_meta "" []) (mkPodSpec [] [] None)) 1.
Definition fx_server_foreign : Memory :=
  mkMemory (put_child KDeployment fx_foreign_deployment (mem_cluster fx_server)) 100 1000 [].

Lemma fx_reconcilable_foreign cm h :
  BuildConfigMap ascending fx_monitor fx_merged = Ok (cm, h) →
  reconcilable (mem_cluster fx_server_foreign) fx_monitor [fx_library] cm h.
Proof. intros [Hm Hlive Hcred Hlibs Hv Hcm]%fx_reconcilable. by constructor. Qed.

Definition fx_reconcile (s : Memory) : trace * outcome (Result * option error) * Memory :=
  interp mem_serve (Reconcile (mkReconciler true) (mon_key fx_monitor)) s.

(** Settled on the first server, interrupted on the second. *)
Lemma reconcile_converges_witness :
  match BuildConfigMap ascending fx_monitor fx_merged with
  | Ok (cm, h) =>
      (let '(t, o, s') := fx_reconcile fx_server in
       o = Done (requeue_after 15, None) ∧ events t = run_events fx_monitor h false ∧
       settled true (mem_cluster fx_server) (mem_cluster s') fx_monitor fx_merged cm h false) ∧
      (let '(t, o, s') := fx_reconcile fx_server_foreign in
       some_refused t ∧ interrupted true (mem_cluster fx_server_foreign) (mem_cluster s') fx_monitor fx_merged cm h)
  | Err _ => False
  end.
Proof.
  destruct (BuildConfigMap ascending fx_monitor fx_merged) as [[cm h]|e] eqn:E; [|vm_compute in E; discriminate].
  split.
  - pose proof (reconcile_converges (S := Memory) (mkReconciler true) fx_monitor [fx_library] cm h fx_server (fx_reconcilable cm h E)) as Hc.
    assert (existsb refused (fx_reconcile fx_server).1.1 = false) as Hn by (vm_compute; reflexivity).
    unfold fx_reconcile in *. change (serve (S := Memory)) with mem_serve in Hc.
    destruct (interp mem_serve _ fx_server) as [[t o] s']. destruct Hc as [Hs|(Hr & _)]; [exact Hs|].
    exfalso. apply Exists_exists in Hr as (en & Hin & Hen).
    assert (existsb refused t = true) as Ht by (apply existsb_exists; exists en; split; [by apply list_elem_of_In|exact Hen]).
    simpl in Hn. rewrite Ht in Hn. discriminate.
  - pose proof (reconcile_converges (S := Memory) (mkReconciler true) fx_monitor [fx_library] cm h fx_server_foreign (fx_reconcilable_foreign cm h E)) as Hc.
    assert (match (fx_reconcile fx_server_foreign).1.2 with Done (_, None) => false | _ => true end = true) as Hn by (vm_compute; reflexivity).
    unfold fx_reconcile in *. change (serve (S := Memory)) with mem_serve in Hc.
    destruct (interp mem_serve _ fx_server_foreign) as [[t o] s']. destruct Hc as [(Ho & _)|(Hr & _ & _ & Hs)].
    + simpl in Hn. rewrite Ho in Hn. discriminate.
    + split; [exact Hr|exact Hs].
Defined.

Lemma second_reconcile_is_silent_witness :
  let '(_, o1, s1) := fx_reconcile fx_server in
  let '(t2, o2, _) := fx_reconcile s1 in
  events t2 = [] ∧ o1 = Done (requeue_after 15, None).
Proof.
  destruct (BuildConfigMap ascending fx_monitor fx_merged) as [[cm h]|e] eqn:E; [|vm_compute in E; discriminate].
  pose proof (second_reconcile_is_silent (S := Memory) (mkReconciler true) fx_monitor [fx_library] cm h fx_server (fx_reconcilable cm h E)) as Hc.
  assert ((fx_reconcile fx_server).1.2 = Done (requeue_after 15, None)) as Ho by (vm_compute; reflexivity).
  unfold fx_reconcile in *. change (serve (S := Memory)) with mem_serve in Hc.
  destruct (interp mem_serve _ fx_server) as [[t1 o1] s1]. simpl in Ho.
  destruct (interp mem_serve _ s1) as [[t2 o2] s2].
  destruct Hc as [He _]; [exists (requeue_after 15); exact Ho|]. split; [exact He|exact Ho].
Defined.
