(* ===== verification/Heap.v ===== *)
(** Go's memory: a store of variables, backing arrays and map objects, with
    pointers into the middle of variables ([&x.F], [&a[i]]), and the copying
    idioms of generated code as programs over it.  [deep] reads the value a
    variable denotes through all its references, [reach] the cells it reads. *)
From S2P Require Import Prelude GoStd.
From Stdlib Require Import ZArith.
Open Scope nat_scope.

(** ** Values, types, stores *)
Definition loc := positive.

(** A step from a variable into its parts: a field, an element. *)
Inductive sel := Fld (f : string) | Idx (i : nat).

#[export] Instance sel_eq_dec : EqDecision sel.
Proof. solve_decision. Defined.

(** A pointer: a variable and the way to the part it points to. *)
Definition ptr : Type := loc * list sel.
Definition base (p : ptr) : loc := p.1.
Definition sub (p : ptr) (s : sel) : ptr := (p.1, p.2 ++ [s]).
(** [&p.f] *)
Definition fld (p : ptr) (f : string) : ptr := sub p (Fld f).

(** A slice is a window (offset, length) of a backing array. *)
Inductive val :=
  | VStr (s : string)
  | VInt (n : Z)
  | VBool (b : bool)
  | VPtr (o : option ptr)
  | VMap (o : option loc)
  | VSlice (o : option (loc * nat * nat))
  | VStruct (fs : list (string * val))
  | VArr (vs : list val).

(** A cell of the store: a variable, or a map object. *)
Inductive cell := CVal (v : val) | CMap (m : gmap string string).
Abbreviation store := (gmap loc cell).

(** The Go types of the API package: [TMap] is [map[string]string]. *)
Inductive ty :=
  | TStr | TInt | TBool
  | TPtr (T : ty)
  | TMap
  | TSlice (T : ty)
  | TStruct (fs : list (string * ty)).

(** The zero value of a type. *)
Fixpoint zero (T : ty) : val :=
  match T with
  | TStr => VStr ""
  | TInt => VInt 0
  | TBool => VBool false
  | TPtr _ => VPtr None
  | TMap => VMap None
  | TSlice _ => VSlice None
  | TStruct fs => VStruct ((λ '(f, U), (f, zero U)) <$> fs)
  end.

(** A type without references: assignment copies it entirely. *)
Fixpoint flat (T : ty) : bool :=
  match T with
  | TStr | TInt | TBool => true
  | TPtr _ | TMap | TSlice _ => false
  | TStruct fs => forallb (λ '(_, U), flat U) fs
  end.

(** ** Access paths *)
Fixpoint field_get (f : string) (fs : list (string * val)) : option val :=
  match fs with
  | [] => None
  | (g, v) :: fs' => if decide (f = g) then Some v else field_get f fs'
  end.

Fixpoint field_put (f : string) (w : val) (fs : list (string * val)) : option (list (string * val)) :=
  match fs with
  | [] => None
  | (g, v) :: fs' =>
      if decide (f = g) then Some ((g, w) :: fs') else cons (g, v) <$> field_put f w fs'
  end.

Definition get1 (s : sel) (v : val) : option val :=
  match s, v with
  | Fld f, VStruct fs => field_get f fs
  | Idx i, VArr vs => vs !! i
  | _, _ => None
  end.

Definition put1 (s : sel) (w v : val) : option val :=
  match s, v with
  | Fld f, VStruct fs => VStruct <$> field_put f w fs
  | Idx i, VArr vs => if decide (i < length vs) then Some (VArr (<[i := w]> vs)) else None
  | _, _ => None
  end.

Fixpoint get (π : list sel) (v : val) : option val :=
  match π with [] => Some v | s :: π' => u ← get1 s v; get π' u end.

Fixpoint put (π : list sel) (w v : val) : option val :=
  match π with
  | [] => Some w
  | s :: π' => u ← get1 s v; u' ← put π' w u; put1 s u' v
  end.

Definition load (σ : store) (p : ptr) : option val :=
  match σ !! p.1 with Some (CVal v) => get p.2 v | _ => None end.

(** ** Denotations

    A value with its references followed; nil and empty are kept apart. *)
Inductive dval :=
  | DStr (s : string)
  | DInt (n : Z)
  | DBool (b : bool)
  | DPtr (o : option dval)
  | DMap (o : option (gmap string string))
  | DSlice (o : option (list dval))
  | DStruct (fs : list (string * dval)).

(** The elements of a slice. *)
Definition window (σ : store) (l : loc) (off n : nat) : option (list val) :=
  match σ !! l with
  | Some (CVal (VArr vs)) =>
      if decide (off + n ≤ length vs) then Some (take n (drop off vs)) else None
  | _ => None
  end.

Fixpoint deep (T : ty) (σ : store) (v : val) : option dval :=
  match T, v with
  | TStr, VStr s => Some (DStr s)
  | TInt, VInt n => Some (DInt n)
  | TBool, VBool b => Some (DBool b)
  | TPtr _, VPtr None => Some (DPtr None)
  | TPtr U, VPtr (Some p) => u ← load σ p; d ← deep U σ u; Some (DPtr (Some d))
  | TMap, VMap None => Some (DMap None)
  | TMap, VMap (Some l) => match σ !! l with Some (CMap m) => Some (DMap (Some m)) | _ => None end
  | TSlice _, VSlice None => Some (DSlice None)
  | TSlice U, VSlice (Some (l, off, n)) =>
      us ← window σ l off n; ds ← mapM (deep U σ) us; Some (DSlice (Some ds))
  | TStruct fts, VStruct fvs =>
      ds ← mapM (λ '(f, U), u ← field_get f fvs; d ← deep U σ u; Some (f, d)) fts;
      Some (DStruct ds)
  | _, _ => None
  end.

(** The cells a value of type [T] reaches through its references. *)
Fixpoint reach (T : ty) (σ : store) (v : val) : gset loc :=
  match T, v with
  | TPtr U, VPtr (Some p) => {[ p.1 ]} ∪ from_option (reach U σ) ∅ (load σ p)
  | TMap, VMap (Some l) => {[ l ]}
  | TSlice U, VSlice (Some (l, off, n)) =>
      {[ l ]} ∪ ⋃ (reach U σ <$> default [] (window σ l off n))
  | TStruct fts, VStruct fvs =>
      ⋃ ((λ '(f, U), from_option (reach U σ) ∅ (field_get f fvs)) <$> fts)
  | _, _ => ∅
  end.

(** ** Programs over the store: [None] is a panic *)
Definition M (A : Type) : Type := store → option (A * store).
#[export] Instance M_ret : MRet M := λ A a σ, Some (a, σ).
#[export] Instance M_bind : MBind M := λ A B k m σ,
  match m σ with Some (a, σ') => k a σ' | None => None end.

Definition panic {A} : M A := λ _, None.

(** [*p], dereferenced *)
Definition Load (p : ptr) : M val := λ σ, (λ v, (v, σ)) <$> load σ p.

(** [*p = w] *)
Definition Store (p : ptr) (w : val) : M () := λ σ,
  match σ !! p.1 with
  | Some (CVal v) => (λ v', ((), <[p.1 := CVal v']> σ)) <$> put p.2 w v
  | _ => None
  end.

(** A new variable, and [make(map[string]string, n)] *)
Definition alloc (c : cell) : M loc := λ σ, let l := fresh (dom σ) in Some (l, <[l := c]> σ).
Definition New (v : val) : M ptr := l ← alloc (CVal v); mret (l, []).
Definition MakeMap : M loc := alloc (CMap ∅).

(** [m[k] = v] for the map object [l] *)
Definition MapPut (l : loc) (k v : string) : M () := λ σ,
  match σ !! l with Some (CMap m) => Some ((), <[l := CMap (<[k := v]> m)]> σ) | _ => None end.

(** The map object [l], as [range] sees it *)
Definition MapEntries (l : loc) : M (gmap string string) := λ σ,
  match σ !! l with Some (CMap m) => Some (m, σ) | _ => None end.

(** Reading a variable of pointer, map or slice type. *)
Definition LoadPtr (p : ptr) : M (option ptr) :=
  v ← Load p; match v with VPtr o => mret o | _ => panic end.
Definition LoadMap (p : ptr) : M (option loc) :=
  v ← Load p; match v with VMap o => mret o | _ => panic end.
Definition LoadSlice (p : ptr) : M (option (loc * nat * nat)) :=
  v ← Load p; match v with VSlice o => mret o | _ => panic end.

(** A nil pointer dereferenced, a nil map written to: panics. *)
Definition nonnil {A} (o : option A) : M A := match o with Some a => mret a | None => panic end.

(** [len(s)] and [&s[i]] *)
Definition slice_len (o : option (loc * nat * nat)) : nat :=
  match o with Some (_, _, n) => n | None => 0 end.
Definition slice_at (o : option (loc * nat * nat)) (i : nat) : M ptr :=
  match o with
  | Some (l, off, n) => if decide (i < n) then mret (l, [Idx (off + i)]) else panic
  | None => panic
  end.

(** The first [n] elements of a slice. *)
Definition LoadElems (o : option (loc * nat * nat)) (n : nat) : M (list val) := λ σ,
  match o with
  | Some (l, off, _) => (λ vs, (vs, σ)) <$> window σ l off n
  | None => Some ([], σ)
  end.

(** [for _, x := range xs { body(x) }] *)
Fixpoint loop {A} (body : A → M ()) (xs : list A) : M () :=
  match xs with [] => mret () | x :: xs' => _ ← body x; loop body xs' end.

(** ** The idioms of generated deep copies

    A copier is the code between [in] and [out], two pointers. *)
Definition copier := ptr → ptr → M ().

(** [*out = *in] *)
Definition assign : copier := λ in_ out, v ← Load in_; Store out v.

(** The code of a field: [in, out := &in.F, &out.F], or [in.F.DeepCopyInto(&out.F)]. *)
Definition at_field (f : string) (c : copier) : copier := λ in_ out, c (fld in_ f) (fld out f).

Definition is_nil (v : val) : bool :=
  match v with VPtr None | VMap None | VSlice None => true | _ => false end.

(** [if *in != nil { ... }] *)
Definition when_set (c : copier) : copier := λ in_ out,
  v ← Load in_; if is_nil v then mret () else c in_ out.

(** [*out = new(T); f( *in, *out )]: [f] is [**out = **in] or [DeepCopyInto]. *)
Definition new_into (T : ty) (f : copier) : copier := λ in_ out,
  q ← New (zero T);
  _ ← Store out (VPtr (Some q));
  p ← (LoadPtr in_ ≫= nonnil);
  r ← (LoadPtr out ≫= nonnil);
  f p r.

(** [*out = make(map[string]string, len( *in )); for k, v := range *in { ( *out )[k] = v }] *)
Definition make_map (ord : MapOrder) : copier := λ in_ out,
  l ← MakeMap;
  _ ← Store out (VMap (Some l));
  o ← LoadMap in_;
  m ← (match o with Some l' => MapEntries l' | None => mret ∅ end);
  loop (λ kv, r ← (LoadMap out ≫= nonnil); MapPut r kv.1 kv.2) (range ord m).

(** [*out = make([]T, len( *in )); body] *)
Definition make_slice (T : ty) (body : copier) : copier := λ in_ out,
  o ← LoadSlice in_;
  q ← New (VArr (replicate (slice_len o) (zero T)));
  _ ← Store out (VSlice (Some (q.1, 0, slice_len o)));
  body in_ out.

(** [for i := range *in { f(&( *in )[i], &( *out )[i]) }] *)
Definition each (f : copier) : copier := λ in_ out,
  o ← LoadSlice in_;
  loop (λ i, p ← (LoadSlice in_ ≫= λ s, slice_at s i);
             r ← (LoadSlice out ≫= λ s, slice_at s i);
             f p r) (seq 0 (slice_len o)).

(** [copy( *out, *in )]: the elements are read before the first is written. *)
Definition copy_slice : copier := λ in_ out,
  o ← LoadSlice in_; o' ← LoadSlice out;
  let n := slice_len o `min` slice_len o' in
  vs ← LoadElems o n;
  loop (λ iv, p ← slice_at o' iv.1; Store p iv.2) (zip (seq 0 n) vs).

(** The body of a struct's [DeepCopyInto]: [*out = *in], then the fields that
    need more, in order. *)
Definition copy_struct (steps : list (string * copier)) : copier := λ in_ out,
  _ ← assign in_ out;
  loop (λ s, at_field s.1 s.2 in_ out) steps.

(** [*out = f( *in )], for [f] returning a pointer. *)
Definition store_copy (f : option ptr → M (option ptr)) : copier := λ in_ out,
  p ← LoadPtr in_; q ← f p; Store out (VPtr q).

(** [if in == nil { return nil }; out := new(T); in.DeepCopyInto(out); return out] *)
Definition new_copy (T : ty) (into : copier) (in_ : option ptr) : M (option ptr) :=
  match in_ with
  | None => mret None
  | Some p => q ← New (zero T); _ ← into p q; mret (Some q)
  end.

(** ** Lemmas: access paths *)
Lemma field_get_put f w fs fs' : field_put f w fs = Some fs' → field_get f fs' = Some w.
Proof.
  revert fs'. induction fs as [|[g v] fs IH]; intros fs'; simpl; [done|].
  destruct (decide (f = g)) as [->|Hne]; intros H.
  - injection H as <-. simpl. by rewrite decide_True.
  - apply fmap_Some in H as (fs1 & H & ->). simpl. rewrite decide_False by done. by apply IH.
Qed.

Lemma field_get_put_ne f g w fs fs' :
  f ≠ g → field_put f w fs = Some fs' → field_get g fs' = field_get g fs.
Proof.
  intros Hfg. revert fs'. induction fs as [|[h v] fs IH]; intros fs'; simpl; [done|].
  destruct (decide (f = h)) as [->|Hne]; intros H.
  - injection H as <-. simpl. by rewrite !(decide_False (P := g = h)).
  - apply fmap_Some in H as (fs1 & H & ->). simpl. destruct (decide (g = h)); [done|]. by apply IH.
Qed.

Lemma field_put_put f w w' fs fs' : field_put f w fs = Some fs' → field_put f w' fs' = field_put f w' fs.
Proof.
  revert fs'. induction fs as [|[g v] fs IH]; intros fs'; simpl; [done|].
  destruct (decide (f = g)) as [->|Hne]; intros H.
  - injection H as <-. simpl. by rewrite decide_True.
  - apply fmap_Some in H as (fs1 & H & ->). simpl. rewrite decide_False by done. by rewrite IH.
Qed.

Lemma field_put_is_Some f w fs : is_Some (field_get f fs) → is_Some (field_put f w fs).
Proof.
  induction fs as [|[g v] fs IH]; simpl; [by intros []|].
  destruct (decide (f = g)); [by eexists|]. intros [fs' ->]%IH. by eexists.
Qed.

Lemma field_put_get f w fs : field_get f fs = Some w → field_put f w fs = Some fs.
Proof.
  induction fs as [|[g v] fs IH]; simpl; [done|].
  destruct (decide (f = g)) as [->|]; [by intros [= ->]|]. by intros ->%IH.
Qed.

Lemma get1_put1 s w v v' : put1 s w v = Some v' → get1 s v' = Some w.
Proof.
  destruct s, v; simpl; try done.
  - intros (? & ? & ->)%fmap_Some. by eapply field_get_put.
  - destruct (decide _); [|done]. intros [= <-]. by apply list_lookup_insert_eq.
Qed.

Lemma get1_put1_ne s t w v v' : s ≠ t → put1 s w v = Some v' → get1 t v' = get1 t v.
Proof.
  destruct s, v; simpl; try done.
  - intros Hne (? & H & ->)%fmap_Some. destruct t; [|done]. eapply field_get_put_ne, H. congruence.
  - intros Hne. destruct (decide _); [|done]. intros [= <-]. destruct t; [done|].
    apply list_lookup_insert_ne. congruence.
Qed.

Lemma put1_put1 s w w' v v' : put1 s w v = Some v' → put1 s w' v' = put1 s w' v.
Proof.
  destruct s, v; simpl; try done.
  - intros (? & H & ->)%fmap_Some. simpl. by rewrite (field_put_put _ _ _ _ _ H).
  - destruct (decide _); [|done]. intros [= <-]. simpl. rewrite length_insert, decide_True by done.
    by rewrite list_insert_insert_eq.
Qed.

Lemma put1_is_Some s w v : is_Some (get1 s v) → is_Some (put1 s w v).
Proof.
  destruct s, v; simpl; try by intros [].
  - intros [fs' ->]%(field_put_is_Some _ w). by eexists.
  - intros ?%lookup_lt_is_Some. rewrite decide_True by done. by eexists.
Qed.

Lemma put1_get1 s w v : get1 s v = Some w → put1 s w v = Some v.
Proof.
  destruct s, v; simpl; try done.
  - by intros ->%field_put_get.
  - intros H. rewrite decide_True by (by eapply lookup_lt_Some). by rewrite list_insert_id.
Qed.

Lemma put_is_Some π w v : is_Some (get π v) → is_Some (put π w v).
Proof.
  revert v. induction π as [|s π IH]; intros v; simpl; [by eexists|].
  destruct (get1 s v) as [u|] eqn:Hu; simpl; [|by intros []]. intros [u' ->]%IH. simpl.
  apply put1_is_Some. by eexists.
Qed.

Lemma get_put π w v v' : put π w v = Some v' → get π v' = Some w.
Proof.
  revert v v'. induction π as [|s π IH]; intros v v'; simpl; [by intros [= ->]|].
  intros (u & Hu & (u' & Hu' & Hp)%bind_Some)%bind_Some. rewrite (get1_put1 _ _ _ _ Hp). simpl. by eapply IH.
Qed.

Lemma put_put π w w' v v' : put π w v = Some v' → put π w' v' = put π w' v.
Proof.
  revert v v'. induction π as [|s π IH]; intros v v'; simpl; [done|].
  intros (u & Hu & (u' & Hu' & Hp)%bind_Some)%bind_Some. rewrite (get1_put1 _ _ _ _ Hp), Hu. simpl.
  rewrite (IH _ _ Hu'). destruct (put π w' u); simpl; [|done]. by eapply put1_put1.
Qed.

Lemma put_get π w v : get π v = Some w → put π w v = Some v.
Proof.
  revert v. induction π as [|s π IH]; intros v; simpl; [by intros [= ->]|].
  intros (u & Hu & H)%bind_Some. rewrite Hu. simpl. rewrite (IH _ H). simpl. by apply put1_get1.
Qed.

(** A path extended by one step: read and write through the container. *)
Lemma get_app1 π s v : get (π ++ [s]) v = u ← get π v; get1 s u.
Proof.
  revert v. induction π as [|t π IH]; intros v; simpl; [by destruct (get1 s v)|].
  destruct (get1 t v); simpl; [apply IH|done].
Qed.

Lemma put_app1 π s w v u u' : get π v = Some u → put1 s w u = Some u' → put (π ++ [s]) w v = put π u' v.
Proof.
  intros Hu Hp. revert v Hu. induction π as [|t π IH]; intros v; simpl.
  - intros [= ->]. assert (is_Some (get1 s u)) as [x ->]; [|done].
    destruct s, u; simpl in *; try done.
    + apply fmap_Some in Hp as (fs' & Hp & _). clear -Hp. revert fs' Hp.
      induction fs as [|[g v] fs IH]; intros fs'; simpl; [done|].
      destruct (decide _); [by eexists|]. intros (? & H & _)%fmap_Some. by eapply IH.
    + destruct (decide _); [|done]. by apply lookup_lt_is_Some.
  - intros (x & Hx & Hu)%bind_Some. rewrite Hx. simpl. by rewrite (IH _ Hu).
Qed.

(** ** Lemmas: denotations *)
Section ty_rect.
Context (P : ty → Prop).
Hypothesis PStr : P TStr.
Hypothesis PInt : P TInt.
Hypothesis PBool : P TBool.
Hypothesis PPtr : ∀ T, P T → P (TPtr T).
Hypothesis PMap : P TMap.
Hypothesis PSlice : ∀ T, P T → P (TSlice T).
Hypothesis PStruct : ∀ fs, Forall (λ fU, P fU.2) fs → P (TStruct fs).

(** Induction on types, with the hypothesis for every field of a struct. *)
Fixpoint ty_fields_ind (T : ty) : P T :=
  match T with
  | TStr => PStr | TInt => PInt | TBool => PBool
  | TPtr U => PPtr U (ty_fields_ind U)
  | TMap => PMap
  | TSlice U => PSlice U (ty_fields_ind U)
  | TStruct fs => PStruct fs
      ((fix go fs : Forall (λ fU, P fU.2) fs :=
          match fs with
          | [] => Forall_nil_2 _
          | (f, U) :: fs' => Forall_cons_2 _ (f, U) fs' (ty_fields_ind U) (go fs')
          end) fs)
  end.
End ty_rect.

Lemma load_frame σ σ' p : σ' !! base p = σ !! base p → load σ' p = load σ p.
Proof. unfold load, base. by intros ->. Qed.

Lemma window_frame σ σ' l off n : σ' !! l = σ !! l → window σ' l off n = window σ l off n.
Proof. unfold window. by intros ->. Qed.

Lemma load_dom σ p v : load σ p = Some v → base p ∈ dom σ.
Proof. unfold load, base. intros H. apply elem_of_dom. destruct (σ !! p.1) as [c|] eqn:Hc; [|done]. by exists c. Qed.

Lemma window_dom σ l off n us : window σ l off n = Some us → l ∈ dom σ.
Proof. unfold window. intros H. apply elem_of_dom. destruct (σ !! l) as [c|] eqn:Hc; [|done]. by exists c. Qed.

Lemma reach_field σ fts fvs f U u l :
  (f, U) ∈ fts → field_get f fvs = Some u → l ∈ reach U σ u → l ∈ reach (TStruct fts) σ (VStruct fvs).
Proof.
  intros Hin Hg Hl. simpl. apply elem_of_union_list. exists (reach U σ u). split; [|done].
  apply list_elem_of_fmap. exists (f, U). by rewrite Hg.
Qed.

Lemma reach_struct σ fts fvs l :
  l ∈ reach (TStruct fts) σ (VStruct fvs) →
  ∃ f U u, (f, U) ∈ fts ∧ field_get f fvs = Some u ∧ l ∈ reach U σ u.
Proof.
  simpl. intros (X & HX & Hl)%elem_of_union_list.
  apply list_elem_of_fmap in HX as ([f U] & -> & Hin). exists f, U.
  destruct (field_get f fvs) as [u|]; simpl in Hl; [|set_solver]. by exists u.
Qed.

Lemma reach_elem σ U l off n us u l' :
  window σ l off n = Some us → u ∈ us → l' ∈ reach U σ u → l' ∈ reach (TSlice U) σ (VSlice (Some (l, off, n))).
Proof.
  intros Hw Hu Hl. simpl. rewrite Hw. simpl. apply elem_of_union. right.
  apply elem_of_union_list. exists (reach U σ u). split; [|done]. by apply list_elem_of_fmap_2.
Qed.

Lemma mapM_agree {A B} (f g : A → option B) xs :
  (∀ x, x ∈ xs → f x = g x) → mapM f xs = mapM g xs.
Proof.
  induction xs as [|x xs IH]; intros H; [done|]. simpl. rewrite (H x) by left.
  rewrite IH; [done|]. intros y Hy. apply H. by right.
Qed.

(** A denotation depends only on the cells reached. *)
Lemma deep_frame T σ σ' v :
  (∀ l, l ∈ reach T σ v → σ' !! l = σ !! l) →
  deep T σ' v = deep T σ v ∧ reach T σ' v = reach T σ v.
Proof.
  revert v. induction T as [| | |U IH| |U IH|fts IH] using ty_fields_ind; intros v Hag; destruct v; try done.
  - destruct o as [p|]; [|done]. simpl in *. rewrite (load_frame σ σ' p) by (apply Hag; set_solver).
    destruct (load σ p) as [u|]; [|done]. simpl in *.
    destruct (IH u) as [-> ->]; [|done]. intros l Hl. apply Hag. set_solver.
  - destruct o as [l|]; [|done]. simpl in *. by rewrite Hag by set_solver.
  - destruct o as [[[l off] n]|]; [|done]. pose proof (Hag l ltac:(simpl; set_solver)) as Hl. simpl.
    rewrite (window_frame σ σ' l off n Hl). destruct (window σ l off n) as [us|] eqn:Hw; [|done]. simpl.
    assert (∀ u, u ∈ us → deep U σ' u = deep U σ u ∧ reach U σ' u = reach U σ u) as Hus.
    { intros u Hu. apply IH. intros l' Hl'. apply Hag. by eapply reach_elem. }
    rewrite (mapM_agree (deep U σ') (deep U σ)) by (intros; by apply Hus). split; [done|].
    do 2 f_equal. apply list_fmap_ext. intros i u Hu. destruct (Hus u) as [_ Hr]; [by eapply list_elem_of_lookup_2|exact Hr].
  - rewrite Forall_forall in IH.
    assert (∀ f U u, (f, U) ∈ fts → field_get f fs = Some u →
              deep U σ' u = deep U σ u ∧ reach U σ' u = reach U σ u) as Hfs.
    { intros f U u Hin Hu. apply (IH (f, U) Hin). intros l Hl. apply Hag. by eapply reach_field. }
    simpl. split.
    + f_equal. apply mapM_agree. intros [f U] Hin. destruct (field_get f fs) as [u|] eqn:Hu; [|done]. simpl.
      by destruct (Hfs f U u Hin Hu) as [-> _].
    + f_equal. apply list_fmap_ext. intros i [f U] Hin%list_elem_of_lookup_2.
      destruct (field_get f fs) as [u|] eqn:Hu; [|done]. simpl. by destruct (Hfs f U u Hin Hu) as [_ ->].
Qed.

Lemma deep_ptr T σ p v d :
  load σ p = Some v → deep T σ v = Some d → deep (TPtr T) σ (VPtr (Some p)) = Some (DPtr (Some d)).
Proof. intros Hv Hd. simpl. rewrite Hv. simpl. by rewrite Hd. Qed.

(** Everything reached by a value that denotes is in the store. *)
Lemma reach_dom T σ v d : deep T σ v = Some d → reach T σ v ⊆ dom σ.
Proof.
  revert v d. induction T as [| | |U IH| |U IH|fts IH] using ty_fields_ind; intros v d Hd; destruct v;
    try (simpl; set_solver).
  - destruct o as [p|]; [|simpl; set_solver]. simpl in *.
    apply bind_Some in Hd as (u & Hu & (d' & Hd & _)%bind_Some). rewrite Hu. simpl.
    pose proof (load_dom _ _ _ Hu). pose proof (IH _ _ Hd). set_solver.
  - destruct o as [l|]; [|simpl; set_solver]. simpl in *.
    assert (l ∈ dom σ); [|set_solver]. apply elem_of_dom. destruct (σ !! l) as [c|] eqn:Hc; [|done]. by exists c.
  - destruct o as [[[l off] n]|]; [|simpl; set_solver]. simpl in *.
    apply bind_Some in Hd as (us & Hw & (ds & Hds & _)%bind_Some). rewrite Hw. simpl.
    pose proof (window_dom _ _ _ _ _ Hw). apply union_subseteq; split; [set_solver|].
    intros l' (X & HX & Hl')%elem_of_union_list. apply list_elem_of_fmap in HX as (u & -> & Hu).
    apply mapM_Some in Hds. apply list_elem_of_lookup in Hu as [i Hi].
    destruct (Forall2_lookup_l _ _ _ _ _ Hds Hi) as (d' & _ & Hd'). by eapply IH.
  - rewrite Forall_forall in IH. intros l (f & U & u & Hin & Hu & Hl)%reach_struct.
    simpl in Hd. apply bind_Some in Hd as (ds & Hds & _). apply mapM_Some in Hds.
    apply list_elem_of_lookup in Hin as Hi. destruct Hi as [i Hi].
    destruct (Forall2_lookup_l _ _ _ _ _ Hds Hi) as (d' & _ & Hd'). simpl in Hd'. rewrite Hu in Hd'. simpl in Hd'.
    apply bind_Some in Hd' as (d'' & Hd'' & _). by eapply (IH (f, U) Hin).
Qed.

(** A flat value denotes the same everywhere and reaches nothing. *)
Lemma flat_reach T σ v : flat T = true → reach T σ v = ∅.
Proof.
  revert v. induction T as [| | |U IH| |U IH|fts IH] using ty_fields_ind; intros v Hf; try done; try by destruct v.
  destruct v; try done. apply set_eq. intros l. split; [|set_solver].
  intros (f & U & u & Hin & Hu & Hl)%reach_struct. rewrite Forall_forall in IH. simpl in Hf.
  rewrite forallb_forall in Hf. specialize (Hf (f, U) (proj1 (list_elem_of_In _ _) Hin)). simpl in Hf.
  by rewrite (IH (f, U) Hin) in Hl.
Qed.

Lemma flat_deep T σ σ' v : flat T = true → deep T σ' v = deep T σ v.
Proof. intros Hf. apply deep_frame. intros l. rewrite flat_reach by done. set_solver. Qed.

(** ** Updates of a store

    [updated σ p u σ']: [σ'] is [σ] with [*p = u] and possibly new cells. *)
Definition updated (σ : store) (p : ptr) (u : val) (σ' : store) : Prop :=
  (∀ l, l ∈ dom σ → l ≠ base p → σ' !! l = σ !! l) ∧
  ∃ w w', σ !! base p = Some (CVal w) ∧ put p.2 u w = Some w' ∧ σ' !! base p = Some (CVal w').

Lemma updated_load σ p u σ' : updated σ p u σ' → load σ' p = Some u.
Proof. intros (_ & w & w' & _ & Hput & Hb). unfold load, base in *. rewrite Hb. by eapply get_put. Qed.

Lemma load_cell σ p u : load σ p = Some u → ∃ w, σ !! base p = Some (CVal w) ∧ get p.2 w = Some u.
Proof.
  unfold load, base. intros H. destruct (σ !! p.1) as [c|] eqn:Hc; [|done].
  destruct c as [w|m]; [|done]. by exists w.
Qed.

Lemma updated_refl σ p u : load σ p = Some u → updated σ p u σ.
Proof. intros (w & Hw & Hg)%load_cell. split; [done|]. exists w, w. split; [done|]. split; [by apply put_get|done]. Qed.

Lemma updated_dom σ p u σ' : updated σ p u σ' → dom σ ⊆ dom σ'.
Proof.
  intros (Hag & w & w' & _ & _ & Hb) l Hl. destruct (decide (l = base p)) as [->|Hne].
  - apply elem_of_dom. by eexists.
  - apply elem_of_dom. rewrite (Hag l Hl Hne). by apply elem_of_dom.
Qed.

Lemma updated_trans σ p u u' σ1 σ2 : updated σ p u σ1 → updated σ1 p u' σ2 → updated σ p u' σ2.
Proof.
  intros H1 (Hag2 & w1' & w2 & Hb1' & Hput2 & Hb2). pose proof (updated_dom _ _ _ _ H1) as Hdom.
  destruct H1 as (Hag1 & w & w1 & Hb & Hput1 & Hb1). rewrite Hb1 in Hb1'. injection Hb1' as <-.
  split. { intros l Hl Hne. rewrite Hag2; [by apply Hag1|by apply Hdom|done]. }
  exists w, w2. split; [done|]. split; [|done]. by rewrite <- (put_put _ _ u' _ _ Hput1).
Qed.

(** Cells that are new to [σ] may change freely. *)
Lemma updated_weaken σ p u σ1 σ2 :
  updated σ p u σ1 → (∀ l, l ∈ dom σ → σ2 !! l = σ1 !! l) → updated σ p u σ2.
Proof.
  intros (Hag & w & w' & Hb & Hput & Hb') H. split. { intros l Hl Hne. rewrite H by done. by apply Hag. }
  exists w, w'. split; [done|]. split; [done|]. rewrite H; [done|]. apply elem_of_dom. by eexists.
Qed.

Lemma updated_cell σ p u σ' l : updated σ p u σ' → l ∈ dom σ → l ≠ base p → σ' !! l = σ !! l.
Proof. intros [Hag _]. apply Hag. Qed.

Lemma updated_other σ p u σ' q v : updated σ p u σ' → base q ≠ base p → load σ q = Some v → load σ' q = Some v.
Proof.
  intros [Hag _] Hne Hq. rewrite (load_frame σ σ' q); [done|]. apply Hag; [by eapply load_dom|done].
Qed.

Lemma updated_deep σ p u σ' T v d :
  updated σ p u σ' → deep T σ v = Some d → base p ∉ reach T σ v →
  deep T σ' v = Some d ∧ reach T σ' v = reach T σ v.
Proof.
  intros [Hag _] Hd Hp. rewrite <- Hd. apply deep_frame. intros l Hl. apply Hag.
  - by eapply reach_dom.
  - by intros ->.
Qed.

(** Writing a part of [*p] updates [*p]. *)
Lemma updated_sub σ p s x u u' σ' :
  load σ p = Some u → put1 s x u = Some u' → updated σ (sub p s) x σ' → updated σ p u' σ'.
Proof.
  intros (w0 & Hw0 & Hg)%load_cell Hp (Hag & w & w' & Hb & Hput & Hb'). split; [done|].
  exists w, w'. change (base (sub p s)) with (base p) in *. split; [done|]. split; [|done].
  rewrite Hb in Hw0. injection Hw0 as <-. rewrite <- Hput. symmetry. by apply (put_app1 p.2 s x w u u').
Qed.

Lemma load_sub σ p s u : load σ p = Some u → load σ (sub p s) = get1 s u.
Proof.
  intros (w & Hw & Hg)%load_cell. unfold load, base in *. simpl. rewrite Hw. by rewrite get_app1, Hg.
Qed.

Lemma Store_updated σ p v w : load σ p = Some v →
  ∃ σ', Store p w σ = Some ((), σ') ∧ updated σ p w σ' ∧ dom σ' = dom σ.
Proof.
  intros (x & Hx & Hg)%load_cell. unfold Store, base in *. rewrite Hx.
  destruct (put_is_Some p.2 w x) as [x' Hx']; [by eexists|]. rewrite Hx'. simpl.
  eexists. split; [done|]. split; [split|].
  - intros l Hl Hne. by apply lookup_insert_ne.
  - exists x, x'. split; [done|]. split; [done|]. apply lookup_insert_eq.
  - rewrite dom_insert_L. assert (p.1 ∈ dom σ); [|set_solver]. apply elem_of_dom. by exists (CVal x).
Qed.

(** A new cell [c], whose address is stored in [*p]. *)
Lemma alloc_Store σ p v c w :
  load σ p = Some v →
  ∃ σ', Store p w (<[fresh (dom σ) := c]> σ) = Some ((), σ') ∧ updated σ p w σ' ∧
        σ' !! fresh (dom σ) = Some c ∧ dom σ' = {[ fresh (dom σ) ]} ∪ dom σ.
Proof.
  intros Hp. set (l := fresh (dom σ)). assert (l ∉ dom σ) as Hl by apply is_fresh.
  pose proof (load_dom _ _ _ Hp) as Hpd. assert (l ≠ base p) as Hne by (by intros ->).
  destruct (Store_updated (<[l := c]> σ) p v w) as (σ' & Hs & Hu & Hd).
  { rewrite (load_frame σ); [done|]. by apply lookup_insert_ne. }
  exists σ'. split; [done|]. rewrite dom_insert_L in Hd. split; [|split; [|done]].
  - destruct Hu as (Hag & x & x' & Hx & Hput & Hx'). split.
    + intros l' Hl' Hne'. rewrite Hag; [|set_solver|done]. apply lookup_insert_ne. by intros ->.
    + rewrite lookup_insert_ne in Hx by done. by exists x, x'.
  - rewrite (updated_cell _ _ _ _ l Hu); [apply lookup_insert_eq| |done]. rewrite dom_insert_L. set_solver.
Qed.

(** ** Correct copiers

    [copied T d σ p σ']: from [σ] to [σ'], [*p] became a value denoting [d]
    whose references are all new. *)
Definition copied (T : ty) (d : dval) (σ : store) (p : ptr) (σ' : store) : Prop :=
  ∃ u, updated σ p u σ' ∧ deep T σ' u = Some d ∧ reach T σ' u ## dom σ.

(** A copier for [T] between two variables that do not overlap, under a
    relation [P] between the source and what the target held before. *)
Definition copies (P : val → val → Prop) (T : ty) (c : copier) : Prop :=
  ∀ σ in_ out v u d,
    load σ in_ = Some v → load σ out = Some u → P v u → deep T σ v = Some d →
    base in_ ≠ base out → base out ∉ reach T σ v →
    ∃ σ', c in_ out σ = Some ((), σ') ∧ copied T d σ out σ'.

Definition anything (v u : val) : Prop := True.

(** What [*out = *in] leaves in the fields of [out]. *)
Definition same (v u : val) : Prop := u = v.

(** ** The idioms are correct *)
Lemma Load_run σ p v : load σ p = Some v → Load p σ = Some (v, σ).
Proof. unfold Load. by intros ->. Qed.

Lemma bind_run {A B} (m : M A) (k : A → M B) σ a σ' : m σ = Some (a, σ') → (m ≫= k) σ = k a σ'.
Proof. unfold mbind, M_bind. by intros ->. Qed.

Lemma New_run σ v : New v σ = Some ((fresh (dom σ), []), <[fresh (dom σ) := CVal v]> σ).
Proof. done. Qed.
Lemma MakeMap_run σ : MakeMap σ = Some (fresh (dom σ), <[fresh (dom σ) := CMap ∅]> σ).
Proof. done. Qed.

Lemma LoadPtr_run σ p o : load σ p = Some (VPtr o) → LoadPtr p σ = Some (o, σ).
Proof. intros H. unfold LoadPtr. by rewrite (bind_run _ _ _ _ _ (Load_run _ _ _ H)). Qed.
Lemma LoadMap_run σ p o : load σ p = Some (VMap o) → LoadMap p σ = Some (o, σ).
Proof. intros H. unfold LoadMap. by rewrite (bind_run _ _ _ _ _ (Load_run _ _ _ H)). Qed.
Lemma LoadSlice_run σ p o : load σ p = Some (VSlice o) → LoadSlice p σ = Some (o, σ).
Proof. intros H. unfold LoadSlice. by rewrite (bind_run _ _ _ _ _ (Load_run _ _ _ H)). Qed.

Lemma copies_weaken (P Q : val → val → Prop) T c : (∀ v u, Q v u → P v u) → copies P T c → copies Q T c.
Proof. intros HPQ Hc σ in_ out v u d Hin Hout HQ. eapply Hc; eauto. Qed.

(** [*out = *in] is a deep copy at a type without references. *)
Lemma assign_run σ in_ out v u :
  load σ in_ = Some v → load σ out = Some u →
  ∃ σ', assign in_ out σ = Some ((), σ') ∧ updated σ out v σ' ∧ dom σ' = dom σ.
Proof.
  intros Hin Hout. unfold assign. rewrite (bind_run _ _ _ _ _ (Load_run _ _ _ Hin)).
  by eapply Store_updated.
Qed.

Lemma assign_copies T : flat T = true → copies anything T assign.
Proof.
  intros Hf σ in_ out v u d Hin Hout _ Hd _ _.
  destruct (assign_run σ in_ out v u Hin Hout) as (σ' & Hrun & Hu & _). exists σ'. split; [done|].
  exists v. split; [done|]. rewrite (flat_deep T σ σ' v Hf), flat_reach by done. split; [done|set_solver].
Qed.

Definition reference (T : ty) : bool := match T with TPtr _ | TMap | TSlice _ => true | _ => false end.

(** A nil reference is copied by the assignment of the whole struct. *)
Lemma when_set_copies T c :
  reference T = true →
  copies (λ v u, is_nil v = false) T c → copies same T (when_set c).
Proof.
  intros HT Hc σ in_ out v u d Hin Hout Hsame Hd Hne Hr. unfold same in Hsame. subst u. unfold when_set.
  rewrite (bind_run _ _ _ _ _ (Load_run _ _ _ Hin)). destruct (is_nil v) eqn:Hv; [|by eapply Hc].
  exists σ. split; [done|]. exists v. split; [by apply updated_refl|]. split; [done|].
  destruct T, v as [| | |[]|[]|[[[]]|]| |]; set_solver.
Qed.

Lemma new_into_copies T f :
  copies anything T f → copies (λ v u, is_nil v = false) (TPtr T) (new_into T f).
Proof.
  intros Hf σ in_ out v u d Hin Hout Hv Hd Hne Hr. destruct v as [| | |[p|]| | | |]; try done. clear Hv.
  simpl in Hd. apply bind_Some in Hd as (x & Hx & (d' & Hd & [= <-])%bind_Some).
  simpl in Hr. rewrite Hx in Hr. simpl in Hr. apply not_elem_of_union in Hr as [Hp Hr].
  rewrite not_elem_of_singleton in Hp.
  destruct (alloc_Store σ out u (CVal (zero T)) (VPtr (Some (fresh (dom σ), []))) Hout) as (σ2 & Hst & Hu2 & Hl & Hd2).
  set (l := fresh (dom σ)) in *. assert (l ∉ dom σ) as Hfresh by apply is_fresh.
  destruct (updated_deep _ _ _ _ _ _ _ Hu2 Hd Hr) as [Hdx Hrx].
  pose proof (load_dom _ _ _ Hx) as Hpd. pose proof (reach_dom _ _ _ _ Hd) as Hrd.
  destruct (Hf σ2 p (l, []) x (zero T) d') as (σ3 & Hrun & y & Hu3 & Hdy & Hry).
  { by eapply updated_other. }
  { unfold load. simpl. by rewrite Hl. }
  { done. }
  { done. }
  { intros Heq. apply Hfresh. by rewrite <- (Heq : base p = l). }
  { rewrite Hrx. unfold base. simpl. set_solver. }
  exists σ3. split.
  - unfold new_into. rewrite (bind_run _ _ _ _ _ (New_run σ (zero T))). fold l.
    rewrite (bind_run _ _ _ _ _ Hst).
    rewrite (bind_run (LoadPtr in_ ≫= nonnil) _ _ p σ2)
      by (rewrite (bind_run _ _ _ _ _ (LoadPtr_run _ _ _ (updated_other _ _ _ _ _ _ Hu2 Hne Hin))); done).
    rewrite (bind_run (LoadPtr out ≫= nonnil) _ _ (l, []) σ2)
      by (rewrite (bind_run _ _ _ _ _ (LoadPtr_run _ _ _ (updated_load _ _ _ _ Hu2))); done).
    done.
  - exists (VPtr (Some (l, []))). pose proof (updated_load _ _ _ _ Hu3) as Hly. split; [|split].
    + apply (updated_weaken _ _ _ _ _ Hu2). intros l' Hl'. apply (updated_cell _ _ _ _ _ Hu3); [set_solver|].
      unfold base. simpl. by intros ->.
    + simpl. by rewrite Hly; simpl; rewrite Hdy.
    + simpl. rewrite Hly. simpl. set_solver.
Qed.

(** The loop of a map copy inserts every entry once. *)
Lemma map_loop σ out r m kvs :
  load σ out = Some (VMap (Some r)) → σ !! r = Some (CMap m) → base out ≠ r →
  loop (λ kv, r' ← (LoadMap out ≫= nonnil); MapPut r' kv.1 kv.2) kvs σ
  = Some ((), <[r := CMap (insert_all m kvs)]> σ).
Proof.
  intros Hout Hr Hne. revert m σ Hout Hr. induction kvs as [|[k v] kvs IH]; intros m σ Hout Hr.
  - simpl. by rewrite insert_id.
  - cbn [loop]. rewrite (bind_run _ _ σ () (<[r := CMap (<[k := v]> m)]> σ)).
    + rewrite (IH (<[k := v]> m)); [by rewrite insert_insert_eq| |apply lookup_insert_eq].
      rewrite (load_frame σ); [done|]. by rewrite lookup_insert_ne.
    + rewrite (bind_run (LoadMap out ≫= nonnil) _ _ r σ)
        by (rewrite (bind_run _ _ _ _ _ (LoadMap_run _ _ _ Hout)); done).
      unfold MapPut. by rewrite Hr.
Qed.

Lemma insert_all_range (ord : MapOrder) (m : gmap string string) : insert_all ∅ (range ord m) = m.
Proof.
  apply map_eq. intros k. destruct (m !! k) as [v|] eqn:Hk.
  - apply insert_all_in; [apply range_keys_NoDup|]. by apply range_elem.
  - rewrite insert_all_not_in; [done|]. intros ([k' v] & -> & Hin)%list_elem_of_fmap.
    apply range_elem in Hin. simpl in Hk. congruence.
Qed.

Lemma make_map_copies ord : copies (λ v u, is_nil v = false) TMap (make_map ord).
Proof.
  intros σ in_ out v u d Hin Hout Hv Hd Hne Hr. destruct v as [| | | |[r|]| | |]; try done. clear Hv.
  simpl in Hd. destruct (σ !! r) as [[|m]|] eqn:Hrc; [done| |done]. injection Hd as <-.
  assert (r ∈ dom σ) as Hrd by (apply elem_of_dom; by eexists).
  destruct (alloc_Store σ out u (CMap ∅) (VMap (Some (fresh (dom σ)))) Hout) as (σ2 & Hst & Hu2 & Hl & Hd2).
  set (l := fresh (dom σ)) in *. assert (l ∉ dom σ) as Hfresh by apply is_fresh.
  pose proof (load_dom _ _ _ Hout) as Hod. simpl in Hr.
  exists (<[l := CMap m]> σ2). split.
  - unfold make_map. rewrite (bind_run _ _ _ _ _ (MakeMap_run σ)). fold l.
    rewrite (bind_run _ _ _ _ _ Hst).
    rewrite (bind_run _ _ _ _ _ (LoadMap_run _ _ _ (updated_other _ _ _ _ _ _ Hu2 Hne Hin))).
    rewrite (bind_run _ _ _ m σ2).
    + rewrite (map_loop σ2 out l ∅); [by rewrite insert_all_range|by eapply updated_load|done|].
      intros Heq. apply Hfresh. by rewrite <- Heq.
    + unfold MapEntries. rewrite (updated_cell _ _ _ _ r Hu2) by (try done; set_solver). by rewrite Hrc.
  - exists (VMap (Some l)). split; [|split].
    + apply (updated_weaken _ _ _ _ _ Hu2). intros l' Hl'. apply lookup_insert_ne. by intros ->.
    + simpl. by rewrite lookup_insert_eq.
    + simpl. set_solver.
Qed.

Lemma NoDup_fst_inj {A B} (l : list (A * B)) a b b' : NoDup l.*1 → (a, b) ∈ l → (a, b') ∈ l → b = b'.
Proof.
  intros Hnd [i Hi]%list_elem_of_lookup [j Hj]%list_elem_of_lookup.
  assert (i = j) as ->; [|by simplify_eq].
  eapply NoDup_lookup; [exact Hnd|by rewrite list_lookup_fmap, Hi|by rewrite list_lookup_fmap, Hj].
Qed.

(** ** Copying a struct: one assignment, then its fields one by one *)
Section StructCopy.
Context (fts : list (string * ty)) (σ0 : store) (in_ out : ptr) (fvs : list (string * val)) (d : dval).
Hypothesis Hnd : NoDup fts.*1.
Hypothesis Hin : load σ0 in_ = Some (VStruct fvs).
Hypothesis Hd : deep (TStruct fts) σ0 (VStruct fvs) = Some d.
Hypothesis Hne : base in_ ≠ base out.
Hypothesis Hr : base out ∉ reach (TStruct fts) σ0 (VStruct fvs).

(** The fields in [proc] are deep copies, the others still share. *)
Definition struct_inv (proc : list string) (σ : store) : Prop :=
  ∃ u, updated σ0 out (VStruct u) σ ∧
    ∀ f T, (f, T) ∈ fts → ∃ x y dx,
      field_get f fvs = Some x ∧ field_get f u = Some y ∧ deep T σ0 x = Some dx ∧
      if decide (f ∈ proc) then deep T σ y = Some dx ∧ reach T σ y ## dom σ0 else y = x.

Lemma struct_field f T : (f, T) ∈ fts → ∃ x dx, field_get f fvs = Some x ∧ deep T σ0 x = Some dx.
Proof.
  intros Hft. pose proof Hd as Hd'. simpl in Hd'. apply bind_Some in Hd' as (ds & Hds & _).
  apply mapM_Some in Hds. apply list_elem_of_lookup in Hft as [i Hi].
  destruct (Forall2_lookup_l _ _ _ _ _ Hds Hi) as (d' & _ & Hd'). simpl in Hd'.
  apply bind_Some in Hd' as (x & Hx & (dx & Hdx & _)%bind_Some). by exists x, dx.
Qed.

Lemma struct_start u : load σ0 out = Some u → ∃ σ, assign in_ out σ0 = Some ((), σ) ∧ struct_inv [] σ.
Proof.
  intros Hout. destruct (assign_run σ0 in_ out _ u Hin Hout) as (σ & Hrun & Hu & _).
  exists σ. split; [done|]. exists fvs. split; [done|]. intros f T Hft.
  destruct (struct_field f T Hft) as (x & dx & Hx & Hdx). exists x, x, dx. done.
Qed.

Lemma struct_step proc σ f T g :
  struct_inv proc σ → (f, T) ∈ fts → f ∉ proc → copies same T g →
  ∃ σ', at_field f g in_ out σ = Some ((), σ') ∧ struct_inv (f :: proc) σ'.
Proof.
  intros (u & Hu & Hall) Hft Hf Hg. destruct (Hall f T Hft) as (x & y & dx & Hx & Hy & Hdx & Hxy).
  rewrite decide_False in Hxy by done. subst y.
  pose proof (reach_field σ0 fts fvs f T x) as Hrf.
  destruct (updated_deep _ _ _ _ T x dx Hu Hdx) as [Hdx' Hrx]; [by intros ?; apply Hr, Hrf|].
  pose proof (updated_other _ _ _ _ _ _ Hu Hne Hin) as Hin'. pose proof (updated_load _ _ _ _ Hu) as Hout.
  destruct (Hg σ (fld in_ f) (fld out f) x x dx) as (σ' & Hrun & y & Hu' & Hdy & Hry); try done.
  { unfold fld. by rewrite (load_sub _ _ _ _ Hin'). }
  { unfold fld. by rewrite (load_sub _ _ _ _ Hout). }
  { rewrite Hrx. intros ?. by apply Hr, Hrf. }
  exists σ'. split; [done|].
  destruct (field_put_is_Some f y u) as [u' Hu'']; [by eexists|].
  assert (updated σ out (VStruct u') σ') as Hup.
  { eapply updated_sub; [done| |done]. simpl. by rewrite Hu''. }
  exists u'. split; [by eapply updated_trans|]. intros f' T' Hft'.
  destruct (Hall f' T' Hft') as (x' & y' & dx' & Hx' & Hy' & Hdx'' & Hrest).
  destruct (decide (f = f')) as [<-|Hff].
  - assert (T' = T) as -> by (by eapply NoDup_fst_inj).
    exists x, y, dx. split_and!; [done|by eapply field_get_put|done|]. rewrite decide_True by left.
    split; [done|]. pose proof (updated_dom _ _ _ _ Hu). set_solver.
  - exists x', y', dx'. split_and!; [done| |done|].
    { rewrite (field_get_put_ne _ _ _ _ _ Hff Hu''). done. }
    destruct (decide (f' ∈ proc)) as [Hp|Hp].
    + rewrite decide_True by (by right). destruct Hrest as [Hdy' Hry'].
      assert (base out ∉ reach T' σ y') as Hbo.
      { destruct Hu as (_ & w & w' & Hb & _). assert (base out ∈ dom σ0) by (apply elem_of_dom; by eexists). set_solver. }
      by destruct (updated_deep _ _ _ _ _ _ _ Hup Hdy' Hbo) as [-> ->].
    + rewrite decide_False; [done|]. intros [->|?]%elem_of_cons; done.
Qed.

Lemma struct_end proc σ :
  struct_inv proc σ → (∀ f T, (f, T) ∈ fts → f ∈ proc ∨ flat T = true) →
  copied (TStruct fts) d σ0 out σ.
Proof.
  intros (u & Hu & Hall) Hcov. exists (VStruct u). split; [done|].
  assert (∀ f T, (f, T) ∈ fts → ∃ x y, field_get f fvs = Some x ∧ field_get f u = Some y ∧
            deep T σ y = deep T σ0 x ∧ reach T σ y ## dom σ0) as Hf.
  { intros f T Hft. destruct (Hall f T Hft) as (x & y & dx & Hx & Hy & Hdx & Hrest). exists x, y.
    split_and!; [done|done|..]; (destruct (decide (f ∈ proc)) as [|Hp]; [destruct Hrest; by try congruence|subst y]);
      (destruct (Hcov f T Hft) as [|Hfl]; [done|]).
    - by apply flat_deep.
    - rewrite flat_reach by done. set_solver. }
  split.
  - rewrite <- Hd. simpl. f_equal. apply mapM_agree. intros [f T] Hft.
    destruct (Hf f T Hft) as (x & y & -> & -> & Heq & _). simpl. by rewrite Heq.
  - intros l Hl Hl0. apply reach_struct in Hl as (f & T & y & Hft & Hy & Hl).
    destruct (Hf f T Hft) as (x & y' & _ & Hy' & _ & Hdis). rewrite Hy in Hy'. injection Hy' as <-. by apply (Hdis l).
Qed.
End StructCopy.

(** ** Copying a slice: a new array, filled element by element *)
Section SliceCopy.
Context (U : ty) (σ0 : store) (in_ out : ptr) (l k : loc) (off n : nat) (us : list val) (ds : list dval).
Hypothesis Hin : load σ0 in_ = Some (VSlice (Some (l, off, n))).
Hypothesis Hout : load σ0 out = Some (VSlice (Some (k, 0, n))).
Hypothesis Hw : window σ0 l off n = Some us.
Hypothesis Hds : mapM (deep U σ0) us = Some ds.
Hypothesis Hkl : k ≠ l.
Hypothesis Hkr : ∀ u, u ∈ us → k ∉ reach U σ0 u.
Hypothesis Hkin : base in_ ≠ k.
Hypothesis Hkout : base out ≠ k.
Hypothesis Hkd : k ∈ dom σ0.

(** The first [i] elements of the new array are deep copies. *)
Definition slice_inv (i : nat) (σ : store) : Prop :=
  (∀ l', l' ∈ dom σ0 → l' ≠ k → σ !! l' = σ0 !! l') ∧
  ∃ ws, σ !! k = Some (CVal (VArr ws)) ∧ length ws = n ∧
    ∀ j w, j < i → ws !! j = Some w → deep U σ w = ds !! j ∧ reach U σ w ## dom σ0.

Lemma window_length : length us = n.
Proof using Hw.
  clear -Hw. unfold window in Hw. destruct (σ0 !! l) as [[[]|]|]; try done. destruct (decide _); [|done].
  injection Hw as <-. rewrite length_take, length_drop. lia.
Qed.

Lemma elems_length : length ds = n.
Proof using Hw Hds.
  rewrite <- window_length. symmetry. eapply Forall2_length, mapM_Some, Hds.
Qed.

Lemma window_elem σ i u : σ !! l = σ0 !! l → us !! i = Some u → load σ (l, [Idx (off + i)]) = Some u.
Proof.
  intros Hl Hu. unfold window in Hw. unfold load. simpl. rewrite Hl.
  destruct (σ0 !! l) as [[[]|]|]; try done. destruct (decide _); [|done]. injection Hw as <-.
  apply lookup_take_Some in Hu as [Hu _]. rewrite lookup_drop in Hu. simpl. by rewrite Hu.
Qed.

Lemma slice_loads σ i : slice_inv i σ →
  load σ in_ = Some (VSlice (Some (l, off, n))) ∧ load σ out = Some (VSlice (Some (k, 0, n))) ∧ σ !! l = σ0 !! l.
Proof.
  intros [Hag _]. pose proof (load_dom _ _ _ Hin). pose proof (load_dom _ _ _ Hout).
  pose proof (window_dom _ _ _ _ _ Hw).
  split; [|split]; [rewrite (load_frame σ0)|rewrite (load_frame σ0)|]; auto.
Qed.

Lemma slice_elem i u : us !! i = Some u → ∃ d, ds !! i = Some d ∧ deep U σ0 u = Some d.
Proof.
  intros Hu. destruct (Forall2_lookup_l _ _ _ i u (proj1 (mapM_Some _ _ _) Hds) Hu) as (d & ? & ?). by exists d.
Qed.

Lemma slice_inv_deep σ i u d : slice_inv i σ → u ∈ us → deep U σ0 u = Some d →
  deep U σ u = Some d ∧ reach U σ u = reach U σ0 u.
Proof.
  intros [Hag _] Hu Hd. rewrite <- Hd. apply deep_frame. intros l' Hl'. apply Hag.
  - by eapply reach_dom.
  - intros ->. by eapply Hkr.
Qed.

Lemma slice_step σ i u f :
  slice_inv i σ → us !! i = Some u → copies anything U f →
  ∃ σ', f (l, [Idx (off + i)]) (k, [Idx i]) σ = Some ((), σ') ∧ slice_inv (S i) σ'.
Proof.
  intros Hinv Hu Hf. pose proof (list_elem_of_lookup_2 _ _ _ Hu) as Hmem.
  destruct (slice_elem i u Hu) as (d & Hdi & Hd).
  destruct (slice_inv_deep σ i u d Hinv Hmem Hd) as [Hdu Hru].
  destruct (slice_loads σ i Hinv) as (_ & _ & Hl). destruct Hinv as (Hag & ws & Hk & Hlen & Hall).
  assert (i < n) as Hi by (rewrite <- window_length; by eapply lookup_lt_Some).
  destruct (lookup_lt_is_Some_2 ws i) as [w Hwi]; [lia|].
  destruct (Hf σ (l, [Idx (off + i)]) (k, [Idx i]) u w d) as (σ' & Hrun & y & Hup & Hdy & Hry).
  { by apply window_elem. }
  { unfold load. simpl. rewrite Hk. simpl. by rewrite Hwi. }
  { done. }
  { done. }
  { unfold base. simpl. done. }
  { rewrite Hru. unfold base. simpl. by apply Hkr. }
  assert (dom σ0 ⊆ dom σ) as Hdom.
  { intros l' Hl'. destruct (decide (l' = k)) as [->|Hne]; apply elem_of_dom; [by eexists|].
    rewrite Hag by done. by apply elem_of_dom. }
  exists σ'. split; [done|]. destruct Hup as (Hag' & x & x' & Hx & Hput & Hx'). unfold base in *. simpl in *.
  split. { intros l' Hl' Hne. rewrite Hag'; [by apply Hag|set_solver|done]. }
  rewrite Hk in Hx. injection Hx as <-. simpl in Hput. rewrite Hwi in Hput. simpl in Hput.
  rewrite decide_True in Hput by lia. injection Hput as <-. exists (<[i := y]> ws).
  split; [done|]. split; [by rewrite length_insert|]. intros j w' Hj Hw'.
  destruct (decide (i = j)) as [<-|Hij].
  - rewrite list_lookup_insert_eq in Hw' by lia. injection Hw' as <-. rewrite Hdi. split; [done|set_solver].
  - rewrite list_lookup_insert_ne in Hw' by done. destruct (Hall j w') as [Hdj Hrj]; [lia|done|].
    destruct (deep_frame U σ σ' w') as [Hd1 Hd2].
    { intros l' Hl'. destruct (lookup_lt_is_Some_2 ds j) as [dj Hdsj].
      { rewrite elems_length. lia. }
      rewrite Hdsj in Hdj. apply Hag'; [by eapply reach_dom|]. intros ->. by eapply Hrj. }
    rewrite Hd1, Hd2. done.
Qed.

Lemma slice_end σ :
  slice_inv n σ →
  deep (TSlice U) σ (VSlice (Some (k, 0, n))) = Some (DSlice (Some ds)) ∧
  ∀ l', l' ∈ reach (TSlice U) σ (VSlice (Some (k, 0, n))) → l' = k ∨ l' ∉ dom σ0.
Proof using Hw Hds.
  clear -Hw Hds.
  intros (Hag & ws & Hk & Hlen & Hall).
  assert (window σ k 0 n = Some ws) as Hws.
  { unfold window. rewrite Hk. rewrite decide_True by lia. simpl. by rewrite drop_0, take_ge by lia. }
  simpl. rewrite Hws. simpl. split.
  - assert (mapM (deep U σ) ws = Some ds) as ->; [|done]. apply mapM_Some, Forall2_same_length_lookup_2; [by rewrite elems_length|].
    intros j w d Hw' Hdj. destruct (Hall j w) as [-> _]; [apply lookup_lt_Some in Hw'; lia|done|done].
  - intros l' [?%elem_of_singleton|(X & HX & Hl')%elem_of_union_list]%elem_of_union; [by left|right].
    apply list_elem_of_fmap in HX as (w & -> & [j Hj]%list_elem_of_lookup).
    destruct (Hall j w) as [_ Hr]; [apply lookup_lt_Some in Hj; lia|done|]. intros Hl0. by apply (Hr l').
Qed.

(** The loop [for i := range *in]. *)
Lemma each_loop f i m σ :
  copies anything U f → i + m = n → slice_inv i σ →
  ∃ σ', loop (λ i, p ← (LoadSlice in_ ≫= λ s, slice_at s i);
                   r ← (LoadSlice out ≫= λ s, slice_at s i); f p r) (seq i m) σ = Some ((), σ') ∧ slice_inv n σ'.
Proof.
  intros Hf. revert i σ. induction m as [|m IH]; intros i σ Him Hinv.
  - exists σ. split; [done|]. replace n with i by lia. done.
  - destruct (lookup_lt_is_Some_2 us i) as [u Hu]; [rewrite window_length; lia|].
    destruct (slice_step σ i u f Hinv Hu Hf) as (σ1 & Hrun & Hinv1).
    destruct (IH (S i) σ1) as (σ2 & Hrun2 & Hinv2); [lia|done|].
    exists σ2. split; [|done]. cbn [seq loop]. rewrite (bind_run _ _ σ () σ1); [exact Hrun2|].
    destruct (slice_loads σ i Hinv) as (Hli & Hlo & _).
    rewrite (bind_run (LoadSlice in_ ≫= λ s, slice_at s i) _ _ (l, [Idx (off + i)]) σ)
      by (rewrite (bind_run _ _ _ _ _ (LoadSlice_run _ _ _ Hli)); simpl; by rewrite decide_True by lia).
    rewrite (bind_run (LoadSlice out ≫= λ s, slice_at s i) _ _ (k, [Idx i]) σ)
      by (rewrite (bind_run _ _ _ _ _ (LoadSlice_run _ _ _ Hlo)); simpl; by rewrite decide_True by lia).
    done.
Qed.

(** The elementwise writes of [copy], for elements without references. *)
Lemma copy_loop i us' σ :
  flat U = true → drop i us = us' → slice_inv i σ →
  ∃ σ', loop (λ iv, p ← slice_at (Some (k, 0, n)) iv.1; Store p iv.2) (zip (seq i (length us')) us') σ
        = Some ((), σ') ∧ slice_inv n σ'.
Proof.
  intros Hf. revert i σ. induction us' as [|u us' IH]; intros i σ Hdr Hinv.
  - exists σ. split; [done|]. apply (f_equal length) in Hdr. rewrite length_drop, window_length in Hdr. simpl in Hdr.
    destruct Hinv as (Hag & ws & Hk & Hlen & Hall). split; [done|]. exists ws. split; [done|]. split; [done|].
    intros j w Hj. apply Hall. lia.
  - assert (us !! i = Some u) as Hu. { rewrite <- (Nat.add_0_r i), <- lookup_drop. by rewrite Hdr. }
    destruct (slice_step σ i u assign Hinv Hu (assign_copies U Hf)) as (σ1 & Hrun & Hinv1).
    destruct (IH (S i) σ1) as (σ2 & Hrun2 & Hinv2); [|done|].
    { by rewrite <- Nat.add_1_r, <- drop_drop, Hdr. }
    exists σ2. split; [|done]. cbn [length seq zip zip_with loop].
    rewrite (bind_run _ _ σ () σ1); [exact Hrun2|].
    destruct (slice_loads σ i Hinv) as (_ & _ & Hl).
    assert (i < n) by (rewrite <- window_length; by eapply lookup_lt_Some). simpl. rewrite decide_True by lia.
    rewrite (bind_run _ _ σ (k, [Idx i]) σ) by done. simpl. rewrite <- Hrun. symmetry. unfold assign. apply bind_run, Load_run, window_elem; done.
Qed.
End SliceCopy.

(** What the body of a slice copy has to do with the new array. *)
Definition fills (U : ty) (body : copier) : Prop :=
  ∀ σ in_ out l k off n us ds,
    load σ in_ = Some (VSlice (Some (l, off, n))) → load σ out = Some (VSlice (Some (k, 0, n))) →
    window σ l off n = Some us → mapM (deep U σ) us = Some ds → k ≠ l →
    (∀ u, u ∈ us → k ∉ reach U σ u) → base in_ ≠ k → base out ≠ k → k ∈ dom σ →
    slice_inv U σ k n ds 0 σ →
    ∃ σ', body in_ out σ = Some ((), σ') ∧ slice_inv U σ k n ds n σ'.

Lemma each_fills U f : copies anything U f → fills U (each f).
Proof.
  intros Hf σ in_ out l k off n us ds Hin Hout Hw Hds Hkl Hkr Hki Hko Hkd Hinv.
  destruct (each_loop U σ in_ out l k off n us ds Hin Hout Hw Hds Hkl Hkr Hki Hko Hkd f 0 n σ Hf eq_refl Hinv)
    as (σ' & Hrun & Hinv'). exists σ'. split; [|done].
  unfold each. by rewrite (bind_run _ _ _ _ _ (LoadSlice_run _ _ _ Hin)).
Qed.

Lemma copy_fills U : flat U = true → fills U copy_slice.
Proof.
  intros Hf σ in_ out l k off n us ds Hin Hout Hw Hds Hkl Hkr Hki Hko Hkd Hinv.
  destruct (copy_loop U σ in_ out l k off n us ds Hin Hout Hw Hds Hkl Hkr Hki Hko Hkd 0 us σ Hf eq_refl Hinv)
    as (σ' & Hrun & Hinv'). exists σ'. split; [|done].
  unfold copy_slice. rewrite (bind_run _ _ _ _ _ (LoadSlice_run _ _ _ Hin)).
  rewrite (bind_run _ _ _ _ _ (LoadSlice_run _ _ _ Hout)).
  simpl slice_len. rewrite Nat.min_id.
  rewrite (bind_run (LoadElems (Some (l, off, n)) n) _ σ us σ) by (unfold LoadElems; by rewrite Hw). by rewrite (window_length σ l off n us Hw) in Hrun.
Qed.

Lemma make_slice_copies U body :
  fills U body → copies (λ v u, is_nil v = false) (TSlice U) (make_slice U body).
Proof.
  intros Hbody σ in_ out v u d Hin Hout Hv Hd Hne Hr. destruct v as [| | | | |[[[l off] n]|]| |]; try done. clear Hv.
  pose proof Hd as Hd'. simpl in Hd'. apply bind_Some in Hd' as (us & Hw & (ds & Hds & [= <-])%bind_Some).
  destruct (alloc_Store σ out u (CVal (VArr (replicate n (zero U)))) (VSlice (Some (fresh (dom σ), 0, n))) Hout)
    as (σ2 & Hst & Hu2 & Hk & Hd2).
  set (k := fresh (dom σ)) in *. assert (k ∉ dom σ) as Hfresh by apply is_fresh.
  pose proof (load_dom _ _ _ Hout) as Hod. pose proof (load_dom _ _ _ Hin) as Hid.
  pose proof (window_dom _ _ _ _ _ Hw) as Hld.
  assert (l ≠ base out) as Hlo by (intros ->; apply Hr; simpl; set_solver).
  assert (∀ x, x ∈ us → deep U σ2 x = deep U σ x ∧ reach U σ2 x = reach U σ x ∧ reach U σ x ⊆ dom σ) as Hus.
  { intros x Hx. apply list_elem_of_lookup in Hx as Hi. destruct Hi as [i Hi].
    destruct (Forall2_lookup_l _ _ _ _ _ (proj1 (mapM_Some _ _ _) Hds) Hi) as (dx & _ & Hdx).
    destruct (updated_deep _ _ _ _ U x dx Hu2 Hdx) as [-> ->]; [|split; [done|split; [done|by eapply reach_dom]]].
    intros Hb. apply Hr. by eapply reach_elem. }
  destruct (Hbody σ2 in_ out l k off n us ds) as (σ3 & Hrun & Hinv).
  { by eapply updated_other. }
  { by eapply updated_load. }
  { rewrite (window_frame σ σ2); [done|]. by eapply updated_cell. }
  { rewrite <- Hds. apply mapM_agree. intros x Hx. by apply Hus. }
  { intros Heq. apply Hfresh. by rewrite Heq. }
  { intros x Hx. destruct (Hus x Hx) as (_ & -> & Hsub). set_solver. }
  { intros Heq. apply Hfresh. by rewrite <- Heq. }
  { intros Heq. apply Hfresh. by rewrite <- Heq. }
  { rewrite Hd2. set_solver. }
  { split; [done|]. exists (replicate n (zero U)). split; [done|]. split; [by rewrite length_replicate|]. lia. }
  exists σ3. split.
  - unfold make_slice. rewrite (bind_run _ _ _ _ _ (LoadSlice_run _ _ _ Hin)). simpl slice_len.
    rewrite (bind_run _ _ _ _ _ (New_run σ (VArr (replicate n (zero U))))). fold k. simpl fst.
    by rewrite (bind_run _ _ _ _ _ Hst).
  - exists (VSlice (Some (k, 0, n))).
    assert (window σ2 l off n = Some us) as Hw2.
    { rewrite (window_frame σ σ2); [done|]. by eapply updated_cell. }
    assert (mapM (deep U σ2) us = Some ds) as Hds2.
    { rewrite <- Hds. apply mapM_agree. intros x Hx. by apply Hus. }
    destruct (slice_end U σ2 l k off n us ds Hw2 Hds2 σ3 Hinv) as [Hdeep Hreach].
    split; [|split; [done|]].
    + apply (updated_weaken _ _ _ _ _ Hu2). intros l' Hl'. destruct Hinv as [Hag _]. apply Hag; [set_solver|].
      by intros ->.
    + intros l' [->|Hn]%Hreach; [done|]. intros Hl'. apply Hn. rewrite Hd2. set_solver.
Qed.

(** ** [DeepCopy]: a new variable, filled

    [f] returns a pointer to a new variable that denotes what its argument
    points to, shares no cell with anything older, and changes nothing. *)
Definition returns_copy (T : ty) (f : option ptr → M (option ptr)) : Prop :=
  (∀ σ, f None σ = Some (None, σ)) ∧
  ∀ σ p v d, load σ p = Some v → deep T σ v = Some d →
  ∃ q σ', f (Some p) σ = Some (Some q, σ') ∧
    (∀ l, l ∈ dom σ → σ' !! l = σ !! l) ∧
    deep (TPtr T) σ' (VPtr (Some q)) = Some (DPtr (Some d)) ∧
    reach (TPtr T) σ' (VPtr (Some q)) ## dom σ.

Lemma new_copy_correct T into : copies anything T into → returns_copy T (new_copy T into).
Proof.
  intros Hinto. split; [done|]. intros σ p v d Hp Hd. set (q := fresh (dom σ)). assert (q ∉ dom σ) as Hfresh by apply is_fresh.
  set (σ1 := <[q := CVal (zero T)]> σ). pose proof (load_dom _ _ _ Hp) as Hpd.
  pose proof (reach_dom _ _ _ _ Hd) as Hrd.
  assert (∀ l, l ∈ dom σ → σ1 !! l = σ !! l) as Hag.
  { intros l Hl. apply lookup_insert_ne. by intros <-. }
  destruct (deep_frame T σ σ1 v) as [Hd1 Hr1]; [set_solver|].
  destruct (Hinto σ1 p (q, []) v (zero T) d) as (σ' & Hrun & u & Hup & Hdu & Hru).
  { rewrite (load_frame σ); [done|]. by apply Hag. }
  { unfold load, σ1. simpl. by rewrite lookup_insert_eq. }
  { done. }
  { by rewrite Hd1. }
  { intros Heq. apply Hfresh. by rewrite <- (Heq : base p = q). }
  { rewrite Hr1. unfold base. simpl. set_solver. }
  exists (q, []), σ'. split; [|split; [|split]].
  - unfold new_copy. rewrite (bind_run _ _ _ _ _ (New_run σ (zero T))). fold q σ1.
    by rewrite (bind_run _ _ _ _ _ Hrun).
  - intros l Hl. rewrite <- Hag by done. apply (updated_cell _ _ _ _ _ Hup); [unfold σ1; set_solver|].
    unfold base. simpl. by intros ->.
  - simpl. rewrite (updated_load _ _ _ _ Hup). simpl. by rewrite Hdu.
  - simpl. rewrite (updated_load _ _ _ _ Hup). simpl. unfold σ1 in *. set_solver.
Qed.

Lemma store_copy_copies T f :
  returns_copy T f → copies (λ v u, is_nil v = false) (TPtr T) (store_copy f).
Proof.
  intros [_ Hf] σ in_ out v u d Hin Hout Hv Hd Hne Hr. destruct v as [| | |[p|]| | | |]; try done.
  simpl in Hd. apply bind_Some in Hd as (x & Hx & (d' & Hd & [= <-])%bind_Some).
  destruct (Hf σ p x d' Hx Hd) as (q & σ1 & Hrun & Hag & Hdq & Hrq).
  assert (load σ1 out = Some u) as Hout1.
  { rewrite (load_frame σ); [done|]. by eapply Hag, load_dom. }
  destruct (Store_updated σ1 out u (VPtr (Some q)) Hout1) as (σ2 & Hst & Hup & Hdom).
  assert (base out ∉ reach (TPtr T) σ1 (VPtr (Some q))) as Hbo.
  { pose proof (load_dom _ _ _ Hout). set_solver. }
  destruct (updated_deep _ _ _ _ _ _ _ Hup Hdq Hbo) as [Hd2 Hr2].
  exists σ2. split.
  - unfold store_copy. rewrite (bind_run _ _ _ _ _ (LoadPtr_run _ _ _ Hin)).
    by rewrite (bind_run _ _ _ _ _ Hrun).
  - exists (VPtr (Some q)). split; [|split; [done|by rewrite Hr2]].
    destruct (load_cell _ _ _ Hout) as (w & Hw & _). pose proof (load_dom _ _ _ Hout) as Hod.
    destruct Hup as (Hag2 & w1 & w2 & Hw1 & Hput & Hw2). rewrite Hag in Hw1 by done. split.
    + intros l Hl Hl'. assert (l ∈ dom σ1) by (apply elem_of_dom; rewrite Hag by done; by apply elem_of_dom).
      rewrite Hag2 by done. by apply Hag.
    + exists w1, w2. done.
Qed.

(** ** Structs *)
Lemma copy_fields fts σ0 in_ out fvs d steps proc σ :
  NoDup fts.*1 → load σ0 in_ = Some (VStruct fvs) → deep (TStruct fts) σ0 (VStruct fvs) = Some d →
  base in_ ≠ base out → base out ∉ reach (TStruct fts) σ0 (VStruct fvs) →
  Forall (λ s, ∃ T, (s.1, T) ∈ fts ∧ copies same T s.2) steps →
  NoDup (steps.*1) → (∀ f, f ∈ steps.*1 → f ∉ proc) →
  struct_inv fts σ0 out fvs proc σ →
  ∃ σ' proc', loop (λ s, at_field s.1 s.2 in_ out) steps σ = Some ((), σ') ∧
    struct_inv fts σ0 out fvs proc' σ' ∧ ∀ f, f ∈ proc' ↔ f ∈ steps.*1 ∨ f ∈ proc.
Proof.
  intros Hnd Hin Hd Hne Hr Hsteps. revert proc σ. induction Hsteps as [|[f g] steps (T & Hft & Hg) _ IH];
    intros proc σ Hnds Hfresh Hinv.
  - exists σ, proc. split; [done|]. split; [done|]. intros f. set_solver.
  - simpl in *. apply NoDup_cons in Hnds as [Hf Hnds].
    destruct (struct_step fts σ0 in_ out fvs d Hnd Hin Hd Hne Hr proc σ f T g Hinv Hft) as (σ1 & Hrun & Hinv1);
      [by apply Hfresh; left|done|].
    destruct (IH (f :: proc) σ1 Hnds) as (σ2 & proc' & Hrun2 & Hinv2 & Hproc); [set_solver|done|].
    exists σ2, proc'. split; [by rewrite (bind_run _ _ _ _ _ Hrun)|]. split; [done|].
    intros g'. rewrite Hproc. set_solver.
Qed.

(** A struct copy is right when every field is copied or has no references. *)
Lemma copy_struct_copies fts steps :
  NoDup fts.*1 → NoDup steps.*1 →
  Forall (λ s, ∃ T, (s.1, T) ∈ fts ∧ copies same T s.2) steps →
  Forall (λ fT, fT.1 ∈ steps.*1 ∨ flat fT.2 = true) fts →
  copies anything (TStruct fts) (copy_struct steps).
Proof.
  intros Hnd Hnds Hsteps Hcov σ in_ out v u d Hin Hout _ Hd Hne Hr.
  destruct v as [| | | | | |fvs|]; try done.
  destruct (struct_start fts σ in_ out fvs d Hin Hd u Hout) as (σ1 & Hrun & Hinv).
  destruct (copy_fields fts σ in_ out fvs d steps [] σ1 Hnd Hin Hd Hne Hr Hsteps Hnds) as (σ2 & proc & Hrun2 & Hinv2 & Hproc);
    [set_solver|done|].
  exists σ2. split; [unfold copy_struct; by rewrite (bind_run _ _ _ _ _ Hrun)|].
  eapply struct_end; eauto. intros f T Hft. rewrite Forall_forall in Hcov.
  destruct (Hcov (f, T) Hft) as [?|?]; [left|by right]. apply Hproc. by left.
Qed.

(** ** The reference: a deep copy read off the type *)
Section generic.
Context (ord : MapOrder).

Fixpoint generic_copy (T : ty) : copier :=
  match T with
  | TStr | TInt | TBool => assign
  | TPtr U => λ in_ out, _ ← assign in_ out; when_set (new_into U (generic_copy U)) in_ out
  | TMap => λ in_ out, _ ← assign in_ out; when_set (make_map ord) in_ out
  | TSlice U => λ in_ out, _ ← assign in_ out; when_set (make_slice U (each (generic_copy U))) in_ out
  | TStruct fs => copy_struct ((λ '(f, U), (f, generic_copy U)) <$> fs)
  end.

(** No struct has two fields of one name. *)
Fixpoint well_named (T : ty) : bool :=
  match T with
  | TStr | TInt | TBool | TMap => true
  | TPtr U | TSlice U => well_named U
  | TStruct fs => bool_decide (NoDup fs.*1) && forallb (λ '(_, U), well_named U) fs
  end.

Lemma assign_then_copies T c :
  copies same T c → copies anything T (λ in_ out, _ ← assign in_ out; c in_ out).
Proof.
  intros Hc σ in_ out v u d Hin Hout _ Hd Hne Hr.
  destruct (assign_run σ in_ out v u Hin Hout) as (σ1 & Hrun & Hup & Hdom).
  destruct (updated_deep _ _ _ _ _ _ _ Hup Hd Hr) as [Hd1 Hr1].
  destruct (Hc σ1 in_ out v v d) as (σ2 & Hrun2 & y & Hup2 & Hdy & Hry); try done.
  { by eapply updated_other. }
  { by eapply updated_load. }
  { by rewrite Hr1. }
  exists σ2. split; [by rewrite (bind_run _ _ _ _ _ Hrun)|].
  exists y. split; [by eapply updated_trans|]. split; [done|]. by rewrite <- Hdom.
Qed.

Lemma generic_copy_copies T : well_named T = true → copies anything T (generic_copy T).
Proof.
  induction T as [| | |U IH| |U IH|fs IH] using ty_fields_ind; intros Hw; try by apply assign_copies.
  - apply assign_then_copies, when_set_copies, new_into_copies; [done|]. by apply IH.
  - apply assign_then_copies, when_set_copies, make_map_copies. done.
  - apply assign_then_copies, when_set_copies, make_slice_copies, each_fills; [done|]. by apply IH.
  - simpl in Hw. apply andb_true_iff in Hw as [Hnd%bool_decide_eq_true Hw]. rewrite forallb_forall in Hw.
    assert (((λ '(f, U), (f, generic_copy U)) <$> fs).*1 = fs.*1) as Hfst.
    { rewrite <- list_fmap_compose. apply list_fmap_ext. by intros i [f U]. }
    simpl. apply copy_struct_copies; [done|by rewrite Hfst| |].
    + apply Forall_forall. intros [f c] ([f' U] & [= -> ->] & HfU)%list_elem_of_fmap. exists U. split; [done|].
      eapply copies_weaken; [|apply (proj1 (Forall_forall _ _) IH (f', U) HfU)]; [done|].
      by apply (Hw (f', U)), list_elem_of_In.
    + apply Forall_forall. intros [f U] HfU. left. rewrite Hfst. by apply (list_elem_of_fmap_2 fst _ (f, U)).
Qed.
End generic.
