(* ===== verification/DeepCopy.v ===== *)
(** [api/v1/zz_generated.deepcopy.go]: [DeepCopyInto], [DeepCopy] and
    [DeepCopyObject] of the API types, over Go's memory as [Heap] models it.
    A field that holds no reference is copied by [*out = *in], as in the code;
    the types and deep copies of [metav1] and [corev1] are an interface. *)
From S2P Require Import Prelude GoStd Heap.
From Stdlib Require Import ZArith.
Open Scope nat_scope.

(** ** Code outside the repository *)
Class Externals := {
  ObjectMeta_t : ty;
  ListMeta_t : ty;
  ResourceRequirements_t : ty;
  Condition_t : ty;
  Time_t : ty;
  ObjectMeta_DeepCopyInto : copier;
  ListMeta_DeepCopyInto : copier;
  ResourceRequirements_DeepCopyInto : copier;
  Condition_DeepCopyInto : copier;
  Time_DeepCopy : option ptr → M (option ptr)
}.

(** They are deep copies, as their documentation says. *)
Class ExternalLaws `{Externals} := {
  ObjectMeta_copies : copies anything ObjectMeta_t ObjectMeta_DeepCopyInto;
  ListMeta_copies : copies anything ListMeta_t ListMeta_DeepCopyInto;
  ResourceRequirements_copies : copies anything ResourceRequirements_t ResourceRequirements_DeepCopyInto;
  Condition_copies : copies anything Condition_t Condition_DeepCopyInto;
  Time_copies : returns_copy Time_t Time_DeepCopy
}.

(** ** The types, as Go lays them out *)
Definition TypeMeta_t : ty := TStruct [("Kind", TStr); ("APIVersion", TStr)].
Definition Duration_t : ty := TStruct [("Duration", TInt)].

Definition CredentialsSecretRef_t : ty :=
  TStruct [("Name", TStr); ("UsernameKey", TStr); ("PasswordKey", TStr)].

Definition DatabaseRef_t : ty :=
  TStruct [("Host", TStr); ("Port", TInt); ("Database", TStr); ("SSLMode", TStr);
           ("Username", TStr); ("Password", TStr);
           ("CredentialsSecret", TPtr CredentialsSecretRef_t); ("CustomTags", TMap)].

Definition GRPCTLS_t : ty := TStruct [("CASecretRef", TStr)].
Definition GRPCSink_t : ty := TStruct [("Enabled", TBool); ("Endpoint", TStr); ("TLS", TPtr GRPCTLS_t)].
Definition PrometheusSink_t : ty := TStruct [("Enabled", TBool); ("Port", TInt)].
Definition SinksSpec_t : ty := TStruct [("Prometheus", TPtr PrometheusSink_t); ("GRPC", TPtr GRPCSink_t)].

Definition ImageSpec_t : ty := TStruct [("Repository", TStr); ("Tag", TStr); ("PullPolicy", TStr)].
Definition LibraryRef_t : ty := TStruct [("Name", TStr)].

Definition MetricDefinition_t : ty :=
  TStruct [("Name", TStr); ("Description", TStr); ("Interval", TPtr Duration_t); ("SQLs", TMap);
           ("Gauges", TSlice TStr); ("StatementTimeoutSeconds", TInt); ("MasterOnly", TBool);
           ("StandbyOnly", TBool); ("IsInstanceLevel", TBool)].

Definition MetricsSpec_t : ty :=
  TStruct [("Preset", TStr); ("FromLibraries", TSlice LibraryRef_t); ("Custom", TSlice MetricDefinition_t)].

Definition ObjectMetadataOverrides_t : ty := TStruct [("Labels", TMap); ("Annotations", TMap)].

Section types.
Context `{Externals}.

Definition PgpilotMonitorSpec_t : ty :=
  TStruct [("Database", DatabaseRef_t); ("Metrics", MetricsSpec_t); ("Sinks", SinksSpec_t);
           ("Resources", ResourceRequirements_t); ("Image", ImageSpec_t);
           ("PodMetadata", ObjectMetadataOverrides_t); ("ServiceMetadata", ObjectMetadataOverrides_t)].

Definition PgpilotMonitorStatus_t : ty :=
  TStruct [("Ready", TBool); ("PodName", TStr); ("ObservedGeneration", TInt); ("ConfigHash", TStr);
           ("LastReconciled", TPtr Time_t); ("Conditions", TSlice Condition_t)].

Definition PgpilotMonitor_t : ty :=
  TStruct [("TypeMeta", TypeMeta_t); ("ObjectMeta", ObjectMeta_t);
           ("Spec", PgpilotMonitorSpec_t); ("Status", PgpilotMonitorStatus_t)].

Definition PgpilotMonitorList_t : ty :=
  TStruct [("TypeMeta", TypeMeta_t); ("ListMeta", ListMeta_t); ("Items", TSlice PgpilotMonitor_t)].

Definition PgpilotMetricLibrarySpec_t : ty := TStruct [("Metrics", TSlice MetricDefinition_t)].

Definition PgpilotMetricLibraryStatus_t : ty :=
  TStruct [("ObservedGeneration", TInt); ("Conditions", TSlice Condition_t)].

Definition PgpilotMetricLibrary_t : ty :=
  TStruct [("TypeMeta", TypeMeta_t); ("ObjectMeta", ObjectMeta_t);
           ("Spec", PgpilotMetricLibrarySpec_t); ("Status", PgpilotMetricLibraryStatus_t)].

Definition PgpilotMetricLibraryList_t : ty :=
  TStruct [("TypeMeta", TypeMeta_t); ("ListMeta", ListMeta_t); ("Items", TSlice PgpilotMetricLibrary_t)].
End types.

(** ** [DeepCopyInto] *)
Section functions.
Context `{Externals} (ord : MapOrder).

Definition CredentialsSecretRef_DeepCopyInto : copier := assign.
Definition GRPCTLS_DeepCopyInto : copier := assign.
Definition ImageSpec_DeepCopyInto : copier := assign.
Definition LibraryRef_DeepCopyInto : copier := assign.
Definition PrometheusSink_DeepCopyInto : copier := assign.

Definition DatabaseRef_DeepCopyInto : copier := copy_struct [
  ("CredentialsSecret", when_set (new_into CredentialsSecretRef_t assign));
  ("CustomTags", when_set (make_map ord))].

Definition GRPCSink_DeepCopyInto : copier := copy_struct [
  ("TLS", when_set (new_into GRPCTLS_t assign))].

Definition MetricDefinition_DeepCopyInto : copier := copy_struct [
  ("Interval", when_set (new_into Duration_t assign));
  ("SQLs", when_set (make_map ord));
  ("Gauges", when_set (make_slice TStr copy_slice))].

Definition MetricsSpec_DeepCopyInto : copier := copy_struct [
  ("FromLibraries", when_set (make_slice LibraryRef_t copy_slice));
  ("Custom", when_set (make_slice MetricDefinition_t (each MetricDefinition_DeepCopyInto)))].

Definition ObjectMetadataOverrides_DeepCopyInto : copier := copy_struct [
  ("Labels", when_set (make_map ord));
  ("Annotations", when_set (make_map ord))].

Definition SinksSpec_DeepCopyInto : copier := copy_struct [
  ("Prometheus", when_set (new_into PrometheusSink_t assign));
  ("GRPC", when_set (new_into GRPCSink_t GRPCSink_DeepCopyInto))].

Definition PgpilotMetricLibrarySpec_DeepCopyInto : copier := copy_struct [
  ("Metrics", when_set (make_slice MetricDefinition_t (each MetricDefinition_DeepCopyInto)))].

Definition PgpilotMetricLibraryStatus_DeepCopyInto : copier := copy_struct [
  ("Conditions", when_set (make_slice Condition_t (each Condition_DeepCopyInto)))].

Definition PgpilotMetricLibrary_DeepCopyInto : copier := copy_struct [
  ("TypeMeta", assign);
  ("ObjectMeta", ObjectMeta_DeepCopyInto);
  ("Spec", PgpilotMetricLibrarySpec_DeepCopyInto);
  ("Status", PgpilotMetricLibraryStatus_DeepCopyInto)].

Definition PgpilotMetricLibraryList_DeepCopyInto : copier := copy_struct [
  ("TypeMeta", assign);
  ("ListMeta", ListMeta_DeepCopyInto);
  ("Items", when_set (make_slice PgpilotMetricLibrary_t (each PgpilotMetricLibrary_DeepCopyInto)))].

Definition PgpilotMonitorSpec_DeepCopyInto : copier := copy_struct [
  ("Database", DatabaseRef_DeepCopyInto);
  ("Metrics", MetricsSpec_DeepCopyInto);
  ("Sinks", SinksSpec_DeepCopyInto);
  ("Resources", ResourceRequirements_DeepCopyInto);
  ("Image", assign);
  ("PodMetadata", ObjectMetadataOverrides_DeepCopyInto);
  ("ServiceMetadata", ObjectMetadataOverrides_DeepCopyInto)].

Definition PgpilotMonitorStatus_DeepCopyInto : copier := copy_struct [
  ("LastReconciled", when_set (store_copy Time_DeepCopy));
  ("Conditions", when_set (make_slice Condition_t (each Condition_DeepCopyInto)))].

Definition PgpilotMonitor_DeepCopyInto : copier := copy_struct [
  ("TypeMeta", assign);
  ("ObjectMeta", ObjectMeta_DeepCopyInto);
  ("Spec", PgpilotMonitorSpec_DeepCopyInto);
  ("Status", PgpilotMonitorStatus_DeepCopyInto)].

Definition PgpilotMonitorList_DeepCopyInto : copier := copy_struct [
  ("TypeMeta", assign);
  ("ListMeta", ListMeta_DeepCopyInto);
  ("Items", when_set (make_slice PgpilotMonitor_t (each PgpilotMonitor_DeepCopyInto)))].

(** ** [DeepCopy] *)
Definition CredentialsSecretRef_DeepCopy := new_copy CredentialsSecretRef_t CredentialsSecretRef_DeepCopyInto.
Definition DatabaseRef_DeepCopy := new_copy DatabaseRef_t DatabaseRef_DeepCopyInto.
Definition GRPCSink_DeepCopy := new_copy GRPCSink_t GRPCSink_DeepCopyInto.
Definition GRPCTLS_DeepCopy := new_copy GRPCTLS_t GRPCTLS_DeepCopyInto.
Definition ImageSpec_DeepCopy := new_copy ImageSpec_t ImageSpec_DeepCopyInto.
Definition LibraryRef_DeepCopy := new_copy LibraryRef_t LibraryRef_DeepCopyInto.
Definition MetricDefinition_DeepCopy := new_copy MetricDefinition_t MetricDefinition_DeepCopyInto.
Definition MetricsSpec_DeepCopy := new_copy MetricsSpec_t MetricsSpec_DeepCopyInto.
Definition ObjectMetadataOverrides_DeepCopy :=
  new_copy ObjectMetadataOverrides_t ObjectMetadataOverrides_DeepCopyInto.
Definition PgpilotMetricLibrary_DeepCopy := new_copy PgpilotMetricLibrary_t PgpilotMetricLibrary_DeepCopyInto.
Definition PgpilotMetricLibraryList_DeepCopy :=
  new_copy PgpilotMetricLibraryList_t PgpilotMetricLibraryList_DeepCopyInto.
Definition PgpilotMetricLibrarySpec_DeepCopy :=
  new_copy PgpilotMetricLibrarySpec_t PgpilotMetricLibrarySpec_DeepCopyInto.
Definition PgpilotMetricLibraryStatus_DeepCopy :=
  new_copy PgpilotMetricLibraryStatus_t PgpilotMetricLibraryStatus_DeepCopyInto.
Definition PgpilotMonitor_DeepCopy := new_copy PgpilotMonitor_t PgpilotMonitor_DeepCopyInto.
Definition PgpilotMonitorList_DeepCopy := new_copy PgpilotMonitorList_t PgpilotMonitorList_DeepCopyInto.
Definition PgpilotMonitorSpec_DeepCopy := new_copy PgpilotMonitorSpec_t PgpilotMonitorSpec_DeepCopyInto.
Definition PgpilotMonitorStatus_DeepCopy := new_copy PgpilotMonitorStatus_t PgpilotMonitorStatus_DeepCopyInto.
Definition PrometheusSink_DeepCopy := new_copy PrometheusSink_t PrometheusSink_DeepCopyInto.
Definition SinksSpec_DeepCopy := new_copy SinksSpec_t SinksSpec_DeepCopyInto.

(** ** [DeepCopyObject]

    A [runtime.Object]: nil, or a dynamic type with a pointer, which may itself
    be nil: such an interface value is not nil. *)
Definition Object : Type := option (string * option ptr).

Definition deep_copy_object (kind : string) (DeepCopy : option ptr → M (option ptr)) (in_ : option ptr) :
    M Object :=
  c ← DeepCopy in_;
  match c with
  | Some q => mret (Some (kind, Some q))
  | None => mret None
  end.

Definition PgpilotMetricLibrary_DeepCopyObject := deep_copy_object "PgpilotMetricLibrary" PgpilotMetricLibrary_DeepCopy.
Definition PgpilotMetricLibraryList_DeepCopyObject :=
  deep_copy_object "PgpilotMetricLibraryList" PgpilotMetricLibraryList_DeepCopy.
Definition PgpilotMonitor_DeepCopyObject := deep_copy_object "PgpilotMonitor" PgpilotMonitor_DeepCopy.
Definition PgpilotMonitorList_DeepCopyObject := deep_copy_object "PgpilotMonitorList" PgpilotMonitorList_DeepCopy.
End functions.

(** ** Every copier is right *)
Create HintDb copies.
#[export] Hint Resolve ObjectMeta_copies ListMeta_copies ResourceRequirements_copies Condition_copies
  Time_copies : copies.
#[export] Hint Extern 1 (copies anything _ assign) => apply assign_copies; reflexivity : copies.
#[export] Hint Extern 1 (fills _ copy_slice) => apply copy_fills; reflexivity : copies.
#[export] Hint Resolve make_map_copies new_into_copies make_slice_copies store_copy_copies each_fills : copies.
#[export] Hint Extern 2 (copies same _ (when_set _)) => apply when_set_copies; [reflexivity|] : copies.
#[export] Hint Extern 3 (copies same _ _) => apply (copies_weaken anything same); [done|] : copies.

(** The fields of a struct: their names decide, their copiers resolve. *)
Ltac field_tac := first [apply list_elem_of_here | apply list_elem_of_further; field_tac].
Ltac copy_struct_tac :=
  apply copy_struct_copies;
  [ apply (bool_decide_unpack _); reflexivity
  | apply (bool_decide_unpack _); reflexivity
  | repeat (apply Forall_cons; split; [eexists; split; [field_tac|cbn [fst snd]; solve [eauto 8 with copies]]|]); apply Forall_nil_2
  | repeat (apply Forall_cons; split;
            [first [right; reflexivity | left; apply (bool_decide_unpack _); reflexivity]|]);
    apply Forall_nil_2 ].

Section correct.
Context `{ExternalLaws} (ord : MapOrder).

Lemma CredentialsSecretRef_copies : copies anything CredentialsSecretRef_t CredentialsSecretRef_DeepCopyInto.
Proof. by apply assign_copies. Qed.
Lemma GRPCTLS_copies : copies anything GRPCTLS_t GRPCTLS_DeepCopyInto.
Proof. by apply assign_copies. Qed.
Lemma ImageSpec_copies : copies anything ImageSpec_t ImageSpec_DeepCopyInto.
Proof. by apply assign_copies. Qed.
Lemma LibraryRef_copies : copies anything LibraryRef_t LibraryRef_DeepCopyInto.
Proof. by apply assign_copies. Qed.
Lemma PrometheusSink_copies : copies anything PrometheusSink_t PrometheusSink_DeepCopyInto.
Proof. by apply assign_copies. Qed.

Lemma DatabaseRef_copies : copies anything DatabaseRef_t (DatabaseRef_DeepCopyInto ord).
Proof. copy_struct_tac. Qed.
Lemma GRPCSink_copies : copies anything GRPCSink_t GRPCSink_DeepCopyInto.
Proof. copy_struct_tac. Qed.
Lemma MetricDefinition_copies : copies anything MetricDefinition_t (MetricDefinition_DeepCopyInto ord).
Proof. copy_struct_tac. Qed.
Lemma ObjectMetadataOverrides_copies :
  copies anything ObjectMetadataOverrides_t (ObjectMetadataOverrides_DeepCopyInto ord).
Proof. copy_struct_tac. Qed.
Hint Resolve DatabaseRef_copies GRPCSink_copies MetricDefinition_copies ObjectMetadataOverrides_copies : copies.

Lemma MetricsSpec_copies : copies anything MetricsSpec_t (MetricsSpec_DeepCopyInto ord).
Proof. copy_struct_tac. Qed.
Lemma SinksSpec_copies : copies anything SinksSpec_t SinksSpec_DeepCopyInto.
Proof. copy_struct_tac. Qed.
Hint Resolve MetricsSpec_copies SinksSpec_copies : copies.

Lemma PgpilotMonitorSpec_copies : copies anything PgpilotMonitorSpec_t (PgpilotMonitorSpec_DeepCopyInto ord).
Proof. copy_struct_tac. Qed.
Lemma PgpilotMonitorStatus_copies : copies anything PgpilotMonitorStatus_t PgpilotMonitorStatus_DeepCopyInto.
Proof. copy_struct_tac. Qed.
Lemma PgpilotMetricLibrarySpec_copies :
  copies anything PgpilotMetricLibrarySpec_t (PgpilotMetricLibrarySpec_DeepCopyInto ord).
Proof. copy_struct_tac. Qed.
Lemma PgpilotMetricLibraryStatus_copies :
  copies anything PgpilotMetricLibraryStatus_t PgpilotMetricLibraryStatus_DeepCopyInto.
Proof. copy_struct_tac. Qed.
Hint Resolve PgpilotMonitorSpec_copies PgpilotMonitorStatus_copies PgpilotMetricLibrarySpec_copies
  PgpilotMetricLibraryStatus_copies : copies.

Lemma PgpilotMonitor_copies : copies anything PgpilotMonitor_t (PgpilotMonitor_DeepCopyInto ord).
Proof. copy_struct_tac. Qed.
Lemma PgpilotMetricLibrary_copies :
  copies anything PgpilotMetricLibrary_t (PgpilotMetricLibrary_DeepCopyInto ord).
Proof. copy_struct_tac. Qed.
Hint Resolve PgpilotMonitor_copies PgpilotMetricLibrary_copies : copies.

Lemma PgpilotMonitorList_copies : copies anything PgpilotMonitorList_t (PgpilotMonitorList_DeepCopyInto ord).
Proof. copy_struct_tac. Qed.
Lemma PgpilotMetricLibraryList_copies :
  copies anything PgpilotMetricLibraryList_t (PgpilotMetricLibraryList_DeepCopyInto ord).
Proof. copy_struct_tac. Qed.
End correct.

(** ** What the generated functions guarantee *)
Section guarantees.
Context `{ExternalLaws} (ord : MapOrder).

(** All generated [DeepCopy] functions, with their types. *)
Definition generated : list (ty * (option ptr → M (option ptr))) := [
  (CredentialsSecretRef_t, CredentialsSecretRef_DeepCopy);
  (DatabaseRef_t, DatabaseRef_DeepCopy ord);
  (GRPCSink_t, GRPCSink_DeepCopy);
  (GRPCTLS_t, GRPCTLS_DeepCopy);
  (ImageSpec_t, ImageSpec_DeepCopy);
  (LibraryRef_t, LibraryRef_DeepCopy);
  (MetricDefinition_t, MetricDefinition_DeepCopy ord);
  (MetricsSpec_t, MetricsSpec_DeepCopy ord);
  (ObjectMetadataOverrides_t, ObjectMetadataOverrides_DeepCopy ord);
  (PgpilotMetricLibrary_t, PgpilotMetricLibrary_DeepCopy ord);
  (PgpilotMetricLibraryList_t, PgpilotMetricLibraryList_DeepCopy ord);
  (PgpilotMetricLibrarySpec_t, PgpilotMetricLibrarySpec_DeepCopy ord);
  (PgpilotMetricLibraryStatus_t, PgpilotMetricLibraryStatus_DeepCopy);
  (PgpilotMonitor_t, PgpilotMonitor_DeepCopy ord);
  (PgpilotMonitorList_t, PgpilotMonitorList_DeepCopy ord);
  (PgpilotMonitorSpec_t, PgpilotMonitorSpec_DeepCopy ord);
  (PgpilotMonitorStatus_t, PgpilotMonitorStatus_DeepCopy);
  (PrometheusSink_t, PrometheusSink_DeepCopy);
  (SinksSpec_t, SinksSpec_DeepCopy)].

Lemma generated_returns_copy : Forall (λ g, returns_copy g.1 g.2) generated.
Proof.
  repeat (apply Forall_cons; split; [apply new_copy_correct|]); try apply Forall_nil_2;
    auto using CredentialsSecretRef_copies, DatabaseRef_copies, GRPCSink_copies, GRPCTLS_copies, ImageSpec_copies,
      LibraryRef_copies, MetricDefinition_copies, MetricsSpec_copies, ObjectMetadataOverrides_copies,
      PgpilotMetricLibrary_copies, PgpilotMetricLibraryList_copies, PgpilotMetricLibrarySpec_copies,
      PgpilotMetricLibraryStatus_copies, PgpilotMonitor_copies, PgpilotMonitorList_copies,
      PgpilotMonitorSpec_copies, PgpilotMonitorStatus_copies, PrometheusSink_copies, SinksSpec_copies.
Qed.

(** Variables of known types, all of whose references resolve. *)
Definition well_typed (Γ : list (ptr * ty)) (σ : store) : Prop :=
  Forall (λ x, ∃ v d, load σ x.1 = Some v ∧ deep x.2 σ v = Some d) Γ.

Lemma well_typed_frame Γ σ σ' : (∀ l, l ∈ dom σ → σ' !! l = σ !! l) → well_typed Γ σ → well_typed Γ σ'.
Proof.
  intros Hag HΓ. eapply Forall_impl; [exact HΓ|]. intros [p T] (v & d & Hv & Hd). exists v, d. simpl in *.
  split.
  - rewrite (load_frame σ); [done|]. by eapply Hag, load_dom.
  - rewrite <- Hd. apply deep_frame. intros l Hl. by eapply Hag, reach_dom.
Qed.

(** C11 Every generated [DeepCopy] keeps nil nil and, for any variable whose
    references resolve, returns without a panic a pointer to a new variable
    that denotes the same value, reaches only new memory, and leaves all older
    memory as it was. *)
Theorem DeepCopy_correct T f σ p v d :
  (T, f) ∈ generated → load σ p = Some v → deep T σ v = Some d →
  f None σ = Some (None, σ) ∧
  ∃ q σ', f (Some p) σ = Some (Some q, σ') ∧
    (∀ l, l ∈ dom σ → σ' !! l = σ !! l) ∧
    deep (TPtr T) σ' (VPtr (Some q)) = Some (DPtr (Some d)) ∧
    reach (TPtr T) σ' (VPtr (Some q)) ## dom σ.
Proof.
  intros Hg Hv Hd. pose proof generated_returns_copy as Hall. rewrite Forall_forall in Hall.
  destruct (Hall (T, f) Hg) as [Hnil Hcopy]. split; [apply Hnil|]. by eapply Hcopy.
Qed.

(** C14 A monitor and its deep copy do not interfere: whatever is later
    written through the copy (to the memory it reaches, or to new memory), the
    original denotes what it did; whatever is written elsewhere, the copy does. *)
Theorem monitor_copy_isolated σ p v d q σ' σ'' :
  load σ p = Some v → deep PgpilotMonitor_t σ v = Some d →
  PgpilotMonitor_DeepCopy ord (Some p) σ = Some (Some q, σ') →
  let R := reach (TPtr PgpilotMonitor_t) σ' (VPtr (Some q)) in
  ((∀ l, l ∈ dom σ' → l ∉ R → σ'' !! l = σ' !! l) →
     deep (TPtr PgpilotMonitor_t) σ'' (VPtr (Some p)) = Some (DPtr (Some d))) ∧
  ((∀ l, l ∈ R → σ'' !! l = σ' !! l) →
     deep (TPtr PgpilotMonitor_t) σ'' (VPtr (Some q)) = Some (DPtr (Some d))).
Proof.
  intros Hv Hd Hrun R.
  destruct (new_copy_correct _ _ (PgpilotMonitor_copies ord)) as [_ Hcopy].
  destruct (Hcopy σ p v d Hv Hd) as (q' & σ1 & Hrun' & Hag & Hdq & Hr).
  unfold PgpilotMonitor_DeepCopy in Hrun. rewrite Hrun' in Hrun. injection Hrun as -> ->.
  assert (deep (TPtr PgpilotMonitor_t) σ (VPtr (Some p)) = Some (DPtr (Some d))) as Hp.
  { by eapply deep_ptr. }
  split; intros Hw.
  - rewrite <- Hp. apply deep_frame. intros l Hl. apply (reach_dom _ _ _ _ Hp) in Hl.
    rewrite Hw; [by apply Hag|apply elem_of_dom; rewrite Hag by done; by apply elem_of_dom|].
    intros HlR. by apply (Hr l).
  - rewrite <- Hdq. by apply deep_frame.
Qed.

(** Memory stays well typed: after a generated [DeepCopy] of one of the
    program's variables, every variable still has its type, and the result is
    a new variable of the copied type. *)
Theorem DeepCopy_preserves_types T f Γ σ p :
  (T, f) ∈ generated → well_typed Γ σ → (p, T) ∈ Γ →
  ∃ q σ', f (Some p) σ = Some (Some q, σ') ∧ (base q ∉ dom σ) ∧ well_typed ((q, T) :: Γ) σ'.
Proof.
  intros Hg Hty Hp. pose proof generated_returns_copy as Hall. rewrite Forall_forall in Hall.
  destruct (Hall (T, f) Hg) as [_ Hcopy]. pose proof Hty as Hty'. unfold well_typed in Hty'. rewrite Forall_forall in Hty'.
  destruct (Hty' (p, T) Hp) as (v & d & Hv & Hd). simpl in *.
  destruct (Hcopy σ p v d Hv Hd) as (q & σ' & Hrun & Hag & Hdq & Hr). exists q, σ'. split; [done|].
  simpl in Hr, Hdq. apply bind_Some in Hdq as (u & Hu & (d' & Hd' & _)%bind_Some). split.
  - intros Hq. apply (Hr (base q)); [|done]. apply elem_of_union_l. by apply elem_of_singleton.
  - apply Forall_cons. split; [by exists u, d'|]. by eapply well_typed_frame.
Qed.

(** [DeepCopyObject] of a nil pointer is a nil interface value, not a
    non-nil interface holding a nil pointer; otherwise it is an interface value
    of the right dynamic type holding the deep copy. *)
Theorem DeepCopyObject_never_typed_nil σ p v d :
  load σ p = Some v → deep PgpilotMonitor_t σ v = Some d →
  PgpilotMonitor_DeepCopyObject ord None σ = Some (None, σ) ∧
  ∃ q σ', PgpilotMonitor_DeepCopyObject ord (Some p) σ = Some (Some ("PgpilotMonitor", Some q), σ') ∧
    PgpilotMonitor_DeepCopy ord (Some p) σ = Some (Some q, σ') ∧
    deep (TPtr PgpilotMonitor_t) σ' (VPtr (Some q)) = Some (DPtr (Some d)).
Proof.
  intros Hv Hd. split; [done|].
  destruct (new_copy_correct _ _ (PgpilotMonitor_copies ord)) as [_ Hcopy].
  destruct (Hcopy σ p v d Hv Hd) as (q & σ' & Hrun & _ & Hdq & _). exists q, σ'.
  split; [|done]. unfold PgpilotMonitor_DeepCopyObject, deep_copy_object, PgpilotMonitor_DeepCopy.
  by rewrite (bind_run _ _ _ _ _ Hrun).
Qed.
End guarantees.

(** ** A concrete store *)

(** The external types, restricted to the fields the operator uses, with the
    deep copy read off each of them. *)
Definition reference_Time_t : ty := TStruct [("wall", TInt); ("ext", TInt)].
Definition reference_ObjectMeta_t : ty := TStruct [
  ("Name", TStr); ("Namespace", TStr); ("UID", TStr); ("Generation", TInt); ("ResourceVersion", TStr);
  ("DeletionTimestamp", TPtr reference_Time_t); ("Finalizers", TSlice TStr); ("Labels", TMap);
  ("Annotations", TMap);
  ("OwnerReferences", TSlice (TStruct [("Kind", TStr); ("Name", TStr); ("UID", TStr); ("Controller", TPtr TBool)]))].
Definition reference_ListMeta_t : ty := TStruct [("ResourceVersion", TStr); ("RemainingItemCount", TPtr TInt)].
Definition reference_Resources_t : ty := TStruct [("Limits", TMap); ("Requests", TMap); ("Claims", TSlice TStr)].
Definition reference_Condition_t : ty := TStruct [
  ("Type", TStr); ("Status", TStr); ("ObservedGeneration", TInt); ("LastTransitionTime", reference_Time_t);
  ("Reason", TStr); ("Message", TStr)].

#[export] Instance reference_externals : Externals := {|
  ObjectMeta_t := reference_ObjectMeta_t;
  ListMeta_t := reference_ListMeta_t;
  ResourceRequirements_t := reference_Resources_t;
  Condition_t := reference_Condition_t;
  Time_t := reference_Time_t;
  ObjectMeta_DeepCopyInto := generic_copy ascending reference_ObjectMeta_t;
  ListMeta_DeepCopyInto := generic_copy ascending reference_ListMeta_t;
  ResourceRequirements_DeepCopyInto := generic_copy ascending reference_Resources_t;
  Condition_DeepCopyInto := generic_copy ascending reference_Condition_t;
  Time_DeepCopy := new_copy reference_Time_t (generic_copy ascending reference_Time_t)
|}.

#[export] Instance reference_external_laws : ExternalLaws.
Proof.
  split; try (apply generic_copy_copies; reflexivity). apply new_copy_correct, generic_copy_copies. reflexivity.
Defined.

(** A monitor in memory: a subslice of libraries, two fields sharing one map,
    nested pointers, nil and empty references. *)
Definition fx_monitor_val : val := VStruct [
  ("TypeMeta", VStruct [("Kind", VStr "PgpilotMonitor"); ("APIVersion", VStr "pgpilot.io/v1")]);
  ("ObjectMeta", VStruct [("Name", VStr "orders"); ("Namespace", VStr "shop"); ("UID", VStr "u-1");
     ("Generation", VInt 3); ("ResourceVersion", VStr "41"); ("DeletionTimestamp", VPtr None);
     ("Finalizers", VSlice (Some (1%positive, 0, 1))); ("Labels", VMap (Some 2%positive)); ("Annotations", VMap None);
     ("OwnerReferences", VSlice None)]);
  ("Spec", VStruct [
     ("Database", VStruct [("Host", VStr "db"); ("Port", VInt 5432); ("Database", VStr "orders"); ("SSLMode", VStr "require");
        ("Username", VStr ""); ("Password", VStr ""); ("CredentialsSecret", VPtr (Some (3%positive, [])));
        ("CustomTags", VMap (Some 4%positive))]);
     ("Metrics", VStruct [("Preset", VStr "basic"); ("FromLibraries", VSlice (Some (5%positive, 1, 1)));
        ("Custom", VSlice (Some (6%positive, 0, 1)))]);
     ("Sinks", VStruct [("Prometheus", VPtr (Some (10%positive, []))); ("GRPC", VPtr (Some (11%positive, [])))]);
     ("Resources", VStruct [("Limits", VMap None); ("Requests", VMap None); ("Claims", VSlice None)]);
     ("Image", VStruct [("Repository", VStr ""); ("Tag", VStr "5.1.0"); ("PullPolicy", VStr "")]);
     ("PodMetadata", VStruct [("Labels", VMap (Some 13%positive)); ("Annotations", VMap None)]);
     ("ServiceMetadata", VStruct [("Labels", VMap (Some 13%positive)); ("Annotations", VMap None)])]);
  ("Status", VStruct [("Ready", VBool true); ("PodName", VStr ""); ("ObservedGeneration", VInt 3); ("ConfigHash", VStr "ab");
     ("LastReconciled", VPtr (Some (14%positive, []))); ("Conditions", VSlice None)])].

Definition fx_metric_val : val := VStruct [
  ("Name", VStr "locks"); ("Description", VStr ""); ("Interval", VPtr (Some (7%positive, []))); ("SQLs", VMap (Some 8%positive));
  ("Gauges", VSlice (Some (9%positive, 0, 2))); ("StatementTimeoutSeconds", VInt 5); ("MasterOnly", VBool true);
  ("StandbyOnly", VBool false); ("IsInstanceLevel", VBool false)].

Definition fx_store : store := list_to_map [
  (1%positive, CVal (VArr [VStr "pgpilot.io/finalizer"]));
  (2%positive, CMap {[ "team" := "shop" ]});
  (3%positive, CVal (VStruct [("Name", VStr "creds"); ("UsernameKey", VStr "username"); ("PasswordKey", VStr "password")]));
  (4%positive, CMap ∅);
  (5%positive, CVal (VArr [VStruct [("Name", VStr "hidden")]; VStruct [("Name", VStr "core")]]));
  (6%positive, CVal (VArr [fx_metric_val]));
  (7%positive, CVal (VStruct [("Duration", VInt 60000000000)]));
  (8%positive, CMap {[ "14" := "select 1"; "*" := "select 2" ]});
  (9%positive, CVal (VArr [VStr "a"; VStr "b"]));
  (10%positive, CVal (VStruct [("Enabled", VBool true); ("Port", VInt 9187)]));
  (11%positive, CVal (VStruct [("Enabled", VBool false); ("Endpoint", VStr ""); ("TLS", VPtr (Some (12%positive, [])))]));
  (12%positive, CVal (VStruct [("CASecretRef", VStr "ca")]));
  (13%positive, CMap {[ "scrape" := "yes" ]});
  (14%positive, CVal (VStruct [("wall", VInt 7); ("ext", VInt 8)]));
  (20%positive, CVal fx_monitor_val)].
Definition fx_ptr : ptr := (20%positive, []).

(** The deep copy of the fixture, run: the copy and its copy are alike. *)
Example fx_copy_runs :
  ∃ q σ', PgpilotMonitor_DeepCopy descending (Some fx_ptr) fx_store = Some (Some q, σ') ∧
    (u ← load σ' q; deep PgpilotMonitor_t σ' u)
    = (u ← load fx_store fx_ptr; deep PgpilotMonitor_t fx_store u) ∧
    is_Some (u ← load σ' q; deep PgpilotMonitor_t σ' u).
Proof. eexists _, _. split; [vm_compute; reflexivity|]. split; [vm_compute; reflexivity|]. vm_compute. by eexists. Qed.

(** The code wants distinct variables: copying a variable into itself would
    lose what its references hold, since [*out = new(T)] empties the source
    before [**out = **in] reads it. *)
Definition self_store : store := {[
  1%positive := CVal (VStruct [("Enabled", VBool true); ("Endpoint", VStr "e"); ("TLS", VPtr (Some (2%positive, [])))]);
  2%positive := CVal (VStruct [("CASecretRef", VStr "ca")]) ]}.

Example self_copy_loses :
  (λ r, let σ' := r.2 in u ← load σ' (1%positive, []); deep GRPCSink_t σ' u)
    <$> GRPCSink_DeepCopyInto (1%positive, []) (1%positive, []) self_store
  = Some (Some (DStruct [("Enabled", DBool true); ("Endpoint", DStr "e");
                         ("TLS", DPtr (Some (DStruct [("CASecretRef", DStr "")])))])).
Proof. vm_compute. reflexivity. Qed.

Lemma DeepCopy_correct_witness :
  ∃ q σ', PgpilotMonitor_DeepCopy ascending (Some fx_ptr) fx_store = Some (Some q, σ') ∧
    reach (TPtr PgpilotMonitor_t) σ' (VPtr (Some q)) ## dom fx_store.
Proof.
  destruct (deep PgpilotMonitor_t fx_store fx_monitor_val) as [d|] eqn:Hd; [|vm_compute in Hd; discriminate].
  destruct (DeepCopy_correct ascending PgpilotMonitor_t (PgpilotMonitor_DeepCopy ascending) fx_store fx_ptr fx_monitor_val d)
    as (_ & q & σ' & Hrun & _ & _ & Hr).
  - unfold generated. do 13 apply list_elem_of_further. apply list_elem_of_here.
  - vm_compute. reflexivity.
  - exact Hd.
  - exists q, σ'. exact (conj Hrun Hr).
Defined.

Lemma monitor_copy_isolated_witness :
  ∃ d q σ', PgpilotMonitor_DeepCopy ascending (Some fx_ptr) fx_store = Some (Some q, σ') ∧
    deep (TPtr PgpilotMonitor_t) σ' (VPtr (Some fx_ptr)) = Some (DPtr (Some d)).
Proof.
  destruct (deep PgpilotMonitor_t fx_store fx_monitor_val) as [d|] eqn:Hd; [|vm_compute in Hd; discriminate].
  destruct (PgpilotMonitor_DeepCopy ascending (Some fx_ptr) fx_store) as [[[q|] σ']|] eqn:Hrun;
    [|vm_compute in Hrun; discriminate..].
  exists d, q, σ'. split; [reflexivity|].
  assert (load fx_store fx_ptr = Some fx_monitor_val) as Hv by (vm_compute; reflexivity).
  exact (proj1 (monitor_copy_isolated ascending fx_store fx_ptr fx_monitor_val d q σ' σ' Hv Hd Hrun) (λ l _ _, eq_refl)).
Defined.

Lemma DeepCopy_preserves_types_witness :
  ∃ q σ', PgpilotMonitor_DeepCopy ascending (Some fx_ptr) fx_store = Some (Some q, σ') ∧
    well_typed [(q, PgpilotMonitor_t); (fx_ptr, PgpilotMonitor_t); ((11%positive, []), GRPCSink_t)] σ'.
Proof.
  destruct (DeepCopy_preserves_types ascending PgpilotMonitor_t (PgpilotMonitor_DeepCopy ascending)
    [(fx_ptr, PgpilotMonitor_t); ((11%positive, []), GRPCSink_t)] fx_store fx_ptr) as (q & σ' & Hrun & _ & Hty).
  - unfold generated. do 13 apply list_elem_of_further. apply list_elem_of_here.
  - repeat apply Forall_cons_2; [| |apply Forall_nil_2];
      (eexists _, _; split; [vm_compute; reflexivity|vm_compute; reflexivity]).
  - apply list_elem_of_here.
  - exists q, σ'. exact (conj Hrun Hty).
Defined.

Lemma DeepCopyObject_never_typed_nil_witness :
  PgpilotMonitor_DeepCopyObject ascending None fx_store = Some (None, fx_store).
Proof.
  destruct (deep PgpilotMonitor_t fx_store fx_monitor_val) as [d|] eqn:Hd; [|vm_compute in Hd; discriminate].
  apply (DeepCopyObject_never_typed_nil ascending fx_store fx_ptr fx_monitor_val d); [vm_compute; reflexivity|exact Hd].
Defined.
