(* ===== verification/Manager.v ===== *)
(** The start-up of the operator: [api/v1/groupversion_info.go] and the [init]
    functions (which types the scheme knows), the [SetupWithManager] of both
    controllers (which events reach them) and [cmd/main.go] (flags, servers,
    manager).  The command line is read as Go's package flag reads it. *)
From S2P Require Import Prelude GoStd Kube Api Fixtures ConfigMap Service Prog Machinery ApiServer MonitorController.
From S2P Require Import Protocol MonitorSpec.
From Stdlib Require Import ZArith Ascii.
Open Scope Z_scope.
Open Scope string_scope.

(** ** groupversion_info.go and the schemes *)
Record GroupVersionKind := mkGVK { gvk_Group : string; gvk_Version : string; gvk_Kind : string }.

#[export] Instance gvk_eq_dec : EqDecision GroupVersionKind.
Proof. solve_decision. Defined.

(** [schema.GroupVersion]. *)
Definition GroupVersion : string * string := ("pgpilot.io", "v1").
Definition with_kind (gv : string * string) (kind : string) : GroupVersionKind := mkGVK gv.1 gv.2 kind.

(** [scheme.Builder]: the objects registered, by the name of their Go type. *)
Record Builder := mkBuilder { b_GroupVersion : string * string; b_Registered : list string }.
Definition Register (objects : list string) (b : Builder) : Builder :=
  mkBuilder (b_GroupVersion b) (b_Registered b ++ objects).

Definition empty_SchemeBuilder : Builder := mkBuilder GroupVersion [].

(** The [init] functions of the two types files, in the order of the files. *)
Definition register_library : Builder → Builder := Register ["PgpilotMetricLibrary"; "PgpilotMetricLibraryList"].
Definition register_monitor : Builder → Builder := Register ["PgpilotMonitor"; "PgpilotMonitorList"].
Definition SchemeBuilder : Builder := register_monitor (register_library empty_SchemeBuilder).

(** [runtime.Scheme] and the registrations of the libraries. *)
Class Schemes (Sch : Type) := {
  NewScheme : Sch;
  recognizes : Sch → GroupVersionKind → bool;
  builder_AddToScheme : Builder → Sch → result Sch;
  clientgo_AddToScheme : Sch → result Sch;
  monitoring_AddToScheme : Sch → result Sch
}.

(** The kinds of client-go and prometheus-operator the operator handles. *)
Definition clientgo_kinds : list GroupVersionKind := [
  mkGVK "" "v1" "ConfigMap"; mkGVK "" "v1" "Service"; mkGVK "" "v1" "Secret"; mkGVK "" "v1" "Pod";
  mkGVK "" "v1" "PodList"; mkGVK "" "v1" "Event"; mkGVK "apps" "v1" "Deployment"].
Definition monitoring_kinds : list GroupVersionKind := [mkGVK "monitoring.coreos.com" "v1" "ServiceMonitor"].

(** A registration adds what it registers and takes nothing away. *)
Class SchemeLaws (Sch : Type) `{Schemes Sch} : Prop := {
  builder_adds b s s' : builder_AddToScheme b s = Ok s' →
    ∀ g, recognizes s' g = true ↔
      recognizes s g = true ∨ ∃ k, k ∈ b_Registered b ∧ g = with_kind (b_GroupVersion b) k;
  clientgo_adds s s' : clientgo_AddToScheme s = Ok s' →
    (∀ g, g ∈ clientgo_kinds → recognizes s' g = true) ∧ ∀ g, recognizes s g = true → recognizes s' g = true;
  monitoring_adds s s' : monitoring_AddToScheme s = Ok s' →
    (∀ g, g ∈ monitoring_kinds → recognizes s' g = true) ∧ ∀ g, recognizes s g = true → recognizes s' g = true
}.

(** [utilruntime.Must]. *)
Definition Must {A} (r : result A) : outcome A :=
  match r with Ok a => Done a | Err e => Panicked (Error e) end.

Definition outcome_bind {A B} (o : outcome A) (f : A → outcome B) : outcome B :=
  match o with Done a => f a | Panicked m => Panicked m end.

(** [init] of package main. *)
Definition init_scheme `{Schemes Sch} : outcome Sch :=
  outcome_bind (Must (clientgo_AddToScheme NewScheme)) (λ s,
  outcome_bind (Must (builder_AddToScheme SchemeBuilder s)) (λ s,
  Must (monitoring_AddToScheme s))).

Definition monitor_gvk := with_kind GroupVersion "PgpilotMonitor".
Definition library_gvk := with_kind GroupVersion "PgpilotMetricLibrary".
Definition kind_gvk (k : Kind) : GroupVersionKind :=
  match k with
  | KConfigMap => mkGVK "" "v1" "ConfigMap"
  | KDeployment => mkGVK "apps" "v1" "Deployment"
  | KService => mkGVK "" "v1" "Service"
  | KServiceMonitor => mkGVK "monitoring.coreos.com" "v1" "ServiceMonitor"
  end.

(** The kinds a call of the reconcilers needs the scheme to know. *)
Definition kinds_of {X} (e : Eff X) : list GroupVersionKind :=
  match e with
  | GetMonitor _ | UpdateMonitor _ | UpdateMonitorStatus _ => [monitor_gvk]
  | ListMonitors _ => [with_kind GroupVersion "PgpilotMonitorList"; monitor_gvk]
  | GetLibrary _ | UpdateLibraryStatus _ => [library_gvk]
  | GetSecret _ => [mkGVK "" "v1" "Secret"]
  | GetDeployment _ => [kind_gvk KDeployment]
  | ListPods _ _ => [mkGVK "" "v1" "PodList"; mkGVK "" "v1" "Pod"]
  | Patch k _ _ _ => [kind_gvk k; monitor_gvk]  (* the object, and its owner *)
  | RecordEvent _ _ _ _ => [mkGVK "" "v1" "Event"; monitor_gvk]
  | Now | PickOrder => []
  end.

(** ** SetupWithManager *)

(** What is given to controller-runtime's builder. *)
Record ControllerSpec := mkControllerSpec {
  ctl_Name : string;
  ctl_For : GroupVersionKind;
  ctl_Owns : list GroupVersionKind;
  ctl_Watches : list (GroupVersionKind * (WatchedObject → prog (list NamespacedName)))
}.

Definition For (g : GroupVersionKind) : ControllerSpec := mkControllerSpec "" g [] [].
Definition Owns (g : GroupVersionKind) (b : ControllerSpec) : ControllerSpec :=
  mkControllerSpec (ctl_Name b) (ctl_For b) (ctl_Owns b ++ [g]) (ctl_Watches b).
Definition Watches (g : GroupVersionKind) (f : WatchedObject → prog (list NamespacedName)) (b : ControllerSpec) :
    ControllerSpec :=
  mkControllerSpec (ctl_Name b) (ctl_For b) (ctl_Owns b) (ctl_Watches b ++ [(g, f)]).
Definition Named (n : string) (b : ControllerSpec) : ControllerSpec :=
  mkControllerSpec n (ctl_For b) (ctl_Owns b) (ctl_Watches b).

(** [SetupWithManager] of both reconcilers, up to [Complete]. *)
Definition MonitorController_Setup (r : PgpilotMonitorReconciler) : ControllerSpec :=
  let b := Owns (kind_gvk KService) (Owns (kind_gvk KDeployment) (Owns (kind_gvk KConfigMap) (For monitor_gvk))) in
  let b := if ServiceMonitorEnabled r then Owns (kind_gvk KServiceMonitor) b else b in
  Named "pgpilotmonitor" (Watches library_gvk libraryToMonitors b).

Definition LibraryController_Setup : ControllerSpec := Named "pgpilotmetriclibrary" (For library_gvk).

(** What controller-runtime documents of [Owns]: an event on an object of that
    kind asks for the object's controller, if it is of the kind of [For]. *)
Definition owner_requests (spec : ControllerSpec) (g : GroupVersionKind) (m : ObjectMeta) : list NamespacedName :=
  if bool_decide (g ∈ ctl_Owns spec) then
    (λ ref, mkNN (om_Namespace m) (or_Name ref)) <$>
      filter (λ ref, or_Controller ref = true ∧ or_Kind ref = gvk_Kind (ctl_For spec)) (om_OwnerReferences m)
  else [].

(** ** cmd/main.go: the options *)
Record Options := mkOptions {
  metricsAddr : string;
  probeAddr : string;
  enableLeaderElection : bool;
  secureMetrics : bool;
  webhookCertPath : string;
  webhookCertName : string;
  webhookCertKey : string;
  metricsCertPath : string;
  metricsCertName : string;
  metricsCertKey : string;
  enableHTTP2 : bool
}.

(** The third argument of each [flag.StringVar] and [flag.BoolVar]. *)
Definition default_options : Options :=
  mkOptions "0" ":8081" false true "" "tls.crt" "tls.key" "" "tls.crt" "tls.key" false.

(** A flag and the variable it is bound to. *)
Inductive FlagVar :=
  | StringVar (set : string → Options → Options)
  | BoolVar (set : bool → Options → Options).

Definition flags : list (string * FlagVar) := [
  ("metrics-bind-address", StringVar (λ v o, mkOptions v (probeAddr o) (enableLeaderElection o) (secureMetrics o)
     (webhookCertPath o) (webhookCertName o) (webhookCertKey o) (metricsCertPath o) (metricsCertName o) (metricsCertKey o) (enableHTTP2 o)));
  ("health-probe-bind-address", StringVar (λ v o, mkOptions (metricsAddr o) v (enableLeaderElection o) (secureMetrics o)
     (webhookCertPath o) (webhookCertName o) (webhookCertKey o) (metricsCertPath o) (metricsCertName o) (metricsCertKey o) (enableHTTP2 o)));
  ("leader-elect", BoolVar (λ b o, mkOptions (metricsAddr o) (probeAddr o) b (secureMetrics o)
     (webhookCertPath o) (webhookCertName o) (webhookCertKey o) (metricsCertPath o) (metricsCertName o) (metricsCertKey o) (enableHTTP2 o)));
  ("metrics-secure", BoolVar (λ b o, mkOptions (metricsAddr o) (probeAddr o) (enableLeaderElection o) b
     (webhookCertPath o) (webhookCertName o) (webhookCertKey o) (metricsCertPath o) (metricsCertName o) (metricsCertKey o) (enableHTTP2 o)));
  ("webhook-cert-path", StringVar (λ v o, mkOptions (metricsAddr o) (probeAddr o) (enableLeaderElection o) (secureMetrics o)
     v (webhookCertName o) (webhookCertKey o) (metricsCertPath o) (metricsCertName o) (metricsCertKey o) (enableHTTP2 o)));
  ("webhook-cert-name", StringVar (λ v o, mkOptions (metricsAddr o) (probeAddr o) (enableLeaderElection o) (secureMetrics o)
     (webhookCertPath o) v (webhookCertKey o) (metricsCertPath o) (metricsCertName o) (metricsCertKey o) (enableHTTP2 o)));
  ("webhook-cert-key", StringVar (λ v o, mkOptions (metricsAddr o) (probeAddr o) (enableLeaderElection o) (secureMetrics o)
     (webhookCertPath o) (webhookCertName o) v (metricsCertPath o) (metricsCertName o) (metricsCertKey o) (enableHTTP2 o)));
  ("metrics-cert-path", StringVar (λ v o, mkOptions (metricsAddr o) (probeAddr o) (enableLeaderElection o) (secureMetrics o)
     (webhookCertPath o) (webhookCertName o) (webhookCertKey o) v (metricsCertName o) (metricsCertKey o) (enableHTTP2 o)));
  ("metrics-cert-name", StringVar (λ v o, mkOptions (metricsAddr o) (probeAddr o) (enableLeaderElection o) (secureMetrics o)
     (webhookCertPath o) (webhookCertName o) (webhookCertKey o) (metricsCertPath o) v (metricsCertKey o) (enableHTTP2 o)));
  ("metrics-cert-key", StringVar (λ v o, mkOptions (metricsAddr o) (probeAddr o) (enableLeaderElection o) (secureMetrics o)
     (webhookCertPath o) (webhookCertName o) (webhookCertKey o) (metricsCertPath o) (metricsCertName o) v (enableHTTP2 o)));
  ("enable-http2", BoolVar (λ b o, mkOptions (metricsAddr o) (probeAddr o) (enableLeaderElection o) (secureMetrics o)
     (webhookCertPath o) (webhookCertName o) (webhookCertKey o) (metricsCertPath o) (metricsCertName o) (metricsCertKey o) b))].

(** ** Go's package flag, as [flag.Parse] uses it *)

(** [strconv.ParseBool]. *)
Definition ParseBool (s : string) : option bool :=
  if bool_decide (s ∈ ["1"; "t"; "T"; "TRUE"; "true"; "True"]) then Some true
  else if bool_decide (s ∈ ["0"; "f"; "F"; "FALSE"; "false"; "False"]) then Some false
  else None.

(** The name before the first [=], and the value after it. *)
Fixpoint cut_eq (s : string) : string * option string :=
  match s with
  | EmptyString => ("", None)
  | String c s' =>
      if Ascii.eqb c "="%char then ("", Some s')
      else let '(n, v) := cut_eq s' in (String c n, v)
  end.

Inductive Arg := NotAFlag | BadSyntax | AFlag (name : string) (value : option string).

(** One argument: [-name], [--name], with or without [=value]; [-], [--] and
    words without a dash end the flags. *)
Definition read_name (s : string) : Arg :=
  match s with
  | EmptyString => NotAFlag
  | String c _ =>
      if Ascii.eqb c "-"%char || Ascii.eqb c "="%char then BadSyntax
      else let '(n, v) := cut_eq s in AFlag n v
  end.
Definition read_arg (s : string) : Arg :=
  match s with
  | String c s' =>
      if Ascii.eqb c "-"%char then
        match s' with
        | String c' s'' => if Ascii.eqb c' "-"%char then read_name s'' else read_name s'
        | EmptyString => NotAFlag
        end
      else NotAFlag
  | EmptyString => NotAFlag
  end.

(** Flags the libraries bind on the same command line (zap, kubeconfig): is the
    flag boolean, and is the value accepted. *)
Class OtherFlags := {
  other_flag : string → option bool;
  other_accepts : string → string → bool
}.

Fixpoint find_flag (name : string) (l : list (string * FlagVar)) : option FlagVar :=
  match l with
  | [] => None
  | (n, f) :: l' => if String.eqb n name then Some f else find_flag name l'
  end.

(** The parse ends with the options, or the process exits: 0 after [-help],
    2 after an error ([flag.ExitOnError]). *)
Fixpoint parse `{OtherFlags} (args : list string) (o : Options) : Z + Options :=
  match args with
  | [] => inr o
  | s :: rest =>
      match read_arg s with
      | NotAFlag => inr o
      | BadSyntax => inl 2
      | AFlag name value =>
          match find_flag name flags with
          | Some (BoolVar set) =>
              match ParseBool (default "true" value) with
              | Some b => parse rest (set b o)
              | None => inl 2
              end
          | Some (StringVar set) =>
              match value, rest with
              | Some v, _ => parse rest (set v o)
              | None, v :: rest' => parse rest' (set v o)
              | None, [] => inl 2
              end
          | None =>
              match other_flag name with
              | Some true => if other_accepts name (default "true" value) then parse rest o else inl 2
              | Some false =>
                  match value, rest with
                  | Some v, _ => if other_accepts name v then parse rest o else inl 2
                  | None, v :: rest' => if other_accepts name v then parse rest' o else inl 2
                  | None, [] => inl 2
                  end
              | None => if bool_decide (name ∈ ["help"; "h"]) then inl 0 else inl 2
              end
          end
      end
  end.

(** ** cmd/main.go: the servers and the manager *)

(** [tls.Config], as far as it is touched. *)
Record TLSConfig := mkTLSConfig { NextProtos : list string; ServerName : string }.
Definition TLSOpt := TLSConfig → TLSConfig.

Definition disableHTTP2 : TLSOpt := λ c, mkTLSConfig ["http/1.1"] (ServerName c).

(** What a server makes of its options: they are applied in order. *)
Definition configured (opts : list TLSOpt) (c : TLSConfig) : TLSConfig := foldl (λ c f, f c) c opts.

Record WebhookOptions := mkWebhookOptions {
  wh_TLSOpts : list TLSOpt; wh_CertDir : string; wh_CertName : string; wh_KeyName : string }.

Inductive FilterProvider := WithAuthenticationAndAuthorization.

Record MetricsOptions := mkMetricsOptions {
  mt_BindAddress : string; mt_SecureServing : bool; mt_TLSOpts : list TLSOpt;
  mt_FilterProvider : option FilterProvider;
  mt_CertDir : string; mt_CertName : string; mt_KeyName : string }.

Record ManagerOptions := mkManagerOptions {
  mo_Metrics : MetricsOptions; mo_Webhook : WebhookOptions; mo_HealthProbeBindAddress : string;
  mo_LeaderElection : bool; mo_LeaderElectionID : string }.

Definition tlsOpts (o : Options) : list TLSOpt :=
  let tlsOpts := [] in
  if negb (enableHTTP2 o) then tlsOpts ++ [disableHTTP2] else tlsOpts.

Definition webhookServerOptions (o : Options) : WebhookOptions :=
  let w := mkWebhookOptions (tlsOpts o) "" "" "" in
  if nonempty (webhookCertPath o)
  then mkWebhookOptions (wh_TLSOpts w) (webhookCertPath o) (webhookCertName o) (webhookCertKey o)
  else w.

Definition metricsServerOptions (o : Options) : MetricsOptions :=
  let m := mkMetricsOptions (metricsAddr o) (secureMetrics o) (tlsOpts o) None "" "" "" in
  let m := if secureMetrics o
           then mkMetricsOptions (mt_BindAddress m) (mt_SecureServing m) (mt_TLSOpts m)
                  (Some WithAuthenticationAndAuthorization) (mt_CertDir m) (mt_CertName m) (mt_KeyName m)
           else m in
  if nonempty (metricsCertPath o)
  then mkMetricsOptions (mt_BindAddress m) (mt_SecureServing m) (mt_TLSOpts m) (mt_FilterProvider m)
         (metricsCertPath o) (metricsCertName o) (metricsCertKey o)
  else m.

Definition managerOptions (o : Options) : ManagerOptions :=
  mkManagerOptions (metricsServerOptions o) (webhookServerOptions o) (probeAddr o)
    (enableLeaderElection o) "21051230.io".

(** The calls of [main] that can fail, and what the outside answers. *)
Inductive Action :=
  | AGetConfig
  | ANewManager (o : ManagerOptions)
  | ANewDiscoveryClient
  | AComplete (spec : ControllerSpec)
  | AAddHealthzCheck (name : string)
  | AAddReadyzCheck (name : string)
  | AStart.

Record World := mkWorld { answer : Action → option error; discovery_client : DiscoveryClient }.

(** A stretch of [main]: the calls made, and the exit status or a value. *)
Definition proc (A : Type) : Type := list Action * (Z + A).
Definition proc_ret {A} (a : A) : proc A := ([], inr a).
Definition exit {A} (code : Z) : proc A := ([], inl code).
Definition proc_bind {A B} (p : proc A) (f : A → proc B) : proc B :=
  match p.2 with
  | inl code => (p.1, inl code)
  | inr a => ((p.1 ++ (f a).1)%list, (f a).2)
  end.
(** [if err := a(); err != nil { setupLog.Error(err, ...); os.Exit(1) }] *)
Definition step_or_exit (w : World) (a : Action) : proc () :=
  ([a], match answer w a with Some _ => inl 1 | None => inr tt end).

Declare Scope proc_scope.
Delimit Scope proc_scope with proc.
Notation "'do' x <- p ; q" := (proc_bind p (λ x, q))
  (at level 10, x pattern, p at level 100, q at level 200) : proc_scope.

(** [main]; it returns, with status 0, when [mgr.Start] returns nil. *)
Definition main `{OtherFlags} (w : World) (args : list string) : proc () :=
  (do o <- ([], parse args default_options);
   do _ <- step_or_exit w AGetConfig;
   do _ <- step_or_exit w (ANewManager (managerOptions o));
   do _ <- step_or_exit w ANewDiscoveryClient;
   let serviceMonitorEnabled := HasServiceMonitorCRD (discovery_client w) in
   do _ <- step_or_exit w (AComplete (MonitorController_Setup (mkReconciler serviceMonitorEnabled)));
   do _ <- step_or_exit w (AComplete LibraryController_Setup);
   do _ <- step_or_exit w (AAddHealthzCheck "healthz");
   do _ <- step_or_exit w (AAddReadyzCheck "readyz");
   step_or_exit w AStart)%proc.

Definition exit_code {A} (p : proc A) : Z := match p.2 with inl code => code | inr _ => 0 end.

(** ** Properties *)

(** *** Scheme *)
Section Schemes.
Context {Sch : Type} `{SchemeLaws Sch}.

(** C24 When the initialisation of the program does not panic, the scheme knows
    every kind the operator handles: the kind of each API call the reconcilers
    can make, of each child they own, and of each object they watch. *)
Theorem scheme_complete s :
  init_scheme = Done s →
  (∀ X (e : Eff X) g, g ∈ kinds_of e → recognizes s g = true) ∧
  (∀ r g, g ∈ ctl_For (MonitorController_Setup r) :: (ctl_Owns (MonitorController_Setup r)
            ++ (ctl_Watches (MonitorController_Setup r)).*1)%list → recognizes s g = true) ∧
  recognizes s (ctl_For LibraryController_Setup) = true.
Proof.
  unfold init_scheme. destruct (clientgo_AddToScheme NewScheme) as [s1|] eqn:H1; [|done]. simpl.
  destruct (builder_AddToScheme SchemeBuilder s1) as [s2|] eqn:H2; [|done]. simpl.
  destruct (monitoring_AddToScheme s2) as [s3|] eqn:H3; [|done]. intros [= <-].
  apply clientgo_adds in H1 as [Hc _]. pose proof (builder_adds _ _ _ H2) as Hb. apply monitoring_adds in H3 as [Hm Hk].
  assert (∀ g, g ∈ clientgo_kinds → recognizes s3 g = true) as Hc3 by (intros; apply Hk, Hb; auto).
  assert (∀ k, k ∈ b_Registered SchemeBuilder → recognizes s3 (with_kind GroupVersion k) = true) as Hb3.
  { intros k Hin. apply Hk, Hb. right. by exists k. }
  assert (∀ k, recognizes s3 (kind_gvk k) = true) as Hkind.
  { intros []; [apply Hc3|apply Hc3|apply Hc3|apply Hm]; apply (bool_decide_unpack _); reflexivity. }
  assert (recognizes s3 monitor_gvk = true) as Hmon by (apply Hb3, (bool_decide_unpack _); reflexivity).
  assert (recognizes s3 library_gvk = true) as Hlib by (apply Hb3, (bool_decide_unpack _); reflexivity).
  split; [|split; [|done]].
  - intros X e g Hg. destruct e; simpl in Hg; rewrite ?elem_of_cons, ?elem_of_nil in Hg;
      destruct_or?; subst; try done; try (apply Hkind); try (apply Hc3, (bool_decide_unpack _); reflexivity).
    apply Hb3, (bool_decide_unpack _); reflexivity.
  - intros [b] g. destruct b; simpl; rewrite ?elem_of_cons, ?elem_of_nil; intros Hg; destruct_or?; subst; try done;
      first [apply (Hkind KConfigMap)|apply (Hkind KDeployment)|apply (Hkind KService)|apply (Hkind KServiceMonitor)].
Qed.
End Schemes.

(** *** Events *)
Section Events.
Context `{Yaml} `{Embedded} `{Machinery} `{!MachineryLaws}.

(** The protocol applies a ServiceMonitor only when they are enabled. *)
Lemma scrape_enabled scrape p t q (obj : obj_of KServiceMonitor) fo fc ans :
  track (step scrape) p t = Some q → Entry (Patch KServiceMonitor obj fo fc) ans ∈ t → scrape = true.
Proof.
  revert p. induction t as [|en t IH]; intros p; simpl; [by intros _ ?%elem_of_nil|].
  destruct (step scrape p en) as [p'|] eqn:Hs; [|done]. intros Ht [<-|Hin]%elem_of_cons; [|by eapply IH].
  simpl in Hs. destruct (next_child scrape p) as [[[k kind] p'']|] eqn:Hn; [|done].
  destruct scrape; [done|]. destruct p; simplify_eq/=; done.
Qed.

(** C20 The children the reconciler applies are watched: for every object it
    applies in any run, whatever the API server answers, an event on that
    object asks for a reconciliation of its monitor, as controller-runtime
    documents [Owns]. *)
Theorem children_events_requeue r req t o k (obj : obj_of k) fo fc ans :
  runs (Reconcile r req) t o → Entry (Patch k obj fo fc) ans ∈ t →
  ∃ m, subject t = Some m ∧ mon_key m ∈ owner_requests (MonitorController_Setup r) (kind_gvk k) (obj_meta obj).
Proof.
  intros Hr Hin. pose proof (Reconcile_owned r req t o Hr) as Hall. rewrite Forall_forall in Hall.
  destruct (Hall _ Hin eq_refl) as (m & Hm & _ & _ & Hkey & _ & _ & ref & Href & Hc & Hk & Hn & _).
  exists m. split; [done|]. unfold owner_requests. rewrite bool_decide_true.
  - apply list_elem_of_fmap. exists ref. split; [|apply list_elem_of_filter; split; [split; [done|]|done]; by destruct r as [[]]].
    rewrite Hn. unfold mon_key. unfold meta_key in *. by injection Hkey as -> _.
  - pose proof (Reconcile_follows _ r req eq_refl) as Hf. unfold follows in Hf. rewrite wp_runs in Hf.
    destruct (Hf _ _ Hr) as (q & Ht & _). destruct r as [b].
    destruct k; [destruct b; apply (bool_decide_unpack _); vm_compute; done..|].
    assert (b = true) as -> by (by eapply scrape_enabled). apply (bool_decide_unpack _). reflexivity.
Qed.
End Events.

(** *** Command line *)
Definition bool_string (b : bool) : string := if b then "true" else "false".

(** The command line that sets every option. *)
Definition args_of (o : Options) : list string := [
  "--metrics-bind-address=" +:+ metricsAddr o;
  "--health-probe-bind-address=" +:+ probeAddr o;
  "--leader-elect=" +:+ bool_string (enableLeaderElection o);
  "--metrics-secure=" +:+ bool_string (secureMetrics o);
  "--webhook-cert-path=" +:+ webhookCertPath o;
  "--webhook-cert-name=" +:+ webhookCertName o;
  "--webhook-cert-key=" +:+ webhookCertKey o;
  "--metrics-cert-path=" +:+ metricsCertPath o;
  "--metrics-cert-name=" +:+ metricsCertName o;
  "--metrics-cert-key=" +:+ metricsCertKey o;
  "--enable-http2=" +:+ bool_string (enableHTTP2 o)].

Lemma ParseBool_string b : ParseBool (bool_string b) = Some b.
Proof. by destruct b. Qed.

(** One argument [--name=value]. *)
Lemma parse_string `{OtherFlags} s name set v rest o o' :
  read_arg s = AFlag name (Some v) → find_flag name flags = Some (StringVar set) →
  parse rest (set v o) = o' → parse (s :: rest) o = o'.
Proof. intros Hr Hf <-. cbn [parse]. by rewrite Hr, Hf. Qed.

Lemma parse_bool `{OtherFlags} s name set b rest o o' :
  read_arg s = AFlag name (Some (bool_string b)) → find_flag name flags = Some (BoolVar set) →
  parse rest (set b o) = o' → parse (s :: rest) o = o'.
Proof. intros Hr Hf <-. cbn [parse]. rewrite Hr, Hf. simpl default. by rewrite ParseBool_string. Qed.

Ltac flag_tac := first [vm_compute; reflexivity | match goal with b : bool |- context [bool_string ?b] => destruct b; vm_compute; reflexivity end].

Ltac options_tac := cbn [metricsAddr probeAddr enableLeaderElection secureMetrics webhookCertPath webhookCertName
  webhookCertKey metricsCertPath metricsCertName metricsCertKey enableHTTP2].

(** C23 The command line determines the options, and reaches each of them:
    parsing the flags written from any options gives these options back,
    whatever the options were before and whatever the values contain. *)
Theorem flags_roundtrip `{OtherFlags} o o' : parse (args_of o) o' = inr o.
Proof.
  destruct o as [ma pa le sm wp wn wk mp mn mk h2], o'. unfold args_of.
  eapply (parse_string _ "metrics-bind-address" _ ma); [flag_tac|reflexivity|options_tac].
  eapply (parse_string _ "health-probe-bind-address" _ pa); [flag_tac|reflexivity|options_tac].
  eapply (parse_bool _ "leader-elect" _ le); [flag_tac|reflexivity|options_tac].
  eapply (parse_bool _ "metrics-secure" _ sm); [flag_tac|reflexivity|options_tac].
  eapply (parse_string _ "webhook-cert-path" _ wp); [flag_tac|reflexivity|options_tac].
  eapply (parse_string _ "webhook-cert-name" _ wn); [flag_tac|reflexivity|options_tac].
  eapply (parse_string _ "webhook-cert-key" _ wk); [flag_tac|reflexivity|options_tac].
  eapply (parse_string _ "metrics-cert-path" _ mp); [flag_tac|reflexivity|options_tac].
  eapply (parse_string _ "metrics-cert-name" _ mn); [flag_tac|reflexivity|options_tac].
  eapply (parse_string _ "metrics-cert-key" _ mk); [flag_tac|reflexivity|options_tac].
  eapply (parse_bool _ "enable-http2" _ h2); [flag_tac|reflexivity|options_tac].
  reflexivity.
Qed.

(** *** The process *)
Definition ok (w : World) (a : Action) : Prop := answer w a = None.

(** The calls of [main], in order, when the flags are good. *)
Definition plan (w : World) (o : Options) : list Action := [
  AGetConfig; ANewManager (managerOptions o); ANewDiscoveryClient;
  AComplete (MonitorController_Setup (mkReconciler (HasServiceMonitorCRD (discovery_client w))));
  AComplete LibraryController_Setup; AAddHealthzCheck "healthz"; AAddReadyzCheck "readyz"; AStart].

Fixpoint run_plan (w : World) (l : list Action) : proc () :=
  match l with
  | [] => proc_ret tt
  | a :: l' => proc_bind (step_or_exit w a) (λ _, run_plan w l')
  end.

Lemma main_plan `{OtherFlags} w args o :
  parse args default_options = inr o → main w args = run_plan w (plan w o).
Proof.
  intros Ho. unfold main, plan, proc_bind at 1. simpl snd. rewrite Ho. simpl app.
  cbn [run_plan]. unfold proc_bind, step_or_exit. cbn [fst snd].
  repeat (destruct (answer w _); cbn; [done|]). done.
Qed.

Lemma run_plan_spec w l :
  ∃ made rest, l = (made ++ rest)%list ∧ (run_plan w l).1 = made ∧
    ((rest = [] ∧ Forall (ok w) made ∧ (run_plan w l).2 = inr tt) ∨
     (∃ made' a, made = (made' ++ [a])%list ∧ Forall (ok w) made' ∧ ¬ ok w a ∧ (run_plan w l).2 = inl 1)).
Proof.
  induction l as [|a l (made & rest & -> & Hmade & IH)]; [exists [], []; naive_solver|].
  unfold run_plan; fold run_plan. unfold proc_bind, step_or_exit. destruct (answer w a) as [e|] eqn:Ha; cbn.
  - exists [a], (made ++ rest)%list. split_and!; [done..|]. right. exists [], a. unfold ok. split_and!; try done. by rewrite Ha.
  - exists (a :: made), rest. split; [done|]. split; [by rewrite Hmade|].
    destruct IH as [(-> & Hok & Hr)|(made' & b & -> & Hok & Hb & Hr)].
    + left. split_and!; [done|by constructor|done].
    + right. exists (a :: made'), b. split_and!; [done|by constructor|done|done].
Qed.

(** *** What the start-up should be *)

(** The argument asks for help, and no library has a flag of that name. *)
Definition asks_for_help `{OtherFlags} (arg : string) : Prop :=
  ∃ name value, read_arg arg = AFlag name value ∧ name ∈ ["help"; "h"] ∧ other_flag name = None.

(** Discovery answers and lists ServiceMonitors. *)
Definition lists_servicemonitors (dc : DiscoveryClient) : Prop :=
  ∃ kinds, dc "monitoring.coreos.com/v1" = Ok kinds ∧ "ServiceMonitor" ∈ kinds.

(** Addresses, leader election and certificates are those of the flags. *)
Definition manager_as_asked (o : Options) (mo : ManagerOptions) : Prop :=
  mt_BindAddress (mo_Metrics mo) = metricsAddr o ∧ mo_HealthProbeBindAddress mo = probeAddr o ∧
  mo_LeaderElection mo = enableLeaderElection o ∧ mo_LeaderElectionID mo = "21051230.io" ∧
  mt_SecureServing (mo_Metrics mo) = secureMetrics o ∧
  mt_CertDir (mo_Metrics mo) = metricsCertPath o ∧ wh_CertDir (mo_Webhook mo) = webhookCertPath o ∧
  (metricsCertPath o ≠ "" → mt_CertName (mo_Metrics mo) = metricsCertName o ∧ mt_KeyName (mo_Metrics mo) = metricsCertKey o) ∧
  (webhookCertPath o ≠ "" → wh_CertName (mo_Webhook mo) = webhookCertName o ∧ wh_KeyName (mo_Webhook mo) = webhookCertKey o).

(** The calls in order: the manager, the controllers with all they own and
    watch, the checks, the run. *)
Definition start_up (mo : ManagerOptions) (servicemonitors : bool) : list Action := [
  AGetConfig; ANewManager mo; ANewDiscoveryClient;
  AComplete (mkControllerSpec "pgpilotmonitor" (mkGVK "pgpilot.io" "v1" "PgpilotMonitor")
    ([mkGVK "" "v1" "ConfigMap"; mkGVK "apps" "v1" "Deployment"; mkGVK "" "v1" "Service"] ++
     if servicemonitors then [mkGVK "monitoring.coreos.com" "v1" "ServiceMonitor"] else [])
    [(mkGVK "pgpilot.io" "v1" "PgpilotMetricLibrary", libraryToMonitors)]);
  AComplete (mkControllerSpec "pgpilotmetriclibrary" (mkGVK "pgpilot.io" "v1" "PgpilotMetricLibrary") [] []);
  AAddHealthzCheck "healthz"; AAddReadyzCheck "readyz"; AStart].

Lemma plan_start_up w o : plan w o = start_up (managerOptions o) (HasServiceMonitorCRD (discovery_client w)).
Proof. unfold plan, start_up, MonitorController_Setup. simpl. by destruct (HasServiceMonitorCRD _). Qed.

Lemma managerOptions_as_asked o : manager_as_asked o (managerOptions o).
Proof.
  unfold manager_as_asked, managerOptions, metricsServerOptions, webhookServerOptions. simpl.
  destruct (nonempty (metricsCertPath o)) eqn:Hm, (nonempty (webhookCertPath o)) eqn:Hw;
    rewrite ?nonempty_true, ?nonempty_false in Hm; rewrite ?nonempty_true, ?nonempty_false in Hw;
    destruct (secureMetrics o) eqn:Hs; simpl; split_and!; try done; congruence.
Qed.

Lemma ExitOnError_status `{OtherFlags} args o code :
  parse args o = inl code → code = 2 ∨ (code = 0 ∧ Exists asks_for_help args).
Proof.
  revert o. induction args as [args IH] using (well_founded_induction (well_founded_ltof _ length)). intros o.
  destruct args as [|s rest]; [done|]. cbn [parse].
  assert (∀ rest' o', (∃ l, rest = (l ++ rest')%list) → parse rest' o' = inl code →
    code = 2 ∨ (code = 0 ∧ Exists asks_for_help (s :: rest))) as Hgo.
  { intros rest' o' [l ->] Hp. destruct (IH rest' ltac:(unfold ltof; simpl; rewrite length_app; lia) o' Hp) as [?|[? Hex]]; [by left|right].
    split; [done|]. right. apply Exists_app. by right. }
  assert (∀ o', parse rest o' = inl code → code = 2 ∨ (code = 0 ∧ Exists asks_for_help (s :: rest))) as Hgo1
    by (intros o'; apply Hgo; by exists []).
  destruct (read_arg s) as [| |name value] eqn:Hs; [done|intros [= <-]; by left|].
  destruct (find_flag name flags) as [[set|set]|].
  - destruct value as [v|]; [by apply Hgo1|]. destruct rest as [|v rest']; [intros [= <-]; by left|].
    apply Hgo. by exists [v].
  - destruct (ParseBool _); [by apply Hgo1|intros [= <-]; by left].
  - destruct (other_flag name) as [[]|] eqn:Ho.
    + destruct (other_accepts _ _); [by apply Hgo1|intros [= <-]; by left].
    + destruct value as [v|]; [|destruct rest as [|v rest']; [intros [= <-]; by left|]];
        (destruct (other_accepts _ _); [|intros [= <-]; by left]); [by apply Hgo1|]. apply Hgo. by exists [v].
    + case_bool_decide as Hh; intros [= <-]; [right|by left]. split; [done|]. left. by exists name, value.
Qed.

(** C12 The process, completely.  A bad command line ends it before any call,
    with status 2, or 0 if some argument asks for help, and an argument that
    asks for help first thing always does.  Otherwise it makes the calls of
    [start_up] in order, each only if all before it succeeded, exits with status
    1 right after the first failure, and ends with status 0 exactly when all,
    the run of the manager included, succeed.  The manager has the addresses,
    certificates and leader election of the flags; the monitor controller owns
    ConfigMaps, Deployments and Services, and ServiceMonitors exactly when
    discovery answers that the cluster has them, and watches the libraries. *)
Theorem main_stops_at_first_failure `{OtherFlags} w args :
  (∀ arg rest, args = arg :: rest → asks_for_help arg → main w args = ([], inl 0)) ∧
  match parse args default_options with
  | inl code => main w args = ([], inl code) ∧ (code = 2 ∨ (code = 0 ∧ Exists asks_for_help args))
  | inr o =>
      ∃ mo sm made rest, manager_as_asked o mo ∧ (sm = true ↔ lists_servicemonitors (discovery_client w)) ∧
        start_up mo sm = (made ++ rest)%list ∧ (main w args).1 = made ∧
        ((rest = [] ∧ Forall (ok w) made ∧ exit_code (main w args) = 0) ∨
         (∃ made' a, made = (made' ++ [a])%list ∧ Forall (ok w) made' ∧ ¬ ok w a ∧ exit_code (main w args) = 1))
  end.
Proof.
  split.
  { intros arg rest -> (name & value & Ha & Hn & Ho). unfold main, proc_bind at 1. simpl snd.
    apply elem_of_cons in Hn as [->|[->|?%elem_of_nil]%elem_of_cons]; [| |done];
      cbn [parse]; rewrite Ha; simpl; by rewrite Ho. }
  destruct (parse args default_options) as [code|o] eqn:Ho.
  - split; [unfold main, proc_bind at 1; simpl snd; by rewrite Ho|by eapply ExitOnError_status].
  - rewrite (main_plan _ _ _ Ho). destruct (run_plan_spec w (plan w o)) as (made & rest & Hp & Hm & Hend).
    exists (managerOptions o), (HasServiceMonitorCRD (discovery_client w)), made, rest.
    split; [apply managerOptions_as_asked|]. split; [apply HasServiceMonitorCRD_spec|].
    split; [by rewrite <-plan_start_up|]. split; [done|]. unfold exit_code. destruct Hend as [(-> & Hok & ->)|(m' & a & -> & Hok & Ha & ->)].
    + by left.
    + right. by exists m', a.
Qed.

(** C21 The servers of any manager the process starts are locked down as the
    flags say: unless [-enable-http2] was given, whatever TLS configuration
    the metrics and webhook servers start from, they offer HTTP/1.1 and nothing
    else, and with the flag their configuration is left alone; the metrics
    endpoint authenticates and authorizes its clients exactly when it is served
    securely, which it is unless [-metrics-secure] was turned off. *)
Theorem servers_locked_down `{OtherFlags} w args mo :
  ANewManager mo ∈ (main w args).1 →
  ∃ o, parse args default_options = inr o ∧
    (∀ opts c, opts ∈ [mt_TLSOpts (mo_Metrics mo); wh_TLSOpts (mo_Webhook mo)] →
       (enableHTTP2 o = false → NextProtos (configured opts c) = ["http/1.1"]) ∧
       (enableHTTP2 o = true → configured opts c = c)) ∧
    mt_SecureServing (mo_Metrics mo) = secureMetrics o ∧
    (mt_FilterProvider (mo_Metrics mo) = Some WithAuthenticationAndAuthorization ↔ secureMetrics o = true) ∧
    mt_BindAddress (mo_Metrics mo) = metricsAddr o.
Proof.
  intros Hin. destruct (parse args default_options) as [code|o] eqn:Ho.
  { unfold main, proc_bind at 1 in Hin. simpl snd in Hin. rewrite Ho in Hin. by apply elem_of_nil in Hin. }
  rewrite (main_plan _ _ _ Ho) in Hin. destruct (run_plan_spec w (plan w o)) as (made & rest & Hp & Hm & _).
  rewrite Hm in Hin. assert (ANewManager mo ∈ plan w o) as Hmo by (rewrite Hp; apply elem_of_app; by left).
  assert (mo = managerOptions o) as ->.
  { unfold plan in Hmo. rewrite !elem_of_cons, elem_of_nil in Hmo. destruct_or?; by simplify_eq. }
  exists o. split; [done|]. destruct o as [ma pa le sm wp wn wk mp mn mk h2].
  unfold managerOptions, metricsServerOptions, webhookServerOptions, tlsOpts. simpl.
  destruct sm, h2, (nonempty wp), (nonempty mp); simpl; split_and!; try done;
    intros opts c [->|[->|?%elem_of_nil]%elem_of_cons]%elem_of_cons; done.
Qed.

(** ** Concrete instances *)

(** A scheme as the list of the kinds it knows. *)
#[export] Instance list_scheme : Schemes (list GroupVersionKind) := {|
  NewScheme := [];
  recognizes := λ s g, bool_decide (g ∈ s);
  builder_AddToScheme := λ b s, Ok ((with_kind (b_GroupVersion b) <$> b_Registered b) ++ s)%list;
  clientgo_AddToScheme := λ s, Ok (clientgo_kinds ++ s)%list;
  monitoring_AddToScheme := λ s, Ok (monitoring_kinds ++ s)%list
|}.

#[export] Instance list_scheme_laws : SchemeLaws (list GroupVersionKind).
Proof.
  split.
  - intros b s s' [= <-] g. simpl. rewrite !bool_decide_eq_true, elem_of_app, list_elem_of_fmap. naive_solver.
  - intros s s' [= <-]. split; intros g Hg; [apply bool_decide_eq_true|apply bool_decide_eq_true in Hg; apply bool_decide_eq_true]; apply (elem_of_app clientgo_kinds s g); auto.
  - intros s s' [= <-]. split; intros g Hg; [apply bool_decide_eq_true|apply bool_decide_eq_true in Hg; apply bool_decide_eq_true]; apply (elem_of_app monitoring_kinds s g); auto.
Qed.

(** The flags of zap and of controller-runtime's client configuration. *)
#[export] Instance library_flags : OtherFlags := {|
  other_flag := λ n, if bool_decide (n = "zap-devel") then Some true
                     else if bool_decide (n ∈ ["zap-encoder"; "zap-log-level"; "zap-stacktrace-level"; "zap-time-encoding"; "kubeconfig"])
                     then Some false else None;
  other_accepts := λ n v, negb (bool_decide (n = "zap-devel")) || bool_decide (is_Some (ParseBool v))
|}.

Definition fx_dc : DiscoveryClient := λ gv, if bool_decide (gv = "monitoring.coreos.com/v1") then Ok ["PodMonitor"; "ServiceMonitor"] else Ok [].
Definition fx_world : World := mkWorld (λ _, None) fx_dc.
Definition fx_world_down : World :=
  mkWorld (λ a, match a with ANewDiscoveryClient => Some (ErrNew "refused") | _ => None end) fx_dc.

Example fx_flags_forms :
  parse ["-zap-devel"; "--metrics-secure=F"; "-metrics-bind-address"; ":8080"; "--zap-log-level"; "debug"; "--"; "-x"] default_options
  = inr (mkOptions ":8080" ":8081" false false "" "tls.crt" "tls.key" "" "tls.crt" "tls.key" false).
Proof. vm_compute. reflexivity. Qed.

Example fx_flags_bad :
  map (λ a, parse a default_options) [["-h"]; ["--nope"]; ["-leader-elect=maybe"]; ["--probe"]; ["---x"]; ["-metrics-bind-address"]]
  = [inl 0; inl 2; inl 2; inl 2; inl 2; inl 2].
Proof. vm_compute. reflexivity. Qed.

Lemma scheme_complete_witness :
  ∃ s, init_scheme (Sch := list GroupVersionKind) = Done s ∧ recognizes s library_gvk = true.
Proof.
  eexists. split; [reflexivity|].
  exact (proj1 (scheme_complete (Sch := list GroupVersionKind) _ eq_refl) _ (GetLibrary (mkNN "" "")) library_gvk
           (list_elem_of_here _ _)).
Defined.

Lemma children_events_requeue_witness :
  ∃ m, subject (fx_run fx_server fx_inline).1.1 = Some m ∧
    Exists (λ en, match en with @Entry _ e _ => match e with Patch k obj _ _ =>
      mon_key m ∈ owner_requests (MonitorController_Setup (mkReconciler true)) (kind_gvk k) (obj_meta obj) | _ => False end end)
      (fx_run fx_server fx_inline).1.1.
Proof.
  pose proof (fx_run_runs fx_server fx_inline) as Hr.
  assert (existsb is_patch (fx_run fx_server fx_inline).1.1 = true) as Hp by (vm_compute; reflexivity).
  apply existsb_Exists, Exists_exists in Hp as (en & Hin & Hen).
  destruct en as [X e x]. destruct e as [| | | | | | | | |k obj fo fc| | |]; try discriminate Hen.
  destruct (children_events_requeue (mkReconciler true) (mon_key fx_inline) _ _ k obj fo fc x Hr Hin) as (m & Hm & Hreq).
  exists m. split; [exact Hm|]. apply Exists_exists. eexists. split; [exact Hin|exact Hreq].
Defined.

(** A failing discovery client; a cry for help. *)
Lemma main_stops_at_first_failure_witness :
  exit_code (main fx_world_down ["--leader-elect"]) = 1 ∧ length (main fx_world_down ["--leader-elect"]).1 = 3%nat ∧
  main fx_world ["-h"; "--leader-elect"] = ([], inl 0).
Proof.
  split; [|split; [vm_compute; reflexivity|]].
  - pose proof (proj2 (main_stops_at_first_failure fx_world_down ["--leader-elect"])) as H. simpl in H.
    destruct H as (mo & sm & made & rest & _ & _ & _ & Hm & [(_ & Hok & _)|(made' & a & _ & _ & _ & Hc)]); [|exact Hc].
    exfalso. rewrite <- Hm in Hok. rewrite Forall_forall in Hok.
    assert (ANewDiscoveryClient ∈ (main fx_world_down ["--leader-elect"]).1) as Hin
      by (do 2 apply list_elem_of_further; apply list_elem_of_here).
    by specialize (Hok _ Hin).
  - apply (proj1 (main_stops_at_first_failure fx_world ["-h"; "--leader-elect"]) "-h" ["--leader-elect"] eq_refl).
    exists "h", None. split; [reflexivity|]. split; [right; left|reflexivity].
Defined.

Lemma servers_locked_down_witness :
  ∃ mo, ANewManager mo ∈ (main fx_world ["--metrics-bind-address=:8443"]).1 ∧
    NextProtos (configured (wh_TLSOpts (mo_Webhook mo)) (mkTLSConfig ["h2"; "http/1.1"] "")) = ["http/1.1"].
Proof.
  assert (∀ o, parse ["--metrics-bind-address=:8443"] default_options = inr o → enableHTTP2 o = false) as Hd
    by (intros o; vm_compute; intros [= <-]; reflexivity).
  eexists. assert (ANewManager (managerOptions (mkOptions ":8443" ":8081" false true "" "tls.crt" "tls.key" "" "tls.crt" "tls.key" false))
    ∈ (main fx_world ["--metrics-bind-address=:8443"]).1) as Hin.
  { apply list_elem_of_further. apply list_elem_of_here. }
  split; [exact Hin|].
  destruct (servers_locked_down _ _ _ Hin) as (o & Ho & Hopts & _).
  apply (Hopts _ (mkTLSConfig ["h2"; "http/1.1"] "")); [apply list_elem_of_further, list_elem_of_here|exact (Hd o Ho)].
Defined.
