(* ===== verification/System.v ===== *)
(** The operator at work: its two controllers, the API server and everybody
    else, as one step relation.

    Each controller has one worker, as controller-runtime runs them by default;
    a worker holds a request and the rest of its reconciliation, and advances
    one API call at a time, so calls of both controllers and the actions of
    users, of garbage collection and of other controllers interleave freely.
    A call may fail, before or after it took effect; a read may be answered
    from a cache, with an older version; the operator may crash and restart.
    The API server is any that satisfies [ApiServerLaws]. *)
From S2P Require Import Prelude GoStd Kube Api Fixtures Labels ConfigMap Service Prog Machinery ApiServer.
From S2P Require Import MonitorController Protocol MonitorSpec LibraryController Metrics Execution Convergence.
From Stdlib Require Import ZArith.
From stdpp Require Import relations.
Open Scope Z_scope.

Section Server.
Context {S : Type} `{AS : ApiServer S}.

(** ** Versions *)

(** A version of a monitor that is or was stored: if what is stored under its
    key now has its resource version, it is the same object. *)
Definition past_monitor (s : S) (m : PgpilotMonitor) : Prop :=
  issued s (om_ResourceVersion (mon_ObjectMeta m)) ∧
  ∀ m0, cl_monitors (store s) !! mon_key m = Some m0 →
    om_ResourceVersion (mon_ObjectMeta m0) = om_ResourceVersion (mon_ObjectMeta m) → m0 = m.

(** ** Answers *)

(** The call failed: the answer is an error; a clock and a map order are what
    they are. *)
Definition fails {X} (e : Eff X) : X → Prop :=
  match e in Eff X return X → Prop with
  | GetMonitor _ => λ x, ∃ err, x = Err err
  | UpdateMonitor _ => λ x, ∃ err, x = Err err
  | UpdateMonitorStatus _ => λ x, ∃ err, x = Some err
  | ListMonitors _ => λ x, ∃ err, x = Err err
  | GetLibrary _ => λ x, ∃ err, x = Err err
  | UpdateLibraryStatus _ => λ x, ∃ err, x = Some err
  | GetSecret _ => λ x, ∃ err, x = Err err
  | GetDeployment _ => λ x, ∃ err, x = Err err
  | ListPods _ _ => λ x, ∃ err, x = Err err
  | Patch _ _ _ _ => λ x, ∃ err, x = Err err
  | RecordEvent _ _ _ _ | Now | PickOrder => λ _, True
  end.

(** The call was answered from the cache: a monitor may be an older version of
    the one asked for; other objects may be anything. *)
Definition cached {X} (e : Eff X) (s : S) : X → Prop :=
  match e in Eff X return X → Prop with
  | GetMonitor k => λ x, ∃ m, x = Ok m ∧ mon_key m = k ∧ past_monitor s m
  | GetLibrary _ | GetSecret _ | GetDeployment _ | ListMonitors _ | ListPods _ _ => λ _, True
  | _ => λ _, False
  end.

Inductive answers {X} (e : Eff X) (s : S) : X → S → Prop :=
  | answer_served : answers e s (serve X e s).1 (serve X e s).2
  | answer_lost x : fails e x → answers e s x (serve X e s).2
  | answer_failed x : fails e x → answers e s x s
  | answer_cached x : cached e s x → answers e s x s.

(** ** Changes *)

(** The object is controlled by a monitor. *)
Definition controls (ref : OwnerReference) : Prop := or_Controller ref = true ∧ or_Kind ref = "PgpilotMonitor".
Definition controlled (o : ObjectMeta) : Prop := ∃ ref, ref ∈ om_OwnerReferences o ∧ controls ref.

(** Users and other controllers create, change and remove objects at will, but
    they do not put what they create or change under the control of a monitor. *)
Record environment (s s' : S) : Prop := {
  env_versioned : versioned s s';
  env_children kind k (o' : obj_of kind) : children (store s') kind !! k = Some o' →
    (∃ o, children (store s) kind !! k = Some o ∧
       om_OwnerReferences (obj_meta o') = om_OwnerReferences (obj_meta o)) ∨
    ¬ controlled (obj_meta o')
}.

(** ** The system *)
Context `{Y : Yaml} `{E : Embedded} `{M : Machinery} (r : PgpilotMonitorReconciler).

Definition worker := prog (Result * option error).

Record System := mkSystem {
  sys_server : S;
  sys_monitors : option worker;  (* the worker of the monitor controller *)
  sys_libraries : option worker  (* and of the library controller *)
}.

(** A step of the operator: a worker takes a request, calls, ends; a crash. *)
Inductive operator_step : System → System → Prop :=
  | step_take_monitor s l req :
      operator_step (mkSystem s None l) (mkSystem s (Some (Reconcile r req)) l)
  | step_take_library s w req :
      operator_step (mkSystem s w None) (mkSystem s w (Some (ReconcileLibrary req)))
  | step_call_monitor s l X (e : Eff X) k x s' :
      answers e s x s' → operator_step (mkSystem s (Some (Call e k)) l) (mkSystem s' (Some (k x)) l)
  | step_call_library s w X (e : Eff X) k x s' :
      answers e s x s' → operator_step (mkSystem s w (Some (Call e k))) (mkSystem s' w (Some (k x)))
  | step_done_monitor s l a : operator_step (mkSystem s (Some (Ret a)) l) (mkSystem s None l)
  | step_done_library s w a : operator_step (mkSystem s w (Some (Ret a))) (mkSystem s w None)
  | step_crash s w l : operator_step (mkSystem s w l) (mkSystem s None None).

Inductive sys_step : System → System → Prop :=
  | by_operator σ σ' : operator_step σ σ' → sys_step σ σ'
  | by_others s s' w l : environment s s' → sys_step (mkSystem s w l) (mkSystem s' w l).

(** Objects are under their keys, with versions that were issued. *)
Definition well_kept (s : S) : Prop :=
  (∀ k m, cl_monitors (store s) !! k = Some m → mon_key m = k ∧ issued s (om_ResourceVersion (mon_ObjectMeta m))) ∧
  (∀ k l, cl_libraries (store s) !! k = Some l → lib_key l = k).

(** Before the operator: no object is controlled by a monitor. *)
Definition initial (σ : System) : Prop :=
  well_kept (sys_server σ) ∧
  (∀ kind k (o : obj_of kind), children (store (sys_server σ)) kind !! k = Some o → ¬ controlled (obj_meta o)) ∧
  sys_monitors σ = None ∧ sys_libraries σ = None.

Definition reachable (σ : System) : Prop := ∃ σ0, initial σ0 ∧ rtc sys_step σ0 σ.

(** ** What a worker may still do *)

(** The version of the monitor a worker holds after a call. *)
Definition next_held {X} (h : option PgpilotMonitor) (e : Eff X) : X → option PgpilotMonitor :=
  match e in Eff X return X → option PgpilotMonitor with
  | GetMonitor _ => λ x, match x with Ok m => Some m | Err _ => h end
  | UpdateMonitor _ => λ x, match x with Ok m => Some m | Err _ => h end
  | _ => λ _, h
  end.

(** An update sends back the version the worker holds, with other finalizers. *)
Definition permitted {X} (h : option PgpilotMonitor) (e : Eff X) : Prop :=
  match e with
  | UpdateMonitor m => ∃ m0 fs, h = Some m0 ∧ m = with_finalizers fs m0 ∧
      ∀ g, g ≠ finalizerName → g ∈ fs ↔ g ∈ om_Finalizers (mon_ObjectMeta m0)
  | _ => True
  end.

Fixpoint careful {A} (h : option PgpilotMonitor) (p : prog A) : Prop :=
  match p with
  | Ret _ | Panic _ => True
  | Call e k => permitted h e ∧ ∀ x, careful (next_held h e x) (k x)
  end.

(** A child of some monitor, controlled by it. *)
Definition child_of (κ : NamespacedName) (kind : Kind) (o : ObjectMeta) : Prop :=
  ∃ ref, ref ∈ om_OwnerReferences o ∧ controls ref ∧ or_Name ref = nn_Name κ.
Definition applies_children (en : entry) : Prop :=
  match en with
  | @Entry _ e _ =>
      match e with
      | Patch kind obj _ _ => ∃ κ, meta_key (obj_meta obj) = child_key κ kind ∧ child_of κ kind (obj_meta obj)
      | _ => True
      end
  end.

Definition trusted (s : S) (p : worker) : Prop :=
  ∃ h, careful h p ∧ (∀ m, h = Some m → past_monitor s m) ∧ always applies_children p (λ _, True).
Definition writes_no_monitor (en : entry) : Prop :=
  match en with
  | @Entry _ e _ => match e with UpdateMonitor _ | Patch _ _ _ _ => False | _ => True end
  end.

Record sound (σ : System) : Prop := {
  sound_kept : well_kept (sys_server σ);
  sound_monitors w : sys_monitors σ = Some w → trusted (sys_server σ) w;
  sound_libraries w : sys_libraries σ = Some w → always writes_no_monitor w (λ _, True);
  sound_children kind k (o : obj_of kind) : children (store (sys_server σ)) kind !! k = Some o →
    controlled (obj_meta o) → ∃ κ, k = child_key κ kind ∧ child_of κ kind (obj_meta o)
}.
End Server.

(** What an operator step leaves of the objects of others: it creates no
    monitor; of a monitor it changes the status, the version and its own
    finalizer; it removes a monitor only if that is under deletion and no other
    finalizer is left; of a library it changes status and version; it leaves
    Secrets alone. *)
Definition spares_monitor (o o' : option PgpilotMonitor) : Prop :=
  match o, o' with
  | None, None => True
  | None, Some _ => False
  | Some m, Some m' =>
      mon_Spec m' = mon_Spec m ∧
      (∃ fs rv, mon_ObjectMeta m' = SetResourceVersion rv (meta_set_finalizers fs (mon_ObjectMeta m))) ∧
      ∀ g, g ≠ finalizerName → g ∈ om_Finalizers (mon_ObjectMeta m') ↔ g ∈ om_Finalizers (mon_ObjectMeta m)
  | Some m, None =>
      om_DeletionTimestamp (mon_ObjectMeta m) ≠ None ∧ ∀ g, g ∈ om_Finalizers (mon_ObjectMeta m) → g = finalizerName
  end.

Definition spares_library (o o' : option PgpilotMetricLibrary) : Prop :=
  match o, o' with
  | None, None => True
  | Some l, Some l' => lib_Spec l' = lib_Spec l ∧ ∃ rv, lib_ObjectMeta l' = SetResourceVersion rv (lib_ObjectMeta l)
  | _, _ => False
  end.

Record spares (c c' : Cluster) : Prop := {
  spared_monitors k : spares_monitor (cl_monitors c !! k) (cl_monitors c' !! k);
  spared_libraries k : spares_library (cl_libraries c !! k) (cl_libraries c' !! k);
  spared_secrets : cl_secrets c' = cl_secrets c
}.

(** ** Lemmas: the server *)
Lemma set_version_same om : SetResourceVersion (om_ResourceVersion om) (meta_set_finalizers (om_Finalizers om) om) = om.
Proof. by destruct om. Qed.

Lemma spares_monitor_refl o : spares_monitor o o.
Proof.
  destruct o as [m|]; [|done]. split; [done|]. split; [|done].
  eexists _, _. symmetry. apply set_version_same.
Qed.

Lemma spares_library_refl o : spares_library o o.
Proof. destruct o as [l|]; [|done]. split; [done|]. exists (om_ResourceVersion (lib_ObjectMeta l)). by destruct (lib_ObjectMeta l). Qed.

Lemma spares_refl c : spares c c.
Proof. split; [intros; apply spares_monitor_refl|intros; apply spares_library_refl|done]. Qed.

Section ServerLemmas.
Context {S : Type} `{AS : ApiServer S} `{AL : !ApiServerLaws S}.
Implicit Types (s : S).

Lemma answers_effect {X} (e : Eff X) s x s' : answers e s x s' → s' = s ∨ s' = (serve X e s).2.
Proof. intros [|? ?|? ?|? ?]; auto. Qed.

Lemma answers_cases {X} (e : Eff X) s x s' : answers e s x s' →
  (x = (serve X e s).1 ∧ s' = (serve X e s).2) ∨ fails e x ∨ (cached e s x ∧ s' = s).
Proof. intros [|? ?|? ?|? ?]; auto. Qed.

Lemma effect_versioned {X} (e : Eff X) s x s' : answers e s x s' → versioned s s'.
Proof. intros [->| ->]%answers_effect; [apply versioned_refl|apply serve_versioned]. Qed.

Lemma past_versioned s s' m : versioned s s' → past_monitor s m → past_monitor s' m.
Proof.
  intros [Hi Hm _] [Hv Hst]. split; [by apply Hi|].
  intros m0 Hm0 Hrv. destruct (Hm _ _ Hm0) as [Hold|(_ & Hnew & _)]; [by apply Hst|].
  destruct Hnew. by rewrite Hrv.
Qed.

Lemma well_kept_versioned s s' : versioned s s' → well_kept s → well_kept s'.
Proof.
  intros [Hi Hm Hl] (Hk & Hkl). split.
  - intros k m Hkm. destruct (Hm _ _ Hkm) as [Hold|(Hkey & _ & Hv)]; [|done].
    destruct (Hk _ _ Hold). auto.
  - intros k l Hkl'. destruct (Hl _ _ Hkl') as [Hold|]; [by apply Hkl|done].
Qed.

(** What is stored, is past. *)
Lemma stored_past s k m : well_kept s → cl_monitors (store s) !! k = Some m → mon_key m = k ∧ past_monitor s m.
Proof.
  intros (Hk & _) Hm. destruct (Hk _ _ Hm) as [Hkey Hv]. split; [done|]. split; [done|].
  intros m0. rewrite Hkey, Hm. by intros [= ->].
Qed.

(** An update the operator may send: refused, or carried out on the object it
    was made from. *)
Lemma serve_permitted h m s :
  permitted h (UpdateMonitor m) → (∀ m0, h = Some m0 → past_monitor s m0) →
  ((∃ e, (serve _ (UpdateMonitor m) s).1 = Err e) ∧ store (serve _ (UpdateMonitor m) s).2 = store s) ∨
  ∃ m0 fs rv, cl_monitors (store s) !! mon_key m0 = Some m0 ∧
    (∀ g, g ≠ finalizerName → g ∈ fs ↔ g ∈ om_Finalizers (mon_ObjectMeta m0)) ∧
    let m' := with_version rv (with_finalizers fs m0) in
    (serve _ (UpdateMonitor m) s).1 = Ok m' ∧ issued (serve _ (UpdateMonitor m) s).2 rv ∧
    store (serve _ (UpdateMonitor m) s).2 = store_updated m' (store s).
Proof.
  intros (m0 & fs & -> & -> & Hfs) Hh. destruct (Hh m0 eq_refl) as [_ Hst].
  assert (cl_monitors (store s) !! mon_key m0 = Some m0 ∨ ∀ m1, cl_monitors (store s) !! mon_key m0 = Some m1 →
    om_ResourceVersion (mon_ObjectMeta m1) ≠ om_ResourceVersion (mon_ObjectMeta m0)) as [Hm|Hm].
  { destruct (_ !! mon_key m0) as [m1|]; [|by right].
    destruct (decide (om_ResourceVersion (mon_ObjectMeta m1) = om_ResourceVersion (mon_ObjectMeta m0))) as [Hrv|Hrv].
    - left. by rewrite (Hst m1 eq_refl Hrv).
    - right. by intros ? [= <-]. }
  - pose proof (serve_UpdateMonitor m0 fs s Hm) as Hu. destruct (serve _ _ s) as [x s']. simpl.
    destruct Hu as [Hu|(rv & Hx & Hi & Hs)]; [by left|right]. by exists m0, fs, rv.
  - left. pose proof (serve_UpdateMonitor_stale (with_finalizers fs m0) s Hm) as Hu. by destruct (serve _ _ s).
Qed.

(** ** Lemmas: what a call changes *)
Lemma spares_put c m m' :
  cl_monitors c !! mon_key m' = Some m → spares_monitor (Some m) (Some m') → spares c (put_monitor m' c).
Proof.
  intros Hm Hs. split; [|intros; apply spares_library_refl|done]. intros k. simpl.
  destruct (decide (k = mon_key m')) as [->|Hne].
  - by rewrite Hm, lookup_insert_eq.
  - rewrite lookup_insert_ne by done. apply spares_monitor_refl.
Qed.

(** An update of the operator's finalizer. *)
Lemma spares_updated c m fs rv :
  cl_monitors c !! mon_key m = Some m →
  (∀ g, g ≠ finalizerName → g ∈ fs ↔ g ∈ om_Finalizers (mon_ObjectMeta m)) →
  spares c (store_updated (with_version rv (with_finalizers fs m)) c).
Proof.
  intros Hm Hfs. set (m' := with_version _ _).
  assert (spares c (put_monitor m' c)) as Hput.
  { apply (spares_put _ m); [done|]. split; [done|]. split; [by eexists _, _|done]. }
  unfold store_updated. destruct (om_DeletionTimestamp (mon_ObjectMeta m')) as [t|] eqn:Hd; [|done].
  destruct (om_Finalizers (mon_ObjectMeta m')) as [|f l] eqn:Hf; [|done].
  split; [|intros; apply spares_library_refl|done]. intros k. simpl.
  destruct (decide (k = mon_key m)) as [->|Hne].
  - change (mon_key m') with (mon_key m). rewrite lookup_delete_eq, Hm. simpl in *. split; [by rewrite Hd|].
    intros g Hg. destruct (decide (g = finalizerName)) as [|Hng]; [done|].
    apply (Hfs g Hng) in Hg. rewrite Hf in Hg. by apply elem_of_nil in Hg.
  - rewrite lookup_delete_ne by done. apply spares_monitor_refl.
Qed.

Lemma serve_spares {X} (e : Eff X) s h :
  well_kept s → permitted h e → (∀ m, h = Some m → past_monitor s m) →
  spares (store s) (store (serve X e s).2).
Proof.
  intros Hkept Hp Hh. destruct (quiet e) eqn:Hq; [rewrite serve_quiet by done; apply spares_refl|].
  destruct e; try discriminate Hq; clear Hq.
  - destruct (serve_permitted h m s Hp Hh) as [[_ ->]|(m0 & fs & rv & Hm & Hfs & _ & _ & ->)]; [apply spares_refl|].
    by apply spares_updated.
  - pose proof (serve_UpdateMonitorStatus m s) as Hu. destruct (serve _ _ s) as [x s']. simpl.
    destruct Hu as [[_ ->]|(m0 & rv & Hm & _ & ->)]; [apply spares_refl|].
    destruct (stored_past _ _ _ Hkept Hm) as [Hkey _]. apply (spares_put _ m0).
    + change (mon_key (set_status _ _)) with (mon_key m0). by rewrite Hkey.
    + split; [done|]. split; [|done]. eexists (om_Finalizers (mon_ObjectMeta m0)), _. reflexivity.
  - pose proof (serve_UpdateLibraryStatus l s) as Hu. destruct (serve _ _ s) as [x s']. simpl.
    destruct Hu as [[_ ->]|(l0 & rv & Hl & _ & ->)]; [apply spares_refl|].
    destruct Hkept as (_ & Hkl). pose proof (Hkl _ _ Hl) as Hkey.
    split; [intros; apply spares_monitor_refl| |done]. intros k. unfold put_library. simpl.
    change (lib_key (mkLibrary _ _ _)) with (lib_key l0). rewrite Hkey. destruct (decide (k = lib_key l)) as [->|Hne].
    + rewrite Hl, lookup_insert_eq. split; [done|]. by eexists.
    + rewrite lookup_insert_ne by done. apply spares_library_refl.
  - pose proof (serve_Patch k obj owner force s) as Hu. destruct (serve _ _ s) as [x s']. simpl.
    destruct Hu as [[_ ->]|(o' & _ & _ & _ & ->)]; [apply spares_refl|].
    split; [intros; rewrite monitors_put_child; apply spares_monitor_refl
           |intros; rewrite libraries_put_child; apply spares_library_refl|by rewrite secrets_put_child].
Qed.

(** The version an update answers with is the one it stored. *)
Lemma update_answer_past h m m' s :
  permitted h (UpdateMonitor m) → (∀ m0, h = Some m0 → past_monitor s m0) →
  Ok m' = (serve _ (UpdateMonitor m) s).1 → past_monitor (serve _ (UpdateMonitor m) s).2 m'.
Proof.
  intros Hp Hh Hx.
  destruct (serve_permitted h m s Hp Hh) as [[[e He] _]|(m0 & fs & rv & _ & _ & Hok & Hi & Hs)]; [congruence|].
  rewrite Hok in Hx. injection Hx as ->. split; [done|]. intros m1 Hm1 _.
  rewrite Hs in Hm1. by apply lookup_store_updated_same in Hm1.
Qed.
End ServerLemmas.

(** ** Lemmas: what the reconcilers do *)
Section Workers.
Context {S : Type} `{AS : ApiServer S} `{AL : !ApiServerLaws S}.
Context `{Y : Yaml} `{E : Embedded} `{M : Machinery} `{L : !MachineryLaws}.

Lemma careful_call {X A} h (e : Eff X) (f : X → prog A) :
  permitted h e → (∀ x, careful (next_held h e x) (f x)) → careful h (bind (call e) f).
Proof. by split. Qed.

(** After the finalizer is settled, the protocol has no update of the monitor. *)
Definition updates_over (p : phase) : Prop :=
  match p with PStart _ | PDeleting | PFetched _ => False | _ => True end.

Lemma updates_over_step scrape p en q :
  updates_over p → step scrape p en = Some q →
  updates_over q ∧ match en with @Entry _ e _ => ∀ h, permitted h e end.
Proof.
  intros Hp Hs. destruct en as [X e x].
  destruct e; destruct p; try done; simpl in Hs; unfold on_get_monitor, on_update_monitor, Protocol.guard in Hs;
    repeat (case_match; simplify_eq/=; try done); simplify_eq/=; done.
Qed.

Lemma careful_follows {A} scrape (p : prog A) ph Q h :
  updates_over ph → follows (step scrape) p ph Q → careful h p.
Proof.
  revert ph h. induction p as [a|m|X e k IH]; intros ph h Hph Hf; [done..|].
  pose proof (follows_inv _ e k ph Q Hf) as Hinv. split.
  - destruct (Hinv (some_answer e)) as (q & Hq & _). by apply (updates_over_step _ _ _ _ Hph Hq).
  - intros x. destruct (Hinv x) as (q & Hq & Hk). destruct (updates_over_step _ _ _ _ Hph Hq) as [Hq' _].
    by eapply IH.
Qed.

Lemma reconcile_live_careful r m h : careful h (reconcile_live r m).
Proof.
  eapply (careful_follows (ServiceMonitorEnabled r) _ (PLive (mon_key m))); [done|].
  apply reconcile_live_follows; [done|]. by right.
Qed.

Lemma Reconcile_careful r req : careful None (Reconcile r req).
Proof.
  unfold Reconcile. apply careful_call; [done|]. intros [m|err]; [|by destruct (IsNotFound err)]. simpl.
  destruct (negb (IsZero _)).
  - destruct (ContainsFinalizer _ _); [|done]. apply careful_call; [|by intros []].
    destruct (RemoveFinalizer_spec (mon_ObjectMeta m) finalizerName) as (fs & -> & Hfs).
    exists m, fs. split; [done|]. split; [done|]. intros g Hg. rewrite Hfs. naive_solver.
  - destruct (negb (ContainsFinalizer _ _)); [|apply reconcile_live_careful].
    apply careful_call; [|intros [m'|err]; [apply reconcile_live_careful|done]].
    destruct (AddFinalizer_spec (mon_ObjectMeta m) finalizerName) as (fs & -> & Hfs).
    exists m, fs. split; [done|]. split; [done|]. intros g Hg. rewrite Hfs. naive_solver.
Qed.

Lemma Reconcile_children r req : always applies_children (Reconcile r req) (λ _, True).
Proof.
  unfold always. rewrite wp_runs. intros t o Hr. split; [|done].
  eapply Forall_impl; [apply (Reconcile_owned _ _ _ _ Hr)|]. intros [X e x] Hen. destruct e; try done.
  destruct (Hen eq_refl) as (m & _ & _ & _ & Hkey & _ & _ & ref & Href & Hc & Hk & Hn & _).
  exists (mon_key m). split; [done|]. exists ref. by repeat split.
Qed.

Lemma ReconcileLibrary_writes req : always writes_no_monitor (ReconcileLibrary req) (λ _, True).
Proof.
  unfold ReconcileLibrary.
  eapply (always_bind _ _ _ (λ _, True)); [by apply always_call| |done]. intros [lib|err] _; [|by apply always_ret].
  eapply (always_bind _ _ _ (λ _, True)); [by apply always_call| |done]. intros now _.
  eapply (always_bind _ _ _ (λ _, True)); [by apply always_call| |done]. intros [err|] _; by apply always_ret.
Qed.

(** What a worker holds is past, whatever the answer. *)
Lemma held_past {X} (e : Eff X) (s s' : S) x h :
  well_kept s → permitted h e → (∀ m, h = Some m → past_monitor s m) → answers e s x s' →
  ∀ m, next_held h e x = Some m → past_monitor s' m.
Proof.
  intros Hkept Hp Hh Ha m Hm. pose proof (effect_versioned e s x s' Ha) as Hv.
  assert (∀ m, h = Some m → past_monitor s' m) as Hh'.
  { intros m0 Hm0. eapply past_versioned; [done|by apply Hh]. }
  destruct e; simpl in Hm; try by apply Hh'.
  - destruct x as [m'|err]; [|by apply Hh']. injection Hm as ->.
    destruct (answers_cases _ _ _ _ Ha) as [[Hx ->]|[[? [=]]|[(m0 & [= <-] & _ & Hpast) ->]]]; [|done].
    apply (past_versioned s); [done|]. by eapply stored_past, serve_GetMonitor.
  - destruct x as [m'|err]; [|by apply Hh']. injection Hm as ->.
    destruct (answers_cases _ _ _ _ Ha) as [[Hx ->]|[[? [=]]|[[] _]]].
    by eapply update_answer_past.
Qed.

(** *** The invariant is inductive *)
Lemma children_store_updated m c k : children (store_updated m c) k = children c k.
Proof.
  unfold store_updated. destruct (om_DeletionTimestamp _); [destruct (om_Finalizers _)|]; by destruct k.
Qed.

Lemma serve_children {X} (e : Eff X) (s s' : S) x h kind k (o : obj_of kind) :
  answers e s x s' → applies_children (Entry e x) → permitted h e → (∀ m, h = Some m → past_monitor s m) →
  children (store s') kind !! k = Some o →
  children (store s) kind !! k = Some o ∨ ∃ κ, k = child_key κ kind ∧ child_of κ kind (obj_meta o).
Proof.
  intros Ha Hen Hp Hh Ho. destruct (answers_effect _ _ _ _ Ha) as [->| ->]; [by left|].
  destruct (quiet e) eqn:Hq; [left; by rewrite serve_quiet in Ho|].
  destruct e; try discriminate Hq; clear Hq Ha.
  - left. destruct (serve_permitted h m s Hp Hh) as [[_ Hs]|(m0 & fs & rv & _ & _ & _ & _ & Hs)]; rewrite Hs in Ho; [done|].
    by rewrite children_store_updated in Ho.
  - left. pose proof (serve_UpdateMonitorStatus m s) as Hu. destruct (serve _ _ s) as [y s1]. simpl in Ho.
    destruct Hu as [[_ Hs]|(m0 & rv & _ & _ & Hs)]; rewrite Hs in Ho; [done|]. by rewrite children_put_monitor in Ho.
  - left. pose proof (serve_UpdateLibraryStatus l s) as Hu. destruct (serve _ _ s) as [y s1]. simpl in Ho.
    destruct Hu as [[_ Hs]|(l0 & rv & _ & _ & Hs)]; rewrite Hs in Ho; [done|]. by destruct kind.
  - pose proof (serve_Patch k0 obj owner force s) as Hu. destruct (serve _ _ s) as [y s1]. simpl in Ho.
    destruct Hu as [[_ Hs]|(o' & _ & (Hkey & _ & _ & Hown & _) & _ & Hs)]; rewrite Hs in Ho; [by left|].
    destruct (decide (kind = k0 ∧ k = meta_key (obj_meta o'))) as [[-> ->]|Hne].
    + rewrite children_put_same, lookup_insert_eq in Ho. injection Ho as <-. right.
      destruct Hen as (κ & Hk & ref & Href & Hc). exists κ. split; [by rewrite Hkey|]. exists ref. auto.
    + left. rewrite <- Ho. symmetry. apply children_put_frame. intros -> Hk. by apply Hne.
Qed.

Lemma controlled_owners om om' : om_OwnerReferences om' = om_OwnerReferences om → controlled om' → controlled om.
Proof. unfold controlled. by intros ->. Qed.

Lemma child_of_owners κ kind om om' :
  om_OwnerReferences om' = om_OwnerReferences om → child_of κ kind om → child_of κ kind om'.
Proof. unfold child_of. by intros ->. Qed.

Lemma trusted_versioned (s s' : S) p : versioned s s' → trusted s p → trusted s' p.
Proof. intros Hv (h & Hc & Hh & Ha). exists h. split_and!; [done| |done]. intros m Hm. eapply past_versioned; eauto. Qed.

Lemma trusted_call {X} (e : Eff X) (k : X → worker) (s s' : S) x :
  well_kept s → trusted s (Call e k) → answers e s x s' →
  trusted s' (k x) ∧ applies_children (Entry e x) ∧
  ∃ h, permitted h e ∧ ∀ m, h = Some m → past_monitor s m.
Proof.
  intros Hk (h & [Hp Hc] & Hh & Ha) Hans. destruct (always_inv _ _ _ _ Ha x) as [Hen Hrest].
  split; [|split; [done|by exists h]]. exists (next_held h e x). split; [done|]. split; [|done]. by eapply held_past.
Qed.

Lemma library_call {X} (e : Eff X) x :
  writes_no_monitor (Entry e x) → applies_children (Entry e x) ∧ permitted None e.
Proof. by destruct e. Qed.

Lemma sound_operator r (σ σ' : System) : sound σ → operator_step r σ σ' → sound σ'.
Proof.
  intros [Hk Hm Hl Hc] Hstep. destruct Hstep as [s l req|s w req|s l X e k x s' Ha|s w X e k x s' Ha|s l a|s w a|s w l];
    simpl in *.
  - split; simpl; [done| |done|done]. intros w [= <-]. exists None. split_and!; [apply Reconcile_careful|done|apply Reconcile_children].
  - split; simpl; [done|done| |done]. intros w' [= <-]. apply ReconcileLibrary_writes.
  - destruct (trusted_call e k s s' x Hk (Hm _ eq_refl) Ha) as (Ht & Hen & h & Hp & Hh).
    split; simpl; [by eapply well_kept_versioned, Hk; eapply effect_versioned|by intros w [= <-]|done|].
    intros kind key o Ho Hct. destruct (serve_children _ _ _ _ _ _ _ _ Ha Hen Hp Hh Ho); [by apply Hc|done].
  - destruct (always_inv _ _ _ _ (Hl _ eq_refl) x) as [Hen Hrest].
    destruct (library_call e x Hen) as [Hch Hp].
    split; simpl; [by eapply well_kept_versioned, Hk; eapply effect_versioned| |by intros w' [= <-]|].
    + intros w' Hw. eapply trusted_versioned; [by eapply effect_versioned|by apply Hm].
    + intros kind key o Ho Hct. destruct (serve_children _ _ _ _ None _ _ _ Ha Hch Hp ltac:(done) Ho); [by apply Hc|done].
  - by split.
  - by split.
  - by split.
Qed.

Lemma sound_step r (σ σ' : System) : sound σ → sys_step r σ σ' → sound σ'.
Proof.
  intros Hs Hstep. destruct Hstep as [σ1 σ2 Hop|s s' w l Henv]; [by eapply sound_operator|]. destruct Hs as [Hk Hm Hl Hc], Henv as [Hv Hch]. simpl in *.
  split; simpl; [by apply (well_kept_versioned s)| |done|].
  - intros w' Hw. eapply trusted_versioned; [done|by apply Hm].
  - intros kind key o Ho Hct. destruct (Hch _ _ _ Ho) as [(o0 & Ho0 & Hown)|]; [|done].
    destruct (Hc _ _ _ Ho0) as (κ & -> & Hown'); [by eapply controlled_owners|]. exists κ. split; [done|]. by eapply child_of_owners.
Qed.

Lemma sound_steps r (σ σ' : System) : rtc (sys_step r) σ σ' → sound σ → sound σ'.
Proof. induction 1; eauto using sound_step. Qed.

Lemma reachable_sound r (σ : System) : reachable r σ → sound σ.
Proof.
  intros (σ0 & (Hk & Hnone & Hm & Hl) & Hsteps). eapply sound_steps; [done|].
  split; [done|by rewrite Hm|by rewrite Hl|]. intros kind k o Ho Hct. by destruct (Hnone _ _ _ Ho).
Qed.
End Workers.

(** A reconciliation that nothing disturbs is an execution of the system. *)
Section Undisturbed.
Context {S : Type} `{AS : ApiServer S}.
Context `{Y : Yaml} `{E : Embedded} `{M : Machinery} (r : PgpilotMonitorReconciler).

Lemma undisturbed_monitor (p : worker) (s s' : S) l t a :
  interp serve p s = (t, Done a, s') →
  rtc (operator_step r) (mkSystem s (Some p) l) (mkSystem s' None l).
Proof.
  revert s t. induction p as [b|m|X e k IH]; intros s t; simpl.
  - intros [= _ _ <-]. apply rtc_once. constructor.
  - done.
  - destruct (serve X e s) as [x s1] eqn:Hs. destruct (interp serve (k x) s1) as [[t' o] s2] eqn:Hi.
    intros [= _ -> ->]. eapply rtc_l; [apply step_call_monitor|by eapply IH].
    pose proof (answer_served e s) as Ha. rewrite Hs in Ha. exact Ha.
Qed.

Lemma undisturbed_reconcile req (s s' : S) l t a :
  interp serve (Reconcile r req) s = (t, Done a, s') →
  rtc (operator_step r) (mkSystem s None l) (mkSystem s' None l).
Proof.
  intros Hi. eapply rtc_l; [apply (step_take_monitor r s l req)|by eapply undisturbed_monitor].
Qed.
End Undisturbed.

(** ** Properties *)
Section Properties.
Context {S : Type} `{AS : ApiServer S} `{AL : !ApiServerLaws S}.
Context `{Y : Yaml} `{E : Embedded} `{M : Machinery} `{L : !MachineryLaws}.

(** C3 The operator never overwrites what users do, however its calls
    interleave with their changes, with those of other controllers and with its
    other controller, whether calls fail before or after taking effect, reads
    are stale, or it crashes: from any reachable state, one step of the operator
    creates no monitor, changes of a monitor at most its status, its version
    and the operator's own finalizer, removes a monitor only when that is under
    deletion and no other finalizer is left, changes of a library at most its
    status and version, and leaves Secrets alone. *)
Theorem operator_spares_users r (σ σ' : System) :
  reachable r σ → operator_step r σ σ' →
  spares (store (sys_server σ)) (store (sys_server σ')).
Proof.
  intros Hr Hstep. apply reachable_sound in Hr as [Hk Hm Hl _].
  destruct Hstep as [s l req|s w req|s l X e k x s' Ha|s w X e k x s' Ha|s l a|s w a|s w l]; simpl in *;
    try apply spares_refl; destruct (answers_effect _ _ _ _ Ha) as [->| ->]; try apply spares_refl.
  - destruct (trusted_call e k s _ x Hk (Hm _ eq_refl) Ha) as (_ & _ & h & Hp & Hh). by eapply serve_spares.
  - destruct (always_inv _ _ _ _ (Hl _ eq_refl) x) as [Hen _]. destruct (library_call e x Hen) as [_ Hp].
    by eapply (serve_spares e s None).
Qed.

(** C5 Every child in the cluster has its place and its owner, in every
    reachable state: a ConfigMap, Deployment, Service or ServiceMonitor that a
    monitor controls is stored under the name of its kind for exactly one
    monitor key, and carries a controller reference to a monitor of that name. *)
Theorem children_belong r (σ : System) kind k (o : obj_of kind) :
  reachable r σ → children (store (sys_server σ)) kind !! k = Some o → controlled (obj_meta o) →
  ∃ κ, k = child_key κ kind ∧ child_of κ kind (obj_meta o) ∧ ∀ κ', k = child_key κ' kind → κ' = κ.
Proof.
  intros Hr Ho Hct. apply reachable_sound in Hr as [_ _ _ Hc]. destruct (Hc _ _ _ Ho Hct) as (κ & -> & Hch).
  exists κ. split; [done|]. split; [done|]. intros κ' Hk. by apply (child_key_inj κ' κ kind).
Qed.

End Properties.

(** ** A concrete execution *)
Definition fx_start : System (S := Memory) := mkSystem fx_server None None.

Lemma fx_start_initial : initial fx_start.
Proof.
  split; [|split; [by intros [] k o Ho|done]]. split.
  - assert (map_Forall (λ k m, mon_key m = k ∧ om_ResourceVersion (mon_ObjectMeta m) = "7") (cl_monitors (mem_cluster fx_server)))
      as Hall by (apply (bool_decide_unpack _); vm_compute; exact I).
    intros k m Hm. destruct (Hall k m Hm) as [Hk Hv]. split; [exact Hk|]. exists 7. split; [vm_compute; reflexivity|exact Hv].
  - assert (map_Forall (λ k l, lib_key l = k) (cl_libraries (mem_cluster fx_server))) as Hall
      by (apply (bool_decide_unpack _); vm_compute; exact I).
    exact Hall.
Qed.

(** The server after one undisturbed reconciliation. *)
Definition fx_after : Memory := (fx_run fx_server fx_inline).2.

Lemma fx_after_reachable : reachable (mkReconciler true) (mkSystem fx_after None None).
Proof.
  exists fx_start. split; [exact fx_start_initial|].
  assert (∃ a, (fx_run fx_server fx_inline).1.2 = Done a) as [a Ha] by (eexists; vm_compute; reflexivity).
  eapply rtc_subrel; [intros ? ?; apply by_operator|].
  apply (undisturbed_reconcile _ (mon_key fx_inline) _ _ _ (fx_run fx_server fx_inline).1.1 a).
  change (serve (S := Memory)) with mem_serve. unfold fx_after. rewrite <- Ha. unfold fx_run. by destruct (interp _ _ _) as [[? ?] ?].
Qed.

Lemma operator_spares_users_witness :
  reachable (mkReconciler true) (mkSystem fx_after (Some (Reconcile (mkReconciler true) (mon_key fx_deleting))) None) ∧
  ∃ s' w', spares (mem_cluster fx_after) (mem_cluster s') ∧
    operator_step (mkReconciler true)
      (mkSystem fx_after (Some (Reconcile (mkReconciler true) (mon_key fx_deleting))) None) (mkSystem s' (Some w') None).
Proof.
  assert (reachable (mkReconciler true) (mkSystem fx_after (Some (Reconcile (mkReconciler true) (mon_key fx_deleting))) None)) as Hr.
  { destruct fx_after_reachable as (σ0 & H0 & Hs). exists σ0. split; [exact H0|].
    eapply rtc_r; [exact Hs|]. apply by_operator, step_take_monitor. }
  split; [exact Hr|]. do 2 eexists.
  match goal with |- ?A ∧ ?B => assert B as Hstep end.
  { eapply (step_call_monitor (mkReconciler true) fx_after None _ (GetMonitor (mon_key fx_deleting))), answer_served. }
  split; [|exact Hstep]. exact (operator_spares_users (mkReconciler true) _ _ Hr Hstep).
Defined.

Lemma children_belong_witness :
  ∃ k (o : obj_of KDeployment), children (mem_cluster fx_after) KDeployment !! k = Some o ∧
    ∃ κ, k = child_key κ KDeployment ∧ child_of κ KDeployment (obj_meta o).
Proof.
  destruct (map_to_list (cl_deployments (mem_cluster fx_after))) as [|[k o] l] eqn:Hl; [vm_compute in Hl; discriminate Hl|].
  assert (children (mem_cluster fx_after) KDeployment !! k = Some o) as Ho.
  { apply elem_of_map_to_list. change (children (mem_cluster fx_after) KDeployment) with (cl_deployments (mem_cluster fx_after)).
    rewrite Hl. apply list_elem_of_here. }
  exists k, o. split; [exact Ho|].
  assert (map_Forall (λ _ d, existsb (λ ref, or_Controller ref && bool_decide (or_Kind ref = "PgpilotMonitor"))
    (om_OwnerReferences (d_ObjectMeta d)) = true) (cl_deployments (mem_cluster fx_after))) as Hall
    by (apply (bool_decide_unpack _); vm_compute; exact I).
  assert (controlled (obj_meta (k := KDeployment) o)) as Hct.
  { specialize (Hall k o Ho). apply existsb_exists in Hall as (ref & Hin & [Hc Hk]%andb_true_iff).
    exists ref. split; [by apply list_elem_of_In|]. split; [exact Hc|]. by apply bool_decide_eq_true in Hk. }
  destruct (children_belong (mkReconciler true) (mkSystem fx_after None None) KDeployment k o fx_after_reachable Ho Hct) as (κ & Hk & Hc & _).
  exists κ. split; [exact Hk|exact Hc].
Defined.
