(* ===== verification/Termination.v ===== *)
(** How long a reconciliation can take: a bound on the API calls of every run,
    whatever the answers. *)
From S2P Require Import Prelude GoStd Kube Api Fixtures Metrics ConfigMap Deployment Prog Machinery ApiServer.
From S2P Require Import MonitorController Protocol MonitorSpec LibraryController.
From Stdlib Require Import ZArith.
Open Scope nat_scope.

(** Every run makes at most [n] calls, and ends as [R] says. *)
Definition within {A} (n : nat) (p : prog A) (R : outcome A → Prop) : Prop :=
  wp p (λ t o, length t ≤ n ∧ R o).

Section Rules.
Context {A B : Type}.

Lemma within_ret n (a : A) (R : outcome A → Prop) : R (Done a) → within n (Ret a) R.
Proof. intros HR. split; [simpl; lia|done]. Qed.

Lemma within_bind n1 n2 n (p : prog A) (f : A → prog B) R (R' : outcome B → Prop) :
  n1 + n2 ≤ n → within n1 p R → (∀ a, R (Done a) → within n2 (f a) R') → (∀ m, R (Panicked m) → R' (Panicked m)) →
  within n (bind p f) R'.
Proof.
  intros Hn Hp Hf Hm. apply wp_bind. eapply wp_mono; [|exact Hp]. intros t [a|m] [Ht HR]; [|split; [lia|by apply Hm]].
  eapply wp_mono; [|by apply Hf]. intros t' o' [Ht' HR']. rewrite length_app. split; [lia|done].
Qed.

Lemma within_weaken n n' (p : prog A) R : n ≤ n' → within n p R → within n' p R.
Proof. intros Hn. apply wp_mono. intros t o [? ?]. split; [lia|done]. Qed.
End Rules.

Definition whatever {A} (o : outcome A) : Prop := True.

Lemma within_call {X} (e : Eff X) : within 1 (call e) whatever.
Proof. by intros x. Qed.

(** Sequencing. *)
Lemma within_seq {A B} n1 n2 n (p : prog A) (f : A → prog B) :
  n1 + n2 ≤ n → within n1 p whatever → (∀ a, within n2 (f a) whatever) → within n (bind p f) whatever.
Proof. intros Hn Hp Hf. eapply within_bind; [exact Hn|exact Hp|by intros|done]. Qed.

Lemma within_done {A} n (a : A) : within n (Ret a) whatever.
Proof. by apply within_ret. Qed.

Create HintDb within.
#[export] Hint Resolve within_call within_done : within.

Ltac seq n1 n2 := apply (within_seq n1 n2); [lia|eauto with within|].

Section Bounds.
Context `{Y : Yaml} `{E : Embedded} `{M : Machinery} `{L : !MachineryLaws}.

Lemma setCondition_within ty st re ms m : within 1 (setCondition ty st re ms m) whatever.
Proof. unfold setCondition. seq 1 0. intros. apply within_done. Qed.
Lemma event_within m ty re ms : within 1 (event m ty re ms) whatever.
Proof. apply within_call. Qed.
Hint Resolve setCondition_within event_within : within.

Lemma retry_within c n last fn k : within k fn whatever → within (n * k) (retry_loop c n last fn) whatever.
Proof.
  intros Hfn. revert last. induction n as [|n IH]; intros last; [apply within_done|].
  cbn [retry_loop Nat.mul]. seq k (n * k). intros [e|]; [destruct (c e)|]; auto with within.
Qed.

(** Five attempts of a read and a write. *)
Lemma patchStatus_within m : within 10 (patchStatus m) whatever.
Proof.
  unfold patchStatus. rewrite RetryOnConflict_spec. apply (retry_within _ 5 _ _ 2).
  unfold patchStatus_once. seq 1 1. intros [l|e]; auto with within.
Qed.
Hint Resolve patchStatus_within : within.

Lemma lift_within {A} (o : outcome A) : within 0 (lift o) whatever.
Proof. by destruct o. Qed.
Hint Resolve lift_within : within.

(** The monitor it returns is the one it got, but for the status. *)
Lemma validateCredentials_within m :
  within 14 (validateCredentials m) (λ o, ∀ m' res ok, o = Done (m', res, ok) → same_object m m').
Proof.
  assert (∀ n ty st re ms m0 {A} (f : PgpilotMonitor → prog A) R,
    (∀ m1, same_object m0 m1 → within n (f m1) R) → within (S n) (bind (setCondition ty st re ms m0) f) R) as Hset.
  { intros n ty st re ms m0 A f R Hf. apply (within_bind 1 n _ _ _ (λ o, ∃ m1, o = Done m1 ∧ same_object m0 m1)); [lia| | |].
    - intros now. split; [done|]. by eexists.
    - intros a (m1 & [= <-] & Hm). by apply Hf.
    - by intros ? (? & ? & _). }
  assert (∀ n m0 (r : Result * bool), same_object m m0 →
    within n (Ret (m0, r.1, r.2)) (λ o, ∀ m' res ok, o = Done (m', res, ok) → same_object m m')) as Hret.
  { intros n m0 r Hm. apply within_ret. by intros ? ? ? [= <- _ _]. }
  assert (∀ m0 (res : Result), same_object m m0 →
    within 10 (run _ := patchStatus m0 in Ret (m0, res, false))%prog (λ o, ∀ m' res ok, o = Done (m', res, ok) → same_object m m')) as Hrep.
  { intros m0 res Hm. apply (within_bind 10 0 _ _ _ whatever); [lia|apply patchStatus_within| |done].
    intros _ _. apply (Hret _ _ (res, false) Hm). }
  unfold validateCredentials. destruct (has_inline _).
  - apply (within_weaken 1); [lia|]. apply Hset. intros m1 Hm. apply (Hret _ _ (noRequeue, true) Hm).
  - destruct (db_CredentialsSecret _) as [ref|].
    + apply (within_bind 1 13 _ _ _ whatever); [lia|apply within_call| |done]. intros [sec|err] _.
      * apply (within_weaken 1); [lia|]. apply Hset. intros m1 Hm. apply (Hret _ _ (noRequeue, true) Hm).
      * apply Hset. intros m1 H1. apply Hset. intros m2 H2.
        apply (within_bind 1 10 _ _ _ whatever); [lia|apply event_within| |done]. intros _ _. apply Hrep. by transitivity m1.
    + apply (within_weaken 11); [lia|]. apply Hset. intros m1 Hm. by apply Hrep.
Qed.

Lemma resolve_refs_within ns refs libs : within (length refs) (resolve_refs ns refs libs) whatever.
Proof.
  revert libs. induction refs as [|ref refs IH]; intros libs; [apply within_done|].
  cbn [resolve_refs length]. seq 1 (length refs). intros [lib|err]; [apply IH|apply within_done].
Qed.

Lemma apply_child_within {k} m what (obj : obj_of k) : within 1 (apply_child m what obj) whatever.
Proof.
  unfold apply_child. destruct (SetControllerReference _ _) as [om|err]; [|apply within_done].
  unfold serverSideApply. seq 1 0. auto with within.
Qed.
Hint Resolve resolve_refs_within apply_child_within : within.

Lemma observe_status_within m dep : within 15 (observe_status m dep) whatever.
Proof.
  unfold observe_status. seq 1 14. intros [d|err]; [|auto with within]. seq 1 13. intros now. seq 2 11.
  { destruct (0 <? _)%Z; (seq 1 1; intros m1; apply (within_seq 1 0); [lia|case_match; auto with within|intros; auto with within]). }
  intros m2. seq 1 10. intros pods. seq 10 0. intros [e|]; [|case_match]; auto with within.
Qed.
Hint Resolve observe_status_within : within.

Lemma apply_workload_within r m merged h : within 18 (apply_workload r m merged h) whatever.
Proof.
  unfold apply_workload. seq 0 18. intros dep. seq 1 17. intros [d|e]; [|auto with within].
  seq 1 16. intros [s|e]; [|auto with within]. destruct (ServiceMonitorEnabled r).
  - seq 1 15. intros [sm|e]; auto with within.
  - eapply within_weaken; [|apply observe_status_within]. lia.
Qed.
Hint Resolve apply_workload_within : within.

Lemma apply_config_within r m libs : within 23 (apply_config r m libs) whatever.
Proof.
  unfold apply_config. seq 1 22. intros o1. seq 1 21. intros o2. destruct (BuildConfigMap _ _ _) as [[cm h]|e]; [|auto with within].
  seq 1 20. intros [d|e]; [|auto with within]. seq 0 20. intros short. seq 1 19. intros m1. seq 1 18.
  { case_match; [seq 1 0; intros|]; auto with within. }
  intros m2. apply apply_workload_within.
Qed.
Hint Resolve apply_config_within : within.

Lemma reconcile_live_within r m :
  within (25 + length (ms_FromLibraries (spec_Metrics (mon_Spec m)))) (reconcile_live r m) whatever.
Proof.
  unfold within. rewrite wp_runs. unfold reconcile_live. intros t o [(? & Hv & ->)|(t1 & t2 & [[m' res] ok] & -> & Hv & Hr)]%runs_bind.
  { exfalso. pose proof (validateCredentials_runs m t _ Hv) as Hcases. naive_solver. }
  split; [|done]. rewrite length_app. pose proof (validateCredentials_within m) as Hw. unfold within in Hw.
  rewrite wp_runs in Hw. destruct (Hw _ _ Hv) as [Hlen Hsame]. specialize (Hsame _ _ _ eq_refl) as [_ Hspec].
  destruct ok; simpl in Hr; [|destruct Hr as [-> _]; simpl; lia].
  assert (length t1 ≤ 2) as H1.
  { destruct (validateCredentials_runs m t1 _ Hv) as [(? & ? & -> & _)|[(_ & ? & _ & [(? & ? & ? & -> & _)|(? & ? & ? & _ & ? & _)])|(_ & _ & ? & ? & _)]];
      simpl; try lia; done. }
  assert (within (length (ms_FromLibraries (spec_Metrics (mon_Spec m))) + 23)
    (run libs := resolveLibraries m' in match libs with
       | Err err => run monitor := setCondition "Ready" ConditionFalse "LibraryResolveFailed" (Error err) m' in
           run _ := event monitor EventTypeWarning "LibraryResolveFailed" ("Failed to resolve metric libraries: " +:+ Error err) in
           run _ := patchStatus monitor in Ret (requeue_after 30, None)
       | Ok libraries => apply_config r m' libraries end)%prog whatever) as Hrest.
  { rewrite <- Hspec. seq (length (ms_FromLibraries (spec_Metrics (mon_Spec m')))) 23.
    intros [libs|err]; [auto with within|]. seq 1 22. intros m1. seq 1 21. intros _. seq 10 0. intros. apply within_done. }
  unfold within in Hrest. rewrite wp_runs in Hrest. destruct (Hrest _ _ Hr) as [Hl _]. lia.
Qed.

(** C10 Every reconciliation ends, after a bounded number of calls, whatever the
    API server answers: it never panics, and makes at most 27 calls plus one
    for each library its monitor references; at most one when the monitor
    cannot be fetched. *)
Theorem reconcile_bounded r req t o :
  runs (Reconcile r req) t o →
  (∃ res, o = Done res) ∧
  length t ≤ match subject t with
             | Some m => 27 + length (ms_FromLibraries (spec_Metrics (mon_Spec m)))
             | None => 1
             end.
Proof.
  intros Hr. split.
  { pose proof (Reconcile_follows _ r req eq_refl) as Hf. unfold follows in Hf. rewrite wp_runs in Hf.
    destruct (Hf _ _ Hr) as (q & _ & Hv). destruct o as [res|]; [by exists res|done]. }
  assert (∀ m t, runs (reconcile_live r m) t o →
    length t ≤ 25 + length (ms_FromLibraries (spec_Metrics (mon_Spec m)))) as Hlive.
  { intros m t' Hr'. pose proof (reconcile_live_within r m) as Hw. unfold within in Hw. rewrite wp_runs in Hw.
    by destruct (Hw _ _ Hr'). }
  unfold Reconcile in Hr. apply runs_call_bind in Hr as (got & t' & -> & Hr). rewrite bind_ret_l in Hr.
  destruct got as [m|err]; [|destruct (IsNotFound err); destruct Hr as [-> _]; simpl; lia].
  destruct (negb (IsZero _)).
  { destruct (ContainsFinalizer _ _); [|destruct Hr as [-> _]; simpl; lia].
    apply runs_call_bind in Hr as ([]& t2 & -> & -> & _); simpl; lia. }
  destruct (negb (ContainsFinalizer _ _)).
  - apply runs_call_bind in Hr as ([m'|err] & t2 & -> & Hr); [|destruct Hr as [-> _]; simpl; lia].
    rewrite bind_ret_l in Hr. unfold subject. simpl. specialize (Hlive m' t2 Hr). lia.
  - unfold subject. simpl. rewrite (reconcile_live_no_update _ _ _ _ Hr). specialize (Hlive m t' Hr). simpl. lia.
Qed.
End Bounds.

(** The bound at work: one library, inline override, Secret found. *)
Lemma reconcile_bounded_witness :
  (∃ res, (fx_run fx_server fx_monitor).1.2 = Done res) ∧ length (fx_run fx_server fx_monitor).1.1 ≤ 28.
Proof.
  destruct (reconcile_bounded (mkReconciler true) (mon_key fx_monitor) _ _ (fx_run_runs fx_server fx_monitor)) as [Hd Hl].
  split; [exact Hd|]. vm_compute in Hl. vm_compute. exact Hl.
Defined.
